(* ===== verification/_CoqProject ===== *)
-Q . S2P
Prelude.v
Bitmap.v
Iova.v
PageTable.v
DList.v
Usdm.v
UsdmSys.v
Ring.v
RingSys.v
Transport.v
Pfvf.v
Checksum.v
DcFormat.v
MemPool.v
PoolSys.v
Buffers.v
DcSession.v
DcData.v
DcRequest.v
DcSys.v
SymQueue.v
SymSys.v
