(* ===== verification/Prelude.v ===== *)
(** * Verification of the user-space QuickAssist library (qatlib)

    The library lets a process use QAT accelerators: the memory driver hands out memory
    that the device can reach, the transport layer exchanges requests and responses with the
    device over rings in such memory, and the service layer builds the requests for
    compression and cryptography from blocks of memory pools.  The development models the
    parts below; the paths are under [src/quickassist].

    ** Memory driver ([utilities/libusdm_drv])

    - [Bitmap]: the blocks of 1 KB of a 2 MB slab ([__qae_mem_alloc], [__qae_mem_free] and
      the bitmap helpers).  The windowed search is a first-fit search; allocations are
      aligned, inside the slab and apart; a free undoes its allocation.
    - [Iova]: the bitmap of I/O addresses ([allocate_iova], [iova_reserve], [iova_release],
      [filter_range]).  A range is reserved as a whole or not at all, live ranges are
      disjoint.
    - [PageTable]: the table from virtual to I/O addresses ([store_mmap_range], [load_addr],
      [load_key], [free_page_table]).  What is stored is found again and nothing else
      changes; freeing returns every page that was taken.
    - [DList]: the linked-list macros on a store of pointers refine operations on lists,
      also when several lists share the store.
    - [Usdm], [UsdmSys]: slabs, their lists, hash table and cache ([qaeMemAllocNUMA],
      [qaeMemFreeNUMA], [qaeVirtToPhysNUMA], [qaeMemInit], [qaeMemDestroy]) and the
      registering of VFIO containers.  [Usdm] has the state (a record [usdm]), the calls
      and their lemmas on the calls of the four files above; [UsdmSys] lets a process make
      the calls in any order ([usdm_step], [usdm_reachable]).  As long as the system has what
      the calls need ([supplied]), in every state it reaches two live
      allocations share no byte and no I/O address, and each is mapped for the device where
      the translation says.

    ** Transport ([lookaside/access_layer/src/qat_direct])

    - [Ring]: a request or response ring in memory, its registers, set-up, put and poll
      ([adf_user_ring.c], [adf_user_ETring_mgr_dp.c], the platform headers).  What each call
      does, on every branch.
    - [RingSys]: a pair of rings between driver and device as a step relation.  No slot in
      use is overwritten, both rings are first in, first out, and the counter of requests in
      flight is exact, in every reachable state.
    - [Transport]: handles, banks and polling by ring, bank and device
      ([adf_user_transport_ctrl.c]).  Release undoes creation, a creation that fails leaves
      nothing behind but, in one case, the memory of a ring without a physical address, one
      thread polls a ring at a time.
    - [Pfvf]: the messages with which the library asks the host's driver what the device can
      do ([vfio/adf_pfvf_proto.c], [adf_pfvf_vf_msg.c]).  A block message gets across
      unchanged when the host follows the protocol; whatever the host does, the calls end
      and keep to the caller's buffer, and only known messages are sent.

    ** Service layer ([lookaside/access_layer/src/common])

    - [MemPool], [PoolSys]: the memory pools and their lock-free stack
      ([utils/lac_mem_pools.c], [utils/lac_lock_free_stack.h]).  [MemPool] has the calls as
      one thread makes them, [PoolSys] the steps of any number of threads.  Every interleaving
      is one of an atomic pool, some operation always makes progress, and creation, use and
      destruction balance.
    - [Checksum]: CRC-32, CRC-64 and xxHash-32 in software ([compression/dc_crc*.c],
      [dc_xxhash32.c]).  The tables compute the bit-serial CRCs, over any split into
      buffers, and every burst error up to 32 bits is detected.
    - [DcFormat]: headers and footers of gzip, zlib and LZ4 streams
      ([compression/dc_*header_footer*.c]).  A reader of the format gets back what the
      session says.
    - [Buffers]: buffer lists ([utils/lac_buffer_desc.c]) and the sizes of metadata and
      destination buffers ([compression/dc_buffers.c]).  The descriptors tell the device the
      client's buffers and stay inside the metadata, offsets find the bytes of the
      concatenated buffers, the sizes do not wrap.
    - [DcSession], [DcData], [DcRequest], [DcSys]: compression sessions and their requests
      ([compression/dc_session.c], [dc_datapath.c] and the headers they use).  [DcSession]
      has the checks and the set-up of a session, its update, reset and removal, [DcData] the
      path of a request to the device and of its response back, [DcRequest] the theorems on
      the messages, [DcSys] a session with clients and a device that work in any
      order, and with removals that are refused.  A session that is set up is consistent with the client's data, the message
      tells the device what the client asked for, results with an integrity error are
      reported, and the counters of pending requests are exact.
    - [SymQueue], [SymSys]: the requests of a symmetric session ([crypto/sym/lac_sym_queue.c],
      [lac_sym_cb.c], [lac_sym_partial.c]), with the queue of those that wait for a partial
      request.  [SymQueue] has the calls, with the vector and the flags that the message of a
      request has for it, [SymSys] a session with a client and a device that work in any order,
      one call at a time.  As long as the rings take messages before the attempts to put them
      run out ([patient_act]), requests are sent once and in order, the cipher state goes from
      each partial to the next through the session's buffer, no cookie is lost but those of
      single-pass requests without their additional data, a session whose device makes no
      errors drains, and one with a failed partial does not.

    ** Conventions

    A C integer is a [Z]; wherever the source can wrap around, the wrap is written out
    ([u8], [u16], [u32], [u64], [s32]).  An array is a list ([l.[i]], [l.[i <- v]]), memory
    behind pointers a finite map from addresses, a struct a record with the names of its
    fields, an error path a status code in the result.  State is passed explicitly.  Code
    that is not in the repository (system calls, the allocators of the C library, the
    device) is an argument of the definitions: a function, an oracle with what it will
    return, or a step of the environment, and what is assumed of it is a hypothesis of the
    theorem.  Code with parameter checks is modelled with [ICP_PARAM_CHECK], and
    [LAC_SPINLOCK] is the mutex it is by default.  Constants have the names of the source.
    Accesses of several threads are sequentially consistent.

    Loops are structural where the source counts; the others take fuel, and what is proved
    of them includes that the fuel suffices: the search of [Bitmap] has at most one step per
    block and word, the polls of [Ring] one per slot, the shutdown loops of [Usdm] one per
    slab, the clean-up of [MemPool] one per block in memory, the draining of the queue of
    [SymQueue] one per cookie in use.  Counters are bounded where it matters: the counter of
    the lock-free stack has 64 bits, and the theorems of [PoolSys] hold for runs of less than
    2 ^ 64 steps.

    ** What is not modelled

    The data-plane, sessionless and chained variants of compression, the set-up of symmetric
    sessions and the other parts of their messages, the interleaving of several threads in the
    calls of one symmetric session, asymmetric cryptography, the resource manager
    ([utilities/qat_mgr]), the OS abstraction layer, the kernel drivers, the variant of the
    memory driver with thread-specific data, huge pages, the assembly variants of the CRC
    loops, the sample code, and the prototypes and benchmarks beside the library. *)

From stdpp Require Export prelude list gmap.
From Stdlib Require Export ZArith Lia Btauto.

#[global] Open Scope Z_scope.

(** * Machine integers

    A C integer is a [Z]; where the source can wrap around, the wrap is written
    out with one of the following. *)
Definition u8 (z : Z) : Z := z mod 2 ^ 8.
Definition u16 (z : Z) : Z := z mod 2 ^ 16.
Definition u32 (z : Z) : Z := z mod 2 ^ 32.
Definition u64 (z : Z) : Z := z mod 2 ^ 64.

(** The value of an [int] expression of 32 bits read back as signed. *)
Definition s32 (z : Z) : Z := (z + 2 ^ 31) mod 2 ^ 32 - 2 ^ 31.

(** Bitwise complement at a given width. *)
Definition not32 (z : Z) : Z := u32 (Z.lnot z).
Definition not64 (z : Z) : Z := u64 (Z.lnot z).

(** * Status codes of the API ([cpa.h]) and error numbers ([errno.h]) *)
Definition CPA_STATUS_SUCCESS : Z := 0.
Definition CPA_STATUS_FAIL : Z := -1.
Definition CPA_STATUS_RETRY : Z := -2.
Definition CPA_STATUS_RESOURCE : Z := -3.
Definition CPA_STATUS_INVALID_PARAM : Z := -4.
Definition CPA_STATUS_FATAL : Z := -5.
Definition CPA_STATUS_UNSUPPORTED : Z := -6.
Definition CPA_STATUS_RESTARTING : Z := -7.

Definition EINTR : Z := 4.
Definition EIO : Z := 5.
Definition ENOMEM : Z := 12.
Definition EBUSY : Z := 16.
Definition EINVAL : Z := 22.
Definition EL2HLT : Z := 51.

(** * Arrays

    A C array of integers is a list; [arr_get] reads an element and [arr_set]
    writes one.  The definitions of the development only index inside the array;
    outside it, [arr_get] is 0 and [arr_set] changes nothing. *)
Definition arr_get (l : list Z) (i : Z) : Z := nth (Z.to_nat i) l 0.
Definition arr_set (l : list Z) (i v : Z) : list Z := <[Z.to_nat i := v]> l.

(** The length of an array, as an integer. *)
Abbreviation len l := (Z.of_nat (length l)).

Declare Scope qat_scope.
Delimit Scope qat_scope with qat.
Notation "l .[ i ]" := (arr_get l i)
  (at level 1, left associativity, format "l .[ i ]") : qat_scope.
Notation "l .[ i <- v ]" := (arr_set l i v)
  (at level 1, left associativity, format "l .[ i  <-  v ]") : qat_scope.
#[global] Open Scope qat_scope.

(** * Record update

    [r <| f := v |>] is [r] with field [f] changed.  A record type declares its
    eta expansion once, as an instance of [Eta]; the update functions of its
    fields are derived from it. *)
Class Eta (R : Type) := eta : R -> R.
Class Upd {R T : Type} (f : R -> T) := upd : (T -> T) -> R -> R.
Arguments upd {R T} f {_} h r /.

Ltac derive_upd f :=
  lazymatch type of f with
  | ?R -> _ =>
      let e := constr:(_ : Eta R) in
      let e := eval hnf in e in
      match eval pattern f in e with
      | ?g _ => exact (fun h => g (fun r => h (f r)))
      end
  end.
#[global] Hint Extern 0 (Upd ?f) => derive_upd f : typeclass_instances.

Notation "r <| f := v |>" := (upd f (fun _ => v) r)
  (at level 1, left associativity, f at level 9, v at level 99,
   format "r  <|  f  :=  v  |>") : qat_scope.

(** * Automation *)
Create HintDb qat discriminated.
Create Rewrite HintDb bits.
Create Rewrite HintDb qatrw.

(** Split the boolean tests of the code into the arithmetic facts they decide. *)
Ltac breflect :=
  repeat match goal with
  | H : (_ && _)%bool = true |- _ => apply andb_true_iff in H as [? ?]
  | H : (_ && _)%bool = false |- _ => apply andb_false_iff in H
  | H : (_ || _)%bool = true |- _ => apply orb_true_iff in H
  | H : (_ || _)%bool = false |- _ => apply orb_false_iff in H as [? ?]
  | H : negb _ = true |- _ => apply negb_true_iff in H
  | H : negb _ = false |- _ => apply negb_false_iff in H
  | H : (_ <=? _) = true |- _ => apply Z.leb_le in H
  | H : (_ <=? _) = false |- _ => apply Z.leb_gt in H
  | H : (_ <? _) = true |- _ => apply Z.ltb_lt in H
  | H : (_ <? _) = false |- _ => apply Z.ltb_ge in H
  | H : (_ =? _) = true |- _ => apply Z.eqb_eq in H
  | H : (_ =? _) = false |- _ => apply Z.eqb_neq in H
  | H : (_ >? _) = _ |- _ => rewrite Z.gtb_ltb in H
  | H : (_ >=? _) = _ |- _ => rewrite Z.geb_leb in H
  end.

(** Case analysis on the first test of the goal (or of a hypothesis). *)
Ltac case_if :=
  match goal with
  | |- context [if ?b then _ else _] =>
      match type of b with bool => let E := fresh "E" in destruct b eqn:E end
  | H : context [if ?b then _ else _] |- _ =>
      match type of b with bool => let E := fresh "E" in destruct b eqn:E end
  end; breflect.

(** Give [lia] the quotient and the remainder of [a] by the positive number [b]. *)
Ltac divmod a b :=
  pose proof (Z.div_mod a b ltac:(lia)); pose proof (Z.mod_pos_bound a b ltac:(lia)).

(** Case analysis on every comparison of the goal; [lia] drops the impossible cases. *)
Ltac zcases :=
  repeat match goal with
  | |- context [?a <=? ?b] => destruct (Z.leb_spec a b); try lia
  | |- context [?a <? ?b] => destruct (Z.ltb_spec a b); try lia
  | |- context [?a =? ?b] => destruct (Z.eqb_spec a b); try lia
  end; simpl; try done; try lia.

(** * Integer lemmas *)
Lemma u16_small z : 0 <= z < 2 ^ 16 -> u16 z = z.
Proof. intros. by apply Z.mod_small. Qed.
Lemma u32_small z : 0 <= z < 2 ^ 32 -> u32 z = z.
Proof. intros. by apply Z.mod_small. Qed.
Lemma u64_small z : 0 <= z < 2 ^ 64 -> u64 z = z.
Proof. intros. by apply Z.mod_small. Qed.
Lemma u32_range z : 0 <= u32 z < 2 ^ 32.
Proof. apply Z.mod_pos_bound. lia. Qed.
Lemma u64_range z : 0 <= u64 z < 2 ^ 64.
Proof. apply Z.mod_pos_bound. lia. Qed.
#[export] Hint Resolve u32_range u64_range : qat.

(** * Bit lemmas *)

Lemma testbit_range z n i : 0 <= z < 2 ^ n -> 0 <= n <= i -> Z.testbit z i = false.
Proof.
  intros Hz Hi. destruct (decide (z = 0)) as [->|Hne]; [apply Z.bits_0|].
  apply Z.bits_above_log2; [lia|]. apply Z.log2_lt_pow2; [lia|].
  eapply Z.lt_le_trans; [apply Hz|]. apply Z.pow_le_mono_r; lia.
Qed.

(** A number is below [2 ^ n] when its bits from [n] up are zero. *)
Lemma bits_range z n :
  0 <= n -> 0 <= z -> (forall i, n <= i -> Z.testbit z i = false) -> 0 <= z < 2 ^ n.
Proof.
  intros Hn Hz H. split; [done|].
  destruct (Z.lt_ge_cases z (2 ^ n)) as [?|Hge]; [done|exfalso].
  assert (0 < z) by (pose proof (Z.pow_pos_nonneg 2 n); lia).
  assert (n <= Z.log2 z) by (apply Z.log2_le_pow2; lia).
  specialize (H (Z.log2 z) ltac:(done)). by rewrite Z.bit_log2 in H.
Qed.

Lemma testbit_u64 z i : 0 <= i -> Z.testbit (u64 z) i = (i <? 64) && Z.testbit z i.
Proof.
  intros Hi. unfold u64. destruct (Z.ltb_spec i 64).
  - by rewrite Z.mod_pow2_bits_low by lia.
  - by rewrite Z.mod_pow2_bits_high by lia.
Qed.
Lemma testbit_u32 z i : 0 <= i -> Z.testbit (u32 z) i = (i <? 32) && Z.testbit z i.
Proof.
  intros Hi. unfold u32. destruct (Z.ltb_spec i 32).
  - by rewrite Z.mod_pow2_bits_low by lia.
  - by rewrite Z.mod_pow2_bits_high by lia.
Qed.
Lemma testbit_ones n i : 0 <= n -> 0 <= i -> Z.testbit (Z.ones n) i = (i <? n).
Proof. intros. by apply Z.testbit_ones_nonneg. Qed.

Lemma ones_range n m : 0 <= n <= m -> 0 <= Z.ones n < 2 ^ m.
Proof.
  intros. rewrite Z.ones_equiv. pose proof (Z.pow_pos_nonneg 2 n).
  pose proof (Z.pow_le_mono_r 2 n m). lia.
Qed.

#[export] Hint Rewrite Z.land_spec Z.lor_spec Z.lxor_spec : bits.
#[export] Hint Rewrite Z.shiftl_spec Z.shiftr_spec Z.lnot_spec testbit_u64 testbit_u32
  testbit_ones using lia : bits.

(** Decide an equation between bits after unfolding the bit operations. *)
Ltac bits_cases :=
  repeat (autorewrite with bits;
          match goal with
          | |- context [(?a <? ?b)] => destruct (Z.ltb_spec a b)
          | |- context [(?a <=? ?b)] => destruct (Z.leb_spec a b)
          end);
  autorewrite with bits.

(** * Array lemmas *)
Section arrays.
Implicit Types (l : list Z) (i j v : Z).

Lemma arr_get_set_eq l i v : 0 <= i < len l -> (l.[i <- v]).[i] = v.
Proof.
  intros. unfold arr_get, arr_set. apply nth_lookup_Some with (d := 0).
  apply list_lookup_insert_eq. lia.
Qed.
Lemma arr_get_set_ne l i j v : 0 <= i -> 0 <= j -> i <> j -> (l.[i <- v]).[j] = l.[j].
Proof.
  intros. unfold arr_get, arr_set. rewrite !nth_lookup, list_lookup_insert_ne; [done|lia].
Qed.
Lemma length_arr_set l i v : length (l.[i <- v]) = length l.
Proof. apply length_insert. Qed.
Lemma arr_set_get l i : (l.[i <- l.[i]]) = l.
Proof.
  unfold arr_get, arr_set. destruct (decide (Z.to_nat i < length l)%nat) as [Hl|Hl].
  - apply list_insert_id. destruct (lookup_lt_is_Some_2 _ _ Hl) as [x Hx].
    by rewrite Hx, (nth_lookup_Some _ _ _ _ Hx).
  - apply list_insert_ge. lia.
Qed.
Lemma arr_set_set l i v w : (l.[i <- v]).[i <- w] = l.[i <- w].
Proof. apply list_insert_insert_eq. Qed.

(** Arrays are equal when their elements are. *)
Lemma arr_ext l1 l2 :
  length l1 = length l2 -> (forall i, 0 <= i < len l1 -> l1.[i] = l2.[i]) -> l1 = l2.
Proof.
  intros Hlen H. apply nth_ext with (d := 0) (d' := 0); [done|].
  intros n Hn. specialize (H (Z.of_nat n)). unfold arr_get in H.
  rewrite Nat2Z.id in H. apply H. lia.
Qed.
End arrays.
#[export] Hint Rewrite length_arr_set : qatrw.

(** * Ranges of integers *)
Lemma forallb_seqZ (p : Z -> bool) m n :
  forallb p (seqZ m n) = true <-> forall k, m <= k < m + n -> p k = true.
Proof.
  rewrite forallb_forall. split.
  - intros H k Hk. apply H, list_elem_of_In, elem_of_seqZ. lia.
  - intros H k Hk%list_elem_of_In%elem_of_seqZ. apply H. lia.
Qed.

(** Removing an element that is not there *)
Lemma filter_ne (e : Z) (l : list Z) : e ∉ l -> base.filter (fun x => x <> e) l = l.
Proof. induction l as [|x l IH]; [done|]. intros H. rewrite filter_cons, decide_True, IH by set_solver. done. Qed.

(** Taking an element out of a list without duplicates *)
Lemma filter_ne_perm (e : Z) (l : list Z) : NoDup l -> e ∈ l -> l ≡ₚ e :: base.filter (fun x => x <> e) l.
Proof.
  intros N (l1 & l2 & ->)%list_elem_of_split. rewrite <- (Permutation_middle l1 l2 e) in *.
  apply NoDup_cons in N as [Ne _]. rewrite filter_cons, decide_False by (intros H; by apply H). by rewrite filter_ne.
Qed.
