(* ===== verification/Bitmap.v ===== *)
(** * The block bitmap of a memory slab (USDM, [libusdm_drv])

    A slab of 2 MB hands out blocks of 1 KB.  Its control structure
    ([block_ctrl_t]) keeps one bit per block and, for the first block of each
    allocation, the number of blocks allocated.  This file models the bitmap
    operations of [qae_mem_utils_common.h], the search of
    [__qae_mem_alloc] and [__qae_mem_free] of [qae_mem_utils_common.c]; it shows
    that the window search is a first-fit search, that allocations never
    overlap, and that a free undoes its allocation. *)

From S2P Require Import Prelude.

(** ** Constants ([qae_mem_utils.h]) *)
Definition UNIT_SIZE : Z := 1024.
Definition QWORD_WIDTH : Z := 64.
Definition QWORD_ALL_ONE : Z := 0xFFFFFFFFFFFFFFFF.
Definition QAE_PAGE_SIZE : Z := 4096.
Definition QAE_NUM_PAGES_PER_ALLOC : Z := 512.
Definition CHUNK_SIZE : Z := UNIT_SIZE * QWORD_WIDTH.
Definition BITMAP_LEN : Z := QAE_NUM_PAGES_PER_ALLOC * QAE_PAGE_SIZE / CHUNK_SIZE.
Definition BLOCK_SIZES : Z := BITMAP_LEN * QWORD_WIDTH.

(** [__qae_bitmask[n]] has its [n] low bits set. *)
Definition qae_bitmask : list Z :=
  [ 0x0000000000000000; 0x0000000000000001; 0x0000000000000003;
    0x0000000000000007; 0x000000000000000f; 0x000000000000001f;
    0x000000000000003f; 0x000000000000007f; 0x00000000000000ff;
    0x00000000000001ff; 0x00000000000003ff; 0x00000000000007ff;
    0x0000000000000fff; 0x0000000000001fff; 0x0000000000003fff;
    0x0000000000007fff; 0x000000000000ffff; 0x000000000001ffff;
    0x000000000003ffff; 0x000000000007ffff; 0x00000000000fffff;
    0x00000000001fffff; 0x00000000003fffff; 0x00000000007fffff;
    0x0000000000ffffff; 0x0000000001ffffff; 0x0000000003ffffff;
    0x0000000007ffffff; 0x000000000fffffff; 0x000000001fffffff;
    0x000000003fffffff; 0x000000007fffffff; 0x00000000ffffffff;
    0x00000001ffffffff; 0x00000003ffffffff; 0x00000007ffffffff;
    0x0000000fffffffff; 0x0000001fffffffff; 0x0000003fffffffff;
    0x0000007fffffffff; 0x000000ffffffffff; 0x000001ffffffffff;
    0x000003ffffffffff; 0x000007ffffffffff; 0x00000fffffffffff;
    0x00001fffffffffff; 0x00003fffffffffff; 0x00007fffffffffff;
    0x0000ffffffffffff; 0x0001ffffffffffff; 0x0003ffffffffffff;
    0x0007ffffffffffff; 0x000fffffffffffff; 0x001fffffffffffff;
    0x003fffffffffffff; 0x007fffffffffffff; 0x00ffffffffffffff;
    0x01ffffffffffffff; 0x03ffffffffffffff; 0x07ffffffffffffff;
    0x0fffffffffffffff; 0x1fffffffffffffff; 0x3fffffffffffffff;
    0x7fffffffffffffff; 0xffffffffffffffff ].

Definition div_round_up (n d : Z) : Z := u64 (n + d - 1) / d.
Definition round_up (n s : Z) : Z := u64 (u64 (n + s - 1) / s * s).

(** ** Reading and writing the bitmap *)

(** A 64-bit window of the bitmap that starts at bit [window_pos]. *)
Definition bitmap_read (map : list Z) (window_pos : Z) : Z :=
  let quad_word_pos := window_pos / QWORD_WIDTH in
  if BITMAP_LEN <=? quad_word_pos then QWORD_ALL_ONE
  else
    let bit_pos := window_pos mod QWORD_WIDTH in
    let quad_word_window := map.[quad_word_pos] in
    if bit_pos =? 0 then quad_word_window
    else
      let next_quad_word := map.[quad_word_pos + 1] in
      Z.lor (Z.shiftr quad_word_window bit_pos)
            (u64 (Z.shiftl next_quad_word (QWORD_WIDTH - bit_pos))).

(** [__builtin_ctzll]: the number of trailing zeros of a non-zero word. *)
Fixpoint ctz_pos (p : positive) : Z :=
  match p with
  | xO q => 1 + ctz_pos q
  | _ => 0
  end.
Definition builtin_ctzll (w : Z) : Z :=
  match w with
  | Zpos p => ctz_pos p
  | _ => 0
  end.

Definition mem_ctzll (bitmap_window : Z) : Z :=
  if bitmap_window =? 0 then QWORD_WIDTH else builtin_ctzll bitmap_window.

(** The loop [while (num--) bitmap[qword++] = v]. *)
Fixpoint fill_qwords (num : nat) (v : Z) (bitmap : list Z) (qword : Z) : list Z * Z :=
  match num with
  | O => (bitmap, qword)
  | S num => fill_qwords num v (bitmap.[qword <- v]) (qword + 1)
  end.

Definition set_bitmap (bitmap : list Z) (index len : Z) : list Z :=
  let qword := index / QWORD_WIDTH in
  let offset := index mod QWORD_WIDTH in
  let '(bitmap, len, qword) :=
    if 0 <? offset then
      let width := Z.min len (QWORD_WIDTH - offset) in
      let mask := u64 (Z.shiftl (qae_bitmask.[width]) offset) in
      (bitmap.[qword <- Z.lor (bitmap.[qword]) mask], len - width, qword + 1)
    else (bitmap, len, qword) in
  let num := len / QWORD_WIDTH in
  let len := len mod QWORD_WIDTH in
  let '(bitmap, qword) := fill_qwords (Z.to_nat num) QWORD_ALL_ONE bitmap qword in
  bitmap.[qword <- Z.lor (bitmap.[qword]) (qae_bitmask.[len])].

Definition clear_bitmap (bitmap : list Z) (index len : Z) : list Z :=
  let qword := index / QWORD_WIDTH in
  let offset := index mod QWORD_WIDTH in
  let '(bitmap, len, qword) :=
    if 0 <? offset then
      let width := Z.min len (QWORD_WIDTH - offset) in
      let mask := u64 (Z.shiftl (qae_bitmask.[width]) offset) in
      (bitmap.[qword <- Z.land (bitmap.[qword]) (not64 mask)], len - width, qword + 1)
    else (bitmap, len, qword) in
  let num := len / QWORD_WIDTH in
  let len := len mod QWORD_WIDTH in
  let '(bitmap, qword) := fill_qwords (Z.to_nat num) 0 bitmap qword in
  bitmap.[qword <- Z.land (bitmap.[qword]) (not64 (qae_bitmask.[len]))].

(** ** Allocation and release of blocks *)

(** The part of [block_ctrl_t] that tracks blocks: [bitmap] has
    [BITMAP_LEN + 1] words (the last one is a barrier), [sizes] one [uint16_t]
    per block. *)
Record block_ctrl := mk_block_ctrl { bitmap : list Z; sizes : list Z }.
#[global] Instance eta_block_ctrl : Eta block_ctrl :=
  fun b => mk_block_ctrl (bitmap b) (sizes b).

(** What one run of [__qae_mem_alloc]'s loop body decides: to return (an
    address, 0 for [NULL]), or to go on with new [window_pos], [first_block]
    and [blocks_found]. *)
Inductive alloc_iter : Type :=
| AllocReturn (retval : Z) (ctrl : block_ctrl)
| AllocNext (window_pos first_block blocks_found : Z).

Definition mem_alloc_body (block_addr : Z) (ctrl : block_ctrl)
    (blocks_required align window_pos first_block blocks_found : Z) : alloc_iter :=
  let bitmap_window := bitmap_read (bitmap ctrl) window_pos in
  let width := mem_ctzll bitmap_window in
  let blocks_found := blocks_found + width in
  if blocks_required <=? blocks_found then
    let retval := block_addr + first_block * UNIT_SIZE in
    if BITMAP_LEN * QWORD_WIDTH <? first_block + blocks_required then AllocReturn 0 ctrl
    else
      AllocReturn retval
        (mk_block_ctrl (set_bitmap (bitmap ctrl) first_block blocks_required)
                       ((sizes ctrl).[first_block <- u16 blocks_required]))
  else if negb (bitmap_window =? 0) then
    let bitmap_window := Z.shiftr bitmap_window width in
    let width_ones := mem_ctzll (not64 bitmap_window) in
    let window_pos := window_pos + (width + width_ones) in
    let window_pos :=
      if negb (align =? 0) && negb (window_pos mod align =? 0)
      then window_pos + (align - window_pos mod align) else window_pos in
    AllocNext window_pos window_pos 0
  else AllocNext (window_pos + width) first_block blocks_found.

(** The [do ... while (window_pos < BITMAP_LEN * QWORD_WIDTH)] loop. *)
Fixpoint mem_alloc_loop (fuel : nat) (block_addr : Z) (ctrl : block_ctrl)
    (blocks_required align window_pos first_block blocks_found : Z)
    : option (Z * block_ctrl) :=
  match fuel with
  | O => None
  | S fuel =>
      match mem_alloc_body block_addr ctrl blocks_required align
              window_pos first_block blocks_found with
      | AllocReturn retval ctrl => Some (retval, ctrl)
      | AllocNext window_pos first_block blocks_found =>
          if window_pos <? BITMAP_LEN * QWORD_WIDTH
          then mem_alloc_loop fuel block_addr ctrl blocks_required align
                 window_pos first_block blocks_found
          else Some (0, ctrl)
      end
  end.

(** Every run of the body moves [window_pos] forward, so the number of blocks
    bounds the number of runs. *)
Definition mem_alloc_fuel : nat := Z.to_nat (BITMAP_LEN * QWORD_WIDTH).

(** [__qae_mem_alloc]: the address of the block (0 for [NULL]) and the control
    block afterwards.  [block_addr] is the address of the control block. *)
Definition qae_mem_alloc (block_addr : Z) (ctrl : block_ctrl) (size align : Z)
    : option (Z * block_ctrl) :=
  if (block_addr =? 0) || (size =? 0) then Some (0, ctrl)
  else
    mem_alloc_loop mem_alloc_fuel block_addr ctrl (div_round_up size UNIT_SIZE) align 0 0 0.

(** [__qae_mem_free]: whether the block was released, the control block
    afterwards and the byte range that a secure free overwrites with zeros. *)
Definition qae_mem_free (block_addr : Z) (ctrl : block_ctrl) (block : Z) (secure_free : bool)
    : bool * block_ctrl * option (Z * Z) :=
  if (block_addr =? 0) || (block =? 0) then (false, ctrl, None)
  else if negb (block mod UNIT_SIZE =? 0) then (false, ctrl, None)
  else
    let first_block := u64 (block - block_addr) / UNIT_SIZE in
    let length := (sizes ctrl).[first_block] in
    if length =? 0 then (false, ctrl, None)
    else if BITMAP_LEN * QWORD_WIDTH <? length + first_block then (false, ctrl, None)
    else
      (true,
       mk_block_ctrl (clear_bitmap (bitmap ctrl) first_block length)
                     ((sizes ctrl).[first_block <- 0]),
       if secure_free then Some (block, length * UNIT_SIZE) else None).

(** The bitmap of a new (or recycled) slab of [size] bytes, as set up by
    [init_slab_and_alloc]: [reserved] blocks for the control structure and a
    barrier word at the end. *)
Definition SIZEOF_BLOCK_CTRL : Z := 80 + 8 * (BITMAP_LEN + 1) + 2 * BLOCK_SIZES.
Definition reserved : Z := div_round_up SIZEOF_BLOCK_CTRL UNIT_SIZE.
Definition init_slab (ctrl : block_ctrl) (size : Z) : block_ctrl :=
  let last := size / CHUNK_SIZE in
  ctrl <| bitmap := (set_bitmap (bitmap ctrl) 0 reserved).[last <- QWORD_ALL_ONE] |>.

Definition zero_ctrl : block_ctrl :=
  mk_block_ctrl (replicate (Z.to_nat (BITMAP_LEN + 1)) 0) (replicate (Z.to_nat BLOCK_SIZES) 0).


(** ** Bits of the bitmap *)

(** Bit [k] of the bitmap: whether block [k] is taken. *)
Definition bit (bm : list Z) (k : Z) : bool := Z.testbit (bm.[k / 64]) (k mod 64).

Definition words_ok (bm : list Z) : Prop := Forall (fun w => 0 <= w < 2 ^ 64) bm.

Lemma words_get bm i : words_ok bm -> 0 <= bm.[i] < 2 ^ 64.
Proof.
  intros Hw. unfold arr_get. destruct (nth_in_or_default (Z.to_nat i) bm 0) as [Hin| ->]; [|lia].
  by apply (proj1 (List.Forall_forall _ _) Hw).
Qed.

Lemma words_set bm i w : words_ok bm -> 0 <= w < 2 ^ 64 -> words_ok (bm.[i <- w]).
Proof. intros. unfold arr_set. by apply Forall_insert. Qed.

Lemma bitmask_ones n : 0 <= n <= 64 -> qae_bitmask.[n] = Z.ones n.
Proof.
  intros Hn. assert (Hall : forallb (fun n => qae_bitmask.[Z.of_nat n] =? Z.ones (Z.of_nat n)) (seq 0 65) = true)
    by (vm_compute; reflexivity).
  rewrite forallb_forall in Hall. specialize (Hall (Z.to_nat n)).
  rewrite Z2Nat.id in Hall by lia. apply Z.eqb_eq, Hall, in_seq. lia.
Qed.

Lemma bit_set_word bm q w k :
  0 <= q < len bm -> 0 <= k ->
  bit (bm.[q <- w]) k = if k / 64 =? q then Z.testbit w (k mod 64) else bit bm k.
Proof.
  intros Hq Hk. unfold bit. destruct (Z.eqb_spec (k / 64) q) as [->|Hne].
  - by rewrite arr_get_set_eq.
  - rewrite arr_get_set_ne; [done|lia| |done]. apply Z.div_pos; lia.
Qed.

(** *** A range update

    [set_bitmap] and [clear_bitmap] are the same range update, with a word
    operation [op] that writes the bits of a mask and a word [full] whose bits
    are all the written value. *)
Definition range_op (op : Z -> Z -> Z) (full : Z) (bitmap : list Z) (index len : Z) : list Z :=
  let qword := index / QWORD_WIDTH in
  let offset := index mod QWORD_WIDTH in
  let '(bitmap, len, qword) :=
    if 0 <? offset then
      let width := Z.min len (QWORD_WIDTH - offset) in
      let mask := u64 (Z.shiftl (qae_bitmask.[width]) offset) in
      (bitmap.[qword <- op (bitmap.[qword]) mask], len - width, qword + 1)
    else (bitmap, len, qword) in
  let num := len / QWORD_WIDTH in
  let len := len mod QWORD_WIDTH in
  let '(bitmap, qword) := fill_qwords (Z.to_nat num) full bitmap qword in
  bitmap.[qword <- op (bitmap.[qword]) (qae_bitmask.[len])].

Section range_op.
Context (op : Z -> Z -> Z) (full : Z) (v : bool).
Hypothesis op_bit : forall w m i, 0 <= i < 64 ->
  Z.testbit (op w m) i = if Z.testbit m i then v else Z.testbit w i.
Hypothesis full_bit : forall i, 0 <= i < 64 -> Z.testbit full i = v.
Hypothesis full_range : 0 <= full < 2 ^ 64.
Hypothesis op_range : forall w m, 0 <= w < 2 ^ 64 -> 0 <= m < 2 ^ 64 -> 0 <= op w m < 2 ^ 64.

Lemma bit_mask_word bm q off width k :
  0 <= q < len bm -> 0 <= off -> 0 <= width -> off + width <= 64 -> 0 <= k ->
  bit (bm.[q <- op (bm.[q]) (u64 (Z.shiftl (Z.ones width) off))]) k =
  if (q * 64 + off <=? k) && (k <? q * 64 + off + width) then v else bit bm k.
Proof.
  intros Hq Hoff Hwd Hsum Hk.
  divmod k 64.
  rewrite bit_set_word by done. destruct (Z.eqb_spec (k / 64) q) as [Hkq|Hkq].
  - rewrite op_bit by lia. rewrite testbit_u64, Z.shiftl_spec by lia.
    unfold bit. rewrite Hkq.
    destruct (Z.lt_ge_cases (k mod 64) off) as [?|?].
    + rewrite (Z.testbit_neg_r _ (k mod 64 - off)), andb_false_r by lia. zcases.
    + rewrite testbit_ones by lia. zcases.
  - zcases.
Qed.

Lemma fill_spec n bm q :
  0 <= q -> q + Z.of_nat n <= len bm ->
  let r := fill_qwords n full bm q in
  r.2 = q + Z.of_nat n /\ length r.1 = length bm /\ (words_ok bm -> words_ok r.1) /\
  forall k, 0 <= k ->
    bit r.1 k = if (q * 64 <=? k) && (k <? (q + Z.of_nat n) * 64) then v else bit bm k.
Proof.
  revert bm q. induction n as [|n IH]; intros bm q Hq Hn; simpl.
  - split_and!; [lia|done|done|]. intros k Hk.
    zcases.
  - destruct (IH (bm.[q <- full]) (q + 1)) as (H1 & H2 & H3 & H4).
    { lia. } { rewrite length_arr_set. lia. }
    rewrite H1, H2, length_arr_set. split_and!; [lia|done| |].
    + intros Hw. apply H3. by apply words_set.
    + intros k Hk. rewrite H4 by done. rewrite bit_set_word by lia.
      divmod k 64.
      zcases. apply full_bit. lia.
Qed.

Lemma range_op_spec bm index l :
  0 <= index -> 0 <= l -> index + l <= 64 * (len bm - 1) ->
  let r := range_op op full bm index l in
  length r = length bm /\ (words_ok bm -> words_ok r) /\
  forall k, 0 <= k ->
    bit r k = if (index <=? k) && (k <? index + l) then v else bit bm k.
Proof.
  intros Hi Hl Hb. unfold range_op, QWORD_WIDTH. divmod index 64.
  set (off := index mod 64) in *. set (q := index / 64) in *.
  (* the first, partial word *)
  set (hd := if 0 <? off then _ else _).
  assert (exists bm1 l1 q1, hd = (bm1, l1, q1) /\ length bm1 = length bm /\
            (words_ok bm -> words_ok bm1) /\ 0 <= l1 <= l /\ 0 <= q1 /\
            (l1 = 0 \/ q1 * 64 = index + (l - l1)) /\ q1 * 64 + l1 <= 64 * (len bm - 1) /\
            (forall k, 0 <= k -> bit bm1 k =
               if (index <=? k) && (k <? index + (l - l1)) then v else bit bm k))
    as (bm1 & l1 & q1 & -> & Hlen1 & Hw1 & Hl1 & Hq1 & Heq1 & Hb1 & Hbit1).
  { subst hd. destruct (Z.ltb_spec 0 off).
    - set (wd := Z.min l (64 - off)).
      assert (0 <= q < len bm) by lia.
      eexists _, _, _. split; [reflexivity|]. rewrite length_arr_set.
      rewrite bitmask_ones by lia.
      split_and!; try lia.
      + intros Hw. apply words_set; [done|]. apply op_range; [by apply words_get|].
        apply u64_range.
      + intros k Hk. rewrite bit_mask_word by lia. zcases.
    - eexists _, _, _. split; [reflexivity|]. split_and!; try done; try lia.
      intros k Hk. zcases. }
  (* whole words, then the rest *)
  divmod l1 64.
  destruct (fill_spec (Z.to_nat (l1 / 64)) bm1 q1) as (Hq2 & Hlen2 & Hw2 & Hbit2); [lia| |].
  { rewrite Z2Nat.id; lia. }
  destruct (fill_qwords _ _ _ _) as [bm2 q2]. simpl in *.
  rewrite Z2Nat.id in * by lia. subst q2. rewrite length_arr_set.
  rewrite bitmask_ones by lia. split_and!; [lia| |].
  - intros Hw. apply words_set; [auto|]. apply op_range; [by apply words_get; auto|]. apply ones_range. lia.
  - intros k Hk.
    replace (Z.ones (l1 mod 64)) with (u64 (Z.shiftl (Z.ones (l1 mod 64)) 0)).
    2:{ rewrite Z.shiftl_0_r. apply u64_small, ones_range. lia. }
    rewrite bit_mask_word by lia. rewrite Hbit2, Hbit1 by done. zcases.
Qed.
End range_op.

(** What the two bitmap updates do: [set_bitmap] sets, [clear_bitmap] clears
    exactly the bits of the range. *)
Lemma set_bitmap_spec bm index l :
  0 <= index -> 0 <= l -> index + l <= 64 * (len bm - 1) ->
  let r := set_bitmap bm index l in
  length r = length bm /\ (words_ok bm -> words_ok r) /\
  forall k, 0 <= k -> bit r k = if (index <=? k) && (k <? index + l) then true else bit bm k.
Proof.
  apply (range_op_spec Z.lor QWORD_ALL_ONE true).
  - intros w m i Hi. rewrite Z.lor_spec. destruct (Z.testbit m i); [apply orb_true_r|apply orb_false_r].
  - intros i Hi. change QWORD_ALL_ONE with (Z.ones 64). apply Z.ones_spec_low. lia.
  - unfold QWORD_ALL_ONE. lia.
  - intros w m Hw Hm. apply bits_range; [lia|apply Z.lor_nonneg; lia|].
    intros i Hi. rewrite Z.lor_spec, !(testbit_range _ 64); done || lia.
Qed.

Lemma clear_bitmap_spec bm index l :
  0 <= index -> 0 <= l -> index + l <= 64 * (len bm - 1) ->
  let r := clear_bitmap bm index l in
  length r = length bm /\ (words_ok bm -> words_ok r) /\
  forall k, 0 <= k -> bit r k = if (index <=? k) && (k <? index + l) then false else bit bm k.
Proof.
  apply (range_op_spec (fun w m => Z.land w (not64 m)) 0 false).
  - intros w m i Hi. unfold not64. autorewrite with bits. zcases.
    destruct (Z.testbit m i); [apply andb_false_r|apply andb_true_r].
  - intros i Hi. apply Z.bits_0.
  - lia.
  - intros w m Hw Hm. apply bits_range; [lia|apply Z.land_nonneg; lia|].
    intros i Hi. rewrite Z.land_spec, (testbit_range w 64); done || lia.
Qed.

(** ** The window search *)

(** A bitmap that the search may run on: the words are 64-bit and the last one
    is the barrier that [init_slab_and_alloc] writes. *)
Record bitmap_wf (bm : list Z) : Prop := {
  wf_length : len bm = BITMAP_LEN + 1;
  wf_words : words_ok bm;
  wf_barrier : bm.[BITMAP_LEN] = QWORD_ALL_ONE
}.

Lemma wf_bit_barrier bm k : bitmap_wf bm -> 2048 <= k < 2048 + 64 -> bit bm k = true.
Proof.
  intros Hwf Hk. divmod k 64. unfold bit. replace (k / 64) with BITMAP_LEN by (change BITMAP_LEN with 32; lia).
  rewrite (wf_barrier _ Hwf). change QWORD_ALL_ONE with (Z.ones 64). apply Z.ones_spec_low. lia.
Qed.

Lemma bitmap_wf_intro bm :
  len bm = BITMAP_LEN + 1 -> words_ok bm ->
  (forall k, 2048 <= k < 2048 + 64 -> bit bm k = true) -> bitmap_wf bm.
Proof.
  intros Hlen Hw Hb. split; [done..|]. apply Z.bits_inj'. intros i Hi.
  change QWORD_ALL_ONE with (Z.ones 64). rewrite testbit_ones by lia. destruct (Z.ltb_spec i 64).
  - specialize (Hb (2048 + i) ltac:(lia)). unfold bit in Hb.
    rewrite <- (Z.div_unique (2048 + i) 64 32 i), <- (Z.mod_unique (2048 + i) 64 32 i) in Hb by lia. done.
  - apply (testbit_range _ 64); [|lia]. by apply words_get.
Qed.

(** The window read at [pos] holds the bits [pos] to [pos + 63]. *)
Lemma bitmap_read_spec bm pos :
  bitmap_wf bm -> 0 <= pos < 2048 ->
  0 <= bitmap_read bm pos < 2 ^ 64 /\
  forall i, 0 <= i < 64 -> Z.testbit (bitmap_read bm pos) i = bit bm (pos + i).
Proof.
  intros Hwf Hpos. unfold bitmap_read, QWORD_WIDTH. divmod pos 64.
  destruct (Z.leb_spec BITMAP_LEN (pos / 64)) as [Hc|_]; [change BITMAP_LEN with 32 in Hc; lia|].
  pose proof (words_get bm (pos / 64) (wf_words _ Hwf)).
  destruct (Z.eqb_spec (pos mod 64) 0) as [E|E].
  - split; [done|]. intros i Hi. unfold bit.
    rewrite <- (Z.div_unique (pos + i) 64 (pos / 64) i), <- (Z.mod_unique (pos + i) 64 (pos / 64) i); done || lia.
  - split.
    + apply bits_range; [lia| |].
      * apply Z.lor_nonneg. split; [apply Z.shiftr_nonneg; lia|apply u64_range].
      * intros i Hi. autorewrite with bits. rewrite (testbit_range _ 64); [|done|lia]. zcases.
    + intros i Hi. autorewrite with bits. unfold bit.
      destruct (Z.lt_ge_cases (pos mod 64 + i) 64).
      * rewrite (Z.testbit_neg_r _ (i - (64 - pos mod 64))) by lia.
        rewrite andb_false_r, orb_false_r, (Z.add_comm i).
        rewrite <- (Z.div_unique (pos + i) 64 (pos / 64) (pos mod 64 + i)),
          <- (Z.mod_unique (pos + i) 64 (pos / 64) (pos mod 64 + i)); done || lia.
      * rewrite (testbit_range _ 64 (i + pos mod 64)) by (done || lia). zcases.
        rewrite <- (Z.div_unique (pos + i) 64 (pos / 64 + 1) (pos mod 64 + i - 64)),
          <- (Z.mod_unique (pos + i) 64 (pos / 64 + 1) (pos mod 64 + i - 64)) by lia.
        f_equal. lia.
Qed.

Lemma ctz_pos_spec p :
  0 <= ctz_pos p /\ Z.testbit (Zpos p) (ctz_pos p) = true /\
  forall i, 0 <= i < ctz_pos p -> Z.testbit (Zpos p) i = false.
Proof.
  induction p as [p _|p (H1 & H2 & H3)|]; simpl ctz_pos.
  - split_and!; [lia|done|intros; lia].
  - change (Zpos p~0) with (2 * Zpos p). split_and!; [lia| |].
    + rewrite Z.add_1_l, Z.testbit_even_succ by done. done.
    + intros i Hi. destruct (decide (i = 0)) as [->|]; [apply Z.testbit_even_0|].
      replace i with (Z.succ (i - 1)) by lia. rewrite Z.testbit_even_succ by lia. apply H3. lia.
  - split_and!; [lia|done|intros; lia].
Qed.

(** [mem_ctzll] counts the trailing zeros of a word. *)
Lemma mem_ctzll_spec w :
  0 <= w < 2 ^ 64 ->
  0 <= mem_ctzll w <= 64 /\ (forall i, 0 <= i < mem_ctzll w -> Z.testbit w i = false) /\
  (w <> 0 -> mem_ctzll w < 64 /\ Z.testbit w (mem_ctzll w) = true) /\ (w = 0 -> mem_ctzll w = 64).
Proof.
  intros Hw. unfold mem_ctzll, QWORD_WIDTH. destruct (Z.eqb_spec w 0) as [->|Hne].
  - split_and!; try lia. intros. apply Z.bits_0.
  - destruct w as [|p|p]; try lia. simpl builtin_ctzll.
    destruct (ctz_pos_spec p) as (H1 & H2 & H3).
    assert (ctz_pos p < 64).
    { destruct (Z.lt_ge_cases (ctz_pos p) 64); [done|].
      by rewrite (testbit_range _ 64) in H2. }
    split_and!; try lia; auto.
Qed.

(** The ones that follow the [width] leading zeros of a window. *)
Lemma width_ones_spec w :
  0 <= w < 2 ^ 64 -> w <> 0 ->
  let width := mem_ctzll w in
  let wo := mem_ctzll (not64 (Z.shiftr w width)) in
  1 <= wo /\ width + wo <= 64 /\ forall i, width <= i < width + wo -> Z.testbit w i = true.
Proof.
  intros Hw Hne width wo.
  destruct (mem_ctzll_spec w Hw) as (H1 & H2 & H3 & _). destruct (H3 Hne) as [H4 H5].
  fold width in H1, H2, H4, H5.
  destruct (mem_ctzll_spec (not64 (Z.shiftr w width)) (u64_range _)) as (K1 & K2 & K3 & K4).
  fold wo in K1, K2, K3, K4.
  assert (Hbit : forall i, 0 <= i < wo -> i < 64 -> Z.testbit w (width + i) = true).
  { intros i Hi Hi'. specialize (K2 i Hi). unfold not64 in K2. autorewrite with bits in K2.
    rewrite (Z.add_comm i) in K2. destruct (Z.ltb_spec i 64); [|lia].
    by apply negb_false_iff in K2. }
  assert (1 <= wo).
  { destruct (decide (wo = 0)) as [E|]; [|lia]. exfalso.
    destruct (decide (not64 (Z.shiftr w width) = 0)) as [E'|E'].
    - apply K4 in E'. lia.
    - destruct (K3 E') as [_ K]. rewrite E in K. unfold not64 in K.
      autorewrite with bits in K. rewrite Z.add_0_l, H5 in K. done. }
  assert (width + wo <= 64).
  { destruct (Z.le_gt_cases (width + wo) 64); [done|].
    specialize (Hbit (64 - width)). rewrite Zplus_minus, (testbit_range _ 64) in Hbit by (done || lia).
    discriminate Hbit; lia. }
  split_and!; [done|done|]. intros i Hi. replace i with (width + (i - width)) by lia. apply Hbit; lia.
Qed.

(** ** First fit

    The reference: block [f] fits when [n] blocks from [f] are free, stay in
    the slab and start on the alignment; the first one that fits is taken. *)
Definition free_run (bm : list Z) (f n : Z) : bool :=
  forallb (fun k => negb (bit bm k)) (seqZ f n).
Definition fits (bm : list Z) (align n f : Z) : bool :=
  (f + n <=? BITMAP_LEN * QWORD_WIDTH) && ((align =? 0) || (f mod align =? 0)) && free_run bm f n.
Definition first_fit (bm : list Z) (align n : Z) : option Z :=
  List.find (fits bm align n) (seqZ 0 (BITMAP_LEN * QWORD_WIDTH)).

(** The control block after blocks [f] to [f + n - 1] are taken. *)
Definition take_blocks (ctrl : block_ctrl) (f n : Z) : block_ctrl :=
  mk_block_ctrl (set_bitmap (bitmap ctrl) f n) ((sizes ctrl).[f <- u16 n]).

Definition first_fit_alloc (block_addr : Z) (ctrl : block_ctrl) (align n : Z) : Z * block_ctrl :=
  match first_fit (bitmap ctrl) align n with
  | Some f => (block_addr + f * UNIT_SIZE, take_blocks ctrl f n)
  | None => (0, ctrl)
  end.

Lemma free_run_spec bm f n :
  free_run bm f n = true <-> forall k, f <= k < f + n -> bit bm k = false.
Proof.
  unfold free_run. rewrite forallb_seqZ. by setoid_rewrite negb_true_iff.
Qed.

Lemma fits_spec bm align n f :
  fits bm align n f = true <->
  f + n <= 2048 /\ (align = 0 \/ f mod align = 0) /\ forall k, f <= k < f + n -> bit bm k = false.
Proof.
  unfold fits. change (BITMAP_LEN * QWORD_WIDTH) with 2048.
  rewrite !andb_true_iff, orb_true_iff, free_run_spec, Z.leb_le, !Z.eqb_eq. tauto.
Qed.

Lemma find_seqZ_Some (p : Z -> bool) m n f :
  m <= f < m + n -> p f = true -> (forall g, m <= g < f -> p g = false) ->
  List.find p (seqZ m n) = Some f.
Proof.
  intros Hf. assert (Hn : 0 <= n) by lia. revert m Hf.
  pattern n. apply natlike_ind; [intros; lia| |done].
  intros x Hx IH m Hf Hp Hg. rewrite seqZ_cons by lia. simpl.
  destruct (decide (m = f)) as [->|Hne]; [by rewrite Hp|].
  rewrite Hg by lia. rewrite Z.pred_succ. apply IH; [lia|done|]. intros. apply Hg. lia.
Qed.

Lemma find_seqZ_None (p : Z -> bool) m n :
  (forall g, m <= g < m + n -> p g = false) -> List.find p (seqZ m n) = None.
Proof.
  intros H. destruct (List.find p (seqZ m n)) as [f|] eqn:E; [|done].
  apply List.find_some in E as [Hin%list_elem_of_In%elem_of_seqZ Hp]. by rewrite H in Hp.
Qed.

(** The start of the next search: the first aligned position from [p] on. *)
Definition align_up (align p : Z) : Z :=
  if negb (align =? 0) && negb (p mod align =? 0) then p + (align - p mod align) else p.

Lemma align_up_spec align p :
  0 <= align -> 0 <= p ->
  p <= align_up align p /\ (align = 0 \/ align_up align p mod align = 0) /\
  (forall g, p <= g < align_up align p -> align <> 0 /\ g mod align <> 0).
Proof.
  intros Ha Hp. unfold align_up. destruct (Z.eqb_spec align 0) as [->|Hne]; simpl.
  { split_and!; [lia|by left|intros; lia]. }
  divmod p align. destruct (Z.eqb_spec (p mod align) 0); simpl.
  { split_and!; [lia|by right|intros; lia]. }
  split_and!; [lia| |].
  - right. replace (p + (align - p mod align)) with ((p / align + 1) * align) by nia. by apply Z.mod_mul.
  - intros g Hg. split; [done|].
    rewrite <- (Z.mod_unique g align (p / align) (g - align * (p / align))); nia.
Qed.

Section search.
Context (block_addr : Z) (ctrl : block_ctrl) (n align : Z).
Hypothesis Hwf : bitmap_wf (bitmap ctrl).
Hypothesis Hn : 1 <= n.
Hypothesis Halign : 0 <= align.
Let bm := bitmap ctrl.

(** What the search knows at [window_pos]: it has seen free blocks from
    [first_block] on, and no earlier block fits. *)
Record search_inv (window_pos first_block blocks_found : Z) : Prop := {
  si_pos : 0 <= first_block <= window_pos /\ window_pos < 2048;
  si_found : blocks_found = window_pos - first_block;
  si_short : blocks_found < n;
  si_free : forall k, first_block <= k < window_pos -> bit bm k = false;
  si_align : align = 0 \/ first_block mod align = 0;
  si_first : forall g, 0 <= g < first_block -> fits bm align n g = false
}.

Lemma not_fits_taken g k : g <= k < g + n -> bit bm k = true -> fits bm align n g = false.
Proof.
  intros Hk Hbit. apply not_true_is_false. intros (_ & _ & H)%fits_spec.
  specialize (H k Hk). congruence.
Qed.

(** One run of the body returns the first fit, or moves on and keeps the
    invariant, or has shown that nothing fits. *)
Lemma mem_alloc_body_spec wp fb bf :
  search_inv wp fb bf ->
  match mem_alloc_body block_addr ctrl n align wp fb bf with
  | AllocReturn r c => (r, c) = first_fit_alloc block_addr ctrl align n
  | AllocNext wp' fb' bf' =>
      wp < wp' /\
      (wp' < 2048 -> search_inv wp' fb' bf') /\
      (2048 <= wp' -> first_fit_alloc block_addr ctrl align n = (0, ctrl))
  end.
Proof.
  intros [Hpos -> Hshort Hfree Hal Hfirst]. unfold mem_alloc_body. fold bm.
  destruct (bitmap_read_spec bm wp Hwf ltac:(lia)) as [Hwr Hwb].
  set (w := bitmap_read bm wp) in *.
  destruct (mem_ctzll_spec w Hwr) as (Hwd & Hz & Hnz & Hw0). set (wd := mem_ctzll w) in *.
  assert (Hrun : forall k, fb <= k < wp + wd -> bit bm k = false).
  { intros k Hk. destruct (Z.lt_ge_cases k wp); [apply Hfree; lia|].
    replace k with (wp + (k - wp)) by lia. rewrite <- Hwb by lia. apply Hz. lia. }
  assert (Hend : wp + wd <= 2048).
  { destruct (Z.le_gt_cases (wp + wd) 2048); [done|exfalso].
    pose proof (wf_bit_barrier bm 2048 Hwf ltac:(lia)). rewrite Hrun in *; [done|lia]. }
  change (BITMAP_LEN * QWORD_WIDTH) with 2048.
  destruct (Z.leb_spec n (wp - fb + wd)) as [Hfit|Hnofit].
  { destruct (Z.ltb_spec 2048 (fb + n)); [lia|].
    unfold first_fit_alloc, first_fit.
    rewrite (find_seqZ_Some _ _ _ fb); [done|change (BITMAP_LEN * QWORD_WIDTH) with 2048; lia| |].
    - apply fits_spec. split_and!; [lia|done|]. intros. apply Hrun. lia.
    - intros. by apply Hfirst. }
  assert (Hnone : forall g, 0 <= g < fb -> fits bm align n g = false) by done.
  destruct (Z.eqb_spec w 0) as [Ew|Ew]; simpl.
  - (* all the window is free *)
    specialize (Hw0 Ew). split_and!; [lia| |].
    + intros. split; try done; lia.
    + intros. unfold first_fit_alloc, first_fit. rewrite find_seqZ_None; [done|].
      change (BITMAP_LEN * QWORD_WIDTH) with 2048. intros g Hg.
      destruct (Z.lt_ge_cases g fb); [apply Hfirst; lia|].
      apply not_true_is_false. intros (Hle & _)%fits_spec. lia.
  - (* skip the free blocks and the taken ones that follow *)
    destruct (Hnz Ew) as [Hwd64 Hone].
    destruct (width_ones_spec w Hwr Ew) as (Hwo & Hwo64 & Hones).
    fold wd in Hwo, Hwo64, Hones. set (wo := mem_ctzll (not64 (Z.shiftr w wd))) in *.
    fold (align_up align (wp + (wd + wo))).
    destruct (align_up_spec align (wp + (wd + wo)) Halign ltac:(lia)) as (Ha1 & Ha2 & Ha3).
    set (p' := align_up align (wp + (wd + wo))) in *.
    assert (Hskip : forall g, 0 <= g < p' -> fits bm align n g = false).
    { intros g Hg. destruct (Z.lt_ge_cases g fb); [apply Hfirst; lia|].
      destruct (Z.lt_ge_cases g (wp + wd)).
      { apply (not_fits_taken _ (wp + wd)); [lia|]. rewrite <- Hwb by lia. done. }
      destruct (Z.lt_ge_cases g (wp + (wd + wo))).
      { apply (not_fits_taken _ g); [lia|]. replace g with (wp + (g - wp)) by lia.
        rewrite <- Hwb by lia. apply Hones. lia. }
      destruct (Ha3 g ltac:(lia)) as [? ?].
      apply not_true_is_false. intros (_ & [?|?] & _)%fits_spec; lia. }
    split_and!; [lia| |].
    + intros. split; try done; try lia.
    + intros. unfold first_fit_alloc, first_fit. rewrite find_seqZ_None; [done|].
      change (BITMAP_LEN * QWORD_WIDTH) with 2048. intros g Hg. apply Hskip. lia.
Qed.

Lemma mem_alloc_loop_spec fuel wp fb bf :
  search_inv wp fb bf -> 2048 - wp <= Z.of_nat fuel ->
  mem_alloc_loop fuel block_addr ctrl n align wp fb bf =
  Some (first_fit_alloc block_addr ctrl align n).
Proof.
  revert wp fb bf. induction fuel as [|fuel IH]; intros wp fb bf Hinv Hfuel.
  { destruct Hinv. lia. }
  simpl. pose proof (mem_alloc_body_spec wp fb bf Hinv) as Hbody.
  destruct (mem_alloc_body _ _ _ _ _ _ _) as [r c|wp' fb' bf']; [by rewrite Hbody|].
  destruct Hbody as (Hlt & Hcont & Hend). change (BITMAP_LEN * QWORD_WIDTH) with 2048.
  destruct (Z.ltb_spec wp' 2048).
  - apply IH; [auto|lia].
  - by rewrite Hend.
Qed.
End search.

(** The hypotheses under which [__qae_mem_alloc] is called: a control block
    and a size that does not wrap when it is rounded up to blocks. *)
Lemma qae_mem_alloc_eq block_addr ctrl size align :
  bitmap_wf (bitmap ctrl) -> block_addr <> 0 -> 0 < size < 2 ^ 64 - UNIT_SIZE -> 0 <= align ->
  qae_mem_alloc block_addr ctrl size align =
  Some (first_fit_alloc block_addr ctrl align (div_round_up size UNIT_SIZE)).
Proof.
  intros Hwf Haddr Hsize Hal. unfold qae_mem_alloc.
  destruct (Z.eqb_spec block_addr 0); [done|]. destruct (Z.eqb_spec size 0); [lia|]. cbn [orb].
  assert (1 <= div_round_up size UNIT_SIZE).
  { unfold div_round_up, UNIT_SIZE in *. rewrite u64_small by lia. apply Z.div_le_lower_bound; lia. }
  apply mem_alloc_loop_spec; [done|done|done| |vm_compute; done].
  split; try lia.
  destruct (decide (align = 0)); [by left|right]. by apply Z.mod_0_l.
Qed.

(** ** The control block invariant *)

(** Block [k] belongs to the allocation that starts at block [f]. *)
Definition owns (ctrl : block_ctrl) (f k : Z) : Prop :=
  0 <= f < BLOCK_SIZES /\ f <= k < f + (sizes ctrl).[f].

(** The bitmap and the sizes describe the same, disjoint allocations, which
    lie between the reserved blocks and the end of the slab. *)
Record ctrl_ok (ctrl : block_ctrl) : Prop := {
  co_bitmap : bitmap_wf (bitmap ctrl);
  co_sizes : len (sizes ctrl) = BLOCK_SIZES;
  co_nonneg : forall f, 0 <= f < BLOCK_SIZES -> 0 <= (sizes ctrl).[f];
  co_inside : forall f, 0 <= f < BLOCK_SIZES -> 0 < (sizes ctrl).[f] ->
    reserved <= f /\ f + (sizes ctrl).[f] <= BLOCK_SIZES;
  co_bits : forall k, 0 <= k < BLOCK_SIZES ->
    bit (bitmap ctrl) k = true <-> k < reserved \/ exists f, owns ctrl f k;
  co_disjoint : forall f g k, owns ctrl f k -> owns ctrl g k -> f = g
}.

Lemma bitmap_ext bm1 bm2 :
  words_ok bm1 -> words_ok bm2 -> length bm1 = length bm2 ->
  (forall k, 0 <= k < 64 * len bm1 -> bit bm1 k = bit bm2 k) -> bm1 = bm2.
Proof.
  intros H1 H2 Hlen H. apply arr_ext; [done|]. intros i Hi. apply Z.bits_inj'. intros j Hj.
  destruct (Z.lt_ge_cases j 64).
  - specialize (H (64 * i + j) ltac:(lia)). unfold bit in H.
    rewrite <- (Z.div_unique (64 * i + j) 64 i j), <- (Z.mod_unique (64 * i + j) 64 i j) in H by lia.
    done.
  - by rewrite !(testbit_range _ 64) by (apply words_get || lia; done).
Qed.

Section control_block.
Context (ctrl : block_ctrl) (Hok : ctrl_ok ctrl).

(** The block of a first fit is outside every allocation. *)
Lemma first_fit_props align n f :
  1 <= n -> first_fit (bitmap ctrl) align n = Some f ->
  reserved <= f /\ f + n <= BLOCK_SIZES /\ (align = 0 \/ f mod align = 0) /\
  (sizes ctrl).[f] = 0 /\
  forall k, f <= k < f + n -> bit (bitmap ctrl) k = false /\ forall g, ~ owns ctrl g k.
Proof.
  intros Hn Hf. apply List.find_some in Hf as [Hf%list_elem_of_In%elem_of_seqZ Hfit].
  change (BITMAP_LEN * QWORD_WIDTH) with 2048 in Hf.
  apply fits_spec in Hfit as (Hend & Hal & Hfree).
  pose proof (co_bits _ Hok) as Hbits. change BLOCK_SIZES with 2048 in *.
  assert (Hno : forall k, f <= k < f + n -> forall g, ~ owns ctrl g k).
  { intros k Hk g Hg. assert (bit (bitmap ctrl) k = true) as E.
    { apply Hbits; [lia|]. right. eauto. }
    rewrite Hfree in E by lia. done. }
  split_and!; [|lia|done| |].
  - destruct (Z.le_gt_cases reserved f); [done|exfalso].
    assert (bit (bitmap ctrl) f = true) as E by (apply Hbits; [lia|by left]).
    rewrite Hfree in E; [done|lia].
  - destruct (decide ((sizes ctrl).[f] = 0)) as [?|Hne]; [done|exfalso].
    pose proof (co_nonneg _ Hok f ltac:(done || lia)).
    apply (Hno f ltac:(lia) f). split; change BLOCK_SIZES with 2048; lia.
  - intros k Hk. split; [by apply Hfree|]. by apply Hno.
Qed.

(** Who owns what after blocks [f] to [f + n - 1] are taken. *)
Lemma owns_take f n g k :
  0 <= f < BLOCK_SIZES -> 0 <= n < 2 ^ 16 -> (sizes ctrl).[f] = 0 ->
  owns (take_blocks ctrl f n) g k <-> owns ctrl g k \/ (g = f /\ f <= k < f + n).
Proof.
  intros Hf Hn H0. pose proof (co_sizes _ Hok). unfold owns. simpl. rewrite u16_small by done.
  destruct (decide (g = f)) as [->|Hne].
  - rewrite arr_get_set_eq, H0 by lia. split; [|intros [?|?]]; intuition lia.
  - split.
    + intros [Hg Hk]. rewrite arr_get_set_ne in Hk by lia. auto.
    + intros [[Hg Hk]|[? _]]; [|done]. split; [done|]. by rewrite arr_get_set_ne by lia.
Qed.

Lemma take_blocks_ok f n :
  0 < n -> reserved <= f -> f + n <= BLOCK_SIZES -> (sizes ctrl).[f] = 0 ->
  (forall k, f <= k < f + n -> forall g, ~ owns ctrl g k) ->
  ctrl_ok (take_blocks ctrl f n).
Proof.
  intros Hn Hres Hend H0 Hno. assert (0 <= reserved) by done.
  pose proof (co_sizes _ Hok) as Hsz. pose proof (wf_length _ (co_bitmap _ Hok)) as Hlen.
  change BLOCK_SIZES with 2048 in *. change (BITMAP_LEN + 1) with 33 in Hlen.
  assert (Hown : forall g k, owns (take_blocks ctrl f n) g k <->
                   owns ctrl g k \/ (g = f /\ f <= k < f + n)).
  { intros. apply owns_take; change BLOCK_SIZES with 2048; done || lia. }
  destruct (set_bitmap_spec (bitmap ctrl) f n) as (L & W & B); [lia..|].
  split.
  - apply bitmap_wf_intro; simpl; [by rewrite L|by apply W, wf_words, Hok|].
    intros k Hk. rewrite B, (wf_bit_barrier _ _ (co_bitmap _ Hok)) by lia. zcases.
  - simpl. by rewrite length_arr_set.
  - intros g Hg. simpl. destruct (decide (g = f)) as [->|].
    + rewrite arr_get_set_eq by lia. apply Z.mod_pos_bound. lia.
    + rewrite arr_get_set_ne by (change BLOCK_SIZES with 2048 in *; lia). by apply (co_nonneg _ Hok).
  - intros g Hg. simpl. change BLOCK_SIZES with 2048 in *. destruct (decide (g = f)) as [->|].
    + rewrite arr_get_set_eq, u16_small by lia. lia.
    + rewrite arr_get_set_ne by lia. intros. by apply (co_inside _ Hok).
  - intros k Hk. simpl. change BLOCK_SIZES with 2048 in *. rewrite B by lia.
    pose proof (co_bits _ Hok k Hk) as Hbit. setoid_rewrite Hown.
    assert (Hcase : f <= k < f + n \/ ~ (f <= k < f + n)) by lia.
    destruct Hcase as [Hin|Hout].
    + replace ((f <=? k) && (k <? f + n)) with true by (symmetry; zcases).
      split; [|done]. intros _. right. exists f. by right.
    + replace ((f <=? k) && (k <? f + n)) with false by (symmetry; zcases).
      rewrite Hbit. split; intros [?|[g Hg]]; auto; right; exists g; intuition lia.
  - intros g h k. rewrite !Hown. intros [Hg|[-> Hg]] [Hh|[-> Hh]]; [|exfalso..|done].
    + by apply (co_disjoint _ Hok _ _ k).
    + by apply (Hno k Hh g).
    + by apply (Hno k Hg h).
Qed.

(** Releasing the allocation that starts at [f]. *)
Lemma release_ok f :
  0 <= f < BLOCK_SIZES -> 0 < (sizes ctrl).[f] ->
  ctrl_ok (mk_block_ctrl (clear_bitmap (bitmap ctrl) f ((sizes ctrl).[f])) ((sizes ctrl).[f <- 0])).
Proof.
  intros Hf Hpos. set (n := (sizes ctrl).[f]) in *.
  destruct (co_inside _ Hok f Hf Hpos) as [Hres Hend]. fold n in Hend.
  pose proof (co_sizes _ Hok) as Hsz. pose proof (wf_length _ (co_bitmap _ Hok)) as Hlen.
  change BLOCK_SIZES with 2048 in *. change (BITMAP_LEN + 1) with 33 in Hlen.
  set (ctrl' := mk_block_ctrl _ _).
  assert (Hown : forall g k, owns ctrl' g k <-> owns ctrl g k /\ g <> f).
  { intros g k. unfold owns, ctrl'. simpl. change BLOCK_SIZES with 2048.
    destruct (decide (g = f)) as [->|Hne].
    - rewrite arr_get_set_eq by lia. split; [intros [? ?]; lia|by intros [_ ?]].
    - split; [intros [Hg Hk]|intros [[Hg Hk] _]]; rewrite arr_get_set_ne in *; auto with lia. }
  assert (Hmine : forall k, f <= k < f + n -> owns ctrl f k) by (intros; by split).
  destruct (clear_bitmap_spec (bitmap ctrl) f n) as (L & W & B); [lia..|].
  split.
  - apply bitmap_wf_intro; simpl; [by rewrite L|by apply W, wf_words, Hok|].
    intros k Hk. rewrite B, (wf_bit_barrier _ _ (co_bitmap _ Hok)) by lia. zcases.
  - simpl. by rewrite length_arr_set.
  - intros g Hg. simpl. change BLOCK_SIZES with 2048 in *. destruct (decide (g = f)) as [->|].
    + rewrite arr_get_set_eq; lia.
    + rewrite arr_get_set_ne by lia. by apply (co_nonneg _ Hok).
  - intros g Hg. simpl. change BLOCK_SIZES with 2048 in *. destruct (decide (g = f)) as [->|].
    + rewrite arr_get_set_eq; lia.
    + rewrite arr_get_set_ne by lia. intros. by apply (co_inside _ Hok).
  - intros k Hk. simpl. change BLOCK_SIZES with 2048 in *. rewrite B by lia.
    pose proof (co_bits _ Hok k Hk) as Hbit. setoid_rewrite Hown.
    assert (Hcase : f <= k < f + n \/ ~ (f <= k < f + n)) by lia.
    destruct Hcase as [Hin|Hout].
    + replace ((f <=? k) && (k <? f + n)) with true by (symmetry; zcases).
      split; [done|]. intros [?|(g & Hg & Hne)]; [lia|]. destruct Hne.
      apply (co_disjoint _ Hok _ _ k); auto.
    + replace ((f <=? k) && (k <? f + n)) with false by (symmetry; zcases).
      rewrite Hbit. split; (intros [?|[g Hg]]; [by left|]); right; exists g; [split; [done|]|by destruct Hg].
      intros ->. destruct Hg. lia.
  - intros g h k. rewrite !Hown. intros [Hg _] [Hh _]. by apply (co_disjoint _ Hok _ _ k).
Qed.
End control_block.

(** A slab just set up by [init_slab_and_alloc] from zeroed memory. *)
Definition fresh_slab : block_ctrl :=
  init_slab zero_ctrl (QAE_NUM_PAGES_PER_ALLOC * QAE_PAGE_SIZE).

(** The bits of a concrete bitmap, checked by computation. *)
Lemma bit_forallb bm v a n k :
  forallb (fun k => Bool.eqb (bit bm k) v) (seqZ a n) = true -> a <= k < a + n -> bit bm k = v.
Proof.
  rewrite forallb_forall. intros H Hk. apply Bool.eqb_prop, H, list_elem_of_In, elem_of_seqZ. lia.
Qed.

Lemma fresh_slab_ok : ctrl_ok fresh_slab.
Proof.
  assert (Hsz : forall f, (sizes fresh_slab).[f] = 0).
  { intros f. unfold arr_get.
    change (sizes fresh_slab) with (replicate (Z.to_nat BLOCK_SIZES) 0). rewrite nth_lookup.
    destruct (_ !! Z.to_nat f) eqn:E; [|done]. by apply lookup_replicate in E as [-> _]. }
  assert (Hno : forall f k, ~ owns fresh_slab f k).
  { intros f k [_ H]. rewrite Hsz in H. lia. }
  split; [apply bitmap_wf_intro|..].
  - done.
  - apply List.Forall_forall. intros w Hw.
    assert (Hall : forallb (fun w => (0 <=? w) && (w <? 2 ^ 64)) (bitmap fresh_slab) = true)
      by (vm_compute; reflexivity).
    rewrite forallb_forall in Hall. specialize (Hall w Hw). breflect. done.
  - intros k Hk. apply (bit_forallb _ _ 2048 64); [vm_compute; done|lia].
  - done.
  - intros. by rewrite Hsz.
  - intros f Hf Hc. rewrite Hsz in Hc. lia.
  - intros k Hk. assert (k < reserved \/ reserved <= k) as [Hr|Hr] by lia.
    + split; [by left|]. intros _. apply (bit_forallb _ _ 0 reserved); [vm_compute; done|lia].
    + rewrite (bit_forallb _ false reserved (BLOCK_SIZES - reserved)); [|vm_compute; done|lia].
      split; [done|]. intros [?|[f Hf]]; [lia|by apply Hno in Hf].
  - intros f g k Hf. by apply Hno in Hf.
Qed.

(** The same slab after blocks 8 to 10 are taken. *)
Definition used_slab : block_ctrl := take_blocks fresh_slab 8 3.

Lemma used_slab_ok : ctrl_ok used_slab.
Proof.
  apply take_blocks_ok; [apply fresh_slab_ok|done..|].
  intros k Hk g Hg. assert (bit (bitmap fresh_slab) k = true) as Hb.
  { apply (co_bits _ fresh_slab_ok); [|by eauto].
    change BLOCK_SIZES with 2048. lia. }
  rewrite (bit_forallb _ false 8 3) in Hb; [done|vm_compute; done|lia].
Qed.

Lemma blocks_of_size size :
  0 < size < 2 ^ 64 - UNIT_SIZE ->
  1 <= div_round_up size UNIT_SIZE /\ size <= div_round_up size UNIT_SIZE * UNIT_SIZE < size + UNIT_SIZE.
Proof.
  unfold div_round_up, UNIT_SIZE. intros H. rewrite u64_small by lia. divmod (size + 1024 - 1) 1024. lia.
Qed.

(** The first block of an allocation, recovered from its address. *)
Lemma free_first_block addr f :
  0 < addr -> addr + BLOCK_SIZES * UNIT_SIZE <= 2 ^ 64 -> 0 <= f < BLOCK_SIZES ->
  u64 (addr + f * UNIT_SIZE - addr) / UNIT_SIZE = f.
Proof.
  unfold UNIT_SIZE. change BLOCK_SIZES with 2048. intros. rewrite u64_small by lia.
  replace (addr + f * 1024 - addr) with (f * 1024) by lia. by rewrite Z.div_mul.
Qed.

Lemma qae_mem_free_eq addr ctrl f secure :
  ctrl_ok ctrl -> 0 < addr -> addr mod UNIT_SIZE = 0 -> addr + BLOCK_SIZES * UNIT_SIZE <= 2 ^ 64 ->
  0 <= f < BLOCK_SIZES ->
  qae_mem_free addr ctrl (addr + f * UNIT_SIZE) secure =
  if (sizes ctrl).[f] =? 0 then (false, ctrl, None)
  else (true, mk_block_ctrl (clear_bitmap (bitmap ctrl) f ((sizes ctrl).[f])) ((sizes ctrl).[f <- 0]),
        if secure then Some (addr + f * UNIT_SIZE, (sizes ctrl).[f] * UNIT_SIZE) else None).
Proof.
  intros Hok Haddr Hmod Hend Hf. unfold qae_mem_free. rewrite free_first_block by done.
  assert (Hu : 0 < UNIT_SIZE) by done.
  destruct (Z.eqb_spec addr 0); [lia|]. destruct (Z.eqb_spec (addr + f * UNIT_SIZE) 0); [nia|].
  rewrite Z.mod_add, Hmod by done. cbn [orb negb Z.eqb].
  destruct (Z.eqb_spec ((sizes ctrl).[f]) 0) as [_|Hne]; [done|].
  pose proof (co_nonneg _ Hok f Hf). pose proof (co_inside _ Hok f Hf ltac:(lia)).
  change BLOCK_SIZES with (BITMAP_LEN * QWORD_WIDTH) in *.
  destruct (Z.ltb_spec (BITMAP_LEN * QWORD_WIDTH) ((sizes ctrl).[f] + f)); [lia|done].
Qed.

(** * Properties *)

(** C17. The 64-bit window search of [__qae_mem_alloc] terminates and is a
    first-fit search: it takes the lowest aligned run of free blocks that is
    large enough, and returns [NULL], leaving the slab as it was, exactly when
    there is none. *)
Theorem mem_alloc_first_fit block_addr ctrl size align :
  bitmap_wf (bitmap ctrl) -> block_addr <> 0 -> 0 < size < 2 ^ 64 - UNIT_SIZE -> 0 <= align ->
  qae_mem_alloc block_addr ctrl size align =
  Some (first_fit_alloc block_addr ctrl align (div_round_up size UNIT_SIZE)).
Proof. apply qae_mem_alloc_eq. Qed.

Lemma mem_alloc_first_fit_witness :
  qae_mem_alloc 0x200000 fresh_slab 3000 4 =
  Some (first_fit_alloc 0x200000 fresh_slab 4 (div_round_up 3000 UNIT_SIZE)) /\
  option_map fst (qae_mem_alloc 0x200000 fresh_slab 3000 4) = Some (0x200000 + 8 * 1024).
Proof.
  split; [|vm_compute; reflexivity].
  apply (mem_alloc_first_fit 0x200000 fresh_slab 3000 4); [apply fresh_slab_ok|done|done|done].
Defined.

(** Allocation keeps the slab consistent and allocations never overlap: a
    returned block is made of whole blocks of 1 KB that cover the request, lies
    after the control structure and inside the slab, is aligned, and belonged
    to no allocation; every other allocation is unchanged. *)
Theorem mem_alloc_safe block_addr ctrl size align :
  ctrl_ok ctrl -> block_addr <> 0 -> 0 < size < 2 ^ 64 - UNIT_SIZE -> 0 <= align ->
  exists retval ctrl', qae_mem_alloc block_addr ctrl size align = Some (retval, ctrl') /\ ctrl_ok ctrl' /\
    ((retval = 0 /\ ctrl' = ctrl) \/
     exists f n, retval = block_addr + f * UNIT_SIZE /\ size <= n * UNIT_SIZE < size + UNIT_SIZE /\
       reserved <= f /\ f + n <= BLOCK_SIZES /\ (align = 0 \/ f mod align = 0) /\
       (forall g k, f <= k < f + n -> ~ owns ctrl g k) /\
       (forall g k, owns ctrl' g k <-> owns ctrl g k \/ (g = f /\ f <= k < f + n))).
Proof.
  intros Hok Haddr Hsize Hal. rewrite qae_mem_alloc_eq by (done || apply Hok).
  unfold first_fit_alloc. destruct (blocks_of_size size Hsize) as [Hn Hcover].
  set (n := div_round_up size UNIT_SIZE) in *.
  destruct (first_fit _ _ _) as [f|] eqn:Hf; [|exists 0, ctrl; auto].
  destruct (first_fit_props ctrl Hok align n f Hn Hf) as (Hres & Hend & Half & H0 & Hfree).
  assert (0 <= reserved) by done. change BLOCK_SIZES with 2048 in Hend.
  eexists _, _. split; [done|]. split.
  { apply take_blocks_ok; try done; [lia|]. intros k Hk. apply Hfree. done. }
  right. exists f, n. split_and!; try done; try lia.
  - intros g k Hk. by apply Hfree.
  - intros g k. apply owns_take; try done; change BLOCK_SIZES with 2048; lia.
Qed.

Lemma mem_alloc_safe_witness :
  exists retval ctrl', qae_mem_alloc 0x200000 fresh_slab 3000 4 = Some (retval, ctrl') /\ ctrl_ok ctrl'.
Proof.
  destruct (mem_alloc_safe 0x200000 fresh_slab 3000 4) as (r & c & H & Hc & _).
  - apply fresh_slab_ok.
  - done.
  - done.
  - done.
  - eauto.
Defined.

(** C18. Releasing a block just allocated, in a consistent slab, restores the slab exactly,
    bitmap and sizes, and reports success, and a secure release zeroes all of the block; a
    second release of the same block is refused and changes nothing. *)
Theorem mem_free_alloc block_addr ctrl size align retval ctrl' secure :
  ctrl_ok ctrl -> 0 < block_addr -> block_addr mod UNIT_SIZE = 0 ->
  block_addr + BLOCK_SIZES * UNIT_SIZE <= 2 ^ 64 ->
  0 < size < 2 ^ 64 - UNIT_SIZE -> 0 <= align ->
  qae_mem_alloc block_addr ctrl size align = Some (retval, ctrl') -> retval <> 0 ->
  qae_mem_free block_addr ctrl' retval secure =
    (true, ctrl, if secure then Some (retval, div_round_up size UNIT_SIZE * UNIT_SIZE) else None) /\
  qae_mem_free block_addr ctrl retval secure = (false, ctrl, None).
Proof.
  intros Hok Haddr Hmod Hend Hsize Hal Halloc Hnz.
  rewrite qae_mem_alloc_eq in Halloc by (done || lia || apply Hok).
  destruct (blocks_of_size size Hsize) as [Hn _]. set (n := div_round_up size UNIT_SIZE) in *.
  unfold first_fit_alloc in Halloc. destruct (first_fit _ _ _) as [f|] eqn:Hf; [|congruence].
  injection Halloc as <- <-. assert (0 <= reserved) by done.
  destruct (first_fit_props ctrl Hok align n f Hn Hf) as (Hres & Hfn & _ & H0 & Hfree).
  pose proof (co_sizes _ Hok) as Hsz. pose proof (wf_length _ (co_bitmap _ Hok)) as Hlen.
  change (BITMAP_LEN + 1) with 33 in Hlen. change BLOCK_SIZES with 2048 in *.
  split; [|rewrite qae_mem_free_eq by (done || change BLOCK_SIZES with 2048; lia); by rewrite H0].
  rewrite qae_mem_free_eq; try done; try (change BLOCK_SIZES with 2048; lia).
  2:{ apply take_blocks_ok; try done; [lia|]. intros k Hk. by apply Hfree. }
  simpl. rewrite arr_get_set_eq, u16_small, arr_set_set by lia.
  destruct (Z.eqb_spec n 0); [lia|]. f_equal. f_equal.
  destruct ctrl as [bm sz]. simpl in *. f_equal.
  - destruct (set_bitmap_spec bm f n) as (L & W & B); [lia..|].
    destruct (clear_bitmap_spec (set_bitmap bm f n) f n) as (L' & W' & B'); [rewrite ?L; lia..|].
    pose proof (wf_words _ (co_bitmap _ Hok)) as Hw.
    apply bitmap_ext; [by apply W', W|done|congruence|].
    intros k Hk. rewrite B', B by lia. zcases. symmetry. apply Hfree. lia.
  - rewrite <- H0. apply arr_set_get.
Qed.

Lemma mem_free_alloc_witness :
  qae_mem_free 0x200000
    (default fresh_slab (option_map snd (qae_mem_alloc 0x200000 fresh_slab 3000 4)))
    (0x200000 + 8 * 1024) true = (true, fresh_slab, Some (0x200000 + 8 * 1024, 3072)) /\
  qae_mem_free 0x200000 fresh_slab (0x200000 + 8 * 1024) true = (false, fresh_slab, None).
Proof.
  apply (mem_free_alloc 0x200000 fresh_slab 3000 4 (0x200000 + 8 * 1024) _ true).
  - apply fresh_slab_ok.
  - done.
  - done.
  - done.
  - done.
  - done.
  - vm_compute. reflexivity.
  - done.
Defined.

(** [__qae_mem_free] on a block address keeps the slab consistent, releases
    exactly the blocks of that allocation, and refuses (changing nothing) an
    address where no allocation starts; in particular a second free of the
    same block is refused. *)
Theorem mem_free_safe block_addr ctrl f secure :
  ctrl_ok ctrl -> 0 < block_addr -> block_addr mod UNIT_SIZE = 0 ->
  block_addr + BLOCK_SIZES * UNIT_SIZE <= 2 ^ 64 -> 0 <= f < BLOCK_SIZES ->
  let block := block_addr + f * UNIT_SIZE in
  let '(ok, ctrl', zeroed) := qae_mem_free block_addr ctrl block secure in
  ctrl_ok ctrl' /\
  (ok = true <-> exists k, owns ctrl f k) /\
  (forall g k, owns ctrl' g k <-> owns ctrl g k /\ g <> f) /\
  (ok = false -> ctrl' = ctrl /\ zeroed = None) /\
  qae_mem_free block_addr ctrl' block secure = (false, ctrl', None).
Proof.
  intros Hok Haddr Hmod Hend Hf block. unfold block.
  rewrite qae_mem_free_eq by done. pose proof (co_nonneg _ Hok f Hf) as Hnn.
  pose proof (co_sizes _ Hok) as Hsz.
  destruct (Z.eqb_spec ((sizes ctrl).[f]) 0) as [E|E].
  - split_and!; try done.
    + split; [done|]. intros [k [_ Hk]]. lia.
    + intros g k. split; [|by intros [? _]]. intros Hg. split; [done|]. intros ->. destruct Hg. lia.
    + rewrite qae_mem_free_eq by done. by rewrite E.
  - assert (Hrel := release_ok ctrl Hok f Hf ltac:(lia)). split_and!; try done.
    + split; [|done]. intros _. exists f. split; [done|lia].
    + intros g k. unfold owns. simpl. destruct (decide (g = f)) as [->|Hne].
      * rewrite arr_get_set_eq by lia. split; [intros [? ?]; lia|by intros [_ ?]].
      * split; [intros [Hg Hk]|intros [[Hg Hk] _]]; rewrite arr_get_set_ne in *; auto with lia.
    + rewrite qae_mem_free_eq by done. simpl. by rewrite arr_get_set_eq by lia.
Qed.

Lemma mem_free_safe_witness :
  ctrl_ok (qae_mem_free 0x200000 used_slab (0x200000 + 8 * UNIT_SIZE) true).1.2 /\
  (qae_mem_free 0x200000 used_slab (0x200000 + 8 * UNIT_SIZE) true).1.1 = true.
Proof.
  split; [|vm_compute; reflexivity].
  pose proof (mem_free_safe 0x200000 used_slab 8 true used_slab_ok ltac:(done) ltac:(done)
    ltac:(done) ltac:(done)) as H. cbv zeta in H.
  destruct (qae_mem_free _ _ (_ + 8 * _) _) as [[ok c] z]. apply H.
Defined.
