(* ===== verification/Iova.v ===== *)
(** * The I/O virtual address allocator of the VFIO back end

    [qae_mem_utils_vfio.c] gives every memory slab a range of I/O virtual
    addresses (IOVA), in units of 2 MB, and records the used units in the bitmap
    [iova_used].  This file models the bitmap, the reservation of a range with
    its rollback, its release, the search of [allocate_iova] and the exclusion
    of the ranges the IOMMU cannot map ([filter_range]).  It shows that a range
    is reserved as a whole or not at all, that an allocated range was free and
    is inside the address space, that the search finds a free range when there
    is one, and which units are excluded. *)

From S2P Require Import Prelude Bitmap.

Definition IOVA_BITS : Z := 39.
Definition SLAB_BITS : Z := 21.
Definition IOVA_SLAB_SIZE : Z := Z.shiftl 1 SLAB_BITS.
Definition FIRST_IOVA : Z := IOVA_SLAB_SIZE.
Definition NUM_IOVA_SLABS : Z := Z.shiftl 1 (IOVA_BITS - SLAB_BITS).
Definition MAX_IOVA : Z := Z.shiftl 1 IOVA_BITS - IOVA_SLAB_SIZE.

Definition IOVA_IDX (iova : Z) : Z :=
  Z.land (Z.shiftr iova SLAB_BITS) (Z.shiftl 1 (IOVA_BITS - SLAB_BITS) - 1).

(** ** The bitmap of used units: an array of [uint32_t] *)

Definition bit_is_set (used : list Z) (index : Z) : bool :=
  negb (Z.land (used.[index / 32]) (Z.shiftl 1 (index mod 32)) =? 0).
Definition set_bit (used : list Z) (index : Z) : list Z :=
  used.[index / 32 <- Z.lor (used.[index / 32]) (Z.shiftl 1 (index mod 32))].
Definition clear_bit (used : list Z) (index : Z) : list Z :=
  used.[index / 32 <- Z.land (used.[index / 32]) (not32 (Z.shiftl 1 (index mod 32)))].

(** The loop of [iova_reserve]: it stops at the first used unit, and returns
    the number of units it reserved and the unit it stopped at.  [n] is
    [num_slabs - count]. *)
Fixpoint reserve_loop (n : nat) (used : list Z) (slab count : Z) : list Z * Z * Z :=
  match n with
  | O => (used, slab, count)
  | S n =>
      if bit_is_set used slab then (used, slab, count)
      else reserve_loop n (set_bit used slab) (slab + 1) (count + 1)
  end.

(** [while (count-- > 0) { slab--; clear_bit(iova_used, slab); }] *)
Fixpoint revert_loop (count : nat) (used : list Z) (slab : Z) : list Z :=
  match count with
  | O => used
  | S count => revert_loop count (clear_bit used (slab - 1)) (slab - 1)
  end.

(** [iova_reserve]: 0 when the range was reserved, 1 otherwise. *)
Definition iova_reserve (used : list Z) (iova size : Z) : Z * list Z :=
  let slab := IOVA_IDX iova in
  let num_slabs := div_round_up size IOVA_SLAB_SIZE in
  if MAX_IOVA <? u64 (u64 (iova + size) - IOVA_SLAB_SIZE) then (1, used)
  else
    let '(used, slab, count) := reserve_loop (Z.to_nat num_slabs) used slab 0 in
    if count <? num_slabs then (1, revert_loop (Z.to_nat count) used slab)
    else (0, used).

Fixpoint release_loop (n : nat) (used : list Z) (slab : Z) : list Z :=
  match n with
  | O => used
  | S n => release_loop n (clear_bit used slab) (slab + 1)
  end.

Definition iova_release (used : list Z) (iova size : Z) : list Z :=
  let slab := IOVA_IDX iova in
  let num_slabs := Z.shiftr (u32 (size + Z.shiftl 1 SLAB_BITS - 1)) SLAB_BITS in
  release_loop (Z.to_nat num_slabs) used slab.

(** ** Choosing an address *)

(** The file's static variables. *)
Record iova_state := mk_iova_state { iova_used : list Z; next_iova : Z }.
#[global] Instance eta_iova_state : Eta iova_state :=
  fun s => mk_iova_state (iova_used s) (next_iova s).

(** The loop of [allocate_iova]; [tries] is the number of tries left. *)
Fixpoint allocate_loop (tries : nat) (st : iova_state) (size alignment iova : Z) : Z * iova_state :=
  match tries with
  | O => (0, st)
  | S tries =>
      let '(failed, used) := iova_reserve (iova_used st) iova size in
      let st := st <| iova_used := used |> in
      if negb (failed =? 0) then
        let iova := u64 (iova + alignment) in
        let iova := if MAX_IOVA <? iova then round_up FIRST_IOVA alignment else iova in
        allocate_loop tries st size alignment iova
      else
        let next := u64 (iova + round_up size IOVA_SLAB_SIZE) in
        let next := if MAX_IOVA <? next then FIRST_IOVA else next in
        (iova, st <| next_iova := next |>)
  end.

Definition allocate_iova (st : iova_state) (size alignment : Z) : Z * iova_state :=
  let alignment := u32 (round_up alignment IOVA_SLAB_SIZE) in
  let iova := round_up (next_iova st) alignment in
  allocate_loop (Z.to_nat (MAX_IOVA / alignment)) st size alignment iova.

(** ** Excluding what the IOMMU cannot map *)

(** [while (next < MIN(start, MAX_IOVA)) { set_bit(...); next += IOVA_SLAB_SIZE; }] *)
Fixpoint exclude_loop (fuel : nat) (used : list Z) (next bound : Z) : list Z * Z :=
  match fuel with
  | O => (used, next)
  | S fuel =>
      if next <? bound then
        exclude_loop fuel (set_bit used (IOVA_IDX next)) (u64 (next + IOVA_SLAB_SIZE)) bound
      else (used, next)
  end.

(** The loop passes once over the units from [next] to [bound]. *)
Definition exclude_fuel (next bound : Z) : nat := Z.to_nat ((bound - next) / IOVA_SLAB_SIZE + 1).

(** [filter_range]: the bitmap and [*next_start] afterwards, for the ranges
    (first and last address) that the IOMMU reports. *)
Fixpoint filter_range (used : list Z) (next : Z) (iova_ranges : list (Z * Z)) : list Z * Z :=
  match iova_ranges with
  | [] => (used, next)
  | (start, end_) :: iova_ranges =>
      let bound := Z.min start MAX_IOVA in
      let '(used, next) := exclude_loop (exclude_fuel next bound) used next bound in
      if MAX_IOVA <=? end_ then (used, next)
      else filter_range used (Z.land (u64 (end_ + 1)) (not64 (IOVA_SLAB_SIZE - 1))) iova_ranges
  end.

(** * Proofs *)

(** ** The bitmap as a set of units *)

(** Whether unit [k] is used. *)
Definition ubit (used : list Z) (k : Z) : bool := Z.testbit (used.[k / 32]) (k mod 32).

Record used_wf (used : list Z) : Prop := {
  wf_used_len : len used = NUM_IOVA_SLABS / 32;
  wf_used_words : Forall (fun w => 0 <= w < 2 ^ 32) used
}.

Lemma used_word used i : used_wf used -> 0 <= used.[i] < 2 ^ 32.
Proof.
  intros [_ Hw]. unfold arr_get.
  destruct (nth_in_or_default (Z.to_nat i) used 0) as [Hin| ->]; [|lia].
  by apply (proj1 (List.Forall_forall _ _) Hw).
Qed.

Lemma ubit_index k : 0 <= k < NUM_IOVA_SLABS -> 0 <= k / 32 < NUM_IOVA_SLABS / 32.
Proof. change (NUM_IOVA_SLABS / 32) with 8192. change NUM_IOVA_SLABS with 262144. intros. divmod k 32. lia. Qed.

Lemma ubit_ext used1 used2 :
  used_wf used1 -> used_wf used2 ->
  (forall k, 0 <= k < NUM_IOVA_SLABS -> ubit used1 k = ubit used2 k) -> used1 = used2.
Proof.
  intros W1 W2 H. apply arr_ext.
  { apply Nat2Z.inj. by rewrite (wf_used_len _ W1), (wf_used_len _ W2). }
  rewrite (wf_used_len _ W1). change (NUM_IOVA_SLABS / 32) with 8192. intros i Hi.
  apply Z.bits_inj'. intros b Hb. destruct (Z.lt_ge_cases b 32).
  - specialize (H (i * 32 + b)). unfold ubit in H.
    rewrite Z.div_add_l, (Z.div_small b), Z.add_0_r in H by lia.
    rewrite Z.add_comm, Z.mod_add, Z.mod_small in H by lia. apply H.
    change NUM_IOVA_SLABS with 262144. lia.
  - by rewrite !(testbit_range _ 32) by (lia || by apply used_word).
Qed.

Lemma testbit_pow2 i j : 0 <= i -> 0 <= j -> Z.testbit (Z.shiftl 1 i) j = (j =? i).
Proof.
  intros. rewrite Z.shiftl_1_l, Z.pow2_bits_eqb by done. apply Z.eqb_sym.
Qed.

Lemma bit_is_set_spec used k : bit_is_set used k = ubit used k.
Proof.
  unfold bit_is_set, ubit. pose proof (Z.mod_pos_bound k 32 ltac:(lia)).
  rewrite Z.shiftl_1_l. destruct (Z.eqb_spec (Z.land (used.[k / 32]) (2 ^ (k mod 32))) 0) as [E|E].
  - symmetry. apply (f_equal (fun z => Z.testbit z (k mod 32))) in E.
    by rewrite Z.land_spec, Z.pow2_bits_true, andb_true_r, Z.bits_0 in E by lia.
  - destruct (Z.testbit (used.[k / 32]) (k mod 32)) eqn:T; [done|]. exfalso. apply E.
    apply Z.bits_inj'. intros b Hb. rewrite Z.land_spec, Z.bits_0, Z.pow2_bits_eqb by lia.
    destruct (Z.eqb_spec (k mod 32) b) as [<-|]; [by rewrite T|apply andb_false_r].
Qed.

(** Two units are the same when they have the same word and bit. *)
Lemma unit_eqb j k : (j =? k) = (j / 32 =? k / 32) && (j mod 32 =? k mod 32).
Proof. divmod j 32. divmod k 32. destruct (Z.eqb_spec j k) as [->|]; zcases. Qed.

(** Writing the word of unit [k] with a word operation on its bit. *)
Lemma ubit_update used k j v w :
  used_wf used -> 0 <= k < NUM_IOVA_SLABS -> 0 <= j ->
  (forall b, 0 <= b < 32 ->
     Z.testbit w b = if b =? k mod 32 then v else Z.testbit (used.[k / 32]) b) ->
  ubit (used.[k / 32 <- w]) j = if j =? k then v else ubit used j.
Proof.
  intros W Hk Hj Hw. pose proof (ubit_index _ Hk). unfold ubit. rewrite (unit_eqb j k).
  pose proof (Z.mod_pos_bound j 32 ltac:(lia)).
  destruct (Z.eqb_spec (j / 32) (k / 32)) as [E|E].
  - rewrite E, arr_get_set_eq by (rewrite (wf_used_len _ W); lia). by apply Hw.
  - rewrite arr_get_set_ne; [done|lia| |done]. apply Z.div_pos; lia.
Qed.

Lemma used_wf_update used i w : used_wf used -> 0 <= w < 2 ^ 32 -> used_wf (used.[i <- w]).
Proof.
  intros [Hl Hw] ?. split; [by rewrite length_arr_set|]. unfold arr_set. by apply Forall_insert.
Qed.

Lemma set_bit_spec used k :
  used_wf used -> 0 <= k < NUM_IOVA_SLABS ->
  used_wf (set_bit used k) /\
  forall j, 0 <= j -> ubit (set_bit used k) j = if j =? k then true else ubit used j.
Proof.
  intros W Hk. pose proof (Z.mod_pos_bound k 32 ltac:(lia)).
  pose proof (used_word _ (k / 32) W). split.
  - apply used_wf_update; [done|]. apply bits_range; [lia|apply Z.lor_nonneg; split;
      [lia|apply Z.shiftl_nonneg; lia]|]. intros i Hi.
    rewrite Z.lor_spec, testbit_pow2, (testbit_range _ 32) by lia. zcases.
  - intros j Hj. apply ubit_update; [done..|]. intros b Hb.
    rewrite Z.lor_spec, testbit_pow2 by lia. destruct (b =? k mod 32); btauto.
Qed.

Lemma clear_bit_spec used k :
  used_wf used -> 0 <= k < NUM_IOVA_SLABS ->
  used_wf (clear_bit used k) /\
  forall j, 0 <= j -> ubit (clear_bit used k) j = if j =? k then false else ubit used j.
Proof.
  intros W Hk. pose proof (Z.mod_pos_bound k 32 ltac:(lia)).
  pose proof (used_word _ (k / 32) W). split.
  - apply used_wf_update; [done|]. apply bits_range; [lia|apply Z.land_nonneg; lia|]. intros i Hi.
    by rewrite Z.land_spec, (testbit_range _ 32) by lia.
  - intros j Hj. apply ubit_update; [done..|]. intros b Hb. unfold not32.
    rewrite Z.land_spec, testbit_u32, Z.lnot_spec, testbit_pow2 by lia.
    destruct (b =? k mod 32); zcases; btauto.
Qed.

(** ** Ranges of units *)

(** [used'] is [used] with the [n] units from [k] written to [v]. *)
Definition range_set (used used' : list Z) (k n : Z) (v : bool) : Prop :=
  used_wf used' /\
  forall j, 0 <= j -> ubit used' j = if (k <=? j) && (j <? k + n) then v else ubit used j.

(** The [n] units from [k] are free. *)
Definition range_free (used : list Z) (k n : Z) : bool :=
  forallb (fun j => negb (ubit used j)) (seqZ k n).

Lemma range_free_spec used k n :
  range_free used k n = true <-> forall j, k <= j < k + n -> ubit used j = false.
Proof.
  unfold range_free. rewrite forallb_seqZ. by setoid_rewrite negb_true_iff.
Qed.

Lemma range_free_false used k n j :
  k <= j < k + n -> ubit used j = true -> range_free used k n = false.
Proof.
  intros Hj Hu. apply not_true_iff_false. rewrite range_free_spec. intros H.
  by rewrite H in Hu.
Qed.

Lemma range_set_refl used k v : used_wf used -> range_set used used k 0 v.
Proof. intros. split; [done|]. intros. zcases. Qed.

Lemma reserve_loop_spec n used slab count :
  used_wf used -> 0 <= slab -> slab + Z.of_nat n <= NUM_IOVA_SLABS ->
  exists m used', 0 <= m <= Z.of_nat n /\
    reserve_loop n used slab count = (used', slab + m, count + m) /\
    range_set used used' slab m true /\ range_free used slab m = true /\
    (m < Z.of_nat n -> ubit used (slab + m) = true).
Proof.
  revert used slab count. induction n as [|n IH]; intros used slab count W Hs Hn; simpl reserve_loop.
  - exists 0, used. rewrite !Z.add_0_r. split_and!; try lia; [done|by apply range_set_refl|done].
  - rewrite bit_is_set_spec. destruct (ubit used slab) eqn:Hb.
    + exists 0, used. rewrite !Z.add_0_r.
      split_and!; try lia; [done|by apply range_set_refl|done|done].
    + destruct (set_bit_spec used slab W) as [W1 H1]; [lia|].
      destruct (IH (set_bit used slab) (slab + 1) (count + 1)) as (m & used' & Hm & -> & [W' H'] & Hf & Hu);
        [done|lia|lia|].
      exists (m + 1), used'. split_and!; try lia.
      * by rewrite <- !Z.add_assoc, (Z.add_comm 1 m).
      * split; [done|]. intros j Hj. rewrite H', H1 by done. zcases.
      * apply range_free_spec. intros j Hj. rewrite range_free_spec in Hf.
        destruct (decide (j = slab)) as [->|]; [done|].
        specialize (Hf j ltac:(lia)). rewrite H1 in Hf by lia.
        revert Hf. zcases.
      * intros Hlt. specialize (Hu ltac:(lia)). rewrite H1 in Hu by lia.
        replace (slab + (m + 1)) with (slab + 1 + m) by lia. revert Hu. zcases.
Qed.

Lemma revert_loop_spec n used slab :
  used_wf used -> Z.of_nat n <= slab <= NUM_IOVA_SLABS ->
  range_set used (revert_loop n used slab) (slab - Z.of_nat n) (Z.of_nat n) false.
Proof.
  revert used slab. induction n as [|n IH]; intros used slab W Hs; simpl revert_loop.
  - by apply range_set_refl.
  - destruct (clear_bit_spec used (slab - 1) W) as [W1 H1]; [lia|].
    destruct (IH (clear_bit used (slab - 1)) (slab - 1)) as [W' H']; [done|lia|].
    split; [done|]. intros j Hj. rewrite H', H1 by done. zcases.
Qed.

Lemma release_loop_spec n used slab :
  used_wf used -> 0 <= slab -> slab + Z.of_nat n <= NUM_IOVA_SLABS ->
  range_set used (release_loop n used slab) slab (Z.of_nat n) false.
Proof.
  revert used slab. induction n as [|n IH]; intros used slab W Hs Hn; simpl release_loop.
  - by apply range_set_refl.
  - destruct (clear_bit_spec used slab W) as [W1 H1]; [lia|].
    destruct (IH (clear_bit used slab) (slab + 1)) as [W' H']; [done|lia|lia|].
    split; [done|]. intros j Hj. rewrite H', H1 by done. zcases.
Qed.

(** Clearing a range that was free and then set gives back the bitmap. *)
Lemma range_set_clear used used1 used2 k n :
  used_wf used -> range_free used k n = true ->
  range_set used used1 k n true -> range_set used1 used2 k n false -> used2 = used.
Proof.
  intros W Hf [_ H1] [W2 H2]. apply ubit_ext; [done..|]. intros j Hj.
  rewrite H2, H1 by lia. rewrite range_free_spec in Hf.
  destruct ((k <=? j) && (j <? k + n)) eqn:E; [|done]. breflect. rewrite Hf; [done|lia].
Qed.

(** ** Reservation *)

(** The number of units that hold [size] bytes. *)
Definition units (size : Z) : Z := (size + 2 ^ 21 - 1) / 2 ^ 21.

(** The [size] bytes at [iova] are inside the address space and free. *)
Definition can_reserve (used : list Z) (iova size : Z) : bool :=
  (iova + size <=? 2 ^ 39) && range_free used (iova / 2 ^ 21) (units size).

Lemma iova_idx_spec iova : 0 <= iova < 2 ^ 39 -> IOVA_IDX iova = iova / 2 ^ 21.
Proof.
  intros. unfold IOVA_IDX. change (Z.shiftl 1 (IOVA_BITS - SLAB_BITS) - 1) with (Z.ones 18).
  rewrite Z.shiftr_div_pow2, Z.land_ones by (done || lia). change SLAB_BITS with 21.
  divmod iova (2 ^ 21). apply Z.mod_small. lia.
Qed.

Lemma units_spec size : 0 < size < 2 ^ 32 -> 1 <= units size <= 2 ^ 11 /\
  size <= units size * 2 ^ 21 < size + 2 ^ 21.
Proof. intros. unfold units. divmod (size + 2 ^ 21 - 1) (2 ^ 21). lia. Qed.

Lemma div_round_up_units size : 0 < size < 2 ^ 32 -> div_round_up size IOVA_SLAB_SIZE = units size.
Proof.
  intros. unfold div_round_up. change IOVA_SLAB_SIZE with (2 ^ 21). by rewrite u64_small by lia.
Qed.

(** A range of bytes that ends inside the address space covers existing units. *)
Lemma units_fit iova size :
  iova mod 2 ^ 21 = 0 -> 0 < size < 2 ^ 32 -> iova + size <= 2 ^ 39 ->
  iova / 2 ^ 21 + units size <= NUM_IOVA_SLABS.
Proof.
  intros Ha Hs Hfit. pose proof (units_spec size Hs). divmod iova (2 ^ 21).
  change NUM_IOVA_SLABS with (2 ^ 18). lia.
Qed.

Lemma iova_reserve_spec used iova size :
  used_wf used -> FIRST_IOVA <= iova < 2 ^ 40 -> iova mod 2 ^ 21 = 0 -> 0 < size < 2 ^ 32 ->
  if can_reserve used iova size then
    exists used', iova_reserve used iova size = (0, used') /\
      range_set used used' (iova / 2 ^ 21) (units size) true
  else iova_reserve used iova size = (1, used).
Proof.
  intros W Hi Ha Hs. change FIRST_IOVA with (2 ^ 21) in Hi. pose proof (units_spec size Hs).
  unfold iova_reserve, can_reserve. rewrite div_round_up_units by done.
  rewrite (u64_small (iova + size)), u64_small by (change IOVA_SLAB_SIZE with (2 ^ 21); lia).
  change IOVA_SLAB_SIZE with (2 ^ 21). change MAX_IOVA with (2 ^ 39 - 2 ^ 21).
  destruct (Z.leb_spec (iova + size) (2 ^ 39)) as [Hfit|Hfit].
  2:{ destruct (Z.ltb_spec (2 ^ 39 - 2 ^ 21) (iova + size - 2 ^ 21)); [done|lia]. }
  destruct (Z.ltb_spec (2 ^ 39 - 2 ^ 21) (iova + size - 2 ^ 21)); [lia|]. cbn [andb].
  rewrite iova_idx_spec by lia. pose proof (units_fit iova size Ha Hs Hfit).
  assert (0 <= iova / 2 ^ 21) by (apply Z.div_pos; lia).
  destruct (reserve_loop_spec (Z.to_nat (units size)) used (iova / 2 ^ 21) 0)
    as (m & used' & Hm & -> & Hset & Hfree & Hstop); [done|done|lia|].
  rewrite Z2Nat.id in * by lia. rewrite Z.add_0_l.
  destruct (Z.ltb_spec m (units size)) as [Hlt|Hge].
  - rewrite (range_free_false _ _ _ (iova / 2 ^ 21 + m)); [|lia|auto]. f_equal.
    destruct (revert_loop_spec (Z.to_nat m) used' (iova / 2 ^ 21 + m)) as [W2 Hrev];
      [apply Hset|lia|].
    rewrite Z2Nat.id, Z.add_simpl_r in Hrev by lia.
    by eapply range_set_clear; [..|split].
  - replace m with (units size) in * by lia. rewrite Hfree. eauto.
Qed.

Lemma iova_release_spec used iova size :
  used_wf used -> 0 <= iova -> iova mod 2 ^ 21 = 0 -> 0 < size <= 2 ^ 32 - 2 ^ 21 ->
  iova + size <= 2 ^ 39 ->
  range_set used (iova_release used iova size) (iova / 2 ^ 21) (units size) false.
Proof.
  intros W Hi Ha Hs Hfit. pose proof (units_spec size ltac:(lia)).
  pose proof (units_fit iova size Ha ltac:(lia) Hfit).
  assert (0 <= iova / 2 ^ 21) by (apply Z.div_pos; lia).
  unfold iova_release. change (Z.shiftl 1 SLAB_BITS) with (2 ^ 21). rewrite u32_small by lia.
  rewrite Z.shiftr_div_pow2 by done. change SLAB_BITS with 21.
  change ((size + 2 ^ 21 - 1) / 2 ^ 21) with (units size). rewrite iova_idx_spec by lia.
  pose proof (release_loop_spec (Z.to_nat (units size)) used (iova / 2 ^ 21)) as R.
  rewrite Z2Nat.id in R by lia. by apply R.
Qed.

(** ** The search *)

Lemma round_up_spec n s : 0 < s <= 2 ^ 32 -> 0 <= n <= 2 ^ 40 ->
  exists q, 0 <= q /\ round_up n s = q * s /\ n <= q * s < n + s.
Proof.
  intros Hs Hn. exists ((n + s - 1) / s). divmod (n + s - 1) s. unfold round_up.
  assert (0 <= (n + s - 1) / s) by (apply Z.div_pos; lia).
  assert (n <= (n + s - 1) / s * s < n + s) by lia.
  rewrite (u64_small (n + s - 1)) by lia. rewrite u64_small by lia. done.
Qed.

(** The alignment that [allocate_iova] uses: a number of units. *)
Lemma alignment_spec alignment : 1 <= alignment <= 2 ^ 31 ->
  exists a, 1 <= a <= 2 ^ 10 /\ u32 (round_up alignment IOVA_SLAB_SIZE) = a * 2 ^ 21 /\
    alignment <= a * 2 ^ 21.
Proof.
  intros H. change IOVA_SLAB_SIZE with (2 ^ 21).
  destruct (round_up_spec alignment (2 ^ 21)) as (a & ? & -> & ?); [lia..|].
  exists a. rewrite u32_small by lia. lia.
Qed.

Section search.
Context (a : Z) (Ha : 1 <= a <= 2 ^ 10).
Abbreviation A := (a * 2 ^ 21).
Abbreviation Q := (MAX_IOVA / A).

(** The candidate after [q * A], as a multiple of [A]. *)
Definition next_cand (q : Z) : Z := if Q <? q + 1 then 1 else q + 1.

Lemma cand_bound q : q * A <= MAX_IOVA <-> q <= Q.
Proof using Ha. divmod MAX_IOVA (a * 2 ^ 21). nia. Qed.

Lemma cand_count : 1 <= Q <= 2 ^ 18.
Proof using Ha. change MAX_IOVA with (2 ^ 39 - 2 ^ 21). divmod (2 ^ 39 - 2 ^ 21) (a * 2 ^ 21). nia. Qed.

Lemma cand_range q : 1 <= q <= Q + 1 ->
  FIRST_IOVA <= q * A < 2 ^ 40 /\ (q * A) mod 2 ^ 21 = 0.
Proof using Ha.
  intros Hq. pose proof (cand_bound (q - 1)). change MAX_IOVA with (2 ^ 39 - 2 ^ 21) in *.
  change FIRST_IOVA with (2 ^ 21). split; [nia|]. rewrite Z.mul_assoc. apply Z.mod_mul. lia.
Qed.

Lemma next_cand_spec q : 1 <= q <= Q + 1 ->
  1 <= next_cand q <= Q /\
  (if MAX_IOVA <? u64 (q * A + A) then round_up FIRST_IOVA A else u64 (q * A + A)) = next_cand q * A.
Proof using Ha.
  intros Hq. pose proof cand_count. pose proof (cand_range q Hq) as [? _].
  rewrite u64_small by (change FIRST_IOVA with (2 ^ 21) in *; lia).
  pose proof (cand_bound (q + 1)) as Hb. unfold next_cand.
  replace (q * A + A) with ((q + 1) * A) by lia.
  destruct (Z.ltb_spec Q (q + 1)), (Z.ltb_spec MAX_IOVA ((q + 1) * A)); try lia.
  split; [lia|]. destruct (round_up_spec FIRST_IOVA A) as (k & ? & -> & ?);
    change FIRST_IOVA with (2 ^ 21) in *; [lia|lia|]. assert (k = 1) by nia. by subst.
Qed.

Lemma iter_cand_range j q : 1 <= q <= Q + 1 -> 1 <= Nat.iter j next_cand q <= Q + 1.
Proof using Ha.
  intros Hq. induction j as [|j IH]; [done|]. rewrite Nat.iter_succ.
  pose proof (next_cand_spec _ IH). lia.
Qed.

Lemma iter_cand_up j q : q + Z.of_nat j <= Q -> Nat.iter j next_cand q = q + Z.of_nat j.
Proof using Type.
  intros Hj. induction j as [|j IH]; [simpl; lia|]. rewrite Nat.iter_succ, IH by lia.
  unfold next_cand. zcases.
Qed.

(** The candidates pass over every multiple of [A] up to [MAX_IOVA], once the
    first one is below [MAX_IOVA]. *)
Lemma iter_cand_all q t : 1 <= q <= Q + 1 -> 1 <= t <= Q -> q <= Q \/ t < Q ->
  exists j, Z.of_nat j < Q /\ Nat.iter j next_cand q = t.
Proof using Ha.
  intros Hq Ht Hor. destruct (Z.le_gt_cases q t) as [Hle|Hgt].
  - exists (Z.to_nat (t - q)). rewrite iter_cand_up by lia. lia.
  - set (i := if decide (q <= Q) then Z.to_nat (Q - q) else O).
    assert (Hi : next_cand (Nat.iter i next_cand q) = 1).
    { unfold i. case_decide; [rewrite iter_cand_up by lia|simpl Nat.iter]; unfold next_cand; zcases. }
    exists (Z.to_nat (t - 1) + S i)%nat. split; [unfold i; case_decide; lia|].
    rewrite Nat.iter_add, Nat.iter_succ, Hi, iter_cand_up; lia.
Qed.

Lemma allocate_loop_spec tries st size q :
  used_wf (iova_used st) -> 0 < size < 2 ^ 32 -> 1 <= q <= Q + 1 ->
  let c j := Nat.iter j next_cand q * A in
  (allocate_loop tries st size A (q * A) = (0, st) /\
   forall j, (j < tries)%nat -> can_reserve (iova_used st) (c j) size = false) \/
  (exists j used' next', (j < tries)%nat /\
     allocate_loop tries st size A (q * A) = (c j, mk_iova_state used' next') /\
     can_reserve (iova_used st) (c j) size = true /\
     range_set (iova_used st) used' (c j / 2 ^ 21) (units size) true /\
     next' = (if MAX_IOVA <? c j + units size * 2 ^ 21 then FIRST_IOVA else c j + units size * 2 ^ 21)).
Proof using Ha.
  intros W Hs Hq c. subst c. cbv beta. revert q Hq. induction tries as [|tries IH]; intros q Hq.
  { left. split; [done|lia]. }
  destruct (cand_range q Hq) as [Hr Hm]. simpl allocate_loop.
  pose proof (iova_reserve_spec _ (q * A) size W Hr Hm Hs) as R.
  destruct (can_reserve (iova_used st) (q * A) size) eqn:C.
  - destruct R as (used' & -> & Hset). right. eexists 0%nat, used', _. cbn [Z.eqb negb].
    split_and!; [lia| |done|done|reflexivity]. simpl Nat.iter. unfold round_up.
    fold (div_round_up size IOVA_SLAB_SIZE). rewrite div_round_up_units by done.
    pose proof (units_spec size Hs). change IOVA_SLAB_SIZE with (2 ^ 21).
    change FIRST_IOVA with (2 ^ 21) in Hr.
    rewrite (u64_small (units size * 2 ^ 21)), u64_small by lia. done.
  - rewrite R. cbn [Z.eqb negb]. destruct (next_cand_spec q Hq) as [Hn ->].
    change (upd iova_used _ st) with (mk_iova_state (iova_used st) (next_iova st)).
    replace (mk_iova_state _ _) with st by (by destruct st).
    destruct (IH (next_cand q) ltac:(lia)) as [[-> Hall]|(j & used' & next' & Hj & -> & Hrest)].
    + left. split; [done|]. intros [|j] Hj; [done|]. rewrite Nat.iter_succ_r. apply Hall. lia.
    + right. exists (S j), used', next'. rewrite Nat.iter_succ_r. split; [lia|done].
Qed.
End search.

(** The bitmap is well formed and [next_iova] is a usable address. *)
Record iova_ok (st : iova_state) : Prop := {
  ok_used : used_wf (iova_used st);
  ok_next : FIRST_IOVA <= next_iova st <= MAX_IOVA
}.

(** What one call of [allocate_iova] does: nothing, after trying every candidate,
    or the reservation of an aligned free range. *)
Lemma allocate_iova_cases st size alignment :
  iova_ok st -> 0 < size < 2 ^ 32 -> 1 <= alignment <= 2 ^ 31 ->
  let A := u32 (round_up alignment IOVA_SLAB_SIZE) in
  let r := allocate_iova st size alignment in
  0 < A /\
  ((r = (0, st) /\
    forall c, c mod A = 0 -> FIRST_IOVA <= c <= MAX_IOVA ->
      round_up (next_iova st) A <= MAX_IOVA \/ c + A <= MAX_IOVA ->
      can_reserve (iova_used st) c size = false) \/
   (FIRST_IOVA <= r.1 /\ r.1 mod 2 ^ 21 = 0 /\ r.1 mod A = 0 /\ can_reserve (iova_used st) r.1 size = true /\
    range_set (iova_used st) (iova_used r.2) (r.1 / 2 ^ 21) (units size) true /\ iova_ok r.2)).
Proof.
  intros [W Hn] Hs Hal A r. subst A r. unfold allocate_iova.
  destruct (alignment_spec alignment Hal) as (a & Ha & -> & _).
  pose proof (cand_count a Ha) as HQ. pose proof (cand_bound a Ha) as Hb.
  change FIRST_IOVA with (2 ^ 21) in *. split; [lia|].
  destruct (round_up_spec (next_iova st) (a * 2 ^ 21)) as (q & Hq & -> & Hnq);
    [lia|change MAX_IOVA with (2 ^ 39 - 2 ^ 21) in *; lia|].
  assert (Hq1 : 1 <= q <= MAX_IOVA / (a * 2 ^ 21) + 1) by (specialize (Hb (q - 1)); nia).
  destruct (allocate_loop_spec a Ha (Z.to_nat (MAX_IOVA / (a * 2 ^ 21))) st size q W Hs Hq1)
    as [[-> Hall]|(j & used' & next' & Hj & -> & Hc & Hset & Hnext)].
  - left. split; [done|]. intros c Hc Hcr Hor.
    apply Z.mod_divide in Hc as [t ->]; [|lia].
    pose proof (Hb t). pose proof (Hb q). pose proof (Hb (t + 1)).
    destruct (iter_cand_all a Ha q t Hq1) as (j & Hj & <-); [nia| |apply Hall; lia].
    destruct Hor; [left; lia|right]. nia.
  - right. cbn [fst snd iova_used].
    destruct (cand_range a Ha _ (iter_cand_range a Ha j q Hq1)) as [Hr Hm].
    change FIRST_IOVA with (2 ^ 21) in *. split_and!; [lia|done|apply Z.mod_mul; lia|done|done|].
    split; [apply Hset|]. cbn [next_iova]. change FIRST_IOVA with (2 ^ 21).
    pose proof (units_spec size Hs). subst next'. change MAX_IOVA with (2 ^ 39 - 2 ^ 21).
    destruct (Z.ltb_spec (2 ^ 39 - 2 ^ 21)
      (Nat.iter j (next_cand a) q * (a * 2 ^ 21) + units size * 2 ^ 21)); lia.
Qed.

(** ** Exclusion *)

Lemma iova_idx_range next : 0 <= IOVA_IDX next < NUM_IOVA_SLABS.
Proof.
  unfold IOVA_IDX. change (Z.shiftl 1 (IOVA_BITS - SLAB_BITS) - 1) with (Z.ones 18).
  rewrite Z.land_ones by done. by apply Z.mod_pos_bound.
Qed.

(** Exclusion only adds used units. *)
Definition only_sets (used used' : list Z) : Prop :=
  used_wf used' /\ forall j, 0 <= j -> ubit used j = true -> ubit used' j = true.

Lemma exclude_loop_sets fuel used next bound :
  used_wf used -> only_sets used (exclude_loop fuel used next bound).1.
Proof.
  revert used next. induction fuel as [|fuel IH]; intros used next W; simpl; [done|].
  case_if; [|done]. destruct (set_bit_spec used _ W (iova_idx_range next)) as [W1 H1].
  destruct (IH _ (u64 (next + IOVA_SLAB_SIZE)) W1) as [W2 H2]. split; [done|].
  intros j Hj Hb. apply H2; [done|]. rewrite H1, Hb by done. by destruct (j =? _).
Qed.

Lemma filter_range_sets ranges used next :
  used_wf used -> only_sets used (filter_range used next ranges).1.
Proof.
  revert used next. induction ranges as [|[start end_] ranges IH]; intros used next W; simpl; [done|].
  pose proof (exclude_loop_sets (exclude_fuel next (Z.min start MAX_IOVA)) used next
    (Z.min start MAX_IOVA) W) as [W1 H1].
  destruct (exclude_loop _ _ _ _) as [used1 next1]. case_if; [done|].
  destruct (IH used1 (Z.land (u64 (end_ + 1)) (not64 (IOVA_SLAB_SIZE - 1))) W1) as [W2 H2].
  split; [done|]. auto.
Qed.

(** ** The live ranges *)

(** The allocator as it is used: ranges are allocated and released, and the
    units the IOMMU cannot map are excluded.  [live] holds the allocated ranges. *)
Inductive iova_step : iova_state * list (Z * Z) -> iova_state * list (Z * Z) -> Prop :=
| step_allocate st live size alignment iova st' :
    0 < size <= 2 ^ 32 - 2 ^ 21 -> 1 <= alignment <= 2 ^ 31 ->
    allocate_iova st size alignment = (iova, st') -> iova <> 0 ->
    iova_step (st, live) (st', (iova, size) :: live)
| step_allocate_fail st live size alignment st' :
    0 < size <= 2 ^ 32 - 2 ^ 21 -> 1 <= alignment <= 2 ^ 31 ->
    allocate_iova st size alignment = (0, st') -> iova_step (st, live) (st', live)
| step_release st l1 l2 iova size :
    iova_step (st, l1 ++ (iova, size) :: l2)
      (st <| iova_used := iova_release (iova_used st) iova size |>, l1 ++ l2)
| step_filter st live next iova_ranges :
    iova_step (st, live)
      (st <| iova_used := (filter_range (iova_used st) next iova_ranges).1 |>, live).

Definition iova_init : iova_state :=
  mk_iova_state (replicate (Z.to_nat (NUM_IOVA_SLABS / 32)) 0) FIRST_IOVA.

Definition disjoint_ranges (r1 r2 : Z * Z) : Prop := r1.1 + r1.2 <= r2.1 \/ r2.1 + r2.2 <= r1.1.

(** A live range: where it is, and its units are marked used. *)
Record range_ok (used : list Z) (r : Z * Z) : Prop := {
  rng_low : FIRST_IOVA <= r.1;
  rng_align : r.1 mod 2 ^ 21 = 0;
  rng_size : 0 < r.2 <= 2 ^ 32 - 2 ^ 21;
  rng_high : r.1 + r.2 <= 2 ^ 39;
  rng_used : forall k, r.1 / 2 ^ 21 <= k < r.1 / 2 ^ 21 + units r.2 -> ubit used k = true
}.

Definition units_disjoint (r1 r2 : Z * Z) : Prop :=
  r1.1 / 2 ^ 21 + units r1.2 <= r2.1 / 2 ^ 21 \/ r2.1 / 2 ^ 21 + units r2.2 <= r1.1 / 2 ^ 21.

Record live_ok (c : iova_state * list (Z * Z)) : Prop := {
  live_st : iova_ok c.1;
  live_ranges : Forall (range_ok (iova_used c.1)) c.2;
  live_disj : ForallOrdPairs units_disjoint c.2
}.

Lemma range_ok_sets used used' r :
  only_sets used used' -> range_ok used r -> range_ok used' r.
Proof.
  intros [_ H] [Hl Ha Hs Hh Hu]. split; [done..|]. intros k Hk. apply H; [|by apply Hu].
  change FIRST_IOVA with (2 ^ 21) in Hl. assert (0 <= r.1 / 2 ^ 21) by (apply Z.div_pos; lia). lia.
Qed.

Lemma range_set_sets used used' k n : range_set used used' k n true -> only_sets used used'.
Proof. intros [W H]. split; [done|]. intros j Hj Hb. rewrite H, Hb by done. by destruct (_ && _). Qed.

(** A range that was free shares no unit with a live one. *)
Lemma free_disjoint used r r' :
  range_ok used r' -> 0 < r.2 < 2 ^ 32 ->
  range_free used (r.1 / 2 ^ 21) (units r.2) = true -> units_disjoint r r'.
Proof.
  intros [_ _ Hs _ Hu] Hr Hf. rewrite range_free_spec in Hf. unfold units_disjoint.
  pose proof (units_spec r.2 Hr). pose proof (units_spec r'.2 ltac:(lia)).
  destruct (Z.le_gt_cases (r.1 / 2 ^ 21 + units r.2) (r'.1 / 2 ^ 21)) as [?|H1]; [by left|].
  destruct (Z.le_gt_cases (r'.1 / 2 ^ 21 + units r'.2) (r.1 / 2 ^ 21)) as [?|H2]; [by right|].
  exfalso. set (k := Z.max (r.1 / 2 ^ 21) (r'.1 / 2 ^ 21)).
  specialize (Hf k ltac:(lia)). rewrite Hu in Hf by lia. done.
Qed.

(** Releasing a range keeps the units of a range that is disjoint from it. *)
Lemma range_ok_release used r r' :
  used_wf used -> range_ok used r -> range_ok used r' -> units_disjoint r r' ->
  range_ok (iova_release used r.1 r.2) r'.
Proof.
  intros W [Hl Ha Hs Hh _] [Hl' Ha' Hs' Hh' Hu'] Hd. change FIRST_IOVA with (2 ^ 21) in *.
  destruct (iova_release_spec used r.1 r.2 W) as [_ H]; [lia|done|lia|done|].
  split; [change FIRST_IOVA with (2 ^ 21); lia|done..|]. intros k Hk.
  assert (0 <= r'.1 / 2 ^ 21) by (apply Z.div_pos; lia).
  rewrite H by lia. rewrite Hu' by done. destruct Hd; zcases.
Qed.

Lemma disj_sym r1 r2 : units_disjoint r1 r2 -> units_disjoint r2 r1.
Proof. unfold units_disjoint. tauto. Qed.

Lemma disj_remove l1 r l2 :
  ForallOrdPairs units_disjoint (l1 ++ r :: l2) ->
  ForallOrdPairs units_disjoint (l1 ++ l2) /\ Forall (units_disjoint r) (l1 ++ l2).
Proof.
  induction l1 as [|x l1 IH]; simpl; inversion 1 as [|? ? Hx Hrest]; subst; [done|].
  destruct (IH Hrest) as [H1 H2]. apply Forall_app in Hx as [Hx1 [Hxr Hx2]%Forall_cons].
  split; constructor; [by apply Forall_app|done|by apply disj_sym|done].
Qed.

Lemma live_ok_sets st used' live :
  live_ok (st, live) -> only_sets (iova_used st) used' ->
  live_ok (mk_iova_state used' (next_iova st), live).
Proof.
  intros [[W Hn] Hr Hd] Hs. split; [|by eapply Forall_impl; [|intros; eapply range_ok_sets]|done].
  split; [apply Hs|done].
Qed.

Lemma iova_step_ok c c' : live_ok c -> iova_step c c' -> live_ok c'.
Proof.
  intros Hok Hstep. destruct Hstep as
    [st live size alignment iova st' Hs Hal E Hne|st live size alignment st' Hs Hal E
    |st l1 l2 iova size|st live next ranges].
  - destruct Hok as [Hst Hr Hd]; simpl in *.
    destruct (allocate_iova_cases st size alignment Hst ltac:(lia) Hal) as [_ [[E' _]|H]];
      rewrite E in *; [by simplify_eq|]. destruct H as (Hl & Hm & _ & Hc & Hset & Hok).
    unfold can_reserve in Hc; simpl in *; breflect. split; [done| |]; simpl.
    + constructor; [|by eapply Forall_impl; [|intros; eapply range_ok_sets, H1; by eapply range_set_sets]].
      split; simpl; [done..|]. intros k Hk. destruct Hset as [_ ->]; [zcases|].
      change FIRST_IOVA with (2 ^ 21) in Hl. assert (0 <= iova / 2 ^ 21) by (apply Z.div_pos; lia). lia.
    + constructor; [|done]. eapply Forall_impl; [done|]. intros r Hrok.
      eapply free_disjoint; simpl; [done|lia|done].
  - destruct Hok as [Hst Hr Hd]; simpl in *.
    destruct (allocate_iova_cases st size alignment Hst ltac:(lia) Hal) as [_ [[E' _]|H]];
      rewrite E in *; [by simplify_eq|]. destruct H as (Hl & _). by change FIRST_IOVA with (2 ^ 21) in Hl.
  - destruct Hok as [[W Hn] Hr Hd]; simpl in *. apply disj_remove in Hd as [Hd Hx].
    apply Forall_app in Hr as [Hr1 [Hr Hr2]%Forall_cons].
    assert (Forall (range_ok (iova_used st)) (l1 ++ l2)) as Hall by (by apply Forall_app).
    split; simpl; [|rewrite List.Forall_forall in *; intros; eapply (range_ok_release _ (iova, size)); auto|done].
    destruct Hr as [Hl Ha Hs Hh _]; simpl in *. change FIRST_IOVA with (2 ^ 21) in Hl.
    split; simpl; [|done]. by eapply iova_release_spec; [done|lia|..].
  - apply live_ok_sets; [done|]. apply filter_range_sets, Hok.
Qed.

Lemma used_wf_init : used_wf (iova_used iova_init).
Proof.
  split; [by vm_compute|]. apply Forall_replicate. lia.
Qed.

Lemma iova_init_ok : iova_ok iova_init.
Proof. split; [apply used_wf_init|by vm_compute]. Qed.

Lemma live_reachable c : rtc iova_step (iova_init, []) c -> live_ok c.
Proof.
  intros H. assert (live_ok (iova_init, [])) as H0 by (split; [apply iova_init_ok|constructor..]).
  remember (iova_init, []) as c0 eqn:E. clear E. induction H; eauto using iova_step_ok.
Qed.

Lemma units_disjoint_bytes used r1 r2 :
  range_ok used r1 -> range_ok used r2 -> units_disjoint r1 r2 -> disjoint_ranges r1 r2.
Proof.
  intros [_ Ha1 Hs1 _ _] [_ Ha2 Hs2 _ _] Hd.
  pose proof (units_spec r1.2 ltac:(lia)). pose proof (units_spec r2.2 ltac:(lia)).
  divmod r1.1 (2 ^ 21). divmod r2.1 (2 ^ 21). unfold disjoint_ranges. destruct Hd; lia.
Qed.

Lemma ord_pairs_lookup {A} (R : A -> A -> Prop) l i j x y :
  ForallOrdPairs R l -> (i < j)%nat -> l !! i = Some x -> l !! j = Some y -> R x y.
Proof.
  intros H. revert i j. induction H as [|z l Hz Hl IH]; intros i j Hij Hi Hj; [done|].
  destruct i as [|i], j as [|j]; simpl in *; simplify_eq; try lia.
  - by eapply (proj1 (Forall_lookup _ _) Hz).
  - eapply IH; [|done..]. lia.
Qed.

(** ** What [filter_range] excludes *)

(** Unit [u] is inside one of the ranges. *)
Definition usable (ranges : list (Z * Z)) (u : Z) : bool :=
  existsb (fun r => (r.1 <=? u * 2 ^ 21) && ((u + 1) * 2 ^ 21 <=? r.2 + 1)) ranges.

(** The start of the last range that is considered. *)
Fixpoint filter_end (ranges : list (Z * Z)) : Z :=
  match ranges with
  | [] => 0
  | [(start, _)] => Z.min start MAX_IOVA
  | (start, end_) :: ranges => if MAX_IOVA <=? end_ then Z.min start MAX_IOVA else filter_end ranges
  end.

(** The ranges are in order, from address [from] on. *)
Fixpoint ranges_sorted (from : Z) (ranges : list (Z * Z)) : bool :=
  match ranges with
  | [] => true
  | (start, end_) :: ranges =>
      (from <=? start) && (start <=? end_) && (end_ <? 2 ^ 64) && ranges_sorted (end_ + 1) ranges
  end.

Lemma exclude_loop_spec fuel used n bound :
  used_wf used -> 0 <= n -> bound <= MAX_IOVA -> bound <= (n + Z.of_nat fuel) * 2 ^ 21 ->
  let r := exclude_loop fuel used (n * 2 ^ 21) bound in
  used_wf r.1 /\
  forall u, 0 <= u -> ubit r.1 u = ubit used u || ((n <=? u) && (u * 2 ^ 21 <? bound)).
Proof.
  change MAX_IOVA with (2 ^ 39 - 2 ^ 21).
  revert used n. induction fuel as [|fuel IH]; intros used n W Hn Hb Hf; simpl exclude_loop.
  { split; [done|]. intros u Hu. simpl fst. destruct (ubit used u); zcases. }
  destruct (Z.ltb_spec (n * 2 ^ 21) bound) as [Hlt|Hge].
  - change IOVA_SLAB_SIZE with (2 ^ 21). rewrite iova_idx_spec, Z.div_mul, u64_small by lia.
    replace (n * 2 ^ 21 + 2 ^ 21) with ((n + 1) * 2 ^ 21) by lia.
    destruct (set_bit_spec used n W) as [W1 H1]; [change NUM_IOVA_SLABS with (2 ^ 18); lia|].
    destruct (IH _ (n + 1) W1) as [W2 H2]; [lia|lia|lia|]. split; [done|]. intros u Hu.
    rewrite H2, H1 by done. destruct (ubit used u); zcases.
  - split; [done|]. intros u Hu. simpl fst. destruct (ubit used u); zcases.
Qed.

Lemma filter_next_spec e : 0 <= e + 1 < 2 ^ 64 ->
  Z.land (u64 (e + 1)) (not64 (IOVA_SLAB_SIZE - 1)) = (e + 1) / 2 ^ 21 * 2 ^ 21.
Proof.
  intros He. rewrite u64_small by done. change (IOVA_SLAB_SIZE - 1) with (Z.ones 21).
  rewrite <- Z.shiftl_mul_pow2, <- Z.shiftr_div_pow2 by lia. apply Z.bits_inj'. intros b Hb.
  unfold not64. bits_cases; try btauto; try lia.
  - rewrite (Z.testbit_neg_r _ (b - 21)) by lia. btauto.
  - by rewrite Z.sub_simpl_r, andb_true_r.
  - rewrite Z.sub_simpl_r, (testbit_range (e + 1) 64) by lia. done.
Qed.

Lemma filter_end_ge from ranges : ranges_sorted from ranges = true ->
  match ranges with [] => True | (start, _) :: _ => Z.min start MAX_IOVA <= filter_end ranges end.
Proof.
  revert from. induction ranges as [|[s e] [|[s' e'] ranges] IH]; intros from Hs; [done|simpl; lia|].
  simpl in Hs. breflect. specialize (IH (e + 1)). simpl filter_end in *.
  destruct (MAX_IOVA <=? e); [lia|]. transitivity (Z.min s' MAX_IOVA); [lia|].
  apply IH. simpl. rewrite !andb_true_iff, !Z.leb_le, Z.ltb_lt. done.
Qed.

Lemma usable_after from ranges u :
  ranges_sorted from ranges = true -> u * 2 ^ 21 < from -> usable ranges u = false.
Proof.
  revert from. induction ranges as [|[s e] ranges IH]; intros from Hs Hu; [done|].
  simpl in *. breflect. rewrite (IH (e + 1)) by (done || lia). zcases.
Qed.

Lemma ranges_sorted_weaken from from' ranges :
  from' <= from -> ranges_sorted from ranges = true -> ranges_sorted from' ranges = true.
Proof.
  intros Hle. destruct ranges as [|[s e] ranges]; [done|]. simpl. intros. breflect.
  rewrite !andb_true_iff, !Z.leb_le, Z.ltb_lt. split_and!; (done || lia).
Qed.

(** The units excluded before one range and by the rest of the ranges. *)
Lemma excluded_cons n s e ranges u :
  ranges_sorted (n * 2 ^ 21) ((s, e) :: ranges) = true -> 0 <= u -> e < MAX_IOVA ->
  ((n <=? u) && (u * 2 ^ 21 <? Z.min s MAX_IOVA)) ||
  (((e + 1) / 2 ^ 21 <=? u) && (u * 2 ^ 21 <? filter_end ranges) && negb (usable ranges u)) =
  (n <=? u) && (u * 2 ^ 21 <? filter_end ((s, e) :: ranges)) && negb (usable ((s, e) :: ranges) u).
Proof.
  intros Hs Hu He. simpl in Hs. breflect.
  assert (Hend : filter_end ((s, e) :: ranges) =
      match ranges with [] => Z.min s MAX_IOVA | _ => filter_end ranges end)
    by (simpl; destruct ranges; zcases).
  assert (Hmin : Z.min s MAX_IOVA <= filter_end ((s, e) :: ranges)).
  { rewrite Hend. destruct ranges as [|[s' e'] ranges]; [done|].
    pose proof (filter_end_ge (e + 1) ((s', e') :: ranges) ltac:(done)) as Hge.
    cbn [ranges_sorted] in *. breflect. lia. }
  assert (Hle : filter_end ranges <= filter_end ((s, e) :: ranges) \/ filter_end ranges = 0)
    by (rewrite Hend; destruct ranges; simpl; lia).
  divmod (e + 1) (2 ^ 21).
  change (usable ((s, e) :: ranges) u) with
    (((s <=? u * 2 ^ 21) && ((u + 1) * 2 ^ 21 <=? e + 1)) || usable ranges u).
  destruct (Z.lt_ge_cases (u * 2 ^ 21) (Z.min s MAX_IOVA)) as [Hlt|Hge].
  - rewrite (usable_after (e + 1)) by (done || lia). change MAX_IOVA with (2 ^ 39 - 2 ^ 21) in *. zcases.
  - destruct (Z.le_gt_cases ((e + 1) / 2 ^ 21) u) as [Hn|Hn].
    + destruct ranges as [|r ranges]; [rewrite Hend; simpl usable; zcases|]. rewrite Hend.
      destruct (usable (r :: ranges) u); zcases.
    + destruct (usable ranges u); zcases.
Qed.

Lemma filter_range_gen ranges used n :
  used_wf used -> 0 <= n -> ranges_sorted (n * 2 ^ 21) ranges = true ->
  forall u, 0 <= u ->
    ubit (filter_range used (n * 2 ^ 21) ranges).1 u =
    ubit used u || ((n <=? u) && (u * 2 ^ 21 <? filter_end ranges) && negb (usable ranges u)).
Proof.
  revert used n. induction ranges as [|[s e] ranges IH]; intros used n W Hn Hs u Hu.
  { simpl. destruct (ubit used u); zcases. }
  pose proof Hs as Hs'. simpl in Hs'. breflect. simpl filter_range.
  set (bound := Z.min s MAX_IOVA).
  destruct (exclude_loop_spec (exclude_fuel (n * 2 ^ 21) bound) used n bound W Hn) as [W1 Hx1]; [lia| |].
  { unfold exclude_fuel. change IOVA_SLAB_SIZE with (2 ^ 21). divmod (bound - n * 2 ^ 21) (2 ^ 21). lia. }
  destruct (exclude_loop _ _ _ _) as [used1 next1]; simpl in W1, Hx1.
  destruct (Z.leb_spec MAX_IOVA e) as [Hm|Hm].
  - simpl fst. rewrite Hx1 by done.
    replace (filter_end ((s, e) :: ranges)) with bound by (simpl; destruct ranges; zcases).
    change (usable ((s, e) :: ranges) u) with
      (((s <=? u * 2 ^ 21) && ((u + 1) * 2 ^ 21 <=? e + 1)) || usable ranges u).
    destruct (Z.ltb_spec (u * 2 ^ 21) bound); [|btauto].
    rewrite (usable_after (e + 1)) by (done || lia). destruct (ubit used u); zcases.
  - change MAX_IOVA with (2 ^ 39 - 2 ^ 21) in Hm. rewrite filter_next_spec by lia.
    divmod (e + 1) (2 ^ 21).
    rewrite IH; [|done|apply Z.div_pos; lia|eapply ranges_sorted_weaken; [|done]; lia|done].
    rewrite Hx1 by done. unfold bound. rewrite <- orb_assoc. f_equal. by apply excluded_cons.
Qed.

(** * Properties *)

(** [allocate_iova] is safe: it either returns 0 and leaves the allocator as
    it was, or it returns a non-null address that has the alignment it rounded
    the request to, whose range ends inside the 39-bit address space, whose
    units were all free, and it marks exactly those units used.  The allocator
    stays well formed. *)
Theorem allocate_iova_safe st size alignment :
  iova_ok st -> 0 < size < 2 ^ 32 -> 1 <= alignment <= 2 ^ 31 ->
  let '(iova, st') := allocate_iova st size alignment in
  iova_ok st' /\
  ((iova = 0 /\ st' = st) \/
   (FIRST_IOVA <= iova /\ iova + size <= 2 ^ 39 /\
    iova mod u32 (round_up alignment IOVA_SLAB_SIZE) = 0 /\
    range_free (iova_used st) (iova / 2 ^ 21) (units size) = true /\
    range_set (iova_used st) (iova_used st') (iova / 2 ^ 21) (units size) true)).
Proof.
  intros Hok Hs Hal. destruct (allocate_iova_cases st size alignment Hok Hs Hal) as [_ H].
  destruct (allocate_iova st size alignment) as [iova st']. simpl in H.
  destruct H as [[E _]|(Hl & _ & Hm & Hc & Hset & Hok')]; [simplify_eq; auto|].
  unfold can_reserve in Hc. breflect. split; [done|right]. done.
Qed.

Lemma allocate_iova_safe_witness :
  let '(iova, st') := allocate_iova iova_init 0x500000 4096 in
  iova = FIRST_IOVA /\ range_free (iova_used iova_init) 1 (units 0x500000) = true /\ iova_ok st'.
Proof.
  pose proof (allocate_iova_safe iova_init 0x500000 4096 iova_init_ok ltac:(lia) ltac:(lia)) as H.
  assert (E : (allocate_iova iova_init 0x500000 4096).1 = FIRST_IOVA) by (vm_compute; reflexivity).
  destruct (allocate_iova iova_init 0x500000 4096) as [iova st']. simpl in E. subst iova.
  destruct H as [Hok [[E _]|(_ & _ & _ & Hf & _)]]; [discriminate|]. by split_and!.
Defined.

(** [allocate_iova] finds what there is: when it returns 0, no aligned
    address has a free range of the size asked for.  The search leaves out one
    candidate, the last one, and only when [next_iova] rounds up past
    [MAX_IOVA]. *)
Theorem allocate_iova_complete st size alignment c :
  iova_ok st -> 0 < size < 2 ^ 32 -> 1 <= alignment <= 2 ^ 31 ->
  let A := u32 (round_up alignment IOVA_SLAB_SIZE) in
  (allocate_iova st size alignment).1 = 0 ->
  c mod A = 0 -> FIRST_IOVA <= c -> c + size <= 2 ^ 39 ->
  round_up (next_iova st) A <= MAX_IOVA \/ c + A <= MAX_IOVA ->
  range_free (iova_used st) (c / 2 ^ 21) (units size) = false.
Proof.
  intros Hok Hs Hal A E Hc Hl Hh Hor.
  destruct (allocate_iova_cases st size alignment Hok Hs Hal) as [HA [[_ H]|(Hf & _)]].
  2:{ rewrite E in Hf. by change FIRST_IOVA with (2 ^ 21) in Hf. }
  assert (Hcm : c mod 2 ^ 21 = 0).
  { destruct (alignment_spec alignment Hal) as (a & Ha & EA & _). subst A. rewrite EA in Hc.
    apply Z.mod_divide in Hc as [q ->]; [|lia]. rewrite Z.mul_assoc. apply Z.mod_mul. lia. }
  specialize (H c Hc). unfold can_reserve in H.
  destruct (Z.leb_spec (c + size) (2 ^ 39)); [|lia]. apply H; [|done].
  divmod c (2 ^ 21). change MAX_IOVA with (2 ^ 39 - 2 ^ 21). lia.
Qed.

(** An allocator with every unit used, and one with every unit used but the one
    at [free_unit]. *)
Definition full_iova : iova_state :=
  mk_iova_state (replicate (Z.to_nat (NUM_IOVA_SLABS / 32)) 0xFFFFFFFF) FIRST_IOVA.
Definition one_free (free_unit next : Z) : iova_state :=
  mk_iova_state (clear_bit (iova_used full_iova) free_unit) next.

Lemma full_iova_ok : iova_ok full_iova.
Proof. split; [split; [by vm_compute|apply Forall_replicate; lia]|by vm_compute]. Qed.

Lemma allocate_iova_complete_witness :
  (allocate_iova full_iova 4096 (2 ^ 31)).1 = 0 /\
  range_free (iova_used full_iova) (2 ^ 31 / 2 ^ 21) (units 4096) = false.
Proof.
  split; [vm_compute; reflexivity|].
  apply (allocate_iova_complete full_iova 4096 (2 ^ 31) (2 ^ 31) full_iova_ok);
    [lia|lia|vm_compute; reflexivity|vm_compute; reflexivity|done|done|left; by vm_compute].
Defined.

(** However allocations, releases and exclusions follow each other, any two
    live ranges are at disjoint addresses, and each lies between [FIRST_IOVA]
    and the end of the address space: no two slabs are ever mapped for the
    device at the same I/O address. *)
Theorem live_ranges_disjoint st live i j r1 r2 :
  rtc iova_step (iova_init, []) (st, live) ->
  i <> j -> live !! i = Some r1 -> live !! j = Some r2 ->
  disjoint_ranges r1 r2 /\ FIRST_IOVA <= r1.1 /\ r1.1 + r1.2 <= 2 ^ 39.
Proof.
  intros [_ Hr Hd]%live_reachable Hij H1 H2; simpl in *.
  pose proof (proj1 (Forall_lookup _ _) Hr) as Hall.
  pose proof (Hall _ _ H1) as R1. pose proof (Hall _ _ H2) as R2.
  split; [|split; apply R1].
  destruct (decide (i < j)%nat) as [Hlt|Hge].
  - eapply units_disjoint_bytes; [done..|]. by eapply ord_pairs_lookup.
  - apply Logic.or_comm. eapply (units_disjoint_bytes _ r2 r1); [done..|].
    eapply ord_pairs_lookup; [done| |done..]. lia.
Qed.

Lemma live_ranges_disjoint_witness :
  exists st iova1 iova2,
    rtc iova_step (iova_init, []) (st, [(iova2, 4096); (iova1, 4096)]) /\
    disjoint_ranges (iova2, 4096) (iova1, 4096).
Proof.
  set (s1 := (allocate_iova iova_init 4096 4096).2). set (s2 := (allocate_iova s1 4096 4096).2).
  set (a1 := (allocate_iova iova_init 4096 4096).1). set (a2 := (allocate_iova s1 4096 4096).1).
  assert (H : rtc iova_step (iova_init, []) (s2, [(a2, 4096); (a1, 4096)])).
  { eapply rtc_l; [apply (step_allocate _ _ 4096 4096 a1 s1); [lia|lia|apply surjective_pairing|by vm_compute]|].
    eapply rtc_l; [apply (step_allocate _ _ 4096 4096 a2 s2); [lia|lia|apply surjective_pairing|by vm_compute]|].
    constructor. }
  exists s2, a1, a2. split; [exact H|].
  exact (proj1 (live_ranges_disjoint s2 _ 0 1 _ _ H ltac:(lia) eq_refl eq_refl)).
Defined.

(** For the ranges an IOMMU reports, in order, [filter_range] marks used
    exactly the units that start before the last range it considers and are not
    wholly inside a range: no unit that sticks out of a range stays free there,
    and no unit inside a range is lost. *)
Theorem filter_range_excludes used ranges u :
  used_wf used -> ranges_sorted 0 ranges = true -> 0 <= u ->
  ubit (filter_range used 0 ranges).1 u =
  ubit used u || ((u * 2 ^ 21 <? filter_end ranges) && negb (usable ranges u)).
Proof.
  intros W Hs Hu. pose proof (filter_range_gen ranges used 0 W ltac:(lia) Hs u Hu) as H.
  rewrite Z.mul_0_l in H. rewrite H. f_equal. by destruct (Z.leb_spec 0 u); [|lia].
Qed.

(** The ranges of a common IOMMU: the interrupt range at [0xfee00000] is left out. *)
Definition msi_ranges : list (Z * Z) := [(0, 0xfedfffff); (0xfef00000, 2 ^ 48 - 1)].

Lemma filter_range_excludes_witness :
  ubit (filter_range (iova_used iova_init) 0 msi_ranges).1 (0xfee00000 / 2 ^ 21) = true.
Proof.
  rewrite (filter_range_excludes (iova_used iova_init) msi_ranges (0xfee00000 / 2 ^ 21) used_wf_init eq_refl);
    [vm_compute; reflexivity|by vm_compute].
Defined.

(** The addresses after the last range are not excluded: with one range that
    ends below [MAX_IOVA], an address outside it is handed out. *)
Lemma filter_range_tail :
  let st := mk_iova_state (filter_range (iova_used iova_init) 0 [(0, 2 ^ 21 - 1)]).1 FIRST_IOVA in
  (allocate_iova st 4096 4096).1 = 2 ^ 21.
Proof. vm_compute. reflexivity. Qed.

(** The candidate that the search leaves out: the only free unit is at an aligned
    address and is not found. *)
Lemma allocate_iova_misses_last :
  let st := one_free (255 * 2 ^ 31 / 2 ^ 21) MAX_IOVA in
  (allocate_iova st 4096 (2 ^ 31)).1 = 0 /\ can_reserve (iova_used st) (255 * 2 ^ 31) 4096 = true.
Proof. vm_compute. split; reflexivity. Qed.
