(* ===== verification/PageTable.v ===== *)
(** The user-space page table of the memory driver, which translates virtual to
    I/O addresses ([qae_page_table_common.h], [qae_page_table_defs.h]): storing a
    mapping, looking addresses and hash keys up, and freeing the table.

    A table is a tree of levels of 512 entries.  [ptable d] is the type of a
    level with [d] levels below it; an entry that is missing is the zero that a
    new level is filled with, [NULL] or the address 0.  Levels are mapped with
    [mmap]; [pages] is how many more of them the system gives before it fails.
    The writers run under the mutex of the memory driver, so that the
    compare-and-swap of [next_level] always finds the value that was read. *)

From S2P Require Import Prelude.

Definition PAGE_SIZE : Z := 0x1000.
Definition QAE_PAGE_MASK : Z := not64 (PAGE_SIZE - 1).
Definition LEVEL_SIZE : Z := PAGE_SIZE / 8.
Definition HUGEPAGE_SIZE : Z := 0x200000.
Definition HUGEPAGE_MASK : Z := not64 (HUGEPAGE_SIZE - 1).

Fixpoint ptable (d : nat) : Type :=
  match d with
  | O => gmap Z Z
  | S d => gmap Z (ptable d)
  end.

Definition empty_table (d : nat) : ptable d :=
  match d with
  | O => ∅
  | S d => ∅
  end.

(** The pointer [level->next[i].pt], and writing it *)
Definition get_pt {d} (level : ptable (S d)) (i : Z) : option (ptable d) :=
  (level : gmap Z (ptable d)) !! i.
Definition set_pt {d} (level : ptable (S d)) (i : Z) (pt : ptable d) : ptable (S d) :=
  <[i := pt]> (level : gmap Z (ptable d)).

(** The bit fields of [page_index_t] *)
Definition bit_field (addr lo width : Z) : Z := Z.land (Z.shiftr addr lo) (Z.ones width).
Definition pg_offset (addr : Z) : Z := bit_field addr 0 12.
Definition pg_entry (addr : Z) : list Z :=
  [bit_field addr 48 9; bit_field addr 39 9; bit_field addr 30 9; bit_field addr 21 9; bit_field addr 12 9].
Definition hpg_offset (addr : Z) : Z := bit_field addr 0 21.
Definition hpg_entry (addr : Z) : list Z :=
  [bit_field addr 48 9; bit_field addr 39 9; bit_field addr 30 9; bit_field addr 21 9].

(** [next_level]: the level that the entry [i] points to, mapped when there is
    none, and the pages left; [None] when [mmap] fails. *)
Definition next_level {d} (level : ptable (S d)) (i : Z) (pages : nat) : option (ptable d * nat) :=
  match get_pt level i with
  | Some t => Some (t, pages)
  | None => match pages with O => None | S pages => Some (empty_table d, pages) end
  end.

(** The walk of [store_addr] and [store_addr_hpg] down the levels; the levels
    that were mapped before a failure stay. *)
Fixpoint store_level (d : nat) : ptable d -> list Z -> Z -> nat -> ptable d * nat :=
  match d with
  | O => fun level ids phys pages =>
      match ids with
      | i :: _ => (<[i := phys]> level, pages)
      | [] => (level, pages)
      end
  | S d => fun level ids phys pages =>
      match ids with
      | i :: ids =>
          match next_level level i pages with
          | None => (level, pages)
          | Some (t, pages) =>
              let '(t, pages) := store_level d t ids phys pages in (set_pt level i t, pages)
          end
      | [] => (level, pages)
      end
  end.

Definition store_addr (table : ptable 4) (virt phys : Z) (pages : nat) : ptable 4 * nat :=
  store_level 4 table (pg_entry virt) phys pages.
Definition store_addr_hpg (table : ptable 3) (virt phys : Z) (pages : nat) : ptable 3 * nat :=
  store_level 3 table (hpg_entry virt) phys pages.

Definition get_key (phys : Z) : Z := Z.land (Z.shiftr phys 20) (not64 QAE_PAGE_MASK).

(** The loop of [store_mmap_range], [n] being the number of pages left. *)
Fixpoint store_loop {T} (store : T -> Z -> Z -> nat -> T * nat) (page_size : Z) (n : nat) (table : T)
    (virt phys offset : Z) (pages : nat) : T * nat :=
  match n with
  | O => (table, pages)
  | S n =>
      let '(table, pages) := store table (u64 (virt + offset)) (u64 (phys + offset)) pages in
      store_loop store page_size n table virt phys (offset + page_size) pages
  end.

(** [store_mmap_range] with [hp_en] being 0, and with [hp_en] being 1 *)
Definition store_mmap_range (table : ptable 4) (virt phys size : Z) (pages : nat) : ptable 4 * nat :=
  let phys := Z.lor (Z.land phys QAE_PAGE_MASK) (get_key phys) in
  store_loop store_addr PAGE_SIZE (Z.to_nat ((size + PAGE_SIZE - 1) / PAGE_SIZE)) table virt phys 0 pages.
Definition store_mmap_range_hpg (table : ptable 3) (virt phys size : Z) (pages : nat) : ptable 3 * nat :=
  let phys := Z.lor (Z.land phys HUGEPAGE_MASK) (get_key phys) in
  store_loop store_addr_hpg HUGEPAGE_SIZE (Z.to_nat ((size + HUGEPAGE_SIZE - 1) / HUGEPAGE_SIZE))
    table virt phys 0 pages.

(** The walk of the look-ups: the entry, or [None] when a level is missing. *)
Fixpoint load_level (d : nat) : ptable d -> list Z -> option Z :=
  match d with
  | O => fun level ids =>
      match ids with i :: _ => Some (default 0 (level !! i)) | [] => None end
  | S d => fun level ids =>
      match ids with
      | i :: ids => match get_pt level i with Some t => load_level d t ids | None => None end
      | [] => None
      end
  end.

Definition load_addr (table : ptable 4) (virt : Z) : Z :=
  match load_level 4 table (pg_entry virt) with
  | None => 0
  | Some phy_addr => Z.lor (Z.land phy_addr QAE_PAGE_MASK) (pg_offset virt)
  end.
Definition load_addr_hpg (table : ptable 3) (virt : Z) : Z :=
  match load_level 3 table (hpg_entry virt) with
  | None => 0
  | Some phy_addr => Z.lor (Z.land phy_addr HUGEPAGE_MASK) (hpg_offset virt)
  end.
Definition load_key (table : ptable 4) (virt : Z) : Z :=
  match load_level 4 table (pg_entry virt) with
  | None => 0
  | Some phy_addr => Z.land phy_addr (not64 QAE_PAGE_MASK)
  end.

(** [free_page_level]: the number of levels given to [munmap].  [free_page_table]
    starts it at the root and clears the root. *)
Fixpoint free_page_level (d : nat) : ptable d -> nat :=
  match d with
  | O => fun _ => 0%nat
  | S d => fun level =>
      foldl (fun n i =>
        match get_pt level i with Some pt => (n + free_page_level d pt + 1)%nat | None => n end)
        0%nat (seqZ 0 LEVEL_SIZE)
  end.
Definition free_page_table (table : ptable 4) (pages : nat) : ptable 4 * nat :=
  (empty_table 4, pages + free_page_level 4 table)%nat.

(** * Proofs *)

(** ** Entries of the tree *)

Lemma get_set_pt {d} (t : ptable (S d)) i pt : get_pt (set_pt t i pt) i = Some pt.
Proof. apply (lookup_insert_eq (M := gmap Z)). Qed.
Lemma get_set_pt_ne {d} (t : ptable (S d)) i j pt : i <> j -> get_pt (set_pt t i pt) j = get_pt t j.
Proof. apply (lookup_insert_ne (M := gmap Z)). Qed.
Lemma get_pt_empty d i : get_pt (empty_table (S d)) i = None.
Proof. apply (lookup_empty (M := gmap Z)). Qed.

Lemma load_store_same d (t : ptable d) ids phys pages :
  length ids = S d -> (d <= pages)%nat ->
  let '(t', pages') := store_level d t ids phys pages in
  load_level d t' ids = Some phys /\ (pages - d <= pages')%nat.
Proof.
  revert t ids pages. induction d as [|d IH]; intros t [|i ids] pages Hl Hp; try done.
  - simpl. rewrite lookup_insert_eq. simpl. split; [done|lia].
  - injection Hl as Hl. cbn [store_level].
    destruct (next_level t i pages) as [[t1 p1]|] eqn:E.
    + assert (pages <= S p1)%nat.
      { unfold next_level in E. destruct (get_pt t i); [by injection E as <- <-; lia|].
        destruct pages; [done|]. by injection E as <- <-. }
      assert (d <= p1)%nat by lia.
      specialize (IH t1 ids p1 Hl ltac:(lia)). destruct (store_level d t1 ids phys p1) as [t2 p2].
      destruct IH as [IH ?]. split; [|lia]. cbn [load_level].
      by rewrite get_set_pt.
    + unfold next_level in E. destruct (get_pt t i); [done|]. destruct pages; [lia|done].
Qed.

Lemma load_empty d ids : length ids = S d -> load_level d (empty_table d) ids = if d is O then Some 0 else None.
Proof. destruct ids as [|i ids]; [done|]. intros _. destruct d; simpl; [by rewrite lookup_empty|]. by rewrite get_pt_empty. Qed.

(** Storing an entry leaves the others; an entry of a level that was missing may
    become 0. *)
Definition entry_kept (o o' : option Z) : Prop := o' = o \/ (o = None /\ o' = Some 0).

Lemma entry_kept_trans o1 o2 o3 : entry_kept o1 o2 -> entry_kept o2 o3 -> entry_kept o1 o3.
Proof. unfold entry_kept. intros [->|[-> ->]] [->|[? ->]]; auto; done. Qed.

Lemma load_store_ne d (t : ptable d) ids ids' phys pages :
  length ids = S d -> length ids' = S d -> ids' <> ids ->
  entry_kept (load_level d t ids') (load_level d (store_level d t ids phys pages).1 ids').
Proof.
  revert t ids ids' pages. induction d as [|d IH]; intros t [|i ids] [|i' ids'] pages Hl Hl' Hne; try done.
  - destruct ids; [|done]. destruct ids'; [|done]. simpl. left. rewrite lookup_insert_ne; [done|congruence].
  - injection Hl as Hl. injection Hl' as Hl'. cbn [store_level].
    destruct (next_level t i pages) as [[t1 p1]|] eqn:E; [|by left].
    destruct (store_level d t1 ids phys p1) as [t2 p2] eqn:E2. cbn [fst load_level].
    destruct (decide (i' = i)) as [->|Hi].
    2:{ left. by rewrite get_set_pt_ne. }
    rewrite get_set_pt.
    assert (Hids : ids' <> ids) by congruence. specialize (IH t1 ids ids' p1 Hl Hl' Hids). rewrite E2 in IH.
    unfold next_level in E. cbn [fst] in IH.
    destruct (get_pt t i) as [t0|] eqn:Et.
    + by injection E as -> ->.
    + destruct pages; [done|]. injection E as <- <-. rewrite load_empty in IH by done.
      destruct IH as [IH|[IH IH']]; [|right; done]. rewrite IH. destruct d; [by right|by left].
Qed.

(** ** Pages and addresses *)

Lemma bit_field_spec addr lo w : 0 <= lo -> 0 <= w -> bit_field addr lo w = (addr / 2 ^ lo) mod 2 ^ w.
Proof. intros. unfold bit_field. by rewrite Z.land_ones, Z.shiftr_div_pow2 by lia. Qed.

(** The number of a page, from its indices. *)
Lemma page_digits a :
  0 <= a < 2 ^ 57 ->
  a / 4096 = (a / 2 ^ 12) mod 512 + 512 * ((a / 2 ^ 21) mod 512 + 512 * ((a / 2 ^ 30) mod 512 +
    512 * ((a / 2 ^ 39) mod 512 + 512 * ((a / 2 ^ 48) mod 512)))).
Proof.
  intros Ha.
  assert (H : forall k, 0 <= k -> a / 2 ^ k = (a / 2 ^ k) mod 512 + 512 * (a / 2 ^ (k + 9))).
  { intros k Hk. pose proof (Z.pow_pos_nonneg 2 k). rewrite Z.pow_add_r, <- Z.div_div by lia.
    change (2 ^ 9) with 512. rewrite (Z.div_mod (a / 2 ^ k) 512) at 1; lia. }
  assert (Hs : a / 2 ^ 57 = 0) by (apply Z.div_small; lia).
  pose proof (H 12 ltac:(done)) as H12. pose proof (H 21 ltac:(done)) as H21.
  pose proof (H 30 ltac:(done)) as H30. pose proof (H 39 ltac:(done)) as H39.
  pose proof (H 48 ltac:(done)) as H48. clear H.
  change (12 + 9) with 21 in H12. change (21 + 9) with 30 in H21. change (30 + 9) with 39 in H30.
  change (39 + 9) with 48 in H39. change (48 + 9) with 57 in H48. rewrite Hs in H48.
  change 4096 with (2 ^ 12).
  generalize dependent ((a / 2 ^ 12) mod 512). generalize dependent ((a / 2 ^ 21) mod 512).
  generalize dependent ((a / 2 ^ 30) mod 512). generalize dependent ((a / 2 ^ 39) mod 512).
  generalize dependent ((a / 2 ^ 48) mod 512).
  generalize (a / 2 ^ 12) (a / 2 ^ 21) (a / 2 ^ 30) (a / 2 ^ 39) (a / 2 ^ 48). clear. intros. lia.
Qed.

Lemma pg_entry_page a b :
  0 <= a < 2 ^ 57 -> 0 <= b < 2 ^ 57 -> pg_entry a = pg_entry b <-> a / 4096 = b / 4096.
Proof.
  intros Ha Hb. unfold pg_entry. rewrite !bit_field_spec by lia. change (2 ^ 9) with 512. split.
  - intros E. injection E as E4 E3 E2 E1 E0.
    rewrite (page_digits a), (page_digits b) by done. congruence.
  - intros E. assert (H : forall k, 12 <= k -> a / 2 ^ k = b / 2 ^ k).
    { intros k Hk. pose proof (Z.pow_pos_nonneg 2 (k - 12)). replace k with (12 + (k - 12)) by lia. rewrite Z.pow_add_r, <- !Z.div_div by lia.
      change (2 ^ 12) with 4096. by rewrite E. }
    by rewrite !H by lia.
Qed.

Lemma length_pg_entry a : length (pg_entry a) = 5%nat.
Proof. done. Qed.

(** The mask of a page size of [2 ^ k] bytes *)
Lemma land_page_mask x k :
  0 <= x < 2 ^ 64 -> 0 <= k -> Z.land x (not64 (2 ^ k - 1)) = 2 ^ k * (x / 2 ^ k).
Proof.
  intros Hx Hk. rewrite <- Z.shiftr_div_pow2, Z.mul_comm, <- Z.shiftl_mul_pow2, <- Z.ldiff_ones_r by lia.
  replace (2 ^ k - 1) with (Z.ones k) by (rewrite Z.ones_equiv; lia).
  apply Z.bits_inj'. intros i Hi. unfold not64. rewrite Z.land_spec, testbit_u64, Z.lnot_spec, Z.ldiff_spec by lia.
  destruct (Z.ltb_spec i 64); [done|]. by rewrite (testbit_range x 64 i) by lia.
Qed.

Lemma land_not_page_mask x k :
  0 <= x -> 0 <= k < 64 -> Z.land x (not64 (not64 (2 ^ k - 1))) = x mod 2 ^ k.
Proof.
  intros Hx Hk. replace (not64 (not64 (2 ^ k - 1))) with (Z.ones k); [by rewrite Z.land_ones by lia|].
  replace (2 ^ k - 1) with (Z.ones k) by (rewrite Z.ones_equiv; lia). unfold not64.
  apply Z.bits_inj'. intros i Hi. rewrite testbit_u64, Z.lnot_spec, testbit_u64, Z.lnot_spec by lia.
  rewrite testbit_ones by lia. destruct (Z.ltb_spec i 64), (Z.ltb_spec i k); simpl; lia || done.
Qed.

(** Bits below a multiple of a power of two *)
Lemma lor_low q r k : 0 <= k -> 0 <= r < 2 ^ k -> Z.lor (2 ^ k * q) r = 2 ^ k * q + r.
Proof.
  intros Hk Hr. assert (H : Z.land (2 ^ k * q) r = 0).
  { apply Z.bits_inj'. intros i Hi. rewrite Z.bits_0, Z.land_spec.
    destruct (Z.lt_ge_cases i k); [|by rewrite (testbit_range r k i), andb_false_r by lia].
    by rewrite Z.mul_comm, Z.mul_pow2_bits_low by lia. }
  pose proof (Z.add_lor_land (2 ^ k * q) r). lia.
Qed.

(** ** Ranges of pages *)

Lemma store_loop_spec n (t : ptable 4) v pb k pages :
  0 <= v -> 0 <= k -> 4096 * (v + k + Z.of_nat n) <= 2 ^ 57 ->
  (4 * n <= pages)%nat ->
  let t' := (store_loop store_addr PAGE_SIZE n t (4096 * v) pb (4096 * k) pages).1 in
  (forall j, k <= j < k + Z.of_nat n ->
    load_level 4 t' (pg_entry (4096 * (v + j))) = Some (u64 (pb + 4096 * j))) /\
  (forall a, 0 <= a < 2 ^ 57 -> ~ (v + k <= a / 4096 < v + k + Z.of_nat n) ->
    entry_kept (load_level 4 t (pg_entry a)) (load_level 4 t' (pg_entry a))).
Proof.
  intros Hv. revert t k pages. induction n as [|n IH]; intros t k pages Hk Hr Hp.
  { split; [lia|]. intros. by left. }
  cbn [store_loop]. replace (4096 * v + 4096 * k) with (4096 * (v + k)) by lia.
  rewrite (u64_small (4096 * (v + k))) by lia.
  pose proof (load_store_same 4 t (pg_entry (4096 * (v + k))) (u64 (pb + 4096 * k)) pages eq_refl ltac:(lia)) as S.
  pose proof (fun a => load_store_ne 4 t (pg_entry (4096 * (v + k))) (pg_entry a) (u64 (pb + 4096 * k)) pages
    eq_refl eq_refl) as N.
  fold (store_addr t (4096 * (v + k)) (u64 (pb + 4096 * k)) pages) in S, N.
  destruct (store_addr t _ _ pages) as [t1 p1]. cbn [fst] in N.
  destruct S as [S Hp1]. replace (4096 * k + PAGE_SIZE) with (4096 * (k + 1)) by (unfold PAGE_SIZE; lia).
  destruct (IH t1 (k + 1) p1 ltac:(lia) ltac:(lia) ltac:(lia)) as [I1 I2]. split.
  - intros j Hj. destruct (decide (j = k)) as [->|]; [|apply I1; lia].
    destruct (I2 (4096 * (v + k))) as [E|[E _]]; [lia| |by rewrite E|congruence].
    rewrite Z.mul_comm, Z.div_mul by lia. lia.
  - intros a Ha Hout. apply (entry_kept_trans _ (load_level 4 t1 (pg_entry a))).
    + apply N. rewrite pg_entry_page by lia. rewrite (Z.mul_comm 4096), Z.div_mul by lia. lia.
    + apply I2; lia.
Qed.

(** The entry that [store_mmap_range] stores for a page *)
Lemma stored_entry phys j :
  phys mod 4096 = 0 -> 0 <= phys -> 0 <= j -> phys + 4096 * j + 4096 <= 2 ^ 64 ->
  u64 (Z.lor (Z.land phys QAE_PAGE_MASK) (get_key phys) + 4096 * j) = phys + 4096 * j + get_key phys /\
  0 <= get_key phys < 4096.
Proof.
  intros Hm Hp Hj Hr. assert (Hk : 0 <= get_key phys < 4096).
  { unfold get_key, QAE_PAGE_MASK. change (PAGE_SIZE - 1) with (2 ^ 12 - 1).
    rewrite land_not_page_mask by (rewrite ?Z.shiftr_nonneg; lia). apply Z.mod_pos_bound. lia. }
  split; [|done]. unfold QAE_PAGE_MASK. change (PAGE_SIZE - 1) with (2 ^ 12 - 1).
  rewrite land_page_mask, lor_low by lia. change (2 ^ 12) with 4096.
  rewrite <- Z_div_exact_full_2 by lia. rewrite u64_small by lia. lia.
Qed.

Lemma load_entry t a e key :
  load_level 4 t (pg_entry a) = Some (4096 * e + key) -> 0 <= a -> 0 <= key < 4096 -> 0 <= e ->
  4096 * e + 4096 <= 2 ^ 64 -> load_addr t a = 4096 * e + a mod 4096 /\ load_key t a = key.
Proof.
  intros E Ha Hk He Hr. unfold load_addr, load_key. rewrite E. unfold QAE_PAGE_MASK, pg_offset.
  change (PAGE_SIZE - 1) with (2 ^ 12 - 1). rewrite bit_field_spec, Z.div_1_r by lia.
  rewrite land_page_mask, land_not_page_mask, lor_low by (try apply Z.mod_pos_bound; lia).
  change (2 ^ 12) with 4096.
  replace ((4096 * e + key) / 4096) with e by (apply (Z.div_unique _ _ _ key); lia).
  replace ((4096 * e + key) mod 4096) with key by (apply (Z.mod_unique _ _ e); lia). lia.
Qed.

(** ** Levels that are mapped *)

(** A sum over a list without duplicates, when one term changes *)
Lemma sum_update (f f' : Z -> nat) l i :
  NoDup l -> i ∈ l -> (forall j, j <> i -> f' j = f j) ->
  (sum_list_with f' l + f i = sum_list_with f l + f' i)%nat.
Proof.
  intros Hnd Hi He. induction Hnd as [|j l Hj Hnd IH]; [set_solver|]. simpl.
  destruct (decide (j = i)) as [->|Hne].
  - assert (E : sum_list_with f' l = sum_list_with f l); [|lia].
    clear IH Hi Hnd. induction l as [|x l IH]; [done|]. simpl. rewrite IH, He by set_solver. done.
  - rewrite (He j Hne). specialize (IH ltac:(set_solver)). lia.
Qed.

Definition pt_pages {d} (level : ptable (S d)) (i : Z) : nat :=
  match get_pt level i with Some pt => (free_page_level d pt + 1)%nat | None => 0%nat end.

Lemma free_level_sum d (level : ptable (S d)) :
  free_page_level (S d) level = sum_list_with (pt_pages level) (seqZ 0 LEVEL_SIZE).
Proof.
  cbn [free_page_level].
  assert (H : forall l n, foldl (fun n i =>
      match get_pt level i with Some pt => (n + free_page_level d pt + 1)%nat | None => n end) n l =
    (n + sum_list_with (pt_pages level) l)%nat).
  { induction l as [|i l IH]; intros n; simpl; [lia|]. rewrite IH. unfold pt_pages.
    destruct (get_pt level i); lia. }
  apply H.
Qed.

Lemma free_level_empty d : free_page_level d (empty_table d) = 0%nat.
Proof.
  destruct d; [done|]. rewrite free_level_sum. induction (seqZ 0 LEVEL_SIZE) as [|i l IH]; [done|].
  cbn [sum_list_with]. rewrite IH. unfold pt_pages. by rewrite get_pt_empty.
Qed.

(** A store takes from the system exactly the levels it adds. *)
Lemma store_level_pages d (t : ptable d) ids phys pages :
  Forall (fun i => 0 <= i < LEVEL_SIZE) ids ->
  let '(t', pages') := store_level d t ids phys pages in
  (pages' + free_page_level d t' = pages + free_page_level d t)%nat.
Proof.
  revert t ids pages. induction d as [|d IH]; intros t [|i ids] pages Hids; try done.
  apply Forall_cons in Hids as [Hi Hids]. cbn [store_level].
  destruct (next_level t i pages) as [[t1 p1]|] eqn:E; [|done].
  specialize (IH t1 ids p1 Hids). destruct (store_level d t1 ids phys p1) as [t2 p2].
  rewrite !free_level_sum.
  pose proof (sum_update (pt_pages t) (pt_pages (set_pt t i t2)) (seqZ 0 LEVEL_SIZE) i (NoDup_seqZ _ _)) as U.
  rewrite elem_of_seqZ in U.
  assert (E2 : pt_pages (set_pt t i t2) i = (free_page_level d t2 + 1)%nat)
    by (unfold pt_pages; by rewrite get_set_pt).
  specialize (U ltac:(lia) ltac:(intros j Hj; unfold pt_pages; by rewrite get_set_pt_ne by done)).
  unfold next_level in E. unfold pt_pages in U at 2.
  destruct (get_pt t i); [injection E as <- <-; lia|].
  destruct pages; [done|]. injection E as <- <-. rewrite free_level_empty in IH. lia.
Qed.

Lemma pg_entry_range a : Forall (fun i => 0 <= i < LEVEL_SIZE) (pg_entry a).
Proof.
  unfold pg_entry. rewrite !bit_field_spec by lia. change LEVEL_SIZE with (2 ^ 9).
  repeat constructor; apply Z.mod_pos_bound; lia.
Qed.

Lemma store_loop_pages n (t : ptable 4) virt phys offset pages :
  let '(t', pages') := store_loop store_addr PAGE_SIZE n t virt phys offset pages in
  (pages' + free_page_level 4 t' = pages + free_page_level 4 t)%nat.
Proof.
  revert t offset pages. induction n as [|n IH]; intros t offset pages; [done|]. cbn [store_loop].
  pose proof (store_level_pages 4 t _ (u64 (phys + offset)) pages (pg_entry_range (u64 (virt + offset)))) as H.
  fold (store_addr t (u64 (virt + offset)) (u64 (phys + offset)) pages) in H.
  destruct (store_addr _ _ _ _) as [t1 p1]. specialize (IH t1 (offset + PAGE_SIZE) p1).
  destruct (store_loop _ _ _ _ _ _ _ _) as [t' p']. lia.
Qed.

(** ** What [store_mmap_range] stores *)

(** An address that a level of the table covers *)
Definition mapped (t : ptable 4) (a : Z) : Prop := load_level 4 t (pg_entry a) <> None.

Lemma load_addr_mapped t a : load_addr t a <> 0 -> mapped t a.
Proof. unfold load_addr, mapped. by destruct (load_level 4 t (pg_entry a)). Qed.

Section store_range.
Context (t : ptable 4) (virt phys size : Z) (pages : nat).
Context (Hv : 0 <= virt) (Hvm : virt mod 4096 = 0) (Hvr : virt + size + 4096 <= 2 ^ 57) (Hs : 0 < size).
Context (Hp : 0 <= phys) (Hpm : phys mod 4096 = 0) (Hpr : phys + size + 4096 <= 2 ^ 64).
Context (Hpg : 4 * ((size + 4095) / 4096) <= Z.of_nat pages).

(** The entries of the pages of the range, and those of other pages *)
Lemma store_range_entries :
  let t' := (store_mmap_range t virt phys size pages).1 in
  let n := (size + 4095) / 4096 in
  (forall j, 0 <= j < n ->
    load_level 4 t' (pg_entry (virt + 4096 * j)) = Some (4096 * (phys / 4096 + j) + get_key phys) /\
    0 <= get_key phys < 4096) /\
  (forall a, 0 <= a < 2 ^ 57 -> ~ (virt / 4096 <= a / 4096 < virt / 4096 + n) ->
    entry_kept (load_level 4 t (pg_entry a)) (load_level 4 t' (pg_entry a))).
Proof.
  intros t' n. assert (Hn : 4096 * n <= size + 4095 < 4096 * n + 4096) by (subst n; divmod (size + 4095) 4096; lia).
  divmod virt 4096. divmod phys 4096.
  assert (En : Z.to_nat ((size + PAGE_SIZE - 1) / PAGE_SIZE) = Z.to_nat n)
    by (f_equal; subst n; f_equal; unfold PAGE_SIZE; lia).
  pose proof (store_loop_spec (Z.to_nat n) t (virt / 4096)
    (Z.lor (Z.land phys QAE_PAGE_MASK) (get_key phys)) 0 pages) as S.
  subst t'. unfold store_mmap_range. rewrite En. fold n in Hpg. clearbody n.
  replace (4096 * (virt / 4096)) with virt in S by lia. change (4096 * 0) with 0 in S.
  destruct (S ltac:(lia) ltac:(lia) ltac:(lia) ltac:(lia)) as [S1 S2]. clear S. split.
  - intros j Hj. specialize (S1 j ltac:(lia)).
    destruct (stored_entry phys j) as [E Hk]; [lia..|]. rewrite E in S1. split; [|done].
    replace (virt + 4096 * j) with (4096 * (virt / 4096 + j)) by lia. rewrite S1. f_equal. lia.
  - intros a Ha Hout. apply S2; [done|lia].
Qed.

Lemma store_range_loads a :
  virt <= a < virt + size ->
  let t' := (store_mmap_range t virt phys size pages).1 in
  load_addr t' a = phys + (a - virt) /\ load_key t' a = get_key phys.
Proof.
  intros Ha t'. destruct store_range_entries as [S _]. fold t' in S.
  assert (Hn : size <= 4096 * ((size + 4095) / 4096) <= size + 4095) by (divmod (size + 4095) 4096; lia).
  generalize dependent ((size + 4095) / 4096). intros n _ S Hn.
  divmod a 4096. divmod virt 4096. divmod phys 4096.
  destruct (S (a / 4096 - virt / 4096)) as [E Hk]; [lia|].
  rewrite (proj2 (pg_entry_page (virt + 4096 * (a / 4096 - virt / 4096)) a ltac:(lia) ltac:(lia))) in E
    by (replace (virt + 4096 * (a / 4096 - virt / 4096)) with (a / 4096 * 4096) by lia; apply Z.div_mul; lia).
  destruct (load_entry _ a _ (get_key phys) E) as [-> ->]; lia.
Qed.

Lemma store_range_keeps a :
  0 <= a < 2 ^ 57 -> mapped t a -> a < virt \/ virt + (size + 4095) / 4096 * 4096 <= a ->
  let t' := (store_mmap_range t virt phys size pages).1 in
  load_addr t' a = load_addr t a /\ load_key t' a = load_key t a.
Proof.
  intros Ha Hm Hout t'. destruct store_range_entries as [_ S]. fold t' in S.
  divmod a 4096. divmod virt 4096. destruct (S a Ha) as [E|[E _]]; [lia| |by destruct Hm].
  unfold load_addr, load_key. by rewrite E.
Qed.
End store_range.

(** * Properties *)

(** C26. The page table translates what was stored in it.  A range of virtual addresses that
    starts at a page boundary, below 2^57, is stored with a page-aligned I/O address [phys]
    while [mmap] still has a page for every level that may be missing (four for each page of
    the range).  Then every address of the range translates to the I/O address at the same
    offset from [phys], and its key is the one of the start of the range, [get_key phys], by
    which the slab is found, also for addresses whose own I/O address would have another key.
    Every address of another page whose levels were in the table before gives what it gave
    before. *)
Theorem page_table_roundtrip t virt phys size pages :
  0 <= virt -> virt mod 4096 = 0 -> virt + size + 4096 <= 2 ^ 57 -> 0 < size ->
  0 <= phys -> phys mod 4096 = 0 -> phys + size + 4096 <= 2 ^ 64 ->
  4 * ((size + 4095) / 4096) <= Z.of_nat pages ->
  let t' := (store_mmap_range t virt phys size pages).1 in
  (forall a, virt <= a < virt + size -> load_addr t' a = phys + (a - virt) /\ load_key t' a = get_key phys) /\
  (forall a, 0 <= a < 2 ^ 57 -> mapped t a -> (a < virt \/ virt + (size + 4095) / 4096 * 4096 <= a) ->
    load_addr t' a = load_addr t a /\ load_key t' a = load_key t a).
Proof.
  intros. split; intros; [by apply store_range_loads|by apply store_range_keeps].
Qed.

Lemma page_table_roundtrip_witness :
  let t' := (store_mmap_range (empty_table 4) 0x7f0000200000 0x40000000 0x200000 2048).1 in
  load_addr t' 0x7f0000201234 = 0x40001234 /\ load_key t' 0x7f0000201234 = 0x400.
Proof.
  intros t'.
  destruct (page_table_roundtrip (empty_table 4) 0x7f0000200000 0x40000000 0x200000 2048) as [H _]; [done..|vm_compute; done|].
  exact (H 0x7f0000201234 ltac:(lia)).
Defined.

(** The page table gives back what it takes: storing a range maps as many
    levels as the table grows by, also when [mmap] fails half way, so that
    freeing the table unmaps every level that any stores have mapped. *)
Theorem page_table_frees_all t virt phys size pages :
  let '(t1, pages1) := store_mmap_range t virt phys size pages in
  let '(t2, pages2) := free_page_table t1 pages1 in
  (pages2 = pages + free_page_level 4 t)%nat /\ free_page_level 4 t2 = 0%nat.
Proof.
  unfold store_mmap_range.
  match goal with |- context [store_loop store_addr ?s ?n ?t ?v ?p ?o ?g] =>
    pose proof (store_loop_pages n t v p o g) as H; destruct (store_loop store_addr s n t v p o g) as [t1 p1] end.
  unfold free_page_table. split; [done|]. apply (free_level_empty 4).
Qed.

(** An address that was never stored: the look-up gives its offset in the page,
    not 0, when a neighbour has brought its level into the table. *)
Lemma load_addr_unmapped :
  load_addr (store_mmap_range (empty_table 4) 0x7f0000200000 0x40000000 0x1000 2048).1 0x7f0000203456 = 0x456.
Proof. vm_compute. reflexivity. Qed.

(** When [mmap] fails the range is silently not stored. *)
Lemma store_no_pages virt phys size : (store_mmap_range (empty_table 4) virt phys size 0).1 = empty_table 4.
Proof.
  unfold store_mmap_range. generalize (Z.lor (Z.land phys QAE_PAGE_MASK) (get_key phys)) as p. intros p.
  generalize 0 as o. induction (Z.to_nat _) as [|n IH]; intros o; [done|]. apply IH.
Qed.
