(* ===== verification/DList.v ===== *)
(** The doubly linked lists of slabs of the memory driver: the macros
    [ADD_ELEMENT_TO_HEAD_LIST], [ADD_ELEMENT_TO_END_LIST] and
    [REMOVE_ELEMENT_FROM_LIST] of [qae_mem_utils.h] over a store of pointers, and
    the proof that they implement insertion into and removal from a list.

    Several lists share the link fields of the slabs: a slab is on one of the
    lists of used, large and cached slabs through [pPrev_user] and [pNext_user],
    and on one bucket of the hash table through [pPrev_user_hash] and
    [pNext_user_hash].  The theorems state that an operation on a list leaves the
    links of every element of another list alone. *)

From S2P Require Import Prelude.

(** The link fields of one mode ([_user] or [_user_hash]) of all elements; a field
    that is missing is [NULL], which is 0. *)
Record links := mk_links { links_prev : gmap Z Z; links_next : gmap Z Z }.
#[global] Instance eta_links : Eta links := fun l => mk_links (links_prev l) (links_next l).

Definition pPrev (lk : links) (e : Z) : Z := default 0 (links_prev lk !! e).
Definition pNext (lk : links) (e : Z) : Z := default 0 (links_next lk !! e).
Definition set_pPrev (lk : links) (e v : Z) : links := lk <| links_prev := <[e := v]> (links_prev lk) |>.
Definition set_pNext (lk : links) (e v : Z) : links := lk <| links_next := <[e := v]> (links_next lk) |>.

(** The two pointers of a list *)
Record ends := mk_ends { headPtr : Z; tailPtr : Z }.
#[global] Instance eta_ends : Eta ends := fun c => mk_ends (headPtr c) (tailPtr c).

Definition ADD_ELEMENT_TO_HEAD_LIST (lk : links) (c : ends) (elementToAdd : Z) : links * ends :=
  let lk := set_pPrev lk elementToAdd 0 in
  let '(lk, c) :=
    if headPtr c =? 0 then
      (set_pNext lk elementToAdd 0, c <| tailPtr := elementToAdd |>)
    else
      let lk := set_pNext lk elementToAdd (headPtr c) in
      (set_pPrev lk (headPtr c) elementToAdd, c) in
  (lk, c <| headPtr := elementToAdd |>).

Definition ADD_ELEMENT_TO_END_LIST (lk : links) (c : ends) (elementToAdd : Z) : links * ends :=
  let lk := set_pNext lk elementToAdd 0 in
  let '(lk, c) :=
    if tailPtr c =? 0 then
      (set_pPrev lk elementToAdd 0, c <| headPtr := elementToAdd |>)
    else
      let lk := set_pPrev lk elementToAdd (tailPtr c) in
      (set_pNext lk (tailPtr c) elementToAdd, c) in
  (lk, c <| tailPtr := elementToAdd |>).

Definition REMOVE_ELEMENT_FROM_LIST (lk : links) (c : ends) (elementToRemove : Z) : links * ends :=
  let e := elementToRemove in
  if negb (pPrev lk e =? 0) then
    let lk := set_pNext lk (pPrev lk e) (pNext lk e) in
    if negb (pNext lk e =? 0)
    then (set_pPrev lk (pNext lk e) (pPrev lk e), c)
    else (lk, c <| tailPtr := pPrev lk e |>)
  else if negb (pNext lk e =? 0) then
    let lk := set_pPrev lk (pNext lk e) 0 in
    (lk, c <| headPtr := pNext lk e |>)
  else (lk, c <| headPtr := 0 |> <| tailPtr := 0 |>).

(** * Lists in the store *)

(** [l] is a piece of a list: [p] comes before it and [n] after it. *)
Fixpoint seg (lk : links) (p : Z) (l : list Z) (n : Z) : Prop :=
  match l with
  | [] => True
  | x :: l => pPrev lk x = p /\ pNext lk x = hd n l /\ seg lk x l n
  end.

Record is_list (lk : links) (c : ends) (l : list Z) : Prop := {
  il_head : headPtr c = hd 0 l;
  il_tail : tailPtr c = List.last l 0;
  il_seg : seg lk 0 l 0;
  il_nodup : NoDup l;
  il_nonnull : 0 ∉ l
}.

(** The links of an element are the same in two stores. *)
Definition same_links (lk lk' : links) (x : Z) : Prop := pPrev lk' x = pPrev lk x /\ pNext lk' x = pNext lk x.

Lemma pPrev_set lk e v x : pPrev (set_pPrev lk e v) x = if decide (x = e) then v else pPrev lk x.
Proof. unfold pPrev. simpl. case_decide; [subst; by rewrite lookup_insert_eq|by rewrite lookup_insert_ne]. Qed.
Lemma pNext_set lk e v x : pNext (set_pNext lk e v) x = if decide (x = e) then v else pNext lk x.
Proof. unfold pNext. simpl. case_decide; [subst; by rewrite lookup_insert_eq|by rewrite lookup_insert_ne]. Qed.
Lemma pPrev_set_next lk e v x : pPrev (set_pNext lk e v) x = pPrev lk x.
Proof. done. Qed.
Lemma pNext_set_prev lk e v x : pNext (set_pPrev lk e v) x = pNext lk x.
Proof. done. Qed.
Create Rewrite HintDb links.
#[export] Hint Rewrite pPrev_set pNext_set pPrev_set_next pNext_set_prev : links.

(** Simplifies the links of a store that was written to. *)
Ltac links := autorewrite with links in *; repeat (case_decide; simplify_eq); try done.

Lemma seg_frame lk lk' p l n : (forall x, x ∈ l -> same_links lk lk' x) -> seg lk p l n -> seg lk' p l n.
Proof.
  revert p. induction l as [|x l IH]; intros p Hs; [done|]. simpl. intros (H1 & H2 & H3).
  destruct (Hs x ltac:(set_solver)) as [-> ->]. split_and!; try done. apply IH; [set_solver|done].
Qed.

Lemma hd_app {A} (n : A) l1 l2 : hd n (l1 ++ l2) = hd (hd n l2) l1.
Proof. by destruct l1. Qed.

Lemma last_app_cons (p x : Z) l1 l2 : List.last (l1 ++ x :: l2) p = List.last (x :: l2) p.
Proof. induction l1 as [|y l1 IH]; [done|]. cbn [app]. rewrite <- IH. by destruct l1. Qed.

Lemma last_default (p q x : Z) l : List.last (x :: l) p = List.last (x :: l) q.
Proof. revert x. induction l as [|y l IH]; intros x; [done|]. apply (IH y). Qed.

Lemma seg_app lk p l1 l2 n : seg lk p (l1 ++ l2) n <-> seg lk p l1 (hd n l2) /\ seg lk (List.last l1 p) l2 n.
Proof.
  revert p. induction l1 as [|x l1 IH]; intros p; [simpl; tauto|]. cbn [app seg]. rewrite IH, hd_app.
  assert (E : List.last (x :: l1) p = List.last l1 x); [|rewrite E; tauto].
  destruct l1 as [|y l1]; [done|]. rewrite (last_default x p). done.
Qed.

(** Linking a piece to what follows it *)
Lemma seg_set_next lk p l x n n' :
  NoDup (l ++ [x]) -> seg lk p (l ++ [x]) n -> seg (set_pNext lk x n') p (l ++ [x]) n'.
Proof.
  intros Hnd. rewrite !seg_app. simpl. intros (H1 & H2 & _ & _). apply NoDup_app in Hnd as (_ & Hd & _).
  split_and!; try done.
  - eapply seg_frame; [|done]. intros y Hy. split; links; set_solver.
  - links.
Qed.

Lemma seg_set_prev lk p p' x l n :
  NoDup (x :: l) -> seg lk p (x :: l) n -> seg (set_pPrev lk x p') p' (x :: l) n.
Proof.
  intros Hnd (H1 & H2 & H3). apply NoDup_cons in Hnd as [Hx _]. simpl. split_and!; links.
  eapply seg_frame; [|done]. intros y Hy. split; links; set_solver.
Qed.

(** * The macros *)

Lemma add_head_spec lk c l e :
  is_list lk c l -> e <> 0 -> e ∉ l ->
  let '(lk', c') := ADD_ELEMENT_TO_HEAD_LIST lk c e in
  is_list lk' c' (e :: l) /\ (forall x, x ∉ e :: l -> same_links lk lk' x).
Proof.
  intros [Hh Ht Hs Hnd H0] He Hin. unfold ADD_ELEMENT_TO_HEAD_LIST. rewrite Hh.
  destruct l as [|x l]; simpl hd.
  { simpl. split; [split; simpl; try done; try (by links); [apply NoDup_singleton|set_solver]|].
    intros y Hy. split; links; set_solver. }
  destruct (Z.eqb_spec x 0); [set_solver|]. split.
  - split; try (cbn; done); [|by constructor|set_solver]. simpl. split; [links; set_solver|]. split; [by links|].
    apply (seg_set_prev _ 0); [done|]. eapply seg_frame; [|exact Hs].
    intros y Hy. split; links; set_solver.
  - intros y Hy. split; links; set_solver.
Qed.

Lemma add_end_spec lk c l e :
  is_list lk c l -> e <> 0 -> e ∉ l ->
  let '(lk', c') := ADD_ELEMENT_TO_END_LIST lk c e in
  is_list lk' c' (l ++ [e]) /\ (forall x, x ∉ l ++ [e] -> same_links lk lk' x).
Proof.
  intros [Hh Ht Hs Hnd H0] He Hin. unfold ADD_ELEMENT_TO_END_LIST. rewrite Ht.
  destruct l as [|x l _] using rev_ind.
  { simpl. split; [split; simpl; try done; try (by links); [apply NoDup_singleton|set_solver]|].
    intros y Hy. split; links; set_solver. }
  rewrite List.last_last. destruct (Z.eqb_spec x 0); [set_solver|]. split.
  - split; [by destruct l|simpl; by rewrite List.last_last| |apply NoDup_app; split_and!; [done|set_solver|apply NoDup_singleton]|set_solver].
    rewrite seg_app. cbn [hd]. split.
    + apply (seg_set_next _ _ _ _ 0); [done|]. eapply seg_frame; [|exact Hs].
      intros y Hy. split; links; set_solver.
    + rewrite List.last_last. simpl. split_and!; [by links|links; set_solver|done].
  - intros y Hy. split; links; set_solver.
Qed.

Lemma remove_spec lk c l1 e l2 :
  is_list lk c (l1 ++ e :: l2) ->
  let '(lk', c') := REMOVE_ELEMENT_FROM_LIST lk c e in
  is_list lk' c' (l1 ++ l2) /\ (forall x, x ∉ l1 ++ l2 -> same_links lk lk' x).
Proof.
  intros [Hh Ht Hs Hnd H0]. apply seg_app in Hs as [Hs1 [Hp [Hn Hs2]]]. simpl in Hs1.
  assert (Hnd' : NoDup (l1 ++ l2) /\ e ∉ l1 ++ l2).
  { rewrite <- (Permutation_middle l1 l2 e) in Hnd. apply NoDup_cons in Hnd. tauto. }
  destruct Hnd' as [Hnd' He]. assert (H0' : 0 ∉ l1 ++ l2) by set_solver. clear Hnd H0.
  unfold REMOVE_ELEMENT_FROM_LIST. rewrite Hp, Hn. rewrite hd_app in Hh. rewrite last_app_cons in Ht.
  destruct l1 as [|y l1 _] using rev_ind; destruct l2 as [|z l2]; simpl hd in *.
  - simpl. split; [split; (done || set_solver)|]. intros x _. done.
  - simpl app in *. destruct (Z.eqb_spec z 0); [set_solver|]. cbn [List.last Z.eqb negb]. split.
    + split; [done|simpl; rewrite Ht; by destruct l2|by apply (seg_set_prev _ e)|done|done].
    + intros x Hx. split; links; set_solver.
  - rewrite List.last_last in *. rewrite app_nil_r in *. destruct (Z.eqb_spec y 0); [set_solver|].
    assert (Hye : e <> y) by set_solver. cbn [Z.eqb negb]. autorewrite with links.
    rewrite decide_False, Hn, Hp by done. cbn [Z.eqb negb]. split.
    + split; [simpl; rewrite Hh; by destruct l1|cbn; by rewrite List.last_last| |done|done].
      by apply (seg_set_next _ _ _ _ e).
    + intros x Hx. split; links; set_solver.
  - rewrite List.last_last in *. destruct (Z.eqb_spec y 0); [set_solver|]. destruct (Z.eqb_spec z 0); [set_solver|].
    cbn [negb]. autorewrite with links. rewrite Hp, Hn. assert (Hye : e <> y) by set_solver. rewrite !decide_False by done.
    destruct (Z.eqb_spec z 0); [done|]. cbn [negb].
    apply NoDup_app in Hnd' as (N1 & N2 & N3).
    split.
    + split; [by rewrite Hh; destruct l1|rewrite Ht, last_app_cons; by destruct l2| |by apply NoDup_app|done].
      apply seg_app. rewrite List.last_last. split.
      * apply (seg_frame (set_pNext lk y z)); [intros x Hx; split; links; set_solver|].
        by apply (seg_set_next _ _ _ _ e).
      * apply (seg_set_prev _ e); [done|]. apply (seg_frame lk); [intros x Hx; split; links; set_solver|done].
    + intros x Hx. split; links; set_solver.
Qed.

(** * Properties *)

(** Operations on lists that share the link fields of their elements, by the
    number of the list *)
Inductive list_op :=
| AddHead (k e : Z)
| AddEnd (k e : Z)
| Remove (k e : Z).

Definition list_ends (m : gmap Z ends) (k : Z) : ends := default (mk_ends 0 0) (m !! k).

(** In the store ... *)
Definition run_op (s : links * gmap Z ends) (op : list_op) : links * gmap Z ends :=
  let '(lk, m) := s in
  match op with
  | AddHead k e => let '(lk, c) := ADD_ELEMENT_TO_HEAD_LIST lk (list_ends m k) e in (lk, <[k := c]> m)
  | AddEnd k e => let '(lk, c) := ADD_ELEMENT_TO_END_LIST lk (list_ends m k) e in (lk, <[k := c]> m)
  | Remove k e => let '(lk, c) := REMOVE_ELEMENT_FROM_LIST lk (list_ends m k) e in (lk, <[k := c]> m)
  end.

(** ... and on lists. *)
Definition abs_op (a : Z -> list Z) (op : list_op) : Z -> list Z :=
  match op with
  | AddHead k e => fun k' => if decide (k' = k) then e :: a k else a k'
  | AddEnd k e => fun k' => if decide (k' = k) then a k ++ [e] else a k'
  | Remove k e => fun k' => if decide (k' = k) then base.filter (fun x => x <> e) (a k) else a k'
  end.

(** An element that is added is on no list; one that is removed is on the list. *)
Definition op_ok (a : Z -> list Z) (op : list_op) : Prop :=
  match op with
  | AddHead _ e | AddEnd _ e => e <> 0 /\ forall k, e ∉ a k
  | Remove k e => e ∈ a k
  end.
Fixpoint ops_ok (a : Z -> list Z) (ops : list list_op) : Prop :=
  match ops with
  | [] => True
  | op :: ops => op_ok a op /\ ops_ok (abs_op a op) ops
  end.

Record represents (s : links * gmap Z ends) (a : Z -> list Z) : Prop := {
  rep_list : forall k, is_list s.1 (list_ends s.2 k) (a k);
  rep_disj : forall k k' x, k <> k' -> x ∈ a k -> x ∉ a k'
}.

Lemma is_list_frame lk lk' c l : (forall x, x ∈ l -> same_links lk lk' x) -> is_list lk c l -> is_list lk' c l.
Proof. intros Hf [? ? ? ? ?]. split; try done. by eapply seg_frame. Qed.

Lemma list_ends_insert m k c k' : list_ends (<[k := c]> m) k' = if decide (k' = k) then c else list_ends m k'.
Proof. unfold list_ends. case_decide; [subst; by rewrite lookup_insert_eq|by rewrite lookup_insert_ne]. Qed.

(** A step that turns list [k] into [l'] and touches the links of its elements only *)
Lemma represents_update lk m a k lk' c' l' a' :
  represents (lk, m) a ->
  is_list lk' c' l' -> (forall x, x ∉ l' -> same_links lk lk' x) ->
  (forall x, x ∈ l' -> forall k', k' <> k -> x ∉ a k') ->
  (forall k', a' k' = if decide (k' = k) then l' else a k') -> represents (lk', <[k := c']> m) a'.
Proof.
  intros [Hl Hd] Hl' Hf Hnew Ha. split.
  - intros k'. simpl. rewrite list_ends_insert, Ha. case_decide as Hk; [done|].
    eapply is_list_frame; [|apply Hl]. intros x Hx. apply Hf. intros Hin. by eapply Hnew.
  - intros k1 k2 x Hne. rewrite !Ha. repeat case_decide; subst; try done.
    + intros Hx. by apply Hnew.
    + intros Hx Hin. by eapply Hnew.
    + by apply Hd.
Qed.

Lemma filter_middle (e : Z) l1 l2 :
  e ∉ l1 ++ l2 -> base.filter (fun x => x <> e) (l1 ++ e :: l2) = l1 ++ l2.
Proof.
  intros He. rewrite filter_app, filter_cons, decide_False by naive_solver.
  rewrite <- filter_app. by apply filter_ne.
Qed.

Lemma run_op_represents s a op : represents s a -> op_ok a op -> represents (run_op s op) (abs_op a op).
Proof.
  destruct s as [lk m]. intros R Hok. destruct op as [k e|k e|k e]; simpl in *.
  - destruct Hok as [He Hin]. pose proof (add_head_spec lk _ _ e (rep_list _ _ R k) He (Hin k)) as H.
    simpl in H. destruct (ADD_ELEMENT_TO_HEAD_LIST _ _ _) as [lk' c']. destruct H as [H1 H2].
    eapply represents_update; try done. intros x [->|Hx]%elem_of_cons k' Hk; [done|]. by eapply (rep_disj _ _ R).
  - destruct Hok as [He Hin]. pose proof (add_end_spec lk _ _ e (rep_list _ _ R k) He (Hin k)) as H.
    simpl in H. destruct (ADD_ELEMENT_TO_END_LIST _ _ _) as [lk' c']. destruct H as [H1 H2].
    eapply represents_update; try done.
    intros x [Hx| ->%list_elem_of_singleton]%elem_of_app k' Hk; [|done]. by eapply (rep_disj _ _ R).
  - apply list_elem_of_split in Hok as (l1 & l2 & E).
    pose proof (rep_list _ _ R k) as L. simpl in L. rewrite E in L.
    pose proof (remove_spec _ _ _ _ _ L) as H. destruct (REMOVE_ELEMENT_FROM_LIST _ _ _) as [lk' c'].
    destruct H as [H1 H2]. pose proof (il_nodup _ _ _ L) as N.
    rewrite <- (Permutation_middle l1 l2 e) in N. apply NoDup_cons in N as [N _].
    eapply represents_update; try done.
    + intros x Hx k' Hk. apply (rep_disj _ _ R k); [done|]. rewrite E. set_solver.
    + intros k'. case_decide; [|done]. rewrite E. by apply filter_middle.
Qed.

(** C27. The linked lists implement lists: however elements are added at the head
    or the end of lists that share their link fields, and removed from them, the
    pointers in the store represent the lists that the same operations on lists
    give, as long as an element is added only when it is on no list and removed
    only from the list it is on. *)
Theorem linked_lists_refine ops s a :
  represents s a -> ops_ok a ops -> represents (foldl run_op s ops) (foldl abs_op a ops).
Proof.
  revert s a. induction ops as [|op ops IH]; intros s a R; [done|]. intros [Hop Hops].
  cbn [foldl]. apply IH; [by apply run_op_represents|done].
Qed.

Lemma represents_empty : represents (mk_links ∅ ∅, ∅) (fun _ => []).
Proof. split; [|set_solver]. intros k. split; try done; [constructor|set_solver]. Qed.

Lemma linked_lists_refine_witness :
  let ops := [AddHead 1 10; AddEnd 1 20; AddHead 2 30; Remove 1 10] in
  is_list (foldl run_op (mk_links ∅ ∅, ∅) ops).1 (list_ends (foldl run_op (mk_links ∅ ∅, ∅) ops).2 1) [20].
Proof.
  intros ops. assert (Hok : ops_ok (fun _ => []) ops).
  { simpl. split_and!; try done; intros; repeat case_decide; set_solver. }
  exact (rep_list _ _ (linked_lists_refine ops (mk_links ∅ ∅, ∅) (fun _ => []) represents_empty Hok) 1).
Defined.
