(* ===== verification/Usdm.v ===== *)
(** The user-space memory driver: slabs of memory that is mapped for the device,
    the lists, the hash table and the cache they are kept in, allocation and
    release, address translation, and the registration of a VFIO container
    ([qae_mem_utils_common.c], [qae_mem_utils_common.h], [qae_mem_utils_vfio.c]).

    A slab is identified by the address of its control block.  The lists of slabs
    are lists of these addresses: [DList] proves that the pointer operations
    implement them.  What the system calls return ([mmap], the VFIO ioctls) is an
    argument of the operations. *)

From S2P Require Import Prelude Bitmap Iova PageTable.

Definition QAE_MAX_PHYS_ALIGN : Z := 0x400000.
Definition QAE_MAX_ALLOC_SIZE : Z := 0x4000000.
Definition NUMA_ANY_NODE : Z := -1.
Definition g_max_cache : Z := 0x800000.
Definition g_max_lookup_num : Z := 10.
Definition g_strict_node : Z := 0.
Definition EEXIST : Z := 17.

Inductive slabType := SMALL | LARGE | HUGE_PAGE.
#[global] Instance slabType_dec : EqDecision slabType.
Proof. solve_decision. Defined.

(** [dev_mem_info_t], and the bitmap and the sizes of [block_ctrl_t], which follow
    it in a small slab *)
Record dev_mem_info := mk_slab {
  nodeId : Z; s_size : Z; s_type : slabType; allocations : Z; phy_addr : Z; virt_addr : Z;
  s_ctrl : block_ctrl
}.
#[global] Instance eta_slab : Eta dev_mem_info := fun s =>
  mk_slab (nodeId s) (s_size s) (s_type s) (allocations s) (phy_addr s) (virt_addr s) (s_ctrl s).

(** The global variables of the driver.  [slabs] holds the slabs that are mapped,
    [dma] the ranges that are mapped in the IOMMU of the container (virtual
    address, I/O address, size), [pid] the static variable of [check_pid]. *)
Record usdm := mk_usdm {
  slabs : gmap Z dev_mem_info;
  user_mem : list Z; user_large : list Z; user_cache : list Z;
  g_slab_list : gmap Z (list Z); g_cache_size : Z;
  g_page_table : ptable 4; pt_left : nat; g_iova : iova_state;
  vfio_container_fd : Z; vfio_container_ref : Z; vfio_pid : Z; dma : list (Z * Z * Z); pid : Z
}.
#[global] Instance eta_usdm : Eta usdm := fun s =>
  mk_usdm (slabs s) (user_mem s) (user_large s) (user_cache s) (g_slab_list s) (g_cache_size s)
    (g_page_table s) (pt_left s) (g_iova s) (vfio_container_fd s) (vfio_container_ref s) (vfio_pid s)
    (dma s) (pid s).

(** What the system gives while memory is allocated: the addresses that [mmap]
    returns for the slab and for the memory of a large slab (0 when it fails),
    and the error of the ioctl that maps it (0 when it succeeds). *)
Record alloc_env := mk_alloc_env { a_slab : Z; a_virt : Z; a_map : Z }.

(** ** The hash table *)

Definition bucket (st : usdm) (key : Z) : list Z := default [] (g_slab_list st !! key).

Definition add_slab_to_hash (st : usdm) (a : Z) : usdm :=
  match slabs st !! a with
  | None => st
  | Some slab =>
      let key := get_key (phy_addr slab) in
      st <| g_slab_list := <[key := a :: bucket st key]> (g_slab_list st) |>
  end.
Definition del_slab_from_hash (st : usdm) (a : Z) : usdm :=
  match slabs st !! a with
  | None => st
  | Some slab =>
      let key := get_key (phy_addr slab) in
      st <| g_slab_list := <[key := base.filter (fun x => x <> a) (bucket st key)]> (g_slab_list st) |>
  end.

(** The slab holds the virtual address. *)
Definition slab_has (slab : dev_mem_info) (virt : Z) : bool := u64 (virt - virt_addr slab) <? s_size slab.

Definition find_slab_in_hash (st : usdm) (virt : Z) : option Z :=
  List.find (fun a => match slabs st !! a with Some slab => slab_has slab virt | None => false end)
    (bucket st (load_key (g_page_table st) virt)).

(** ** The cache of empty slabs *)

Definition push_slab (st : usdm) (a : Z) (slab : dev_mem_info) : Z * usdm :=
  if u64 (g_cache_size st + s_size slab) <=? g_max_cache then
    (0, st <| g_cache_size := u64 (g_cache_size st + s_size slab) |> <| user_cache := a :: user_cache st |>)
  else (- ENOMEM, st).

(** The slab that [pop_slab] takes *)
Definition pop_match (st : usdm) (node a : Z) : bool :=
  match slabs st !! a with
  | None => false
  | Some slab =>
      negb (negb (node =? NUMA_ANY_NODE) && (negb (g_strict_node =? 0) && negb (node =? nodeId slab)))
  end.
Definition pop_slab (st : usdm) (node : Z) : option Z * usdm :=
  match List.find (pop_match st node) (user_cache st) with
  | None => (None, st)
  | Some a =>
      let size := match slabs st !! a with Some slab => s_size slab | None => 0 end in
      (Some a, st <| g_cache_size := u64 (g_cache_size st - size) |>
                  <| user_cache := base.filter (fun x => x <> a) (user_cache st) |>)
  end.

(** ** Slabs *)

(** The state after the ioctl that maps a slab: an error other than [EEXIST] is a
    failure, and a range that exists already is taken to be mapped. *)
Definition dma_map_slab (err : Z) (st : usdm) (virt iova size : Z) : Z * usdm :=
  if err =? 0 then (0, st <| dma := (virt, iova, size) :: dma st |>)
  else if negb (err =? EEXIST) then (1, st)
  else (0, st).

(** VFIO removes the mappings that lie in the range. *)
Definition dma_unmap_slab (err : Z) (st : usdm) (iova size : Z) : Z * usdm :=
  if err =? 0 then
    (0, st <| dma := List.filter (fun m => negb ((iova <=? m.1.2) && (m.1.2 + m.2 <=? iova + size))) (dma st) |>)
  else (-1, st).

Definition ioctl_free_slab (errs : Z -> Z) (st : usdm) (slab : dev_mem_info) : usdm :=
  let st := st <| g_iova := (g_iova st) <| iova_used := iova_release (iova_used (g_iova st))
                                             (phy_addr slab) (u32 (s_size slab)) |> |> in
  if vfio_container_fd st <? 0 then st
  else (dma_unmap_slab (errs (phy_addr slab)) st (phy_addr slab) (s_size slab)).2.

Definition qae_free_slab (errs : Z -> Z) (st : usdm) (a : Z) : usdm :=
  match slabs st !! a with
  | None => st
  | Some slab =>
      let st := del_slab_from_hash st a in
      let st := st <| slabs := delete a (slabs st) |> in
      ioctl_free_slab errs st slab
  end.

(** [ioctl_alloc_slab]: the slab, or [None] for [NULL]. *)
Definition ioctl_alloc_slab (e : alloc_env) (st : usdm) (size_r alignment : Z) (type : slabType)
    : option Z * usdm :=
  let size := round_up size_r PAGE_SIZE in
  if a_slab e =? 0 then (None, st)
  else
    let virt := if decide (type = SMALL) then a_slab e else a_virt e in
    if virt =? 0 then (None, st)
    else
      let '(phy, iova) := allocate_iova (g_iova st) (u32 size) (u32 alignment) in
      let st := st <| g_iova := iova |> in
      let error st := (None, st <| g_iova := (g_iova st) <| iova_used :=
                         iova_release (iova_used (g_iova st)) phy (u32 size) |> |>) in
      if phy =? 0 then error st
      else
        let slab := mk_slab 0 size type 0 phy virt zero_ctrl in
        let ok st := (Some (a_slab e), st <| slabs := <[a_slab e := slab]> (slabs st) |>) in
        if vfio_container_fd st <? 0 then ok st
        else
          let '(ret, st) := dma_map_slab (a_map e) st virt phy size in
          if negb (ret =? 0) then error st else ok st.

Definition qae_alloc_slab (e : alloc_env) (st : usdm) (size alignment : Z) (type : slabType)
    : option Z * usdm :=
  let '(slab, st) := ioctl_alloc_slab e st size alignment type in
  match slab with
  | Some a => (slab, add_slab_to_hash st a)
  | None => (slab, st)
  end.

(** An allocation from the blocks of a slab *)
Definition slab_alloc (st : usdm) (a : Z) (slab : dev_mem_info) (size align : Z) : Z * usdm :=
  let '(block, ctrl) := default (0, s_ctrl slab) (qae_mem_alloc a (s_ctrl slab) size align) in
  (block, st <| slabs := <[a := slab <| s_ctrl := ctrl |>]> (slabs st) |>).

Definition init_slab_and_alloc (st : usdm) (a size phys_align_unit : Z) : Z * usdm :=
  match slabs st !! a with
  | None => (0, st)
  | Some slab =>
      let slab := slab <| s_ctrl := init_slab (s_ctrl slab) (s_size slab) |> in
      let '(virt_addr, st) := slab_alloc st a slab size phys_align_unit in
      if negb (virt_addr =? 0) then (virt_addr, st <| user_mem := a :: user_mem st |>)
      else (virt_addr, st)
  end.

(** The loop of [__qae_userMemLookupBySize] over the list of used slabs *)
Fixpoint lookup_loop (l : list Z) (st : usdm) (size node align link_num : Z) : option (Z * Z) * usdm :=
  match l with
  | [] => (None, st)
  | a :: l =>
      match slabs st !! a with
      | None => (None, st)
      | Some slab =>
          if negb (g_strict_node =? 0) && negb (nodeId slab =? node)
          then lookup_loop l st size node align link_num
          else
            let '(block, st) := slab_alloc st a slab size align in
            if negb (block =? 0) then (Some (a, block), st)
            else if g_max_lookup_num <=? link_num + 1 then (None, st)
            else lookup_loop l st size node align (link_num + 1)
      end
  end.
Definition qae_userMemLookupBySize (st : usdm) (size node align : Z) : option (Z * Z) * usdm :=
  lookup_loop (user_mem st) st size node align 0.

(** [__qae_find_slab]: the slab and [*addr] *)
Definition qae_find_slab (errs : Z -> Z) (st : usdm) (size node align : Z) : option (Z * Z) * usdm :=
  let '(r, st) := qae_userMemLookupBySize st size node align in
  match r with
  | Some _ => (r, st)
  | None =>
      let '(slab, st) := pop_slab st node in
      match slab with
      | None => (None, st)
      | Some a =>
          let '(addr, st) := init_slab_and_alloc st a size align in
          if addr =? 0 then (None, qae_free_slab errs st a) else (Some (a, addr), st)
      end
  end.

(** ** Starting in a process *)

(** [__qae_ResetControl].  A slab that a parent process has mapped is not there in
    the child ([MADV_DONTFORK]). *)
Definition qae_ResetControl (st : usdm) : usdm :=
  let '(table, pages) := free_page_table (g_page_table st) (pt_left st) in
  st <| g_page_table := table |> <| pt_left := pages |> <| g_slab_list := ∅ |> <| g_cache_size := 0 |>
     <| user_cache := [] |> <| user_mem := [] |> <| user_large := [] |> <| slabs := ∅ |>.

Definition check_pid (getpid : Z) (st : usdm) : bool * usdm :=
  if negb (pid st =? getpid) then (true, st <| pid := getpid |>) else (false, st).

Definition qaeInitProcess (getpid : Z) (st : usdm) : Z * usdm :=
  let '(new, st) := check_pid getpid st in
  if new then
    let st := qae_ResetControl st in
    (0, st <| g_iova := mk_iova_state (replicate (Z.to_nat (NUM_IOVA_SLABS / 32)) 0) FIRST_IOVA |>)
  else (0, st).
Definition qae_open (getpid : Z) (st : usdm) : Z * usdm := qaeInitProcess getpid st.

(** [qaeMemInit]; [lock] and [unlock] are the results of the mutex. *)
Definition qaeMemInit (lock unlock getpid : Z) (st : usdm) : Z * usdm :=
  if negb (lock =? 0) then (- EIO, st)
  else
    let '(fd_status, st) := qae_open getpid st in
    if negb (unlock =? 0) then (- EIO, st) else (fd_status, st).

(** ** Allocation *)

(** One more allocation of the slab *)
Definition count_alloc (st : usdm) (a d : Z) : usdm :=
  match slabs st !! a with
  | None => st
  | Some slab => st <| slabs := <[a := slab <| allocations := u32 (allocations slab + d) |>]> (slabs st) |>
  end.

Definition qae_alloc_addr (e : alloc_env) (errs : Z -> Z) (getpid : Z) (st : usdm) (size node phys_alignment_byte : Z)
    : Z * usdm :=
  let phys_align_unit := phys_alignment_byte / UNIT_SIZE in
  let '(opened, st) := qae_open getpid st in
  if negb (opened =? 0) then (0, st)
  else if 2 ^ 64 - 1 - reserved - UNIT_SIZE <? size then (0, st)
  else
    let requested_pages := div_round_up size UNIT_SIZE + reserved in
    let slab_bytes := QAE_NUM_PAGES_PER_ALLOC * QAE_PAGE_SIZE in
    if (slab_bytes / UNIT_SIZE <? requested_pages) || (slab_bytes <=? phys_alignment_byte) then
      (* LARGE *)
      let size := Z.max size phys_alignment_byte in
      let allocate_pages := div_round_up size UNIT_SIZE in
      let '(slab, st) := qae_alloc_slab e st (allocate_pages * UNIT_SIZE) phys_alignment_byte LARGE in
      match slab with
      | None => (0, st)
      | Some a =>
          match slabs st !! a with
          | None => (0, st)
          | Some s =>
              let '(table, pages) := store_mmap_range (g_page_table st) (virt_addr s) (phy_addr s) (s_size s)
                                      (pt_left st) in
              let st := st <| g_page_table := table |> <| pt_left := pages |> in
              let st := st <| slabs := <[a := s <| allocations := 1 |>]> (slabs st) |> in
              (virt_addr s, st <| user_large := a :: user_large st |>)
          end
      end
    else
      (* SMALL *)
      let allocate_pages := slab_bytes / UNIT_SIZE in
      let '(found, st) := qae_find_slab errs st size node phys_align_unit in
      match found with
      | Some (a, addr) => (addr, count_alloc st a 1)
      | None =>
          let '(slab, st) := qae_alloc_slab e st (allocate_pages * UNIT_SIZE) phys_alignment_byte SMALL in
          match slab with
          | None => (0, st)
          | Some a =>
              match slabs st !! a with
              | None => (0, st)
              | Some s =>
                  let '(table, pages) := store_mmap_range (g_page_table st) (virt_addr s) (phy_addr s) (s_size s)
                                          (pt_left st) in
                  let st := st <| g_page_table := table |> <| pt_left := pages |> in
                  let st := st <| slabs := <[a := s <| allocations := 1 |>]> (slabs st) |> in
                  if negb (virt_addr s mod QAE_PAGE_SIZE =? 0) then (0, qae_free_slab errs st a)
                  else
                    let '(addr, st) := init_slab_and_alloc st a size phys_align_unit in
                    if addr =? 0 then (0, qae_free_slab errs st a) else (addr, st)
              end
          end
      end.

(** [qaeMemAllocNUMA]; [lock] and [unlock] are the results of the mutex. *)
Definition qaeMemAllocNUMA (e : alloc_env) (lock unlock : Z) (errs : Z -> Z) (getpid : Z) (st : usdm)
    (size node phys_alignment_byte : Z) : Z * usdm :=
  if size =? 0 then (0, st)
  else if QAE_MAX_ALLOC_SIZE <? size then (0, st)
  else if (phys_alignment_byte =? 0) || (QAE_MAX_PHYS_ALIGN <? phys_alignment_byte) ||
          negb (Z.land phys_alignment_byte (phys_alignment_byte - 1) =? 0) then (0, st)
  else if negb (lock =? 0) then (0, st)
  else
    let '(pVirtAddress, st) := qae_alloc_addr e errs getpid st size node phys_alignment_byte in
    if negb (unlock =? 0) then (0, st) else (pVirtAddress, st).

(** ** Release *)

(** [__qae_free_addr]: [*p_va] afterwards, the state, and the range that is
    overwritten with zeros. *)
Definition qae_free_addr (errs : Z -> Z) (getpid : Z) (st : usdm) (va : Z) (secure_free : bool)
    : Z * usdm * option (Z * Z) :=
  let '(opened, st) := qae_open getpid st in
  if negb (opened =? 0) then (va, st, None)
  else
    match find_slab_in_hash st va with
    | None => (va, st, None)
    | Some a =>
        match slabs st !! a with
        | None => (va, st, None)
        | Some slab =>
            if decide (s_type slab = LARGE) then
              let st := st <| user_large := base.filter (fun x => x <> a) (user_large st) |> in
              (0, qae_free_slab errs st a, None)
            else
              let '(freed, ctrl, zeroed) := qae_mem_free a (s_ctrl slab) va secure_free in
              if freed then
                let slab := slab <| s_ctrl := ctrl |> <| allocations := u32 (allocations slab - 1) |> in
                let st := st <| slabs := <[a := slab]> (slabs st) |> in
                if negb (allocations slab =? 0) then (0, st, zeroed)
                else
                  let st := st <| user_mem := base.filter (fun x => x <> a) (user_mem st) |> in
                  let '(ret, st) := push_slab st a slab in
                  if negb (ret =? 0) then (0, qae_free_slab errs st a, zeroed) else (0, st, zeroed)
              else (0, st, zeroed)
        end
    end.

(** [__qae_memFreeNUMA], for [ptr] ([None] for [NULL]) *)
Definition qae_memFreeNUMA (lock : Z) (errs : Z -> Z) (getpid : Z) (st : usdm) (ptr : option Z) (secure_free : bool)
    : option Z * usdm * option (Z * Z) :=
  match ptr with
  | None => (ptr, st, None)
  | Some va =>
      if va =? 0 then (ptr, st, None)
      else if negb (lock =? 0) then (ptr, st, None)
      else
        let '(va, st, zeroed) := qae_free_addr errs getpid st va secure_free in
        (Some va, st, zeroed)
  end.
Definition qaeMemFreeNUMA (lock : Z) (errs : Z -> Z) (getpid : Z) (st : usdm) (ptr : option Z) :=
  qae_memFreeNUMA lock errs getpid st ptr true.
Definition qaeMemFreeNonZeroNUMA (lock : Z) (errs : Z -> Z) (getpid : Z) (st : usdm) (ptr : option Z) :=
  qae_memFreeNUMA lock errs getpid st ptr false.

(** ** Translation *)

Definition qaeVirtToPhysNUMA (st : usdm) (pVirtAddress : Z) : Z := load_addr (g_page_table st) pVirtAddress.

(** The list of used slabs is searched; large slabs and cached slabs are on other
    lists. *)
Definition qaePhysToVirtNUMA (lock unlock : Z) (st : usdm) (physAddress : Z) : Z :=
  if negb (lock =? 0) then 0
  else
    let ret :=
      match List.find (fun a => match slabs st !! a with
                                | Some slab => u64 (physAddress - phy_addr slab) <? s_size slab
                                | None => false
                                end) (user_mem st) with
      | None => 0
      | Some a =>
          match slabs st !! a with
          | Some slab => u64 (virt_addr slab + u64 (physAddress - phy_addr slab))
          | None => 0
          end
      end in
    if negb (unlock =? 0) then 0 else ret.

(** ** Shutting down *)

Definition qae_destroyList (errs : Z -> Z) (st : usdm) (pList : list Z) : usdm :=
  foldl (qae_free_slab errs) st pList.

(** The loop of [__qae_reset_cache]; each round takes a slab off the cache. *)
Fixpoint reset_cache_loop (fuel : nat) (errs : Z -> Z) (st : usdm) : usdm :=
  match fuel with
  | O => st
  | S fuel =>
      match pop_slab st NUMA_ANY_NODE with
      | (None, st) => st
      | (Some a, st) => reset_cache_loop fuel errs (qae_free_slab errs st a)
      end
  end.
Definition qae_reset_cache (errs : Z -> Z) (st : usdm) : usdm :=
  reset_cache_loop (S (length (user_cache st))) errs st.

Definition qaeMemDestroy (lock : Z) (errs : Z -> Z) (st : usdm) : usdm :=
  if negb (lock =? 0) then st
  else
    let '(table, pages) := free_page_table (g_page_table st) (pt_left st) in
    let st := st <| g_page_table := table |> <| pt_left := pages |> in
    let st := qae_reset_cache errs st in
    let st := qae_destroyList errs st (user_mem st) in
    let st := qae_destroyList errs st (user_large st) in
    st <| user_cache := [] |> <| user_mem := [] |> <| user_large := [] |>.

(** ** The container *)

(** [dma_map_slabs] and [dma_unmap_slabs]; [errs] gives the error of the ioctl for
    an I/O address. *)
Fixpoint dma_map_slabs (errs : Z -> Z) (st : usdm) (pList : list Z) : Z * usdm :=
  match pList with
  | [] => (0, st)
  | a :: pList =>
      match slabs st !! a with
      | None => (0, st)
      | Some slab =>
          let '(ret, st) := dma_map_slab (errs (phy_addr slab)) st (virt_addr slab) (phy_addr slab)
                              (s_size slab) in
          if negb (ret =? 0) then (1, st) else dma_map_slabs errs st pList
      end
  end.
Fixpoint dma_unmap_slabs (errs : Z -> Z) (st : usdm) (pList : list Z) : Z * usdm :=
  match pList with
  | [] => (0, st)
  | a :: pList =>
      match slabs st !! a with
      | None => (0, st)
      | Some slab =>
          let '(ret, st) := dma_unmap_slab (errs (phy_addr slab)) st (phy_addr slab) (s_size slab) in
          if negb (ret =? 0) then (1, st) else dma_unmap_slabs errs st pList
      end
  end.

(** [filter_dma_ranges] for the capabilities that the IOMMU reports: [None] when
    the query fails, otherwise the address ranges of each capability. *)
Definition filter_dma_ranges (caps : option (list (list (Z * Z)))) (st : usdm) : Z * usdm :=
  match caps with
  | None => (-1, st)
  | Some caps =>
      let '(used, _) := foldl (fun '(used, next) ranges => filter_range used next ranges)
                          (iova_used (g_iova st), 0) caps in
      (0, st <| g_iova := (g_iova st) <| iova_used := used |> |>)
  end.

Definition qaeRegisterDevice (caps : option (list (list (Z * Z)))) (errs : Z -> Z) (getpid fd : Z)
    (st : usdm) : Z * usdm :=
  let '(filtered, st) := filter_dma_ranges caps st in
  if negb (filtered =? 0) then (-1, st)
  else
    let '(init, st) := qaeInitProcess getpid st in
    if negb (init =? 0) then (-1, st)
    else
      let st := if negb (getpid =? vfio_pid st)
                then st <| vfio_pid := getpid |> <| vfio_container_fd := -1 |> <| vfio_container_ref := 0 |>
                else st in
      let '(ret, st) :=
        if vfio_container_fd st <? 0 then
          let st := st <| vfio_container_fd := fd |> in
          let '(r1, st) := dma_map_slabs errs st (user_mem st) in
          let '(r2, st) := dma_map_slabs errs st (user_large st) in
          let '(r3, st) := dma_map_slabs errs st (user_cache st) in
          if (r1 =? 0) && (r2 =? 0) && (r3 =? 0) then (0, st)
          else (1, st <| vfio_container_fd := -1 |>)
        else (0, st) in
      if negb (ret =? 0) then (1, st)
      else if fd =? vfio_container_fd st
      then (0, st <| vfio_container_ref := vfio_container_ref st + 1 |>)
      else (1, st).

Definition qaeUnregisterDevice (errs : Z -> Z) (getpid fd : Z) (st : usdm) : Z * usdm :=
  if (vfio_container_ref st <=? 0) || negb (vfio_container_fd st =? fd) then (1, st)
  else if negb (getpid =? vfio_pid st) then (0, st)
  else
    let st := st <| vfio_container_ref := vfio_container_ref st - 1 |> in
    if vfio_container_ref st =? 0 then
      let '(r1, st) := dma_unmap_slabs errs st (user_mem st) in
      let '(r2, st) := dma_unmap_slabs errs st (user_large st) in
      let '(r3, st) := dma_unmap_slabs errs st (user_cache st) in
      let ret := if (r1 =? 0) && (r2 =? 0) && (r3 =? 0) then 0 else 1 in
      (ret, st <| vfio_container_fd := -1 |>)
    else (0, st).

(** * Proofs *)

#[local] Arguments store_mmap_range : simpl never.
#[local] Arguments free_page_table : simpl never.
#[local] Arguments load_addr : simpl never.
#[local] Arguments load_key : simpl never.
#[local] Arguments get_key : simpl never.
#[local] Arguments allocate_iova : simpl never.
#[local] Arguments iova_release : simpl never.
#[local] Arguments qae_mem_alloc : simpl never.
#[local] Arguments zero_ctrl : simpl never.
#[local] Arguments fresh_slab : simpl never.

(** ** The allocations of a slab *)

(** The number of allocations that the sizes of a control block describe *)
Definition n_allocs (ctrl : block_ctrl) : Z := len (List.filter (fun n => negb (n =? 0)) (sizes ctrl)).

Lemma filter_length_set (p : Z -> bool) l i v :
  0 <= i < len l ->
  len (List.filter p (l.[i <- v])) =
  len (List.filter p l) + (if p v then 1 else 0) - (if p (l.[i]) then 1 else 0).
Proof.
  unfold arr_set, arr_get. intros Hi.
  assert (Hlt : (Z.to_nat i < length l)%nat) by lia. clear Hi. revert Hlt. generalize (Z.to_nat i) as k.
  intros k Hk. rewrite insert_take_drop by done.
  destruct (lookup_lt_is_Some_2 l k Hk) as [x Hx]. rewrite (nth_lookup_Some _ _ _ _ Hx).
  rewrite <- (take_drop_middle l k x Hx) at 3. rewrite !List.filter_app, !length_app. cbn [List.filter].
  destruct (p v), (p x); cbn [length]; lia.
Qed.

Lemma n_allocs_take ctrl f n :
  ctrl_ok ctrl -> 0 <= f < BLOCK_SIZES -> 0 < n < 2 ^ 16 -> (sizes ctrl).[f] = 0 ->
  n_allocs (take_blocks ctrl f n) = n_allocs ctrl + 1.
Proof.
  intros Hok Hf Hn H0. unfold n_allocs, take_blocks. simpl.
  rewrite filter_length_set, u16_small, H0 by (rewrite ?(co_sizes _ Hok); lia).
  destruct (Z.eqb_spec n 0); simpl; lia.
Qed.

Lemma n_allocs_release ctrl f bm :
  ctrl_ok ctrl -> 0 <= f < BLOCK_SIZES -> (sizes ctrl).[f] <> 0 ->
  n_allocs (mk_block_ctrl bm ((sizes ctrl).[f <- 0])) = n_allocs ctrl - 1.
Proof.
  intros Hok Hf H0. unfold n_allocs. simpl.
  rewrite filter_length_set by (rewrite (co_sizes _ Hok); lia).
  destruct (Z.eqb_spec ((sizes ctrl).[f]) 0); simpl; lia.
Qed.

Lemma n_allocs_bound ctrl : ctrl_ok ctrl -> 0 <= n_allocs ctrl <= BLOCK_SIZES.
Proof.
  intros Hok. rewrite <- (co_sizes _ Hok). unfold n_allocs.
  pose proof (List.filter_length_le (fun n => negb (n =? 0)) (sizes ctrl)). lia.
Qed.

Lemma n_allocs_zero ctrl f :
  ctrl_ok ctrl -> n_allocs ctrl = 0 -> 0 <= f < BLOCK_SIZES -> (sizes ctrl).[f] = 0.
Proof.
  intros Hok H0 Hf. pose proof (co_sizes _ Hok) as Hl. unfold n_allocs in H0.
  destruct (Z.eqb_spec ((sizes ctrl).[f]) 0) as [|Hne]; [done|exfalso].
  assert (In ((sizes ctrl).[f]) (List.filter (fun n => negb (n =? 0)) (sizes ctrl))) as Hin.
  { apply List.filter_In. split; [unfold arr_get; apply List.nth_In; lia|].
    by apply negb_true_iff, Z.eqb_neq. }
  destruct (List.filter _ _); [done|simpl in H0; lia].
Qed.

Lemma n_allocs_pos ctrl f : ctrl_ok ctrl -> 0 <= f < BLOCK_SIZES -> (sizes ctrl).[f] <> 0 -> 0 < n_allocs ctrl.
Proof.
  intros Hok Hf Hne. pose proof (n_allocs_bound ctrl Hok). destruct (Z.eq_dec (n_allocs ctrl) 0) as [E|]; [|lia].
  by destruct (Hne (n_allocs_zero ctrl f Hok E Hf)).
Qed.

(** A slab in which nothing is allocated is as a new one. *)
Lemma empty_ctrl_fresh ctrl : ctrl_ok ctrl -> n_allocs ctrl = 0 -> ctrl = fresh_slab.
Proof.
  intros Hok H0. pose proof fresh_slab_ok as Hf.
  assert (Hno : forall c, ctrl_ok c -> n_allocs c = 0 -> forall f k, ~ owns c f k).
  { intros c Hc Hc0 f k [Hr Hk]. rewrite (n_allocs_zero c f) in Hk by done. lia. }
  assert (Hf0 : n_allocs fresh_slab = 0) by (vm_compute; done).
  destruct ctrl as [bm sz], fresh_slab as [bm' sz'] eqn:E. f_equal.
  - pose proof (wf_length _ (co_bitmap _ Hok)) as L. pose proof (wf_length _ (co_bitmap _ Hf)) as L'.
    apply bitmap_ext; [apply Hok|apply Hf|simpl in *; lia|]. intros k Hk. simpl in L. rewrite L in Hk.
    change (64 * (BITMAP_LEN + 1)) with (2048 + 64) in Hk. destruct (Z.lt_ge_cases k 2048).
    + apply eq_true_iff_eq. etrans; [apply (co_bits _ Hok k); change BLOCK_SIZES with 2048; lia|].
      symmetry. etrans; [apply (co_bits _ Hf k); change BLOCK_SIZES with 2048; lia|].
      split; intros [?|[f Ho]]; auto; by apply Hno in Ho.
    + rewrite (wf_bit_barrier bm), (wf_bit_barrier bm'); try done; try lia; [apply Hf|apply Hok].
  - pose proof (co_sizes _ Hok) as L. pose proof (co_sizes _ Hf) as L'. apply arr_ext; [simpl in *; lia|].
    intros i Hi. simpl in L. rewrite L in Hi.
    pose proof (n_allocs_zero _ i Hok H0 Hi) as Z1. pose proof (n_allocs_zero _ i Hf Hf0 Hi) as Z2.
    simpl in *. lia.
Qed.

Lemma init_slab_fresh : init_slab fresh_slab (2 ^ 21) = fresh_slab.
Proof. vm_compute. reflexivity. Qed.
Lemma init_slab_zero : init_slab zero_ctrl (2 ^ 21) = fresh_slab.
Proof. reflexivity. Qed.
Lemma n_allocs_fresh : n_allocs fresh_slab = 0.
Proof. vm_compute. reflexivity. Qed.

(** ** The invariant *)

(** A slab: where it is, what it is mapped to, and that the page table knows it *)
Record slab_wf (st : usdm) (a : Z) (s : dev_mem_info) : Prop := {
  sw_addr : 0 < a;
  sw_virt : 0 < virt_addr s /\ virt_addr s mod 4096 = 0 /\ virt_addr s + s_size s + 4096 <= 2 ^ 57;
  sw_phys : range_ok (iova_used (g_iova st)) (phy_addr s, s_size s);
  sw_map : forall x, virt_addr s <= x < virt_addr s + s_size s ->
    load_addr (g_page_table st) x = phy_addr s + (x - virt_addr s) /\
    load_key (g_page_table st) x = get_key (phy_addr s);
  sw_pages : s_size s mod 4096 = 0;
  sw_small : s_type s = SMALL -> virt_addr s = a /\ s_size s = 2 ^ 21
}.

(** Slabs are disjoint, in virtual memory and for the device, and the hash table
    has each of them under its key. *)
Definition virt_disjoint (s s' : dev_mem_info) : Prop :=
  disjoint_ranges (virt_addr s, s_size s) (virt_addr s', s_size s').
Definition phys_disjoint (s s' : dev_mem_info) : Prop :=
  units_disjoint (phy_addr s, s_size s) (phy_addr s', s_size s').

(** While there is a container, every slab is mapped for the device. *)
Definition dma_inv (st : usdm) : Prop :=
  0 <= vfio_container_fd st -> forall a s, slabs st !! a = Some s -> (virt_addr s, phy_addr s, s_size s) ∈ dma st.

Record slabs_inv (st : usdm) : Prop := {
  si_slab : forall a s, slabs st !! a = Some s -> slab_wf st a s;
  si_hash : forall k a, a ∈ bucket st k <-> exists s, slabs st !! a = Some s /\ get_key (phy_addr s) = k;
  si_virt : forall a b s s', a <> b -> slabs st !! a = Some s -> slabs st !! b = Some s' -> virt_disjoint s s';
  si_phys : forall a b s s', a <> b -> slabs st !! a = Some s -> slabs st !! b = Some s' -> phys_disjoint s s';
  si_iova : iova_ok (g_iova st);
  si_dma : dma_inv st
}.

(** Every slab is on one list, or is one of [D], which are between lists. *)
Definition all_lists (D : list Z) (st : usdm) : list Z := D ++ user_mem st ++ user_large st ++ user_cache st.

Record mem_slab (s : dev_mem_info) : Prop := {
  ms_type : s_type s = SMALL;
  ms_ctrl : ctrl_ok (s_ctrl s);
  ms_count : allocations s = n_allocs (s_ctrl s);
  ms_used : 0 < n_allocs (s_ctrl s)
}.
Record empty_slab (s : dev_mem_info) : Prop := {
  es_type : s_type s = SMALL;
  es_ctrl : s_ctrl s = fresh_slab;
  es_count : allocations s = 0
}.

Record lists_inv (D : list Z) (st : usdm) : Prop := {
  li_nodup : NoDup (all_lists D st);
  li_dom : forall a, a ∈ all_lists D st <-> is_Some (slabs st !! a);
  li_mem : forall a s, a ∈ user_mem st -> slabs st !! a = Some s -> mem_slab s;
  li_large : forall a s, a ∈ user_large st -> slabs st !! a = Some s -> s_type s = LARGE;
  li_cache : forall a s, a ∈ user_cache st -> slabs st !! a = Some s -> empty_slab s;
  li_size : g_cache_size st = 2 ^ 21 * len (user_cache st);
  li_max : g_cache_size st <= g_max_cache
}.

Definition usdm_inv (D : list Z) (st : usdm) : Prop := slabs_inv st /\ lists_inv D st.

(** Replacing the contents of a slab, which stays where it is *)
Definition same_id (s s' : dev_mem_info) : Prop :=
  phy_addr s' = phy_addr s /\ virt_addr s' = virt_addr s /\ s_size s' = s_size s /\ s_type s' = s_type s.

Definition set_slab (st : usdm) (a : Z) (s : dev_mem_info) : usdm := st <| slabs := <[a := s]> (slabs st) |>.

Lemma set_slab_lookup st a s b s' :
  slabs (set_slab st a s) !! b = Some s' <-> (b = a /\ s' = s) \/ (b <> a /\ slabs st !! b = Some s').
Proof.
  simpl. destruct (decide (b = a)) as [->|].
  - rewrite lookup_insert_eq. split; [intros [= <-]; auto|]. intros [[_ ->]|[? _]]; done.
  - rewrite lookup_insert_ne by done. naive_solver.
Qed.

Lemma slab_wf_same st st' a s s' :
  same_id s s' -> iova_used (g_iova st') = iova_used (g_iova st) -> g_page_table st' = g_page_table st ->
  slab_wf st a s -> slab_wf st' a s'.
Proof.
  intros (E1 & E2 & E3 & E4) Ei Et [W1 W2 W3 W4 W5 W6].
  split; rewrite ?E1, ?E2, ?E3, ?E4, ?Ei, ?Et; done.
Qed.

Lemma slabs_inv_set st a s s' :
  slabs_inv st -> slabs st !! a = Some s -> same_id s s' -> slabs_inv (set_slab st a s').
Proof.
  intros [W H V P I M] Ha Hid. pose proof Hid as (E1 & E2 & E3 & E4).
  assert (L : forall b s1, slabs (set_slab st a s') !! b = Some s1 ->
    exists s2, slabs st !! b = Some s2 /\ same_id s2 s1).
  { intros b s1 [[-> ->]|[_ Hb]]%set_slab_lookup; [by exists s|by exists s1]. }
  split; [..|done|].
  - intros b s1 Hb. destruct (L b s1 Hb) as (s2 & Hs2 & Hid2). apply (slab_wf_same st _ _ s2); [done..|by apply W].
  - intros k b. change (bucket (set_slab st a s') k) with (bucket st k). rewrite H. split.
    + intros (s1 & Hs1 & Hk). destruct (decide (b = a)) as [->|].
      * exists s'. split; [apply set_slab_lookup; auto|]. rewrite E1. congruence.
      * exists s1. split; [apply set_slab_lookup; auto|done].
    + intros (s1 & Hs1 & Hk). destruct (L b s1 Hs1) as (s2 & Hs2 & F1 & _). exists s2. split; [done|congruence].
  - intros b c s1 s2 Hne Hb Hc. destruct (L b s1 Hb) as (t1 & Ht1 & _ & F1 & F2 & _).
    destruct (L c s2 Hc) as (t2 & Ht2 & _ & G1 & G2 & _).
    unfold virt_disjoint. rewrite F1, F2, G1, G2. by apply (V b c).
  - intros b c s1 s2 Hne Hb Hc. destruct (L b s1 Hb) as (t1 & Ht1 & F1 & _ & F2 & _).
    destruct (L c s2 Hc) as (t2 & Ht2 & G1 & _ & G2 & _).
    unfold phys_disjoint. rewrite F1, F2, G1, G2. by apply (P b c).
  - intros Hfd b s1 Hb. destruct (L b s1 Hb) as (t1 & Ht1 & -> & -> & -> & _). by apply (M Hfd b).
Qed.

Lemma lists_inv_set D st a s s' :
  lists_inv D st -> slabs st !! a = Some s -> s_type s' = s_type s ->
  (a ∈ user_mem st -> mem_slab s') -> (a ∈ user_cache st -> empty_slab s') ->
  lists_inv D (set_slab st a s').
Proof.
  intros [N Dm M L C S X] Ha Ht Hm Hc. split; try done.
  - intros b. change (all_lists D (set_slab st a s')) with (all_lists D st). rewrite Dm. simpl.
    destruct (decide (b = a)) as [->|]; [rewrite lookup_insert_eq|by rewrite lookup_insert_ne].
    split; [by eexists|]. intros _. by eexists.
  - intros b s1 Hb [[-> ->]|[_ H]]%set_slab_lookup; [by apply Hm|by apply (M b)].
  - intros b s1 Hb [[-> ->]|[_ H]]%set_slab_lookup; [rewrite Ht; by apply (L a)|by apply (L b)].
  - intros b s1 Hb [[-> ->]|[_ H]]%set_slab_lookup; [by apply Hc|by apply (C b)].
Qed.

(** The lists do not overlap. *)
Lemma lists_disjoint D st a :
  lists_inv D st ->
  (a ∈ D -> (a ∉ user_mem st) /\ (a ∉ user_large st) /\ (a ∉ user_cache st)) /\
  (a ∈ user_mem st -> (a ∉ user_large st) /\ (a ∉ user_cache st)) /\
  (a ∈ user_large st -> a ∉ user_cache st).
Proof.
  intros [N _ _ _ _ _ _]. unfold all_lists in N.
  apply NoDup_app in N as (_ & N1 & N). apply NoDup_app in N as (_ & N2 & N).
  apply NoDup_app in N as (_ & N3 & _). set_solver.
Qed.

(** ** Blocks of a slab *)

(** Blocks [f] to [f + n - 1] are free, aligned, and hold [size] bytes. *)
Record block_free (ctrl : block_ctrl) (size align f n : Z) : Prop := {
  bf_size : size <= n * UNIT_SIZE < size + UNIT_SIZE;
  bf_pos : 1 <= n;
  bf_low : reserved <= f;
  bf_high : f + n <= BLOCK_SIZES;
  bf_align : align = 0 \/ f mod align = 0;
  bf_zero : (sizes ctrl).[f] = 0;
  bf_free : forall k, f <= k < f + n -> forall g, ~ owns ctrl g k
}.

Lemma reserved_pos : 0 <= reserved.
Proof. done. Qed.

Lemma block_free_range ctrl size align f n : block_free ctrl size align f n -> 0 <= f < BLOCK_SIZES /\ 0 < n < 2 ^ 16.
Proof.
  intros [_ Hp Hl Hh _ _ _]. pose proof reserved_pos. change BLOCK_SIZES with 2048 in *. lia.
Qed.

Lemma slab_alloc_spec st a slab size align :
  ctrl_ok (s_ctrl slab) -> a <> 0 -> 0 < size < 2 ^ 64 - UNIT_SIZE -> 0 <= align ->
  slab_alloc st a slab size align = (0, set_slab st a slab) \/
  exists f n, block_free (s_ctrl slab) size align f n /\
    slab_alloc st a slab size align =
    (a + f * UNIT_SIZE, set_slab st a (slab <| s_ctrl := take_blocks (s_ctrl slab) f n |>)).
Proof.
  intros Hok Ha Hs Hal. unfold slab_alloc. rewrite qae_mem_alloc_eq by (done || apply Hok).
  unfold first_fit_alloc. destruct (blocks_of_size size Hs) as [Hn Hc]. cbn [default].
  destruct (first_fit _ _ _) as [f|] eqn:Hf; simpl.
  - right. exists f, (div_round_up size UNIT_SIZE). split; [|done].
    destruct (first_fit_props _ Hok _ _ _ Hn Hf) as (H1 & H2 & H3 & H4 & H5).
    split; try done. intros k Hk. by apply H5.
  - left. by destruct slab.
Qed.

Lemma set_slab_id st a s : slabs st !! a = Some s -> set_slab st a s = st.
Proof. intros H. unfold set_slab. simpl. rewrite insert_id by done. by destruct st. Qed.

Lemma take_mem_slab s c f n size align :
  ctrl_ok c -> s_type s = SMALL -> block_free c size align f n -> s_ctrl s = take_blocks c f n ->
  allocations s = n_allocs c + 1 -> mem_slab s.
Proof.
  intros Hok Ht Hb Hs Hc. destruct (block_free_range _ _ _ _ _ Hb) as [Hf Hn].
  pose proof (n_allocs_bound _ Hok). destruct Hb as [_ Hp Hl Hh _ Hz Hfr].
  split; rewrite ?Hs; [done| |by rewrite n_allocs_take|rewrite n_allocs_take by done; lia].
  apply take_blocks_ok; try done. lia.
Qed.

(** The search through the used slabs leaves the state, or takes blocks from one. *)
Lemma lookup_loop_spec D l st size node align link :
  usdm_inv D st -> (forall a, a ∈ l -> a ∈ user_mem st) -> 0 < size < 2 ^ 64 - UNIT_SIZE -> 0 <= align ->
  lookup_loop l st size node align link = (None, st) \/
  exists a s f n, a ∈ user_mem st /\ slabs st !! a = Some s /\ block_free (s_ctrl s) size align f n /\
    lookup_loop l st size node align link =
    (Some (a, a + f * UNIT_SIZE), set_slab st a (s <| s_ctrl := take_blocks (s_ctrl s) f n |>)).
Proof.
  intros [SI LI] Hl Hs Hal. revert link. induction l as [|a l IH]; intros link; [by left|].
  cbn [lookup_loop]. destruct (slabs st !! a) as [s|] eqn:Ha; [|by left].
  cbn [g_strict_node Z.eqb negb andb].
  assert (Hm : a ∈ user_mem st) by (apply Hl; set_solver).
  pose proof (li_mem _ _ LI a s Hm Ha) as [Ht Hok _ _]. pose proof (sw_addr _ _ _ (si_slab _ SI a s Ha)) as Hpos.
  destruct (slab_alloc_spec st a s size align Hok ltac:(lia) Hs Hal) as [E|(f & n & Hb & E)]; rewrite E; cbn [Z.eqb negb].
  - rewrite set_slab_id by done. destruct (_ <=? _); [by left|]. apply IH. set_solver.
  - destruct (Z.eqb_spec (a + f * UNIT_SIZE) 0) as [E0|_]; cbn [negb].
    { destruct (block_free_range _ _ _ _ _ Hb). unfold UNIT_SIZE in E0. lia. }
    right. by exists a, s, f, n.
Qed.

(** ** Freeing a slab *)

(** What [__qae_free_slab] does not touch *)
Record same_rest (st st' : usdm) : Prop := {
  sr_mem : user_mem st' = user_mem st; sr_large : user_large st' = user_large st;
  sr_cache : user_cache st' = user_cache st; sr_size : g_cache_size st' = g_cache_size st;
  sr_table : g_page_table st' = g_page_table st; sr_left : pt_left st' = pt_left st;
  sr_pid : pid st' = pid st
}.

Lemma free_slab_fields err st a s :
  slabs st !! a = Some s ->
  let st' := qae_free_slab err st a in
  same_rest st st' /\ slabs st' = delete a (slabs st) /\
  g_slab_list st' = <[get_key (phy_addr s) :=
    base.filter (fun x => x <> a) (bucket st (get_key (phy_addr s)))]> (g_slab_list st) /\
  g_iova st' = (g_iova st) <| iova_used := iova_release (iova_used (g_iova st)) (phy_addr s) (u32 (s_size s)) |> /\
  vfio_container_fd st' = vfio_container_fd st /\
  forall m, m ∈ dma st -> ~ (phy_addr s <= m.1.2 /\ m.1.2 + m.2 <= phy_addr s + s_size s) -> m ∈ dma st'.
Proof.
  intros Ha. unfold qae_free_slab, del_slab_from_hash, ioctl_free_slab, dma_unmap_slab. rewrite Ha.
  destruct (_ <? 0); [done|]. destruct (err (phy_addr s) =? 0); [|done]. split_and!; try done.
  intros m Hm Hn. apply list_elem_of_In, List.filter_In. split; [by apply list_elem_of_In|].
  apply negb_true_iff, not_true_iff_false. intros H. breflect. by apply Hn.
Qed.

Lemma bucket_insert st l k k' :
  bucket (st <| g_slab_list := <[k := l]> (g_slab_list st) |>) k' = if decide (k' = k) then l else bucket st k'.
Proof. unfold bucket. simpl. case_decide; [subst; by rewrite lookup_insert_eq|by rewrite lookup_insert_ne]. Qed.

Lemma range_size used r : range_ok used r -> u32 r.2 = r.2.
Proof. intros [_ _ Hs _ _]. apply u32_small. lia. Qed.

(** Releasing the range of one slab keeps those of the others. *)
Lemma slab_wf_release st st' a b s s' :
  slabs_inv st -> a <> b -> slabs st !! a = Some s -> slabs st !! b = Some s' ->
  g_page_table st' = g_page_table st ->
  iova_used (g_iova st') = iova_release (iova_used (g_iova st)) (phy_addr s) (u32 (s_size s)) ->
  slab_wf st' b s'.
Proof.
  intros I Hne Ha Hb Et Ei. destruct (si_slab _ I b s' Hb) as [W1 W2 W3 W4 W5 W6].
  pose proof (sw_phys _ _ _ (si_slab _ I a s Ha)) as Pa.
  split; rewrite ?Et; try done. rewrite Ei, (range_size _ _ Pa : u32 (s_size s) = s_size s).
  apply (range_ok_release _ (phy_addr s, s_size s)); try done; [apply (si_iova _ I)|by apply (si_phys _ I a b)].
Qed.

Lemma free_slab_inv err D st a :
  usdm_inv (a :: D) st -> usdm_inv D (qae_free_slab err st a).
Proof.
  intros [SI LI]. pose proof (lists_disjoint _ _ a LI) as (Hd & _). specialize (Hd ltac:(apply elem_of_cons; by left)).
  assert (exists s, slabs st !! a = Some s) as [s Ha].
  { apply (li_dom _ _ LI a). unfold all_lists. apply elem_of_cons. by left. }
  destruct (free_slab_fields err st a s Ha) as ([R1 R2 R3 R4 R5 R6 R7] & Es & Eh & Ei & Ef & Ed).
  set (st' := qae_free_slab err st a) in *.
  assert (Lk : forall b s1, slabs st' !! b = Some s1 <-> b <> a /\ slabs st !! b = Some s1).
  { intros b s1. rewrite Es, lookup_delete_Some. split; (intros [? ?]; split; [congruence|done]). }
  assert (Hid : s_size s = u32 (s_size s)) by (symmetry; apply (range_size _ _ (sw_phys _ _ _ (si_slab _ SI a s Ha)))).
  split; [split|split].
  - intros b s1 [Hne Hb]%Lk. eapply (slab_wf_release st st' a b s); try done. by rewrite Ei.
  - intros k b. unfold bucket at 1. rewrite Eh.
    assert (E : default [] (<[get_key (phy_addr s) := base.filter (fun x => x <> a) (bucket st (get_key (phy_addr s)))]>
      (g_slab_list st) !! k) = if decide (k = get_key (phy_addr s)) then base.filter (fun x => x <> a) (bucket st k) else bucket st k).
    { case_decide; [subst; by rewrite lookup_insert_eq|by rewrite lookup_insert_ne]. }
    rewrite E. setoid_rewrite Lk. case_decide as Hk.
    + rewrite list_elem_of_filter, (si_hash _ SI). split.
      * intros (Hne & s1 & Hs1 & Hk1). by exists s1.
      * intros (s1 & [Hne Hs1] & Hk1). split; [done|]. by exists s1.
    + rewrite (si_hash _ SI). split; [|intros (s1 & [_ Hs1] & Hk1); by exists s1]. intros (s1 & Hs1 & Hk1). exists s1. split; [|done].
      split; [|done]. intros ->. congruence.
  - intros b c s1 s2 Hne [_ Hb]%Lk [_ Hc]%Lk. by apply (si_virt _ SI b c).
  - intros b c s1 s2 Hne [_ Hb]%Lk [_ Hc]%Lk. by apply (si_phys _ SI b c).
  - destruct (si_iova _ SI) as [Wu Wn]. rewrite Ei. split; [|done].
    destruct (sw_phys _ _ _ (si_slab _ SI a s Ha)) as [P1 P2 P3 P4 _]. cbn [fst snd] in *. rewrite <- Hid.
    change FIRST_IOVA with (2 ^ 21) in P1.
    destruct (iova_release_spec (iova_used (g_iova st)) (phy_addr s) (s_size s) Wu) as [Wf _]; [lia|done|lia|done|].
    done.
  - intros Hfd b s1 [Hne Hb]%Lk. rewrite Ef in Hfd. apply Ed; [by apply (si_dma _ SI Hfd b)|]. cbn [fst snd].
    pose proof (sw_phys _ _ _ (si_slab _ SI b s1 Hb)) as Pb.
    pose proof (units_disjoint_bytes _ _ _ (sw_phys _ _ _ (si_slab _ SI a s Ha)) Pb (si_phys _ SI a b s s1 (not_eq_sym Hne) Ha Hb)) as D0.
    destruct Pb as [_ _ Pb _ _]. unfold disjoint_ranges in D0. cbn [fst snd] in D0, Pb. lia.
  - pose proof (li_nodup _ _ LI) as N. unfold all_lists in *. rewrite R1, R2, R3. by apply NoDup_cons in N as [_ N].
  - intros b. pose proof (li_nodup _ _ LI) as N. pose proof (li_dom _ _ LI b) as Hb. unfold all_lists in *.
    rewrite R1, R2, R3, Es, lookup_delete_is_Some, <- Hb. cbn [app] in *. apply NoDup_cons in N as [N _].
    rewrite elem_of_cons. split; [|intros [? [?|?]]; congruence]. intros Hin. split; [|by right]. by intros ->.
  - intros b s1. rewrite R1. intros Hb [_ H]%Lk. by apply (li_mem _ _ LI b).
  - intros b s1. rewrite R2. intros Hb [_ H]%Lk. by apply (li_large _ _ LI b).
  - intros b s1. rewrite R3. intros Hb [_ H]%Lk. by apply (li_cache _ _ LI b).
  - rewrite R3, R4. apply LI.
  - rewrite R4. apply LI.
Qed.

(** ** Taking a slab from the cache *)

(** Moving slabs between the lists *)
Lemma lists_inv_move D D' st st' :
  lists_inv D st -> slabs st' = slabs st -> all_lists D' st' ≡ₚ all_lists D st ->
  (forall a s, a ∈ user_mem st' -> slabs st !! a = Some s -> mem_slab s) ->
  (forall a s, a ∈ user_large st' -> slabs st !! a = Some s -> s_type s = LARGE) ->
  (forall a s, a ∈ user_cache st' -> slabs st !! a = Some s -> empty_slab s) ->
  g_cache_size st' = 2 ^ 21 * len (user_cache st') -> g_cache_size st' <= g_max_cache -> lists_inv D' st'.
Proof.
  intros LI Es Ep Hm Hl Hc Hz Hx. split; rewrite ?Es; try done.
  - rewrite Ep. apply LI.
  - intros a. rewrite Ep. apply LI.
Qed.

Lemma slabs_inv_ext st st' :
  slabs st' = slabs st -> g_slab_list st' = g_slab_list st -> g_page_table st' = g_page_table st ->
  g_iova st' = g_iova st -> vfio_container_fd st' = vfio_container_fd st -> dma st' = dma st ->
  slabs_inv st -> slabs_inv st'.
Proof.
  intros Es Eh Et Ei Ef Ed [W H V P I M]. split; unfold dma_inv; rewrite ?Es, ?Ei, ?Ef, ?Ed; try done.
  - intros a s Ha. apply (slab_wf_same st _ _ s); [done|by rewrite Ei|done|by apply W].
  - intros k a. rewrite <- H. unfold bucket. by rewrite Eh.
Qed.

Lemma pop_slab_spec D st node :
  usdm_inv D st ->
  (user_cache st = [] /\ pop_slab st node = (None, st)) \/
  exists a l s, user_cache st = a :: l /\ slabs st !! a = Some s /\ empty_slab s /\
    let st' := st <| g_cache_size := g_cache_size st - 2 ^ 21 |> <| user_cache := l |> in
    pop_slab st node = (Some a, st') /\ usdm_inv (a :: D) st'.
Proof.
  intros [SI LI]. unfold pop_slab. destruct (user_cache st) as [|a l] eqn:Ec; [by left|right].
  assert (Hc : a ∈ user_cache st) by (rewrite Ec; set_solver).
  assert (exists s, slabs st !! a = Some s) as [s Ha].
  { apply (li_dom _ _ LI a). unfold all_lists. rewrite !elem_of_app. auto. }
  pose proof (li_cache _ _ LI a s Hc Ha) as Es. exists a, l, s. split; [done|]. split; [done|]. split; [done|].
  destruct (sw_small _ _ _ (si_slab _ SI a s Ha) (es_type _ Es)) as [_ Hsz].
  pose proof (li_size _ _ LI) as Hz. pose proof (li_max _ _ LI) as Hx. rewrite Ec in Hz. cbn [length] in Hz.
  pose proof (li_nodup _ _ LI) as Nd.
  assert (Hal : a ∉ l).
  { unfold all_lists in Nd. rewrite Ec in Nd. rewrite !app_assoc in Nd.
    apply NoDup_app in Nd as (_ & _ & Nd). by apply NoDup_cons in Nd as [? _]. }
  cbv zeta. cbn [List.find]. unfold pop_match. rewrite Ha. cbn [g_strict_node Z.eqb negb andb]. rewrite andb_false_r.
  cbn [negb]. rewrite Ha, Hsz. split.
  - f_equal. unfold g_max_cache in Hx. rewrite u64_small by lia.
    assert (Ef : base.filter (fun x => x <> a) (a :: l) = l); [|by rewrite Ef].
    rewrite filter_cons, decide_False by naive_solver. by apply filter_ne.
  - split; [by apply (slabs_inv_ext st)|]. apply (lists_inv_move D _ st); try done.
    + unfold all_lists. rewrite Ec. simpl. rewrite !app_assoc. apply Permutation_middle.
    + apply LI.
    + apply LI.
    + intros b s1 Hb. apply (li_cache _ _ LI b). rewrite Ec. set_solver.
    + simpl. lia.
    + simpl. lia.
Qed.

(** ** A new slab *)

(** The size that [ioctl_alloc_slab] maps for a request *)
Definition mapped_size (size_r : Z) : Z := (size_r + 4095) / 4096 * 4096.
Definition new_virt (e : alloc_env) (type : slabType) : Z :=
  if decide (type = SMALL) then a_slab e else a_virt e.

(** What is asked of the system when a slab is allocated.  [mmap] gives whole pages of
    user memory that are not in use ([rm_slab] to [rm_disj]).  A slab of more than 2 MB
    finds an I/O address ([rm_iova]): the error path of a failed search releases the range
    at address 0, which for a slab of 2 MB is a unit that no slab has.  [mmap] has pages
    for the levels of the page table that may be missing ([rm_pages]).  When there is a
    container, the ioctl that maps the slab does not report that the range is mapped
    already ([rm_map]). *)
Record room (e : alloc_env) (st : usdm) (size align : Z) (type : slabType) : Prop := {
  rm_slab : 0 <= a_slab e;
  rm_fresh : slabs st !! a_slab e = None;
  rm_virt : 0 <= new_virt e type /\ new_virt e type mod 4096 = 0 /\ new_virt e type + size + 4096 <= 2 ^ 57;
  rm_disj : forall b s, slabs st !! b = Some s ->
    disjoint_ranges (new_virt e type, size) (virt_addr s, s_size s);
  rm_iova : 2 ^ 21 < size -> (allocate_iova (g_iova st) size align).1 <> 0;
  rm_pages : 4 * ((size + 4095) / 4096) <= Z.of_nat (pt_left st);
  rm_map : 0 <= vfio_container_fd st -> a_map e <> EEXIST
}.

Lemma mapped_size_spec size_r :
  0 < size_r <= 2 ^ 26 -> round_up size_r PAGE_SIZE = mapped_size size_r /\
  0 < mapped_size size_r <= 2 ^ 26 /\ mapped_size size_r mod 4096 = 0 /\ size_r <= mapped_size size_r /\
  (mapped_size size_r + 4095) / 4096 * 4096 = mapped_size size_r.
Proof.
  intros H. unfold round_up, mapped_size, PAGE_SIZE. divmod (size_r + 4095) 4096.
  replace (size_r + 4096 - 1) with (size_r + 4095) by lia. rewrite (u64_small (size_r + 4095)) by lia.
  rewrite u64_small by lia. split_and!; try lia; [apply Z.mod_mul; lia|].
  f_equal. rewrite Z.div_add_l by lia. rewrite (Z.div_small 4095) by lia. lia.
Qed.

Lemma units_disjoint_sym r1 r2 : units_disjoint r1 r2 -> units_disjoint r2 r1.
Proof. unfold units_disjoint. tauto. Qed.
Lemma disjoint_ranges_sym r1 r2 : disjoint_ranges r1 r2 -> disjoint_ranges r2 r1.
Proof. unfold disjoint_ranges. tauto. Qed.

(** The state with a new slab that is in the hash table and in the page table, but
    on no list *)
Lemma new_slab_lookup st st' a s :
  slabs st' = <[a := s]> (slabs st) -> forall b s1,
  slabs st' !! b = Some s1 <-> (b = a /\ s1 = s) \/ (b <> a /\ slabs st !! b = Some s1).
Proof. intros -> b s1. apply set_slab_lookup. Qed.

Lemma add_slab_lists D st st' a s :
  lists_inv D st -> slabs st !! a = None -> slabs st' = <[a := s]> (slabs st) ->
  user_mem st' = user_mem st -> user_large st' = user_large st -> user_cache st' = user_cache st ->
  g_cache_size st' = g_cache_size st -> lists_inv (a :: D) st'.
Proof.
  intros LI Hfresh Es E1 E2 E3 E4. pose proof (new_slab_lookup st st' a s Es) as Lk.
  assert (Hno : a ∉ all_lists D st) by (intros Hin; apply (li_dom _ _ LI a) in Hin as [? ?]; congruence).
  assert (Hin : forall (b : Z) (s1 : dev_mem_info) (l : list Z), (forall x, x ∈ l -> x ∈ all_lists D st) -> b ∈ l -> slabs st' !! b = Some s1 ->
    slabs st !! b = Some s1) by (intros b s1 l Hl Hb [[-> _]|[_ ?]]%Lk; [by apply Hl in Hb|done]).
  split.
  - unfold all_lists. rewrite E1, E2, E3. cbn [app]. apply NoDup_cons. split; [done|apply LI].
  - intros b. unfold all_lists. rewrite E1, E2, E3, Es. cbn [app]. rewrite elem_of_cons.
    rewrite lookup_insert_is_Some. pose proof (li_dom _ _ LI b) as Hb. unfold all_lists in Hb. rewrite Hb.
    split; [intros [->|?]|intros [->|[_ ?]]]; auto. destruct (decide (a = b)); auto.
  - intros b s1. rewrite E1. intros Hb Hs. apply (li_mem _ _ LI b); [done|]. eapply Hin; [|done..].
    intros x Hx. unfold all_lists. rewrite !elem_of_app. auto.
  - intros b s1. rewrite E2. intros Hb Hs. apply (li_large _ _ LI b); [done|]. eapply Hin; [|done..].
    intros x Hx. unfold all_lists. rewrite !elem_of_app. auto.
  - intros b s1. rewrite E3. intros Hb Hs. apply (li_cache _ _ LI b); [done|]. eapply Hin; [|done..].
    intros x Hx. unfold all_lists. rewrite !elem_of_app. auto.
  - rewrite E3, E4. apply LI.
  - rewrite E4. apply LI.
Qed.

Lemma add_slab_slabs st st' a s pages :
  slabs_inv st -> slabs st !! a = None -> 0 < a ->
  0 < virt_addr s -> virt_addr s mod 4096 = 0 -> virt_addr s + s_size s + 4096 <= 2 ^ 57 ->
  s_size s mod 4096 = 0 -> (s_size s + 4095) / 4096 * 4096 = s_size s ->
  (s_type s = SMALL -> virt_addr s = a /\ s_size s = 2 ^ 21) ->
  (forall b s', slabs st !! b = Some s' -> virt_disjoint s s') ->
  range_free (iova_used (g_iova st)) (phy_addr s / 2 ^ 21) (units (s_size s)) = true ->
  only_sets (iova_used (g_iova st)) (iova_used (g_iova st')) -> iova_ok (g_iova st') ->
  range_ok (iova_used (g_iova st')) (phy_addr s, s_size s) ->
  4 * ((s_size s + 4095) / 4096) <= Z.of_nat pages ->
  g_page_table st' = (store_mmap_range (g_page_table st) (virt_addr s) (phy_addr s) (s_size s) pages).1 ->
  slabs st' = <[a := s]> (slabs st) ->
  g_slab_list st' = <[get_key (phy_addr s) := a :: bucket st (get_key (phy_addr s))]> (g_slab_list st) ->
  (0 <= vfio_container_fd st' -> 0 <= vfio_container_fd st /\ forall m, m = (virt_addr s, phy_addr s, s_size s) \/ m ∈ dma st -> m ∈ dma st') ->
  slabs_inv st'.
Proof.
  intros SI Hfresh Hpos Hv Hvm Hvr Hsm Hsr Hsmall Hdisj Hfree Hsets Hiova Hrng Hpg Et Es Eh Hdma.
  pose proof Hrng as [P1 P2 P3 P4 _]. cbn [fst snd] in P1, P2, P3, P4. change FIRST_IOVA with (2 ^ 21) in P1.
  assert (Hpm : phy_addr s mod 4096 = 0).
  { apply Z.mod_divide in P2 as [q Hq]; [|lia]. rewrite Hq. replace (q * 2 ^ 21) with (q * 512 * 4096) by lia.
    apply Z.mod_mul. lia. }
  pose proof (new_slab_lookup st st' a s Es) as Lk.
  split.
  - intros b s1 [[-> ->]|[Hne Hb]]%Lk.
    + split; try done. intros x Hx. rewrite Et. apply store_range_loads; try done; lia.
    + destruct (si_slab _ SI b s1 Hb) as [W1 W2 W3 W4 W5 W6]. split; try done.
      * by eapply range_ok_sets.
      * intros x Hx. destruct (W4 x Hx) as [L1 L2]. rewrite Et.
        destruct W3 as [Q1 _ Q3 _ _]. cbn [fst snd] in Q1, Q3. change FIRST_IOVA with (2 ^ 21) in Q1.
        destruct (store_range_keeps (g_page_table st) (virt_addr s) (phy_addr s) (s_size s) pages) with (a := x)
          as [-> ->]; try done; try lia.
        { apply load_addr_mapped. lia. }
        specialize (Hdisj b s1 Hb). unfold virt_disjoint, disjoint_ranges in Hdisj. cbn [fst snd] in Hdisj. lia.
  - intros k b. unfold bucket at 1. rewrite Eh.
    assert (E : default [] (<[get_key (phy_addr s) := a :: bucket st (get_key (phy_addr s))]> (g_slab_list st) !! k) =
      if decide (k = get_key (phy_addr s)) then a :: bucket st k else bucket st k).
    { case_decide; [subst; by rewrite lookup_insert_eq|by rewrite lookup_insert_ne]. }
    rewrite E. setoid_rewrite Lk. pose proof (si_hash _ SI k b) as Hh. case_decide as Hk.
    + rewrite elem_of_cons, Hh. split.
      * intros [->|(s1 & Hs1 & Hk1)]; [by exists s; auto|]. exists s1. split; [|done]. right. split; [|done].
        intros ->. congruence.
      * intros (s1 & [[-> ->]|[Hne Hs1]] & Hk1); [by left|]. right. by exists s1.
    + rewrite Hh. split.
      * intros (s1 & Hs1 & Hk1). exists s1. split; [|done]. right. split; [|done]. intros ->. congruence.
      * intros (s1 & [[-> ->]|[Hne Hs1]] & Hk1); [congruence|]. by exists s1.
  - intros b c s1 s2 Hne [[-> ->]|[Hb1 Hb]]%Lk [[-> ->]|[Hc1 Hc]]%Lk; try done.
    + by apply (Hdisj c).
    + by apply disjoint_ranges_sym, (Hdisj b).
    + by apply (si_virt _ SI b c).
  - assert (F : forall b s1, slabs st !! b = Some s1 -> phys_disjoint s s1).
    { intros b s1 Hb. eapply free_disjoint; [apply (sw_phys _ _ _ (si_slab _ SI b s1 Hb))|simpl; lia|done]. }
    intros b c s1 s2 Hne [[-> ->]|[Hb1 Hb]]%Lk [[-> ->]|[Hc1 Hc]]%Lk; try done.
    + by apply (F c).
    + by apply units_disjoint_sym, (F b).
    + by apply (si_phys _ SI b c).
  - done.
  - intros Hfd b s1 Hb. destruct (Hdma Hfd) as [Hfd' Hm]. apply Hm.
    apply Lk in Hb as [[-> ->]|[Hne Hb]]; [by left|right]. by apply (si_dma _ SI Hfd' b).
Qed.

Lemma slabs_inv_iova st st' :
  slabs st' = slabs st -> g_slab_list st' = g_slab_list st -> g_page_table st' = g_page_table st ->
  iova_used (g_iova st') = iova_used (g_iova st) -> iova_ok (g_iova st') -> dma_inv st' ->
  slabs_inv st -> slabs_inv st'.
Proof.
  intros Es Eh Et Ei Hok M' [W H V P I M]. split; rewrite ?Es; try done.
  - intros a s Ha. apply (slab_wf_same st _ _ s); [done..|by apply W].
  - intros k a. rewrite <- H. unfold bucket. by rewrite Eh.
Qed.

Lemma lists_inv_ext D st st' : same_rest st st' -> slabs st' = slabs st -> lists_inv D st -> lists_inv D st'.
Proof.
  intros [E1 E2 E3 E4 _ _ _] Es [N Dm M L C S X].
  split; unfold all_lists in *; rewrite ?E1, ?E2, ?E3, ?E4, ?Es; done.
Qed.

(** No slab has the unit at address 0. *)
Lemma slabs_inv_unit0 st used' :
  slabs_inv st -> range_set (iova_used (g_iova st)) used' 0 1 false ->
  slabs_inv (st <| g_iova := (g_iova st) <| iova_used := used' |> |>).
Proof.
  intros [W H V P [I1 I2] M] [U1 U2]. split; try done. intros a s Ha. destruct (W a s Ha) as [X1 X2 [Q1 Q2 Q3 Q4 Q5] X4 X5 X6].
  split; try done. split; try done. cbn [fst snd] in *. change FIRST_IOVA with (2 ^ 21) in Q1. intros k Hk.
  assert (1 <= phy_addr s / 2 ^ 21) by (apply Z.div_le_lower_bound; lia).
  cbn. rewrite U2 by lia. rewrite (proj2 (Z.ltb_ge k (0 + 1))) by lia. rewrite andb_false_r. by apply Q5.
Qed.

(** Allocating a slab: nothing, or a slab that only has to be put in the page table *)
Lemma alloc_slab_spec e D st size_r align type :
  usdm_inv D st -> 0 < size_r <= 2 ^ 26 -> 1 <= align <= 2 ^ 22 -> type <> HUGE_PAGE ->
  (type = SMALL -> size_r = 2 ^ 21) -> room e st (mapped_size size_r) align type ->
  let '(r, st1) := qae_alloc_slab e st size_r align type in
  (r = None /\ usdm_inv D st1 /\ same_rest st st1 /\ slabs st1 = slabs st) \/
  exists phy, let s := mk_slab 0 (mapped_size size_r) type 0 phy (new_virt e type) zero_ctrl in
    r = Some (a_slab e) /\ slabs st1 = <[a_slab e := s]> (slabs st) /\ same_rest st st1 /\
    phy mod u32 (round_up align IOVA_SLAB_SIZE) = 0 /\
    forall t p, store_mmap_range (g_page_table st1) (virt_addr s) phy (s_size s) (pt_left st1) = (t, p) ->
      usdm_inv (a_slab e :: D) (st1 <| g_page_table := t |> <| pt_left := p |>).
Proof.
  intros Inv Hs Hal Ht Hsm [R1 R2 (R3 & R4 & R5) R6 R7 R8 R9]. pose proof Inv as [SI LI].
  destruct (mapped_size_spec size_r Hs) as (Er & Hms & Hmm & Hle & Hmr).
  unfold qae_alloc_slab, ioctl_alloc_slab. rewrite Er. fold (new_virt e type).
  generalize zero_ctrl as zc. intros zc.
  destruct (Z.eqb_spec (a_slab e) 0); [by left|]. destruct (Z.eqb_spec (new_virt e type) 0); [by left|].
  rewrite (u32_small (mapped_size size_r)), (u32_small align) by lia.
  destruct (allocate_iova_cases (g_iova st) (mapped_size size_r) align (si_iova _ SI) ltac:(lia) ltac:(lia))
    as [HA [[E _]|(Hl & Hm & HmA & Hc & Hset & Hok)]].
  { rewrite E in R7 |- *. change (0 =? 0) with true. cbv beta iota zeta. left. split; [done|]. split; [|done].
    destruct (Z.lt_ge_cases (2 ^ 21) (mapped_size size_r)) as [Hbig|Hsmall]; [by destruct (R7 Hbig)|].
    split; [|by apply (lists_inv_ext D st)]. apply (slabs_inv_unit0 st); [done|].
    assert (units (mapped_size size_r) = 1) as <-.
    { unfold units. symmetry. apply Z.div_unique with (mapped_size size_r - 1); lia. }
    change 0 with (0 / 2 ^ 21) at 2. apply iova_release_spec; try done; try lia. apply (si_iova _ SI). }
  destruct (allocate_iova (g_iova st) (mapped_size size_r) align) as [phy iova] eqn:Ea. cbn [fst snd] in *.
  destruct (Z.eqb_spec phy 0); [by change FIRST_IOVA with (2 ^ 21) in Hl; lia|].
  unfold can_reserve in Hc. breflect.
  assert (Hrel : iova_release (iova_used iova) phy (mapped_size size_r) = iova_used (g_iova st)).
  { change FIRST_IOVA with (2 ^ 21) in Hl. eapply range_set_clear; [apply (si_iova _ SI)|done|done|].
    apply iova_release_spec; try done; try lia. apply Hok. }
  set (s := mk_slab 0 (mapped_size size_r) type 0 phy (new_virt e type) zc).
  set (base := st <| g_iova := iova |>).
  assert (Hnew : forall st2 : usdm, same_rest st st2 -> slabs st2 = slabs st -> g_slab_list st2 = g_slab_list st ->
    g_iova st2 = iova -> (0 <= vfio_container_fd st2 -> 0 <= vfio_container_fd st /\
      forall m, m = (virt_addr s, phy_addr s, s_size s) \/ m ∈ dma st -> m ∈ dma st2) ->
    let st1 := add_slab_to_hash (st2 <| slabs := <[a_slab e := s]> (slabs st2) |>) (a_slab e) in
    exists phy, let s := mk_slab 0 (mapped_size size_r) type 0 phy (new_virt e type) zc in
    Some (a_slab e) = Some (a_slab e) /\ slabs st1 = <[a_slab e := s]> (slabs st) /\ same_rest st st1 /\
    phy mod u32 (round_up align IOVA_SLAB_SIZE) = 0 /\
    forall t p, store_mmap_range (g_page_table st1) (virt_addr s) phy (s_size s) (pt_left st1) = (t, p) ->
      usdm_inv (a_slab e :: D) (st1 <| g_page_table := t |> <| pt_left := p |>)).
  { intros st2 [S1 S2 S3 S4 S5 S6 S7] Es Eh Ei Hdma. unfold add_slab_to_hash.
    assert (El : slabs (st2 <| slabs := <[a_slab e := s]> (slabs st2) |>) !! a_slab e = Some s) by apply lookup_insert_eq.
    rewrite El. exists phy. split; [done|]. split; [by rewrite <- Es|]. split; [by split|]. split; [done|].
    intros t p Hst. cbn [virt_addr s_size] in Hst.
    split; [|apply (add_slab_lists D st _ (a_slab e) s); try done; cbn; by rewrite Es].
    apply (add_slab_slabs st _ (a_slab e) s (pt_left st)); try done; try (cbn [s virt_addr s_size]; lia).
    - intros E. cbn [s s_type virt_addr s_size] in *. rewrite E in Hsm. unfold new_virt. rewrite E. simpl. split; [done|].
      rewrite (Hsm eq_refl). done.
    - cbn. rewrite Ei. by eapply range_set_sets.
    - cbn. by rewrite Ei.
    - cbn. rewrite Ei. split; cbn [fst snd]; try done; [lia|]. intros k Hk. destruct Hset as [_ ->]; [zcases|].
      change FIRST_IOVA with (2 ^ 21) in Hl. assert (0 <= phy / 2 ^ 21) by (apply Z.div_pos; lia). lia.
    - cbn in Hst. rewrite S5, S6 in Hst. cbn. by rewrite Hst.
    - cbn. by rewrite Es.
    - unfold bucket. cbn. by rewrite Eh. }
  destruct (Z.ltb_spec (vfio_container_fd base) 0) as [Hfd|Hfd].
  { right. apply Hnew; try done. intros ?. change (vfio_container_fd base) with (vfio_container_fd st) in *. lia. }
  unfold dma_map_slab. destruct (a_map e =? 0).
  { right. apply Hnew; try done. intros _. split; [done|]. intros m [->|?]; apply elem_of_cons; auto. }
  destruct (Z.eqb_spec (a_map e) EEXIST) as [He|He]; cbn [negb]; [by destruct (R9 Hfd)|].
  left. split; [done|]. split; [|done]. split.
  - apply (slabs_inv_iova st); try done; [|apply (si_dma _ SI)]. simpl. split; [|apply Hok]. simpl. rewrite Hrel.
    apply (si_iova _ SI).
  - by apply (lists_inv_ext D st).
Qed.

(** ** Live allocations *)

(** The allocation of [n] bytes at [p] is live: it is the one that starts at block
    [f] of the used slab [a], or ([f = -1]) the large slab [a]. *)
Definition live_at (st : usdm) (a f p n : Z) : Prop :=
  exists s, slabs st !! a = Some s /\
    ((a ∈ user_mem st /\ 0 <= f < BLOCK_SIZES /\ 0 < (sizes (s_ctrl s)).[f] /\
      p = a + f * UNIT_SIZE /\ n = (sizes (s_ctrl s)).[f] * UNIT_SIZE) \/
     (a ∈ user_large st /\ f = -1 /\ p = virt_addr s /\ n = s_size s)).
Definition live (st : usdm) (p n : Z) : Prop := exists a f, live_at st a f p n.

(** A live allocation lies in the memory of its slab. *)
Lemma live_inside D st a f p n :
  usdm_inv D st -> live_at st a f p n ->
  exists s, slabs st !! a = Some s /\ virt_addr s <= p /\ p + n <= virt_addr s + s_size s /\ 0 < n.
Proof.
  intros [SI LI] (s & Ha & [(Hm & Hf & Hp & -> & ->)|(Hl & -> & -> & ->)]); exists s; split; [done| |done|].
  - destruct (li_mem _ _ LI a s Hm Ha) as [Ht Hok _ _].
    destruct (sw_small _ _ _ (si_slab _ SI a s Ha) Ht) as [-> ->].
    pose proof (co_inside _ Hok f Hf Hp). pose proof reserved_pos.
    unfold UNIT_SIZE. change BLOCK_SIZES with 2048 in *. lia.
  - destruct (sw_phys _ _ _ (si_slab _ SI a s Ha)) as [_ _ P _ _]. simpl in P. lia.
Qed.

Lemma live_at_disjoint D st a f p n b g q m :
  usdm_inv D st -> live_at st a f p n -> live_at st b g q m -> ~ (a = b /\ f = g) ->
  disjoint_ranges (p, n) (q, m).
Proof.
  intros Inv L1 L2 Hne. unfold disjoint_ranges. cbn [fst snd].
  destruct (live_inside _ _ _ _ _ _ Inv L1) as (s & Ha & I1). destruct (live_inside _ _ _ _ _ _ Inv L2) as (s' & Hb & I2).
  pose proof Inv as [SI LI]. destruct (decide (a = b)) as [<-|Hab].
  2:{ pose proof (si_virt _ SI a b s s' Hab Ha Hb) as Hd. unfold virt_disjoint, disjoint_ranges in Hd. simpl in Hd. lia. }
  rewrite Ha in Hb. injection Hb as <-. pose proof (lists_disjoint _ _ a LI) as (_ & Hd & _).
  destruct L1 as (s1 & Hs1 & [(Hm & Hf & Hp & -> & ->)|(Hl & -> & -> & ->)]);
    destruct L2 as (s2 & Hs2 & [(Hm' & Hf' & Hp' & -> & ->)|(Hl' & -> & -> & ->)]);
    rewrite Ha in Hs1, Hs2; injection Hs1 as <-; injection Hs2 as <-.
  - pose proof (co_disjoint _ (ms_ctrl _ (li_mem _ _ LI a s Hm Ha)) f g) as Hc. unfold owns in Hc. unfold UNIT_SIZE.
    specialize (Hc (Z.max f g)). assert (f <> g) by tauto. lia.
  - by apply Hd in Hm as [? _].
  - by apply Hd in Hm' as [? _].
  - destruct Hne. done.
Qed.

(** The lists of used and large slabs and their slabs determine what is live. *)
Lemma live_frame st st' :
  user_mem st' = user_mem st -> user_large st' = user_large st ->
  (forall b, b ∈ user_mem st \/ b ∈ user_large st -> slabs st' !! b = slabs st !! b) ->
  forall a f p n, live_at st' a f p n <-> live_at st a f p n.
Proof.
  intros Em El Es a f p n. unfold live_at. rewrite Em, El.
  split; intros (s & Hs & [Hm|Hl]); exists s; (split; [|auto]).
  - by rewrite <- Es by (left; tauto).
  - by rewrite <- Es by (right; tauto).
  - by rewrite Es by (left; tauto).
  - by rewrite Es by (right; tauto).
Qed.

(** Taking blocks [f] to [f + n - 1] of slab [a], whose control block was [c] *)
Lemma live_take st st' a s' c f n size align :
  (forall b, b ∈ user_mem st' <-> b = a \/ b ∈ user_mem st) -> user_large st' = user_large st ->
  a ∉ user_large st -> (forall b, b <> a -> slabs st' !! b = slabs st !! b) ->
  slabs st' !! a = Some s' -> s_ctrl s' = take_blocks c f n -> ctrl_ok c -> block_free c size align f n ->
  (a ∈ user_mem st -> exists s, slabs st !! a = Some s /\ s_ctrl s = c) ->
  (a ∉ user_mem st -> n_allocs c = 0) ->
  (forall b g q m, live_at st' b g q m <->
    live_at st b g q m \/ (b = a /\ g = f /\ q = a + f * UNIT_SIZE /\ m = n * UNIT_SIZE)) /\
  (forall q m, ~ live_at st a f q m).
Proof.
  intros Hm El Hal Hs Ha Hc Hok Hb Hin Hout. destruct (block_free_range _ _ _ _ _ Hb) as [Hf Hn].
  pose proof (co_sizes _ Hok) as Hlen. pose proof (bf_zero _ _ _ _ _ Hb) as Hz.
  assert (Hsz : forall g, 0 <= g < BLOCK_SIZES ->
    (sizes (s_ctrl s')).[g] = if decide (g = f) then n else (sizes c).[g]).
  { intros g Hg. rewrite Hc. unfold take_blocks. simpl. case_decide as Hgf.
    - subst g. by rewrite arr_get_set_eq, u16_small by lia.
    - by rewrite arr_get_set_ne by lia. }
  split.
  - intros b g q m. destruct (decide (b = a)) as [->|Hba].
    2:{ unfold live_at. rewrite Hs by done. rewrite El. setoid_rewrite Hm. split.
        - intros (s & Hb' & [([->|Hmm] & Hr)|Hl]); [done|left; exists s; auto|left; exists s; auto].
        - intros [(s & Hb' & [(Hmm & Hr)|Hl])|[-> _]]; [exists s; auto|exists s; auto|done]. }
    unfold live_at. rewrite Ha, El. setoid_rewrite Hm. split.
    + intros (s & [= <-] & [(_ & Hg & Hp & -> & ->)|(Hl & _)]); [|done]. rewrite Hsz in Hp |- * by done.
      case_decide as Hgf; [subst; by right|left]. destruct (decide (a ∈ user_mem st)) as [Hmem|Hmem].
      * destruct (Hin Hmem) as (s & Hsa & <-). exists s. split; [done|]. left. done.
      * rewrite (n_allocs_zero c g Hok (Hout Hmem) Hg) in Hp. lia.
    + intros [(s & Hsa & [(Hmem & Hg & Hp & -> & ->)|(Hl & _)])|(_ & -> & -> & ->)]; [|done|].
      * destruct (Hin Hmem) as (s1 & Hs1 & <-). rewrite Hsa in Hs1. injection Hs1 as <-.
        exists s'. split; [done|]. left. rewrite Hsz by done. case_decide as Hgf; [subst; lia|auto].
      * exists s'. split; [done|]. left. rewrite Hsz by done. rewrite decide_True by done. split; [by left|]. split; [done|lia].
  - intros q m (s & Hsa & [(Hmem & _ & Hp & _)|(Hl & _)]); [|done].
    destruct (Hin Hmem) as (s1 & Hs1 & <-). rewrite Hsa in Hs1. injection Hs1 as <-. lia.
Qed.

(** ** Finding room in the slabs there are *)

Lemma count_alloc_set st a s d :
  count_alloc (set_slab st a s) a d = set_slab st a (s <| allocations := u32 (allocations s + d) |>).
Proof.
  unfold count_alloc. assert (E : slabs (set_slab st a s) !! a = Some s) by apply lookup_insert_eq.
  rewrite E. unfold set_slab. cbn. by rewrite insert_insert_eq.
Qed.

(** A slab between lists becomes a used one. *)
Definition add_mem (st : usdm) (a : Z) : usdm := st <| user_mem := a :: user_mem st |>.

Lemma add_mem_inv D st a s s' :
  usdm_inv (a :: D) st -> slabs st !! a = Some s -> same_id s s' -> mem_slab s' ->
  usdm_inv D (add_mem (set_slab st a s') a).
Proof.
  intros [SI LI] Ha Hid Hm. pose proof (lists_disjoint _ _ a LI) as (Hd & _).
  specialize (Hd ltac:(apply elem_of_cons; by left)) as (Hd1 & Hd2 & Hd3). split.
  - apply (slabs_inv_ext (set_slab st a s')); try done. by apply (slabs_inv_set st a s).
  - apply (lists_inv_move (a :: D) _ (set_slab st a s')).
    + apply (lists_inv_set _ _ _ s); try done. apply Hid.
    + done.
    + unfold all_lists. cbn [add_mem user_mem user_large user_cache upd set_slab app]. symmetry. apply Permutation_middle.
    + intros b s1 [->|Hb]%elem_of_cons [[? ->]|[Hne H]]%set_slab_lookup; try done; by apply (li_mem _ _ LI b).
    + intros b s1 Hb [[-> ->]|[Hne H]]%set_slab_lookup; [done|by apply (li_large _ _ LI b)].
    + intros b s1 Hb [[-> ->]|[Hne H]]%set_slab_lookup; [done|by apply (li_cache _ _ LI b)].
    + apply LI.
    + apply LI.
Qed.

Lemma init_alloc_spec st a s size align :
  slabs st !! a = Some s -> s_ctrl s = fresh_slab \/ s_ctrl s = zero_ctrl -> s_size s = 2 ^ 21 -> 0 < a ->
  0 < size < 2 ^ 64 - UNIT_SIZE -> 0 <= align ->
  init_slab_and_alloc st a size align = (0, set_slab st a (s <| s_ctrl := fresh_slab |>)) \/
  exists f n, block_free fresh_slab size align f n /\
    init_slab_and_alloc st a size align =
    (a + f * UNIT_SIZE, add_mem (set_slab st a (s <| s_ctrl := take_blocks fresh_slab f n |>)) a).
Proof.
  intros Ha Hc Hsz Hpos Hs Hal. unfold init_slab_and_alloc. rewrite Ha, Hsz.
  assert (E : init_slab (s_ctrl s) (2 ^ 21) = fresh_slab)
    by (destruct Hc as [-> | ->]; [apply init_slab_fresh|apply init_slab_zero]).
  rewrite E. set (s1 := s <| s_ctrl := fresh_slab |>). assert (Hok : ctrl_ok (s_ctrl s1)) by apply fresh_slab_ok.
  destruct (slab_alloc_spec st a s1 size align Hok ltac:(lia) Hs Hal)
    as [-> |(f & n & Hb & ->)]; [by left|right].
  exists f, n. split; [done|]. destruct (Z.eqb_spec (a + f * UNIT_SIZE) 0) as [E0|]; [|done].
  destruct (block_free_range _ _ _ _ _ Hb). unfold UNIT_SIZE in E0. lia.
Qed.

(** What an allocation of blocks of a small slab gives *)
Record small_alloc (st st' : usdm) (size align a p f n : Z) : Prop := {
  sa_inv : usdm_inv [] st';
  sa_live : forall b g q m, live_at st' b g q m <->
    live_at st b g q m \/ (b = a /\ g = f /\ q = p /\ m = n * UNIT_SIZE);
  sa_new : forall q m, ~ live_at st a f q m;
  sa_addr : p = a + f * UNIT_SIZE;
  sa_size : size <= n * UNIT_SIZE;
  sa_align : align = 0 \/ f mod align = 0;
  sa_mem : a ∈ user_mem st' 
}.

Lemma small_alloc_mem st a s f n size align :
  usdm_inv [] st -> a ∈ user_mem st -> slabs st !! a = Some s -> block_free (s_ctrl s) size align f n ->
  small_alloc st (count_alloc (set_slab st a (s <| s_ctrl := take_blocks (s_ctrl s) f n |>)) a 1)
    size align a (a + f * UNIT_SIZE) f n.
Proof.
  intros [SI LI] Hm Ha Hb. rewrite count_alloc_set.
  pose proof (lists_disjoint _ _ a LI) as (_ & Hd & _). destruct (Hd Hm) as [Hd1 Hd2].
  destruct (li_mem _ _ LI a s Hm Ha) as [Ht Hok Hc Hu].
  set (s' := _ <| allocations := _ |>).
  assert (Ms : mem_slab s').
  { apply (take_mem_slab s' (s_ctrl s) f n size align); try done. cbn. rewrite Hc. pose proof (n_allocs_bound _ Hok). change BLOCK_SIZES with 2048 in *. apply u32_small. lia. }
  destruct (live_take st (set_slab st a s') a s' (s_ctrl s) f n size align) as [L1 L2]; try done.
  { intros b. cbn. split; [auto|]. by intros [->|?]. }
  { intros b Hne. cbn. by rewrite lookup_insert_ne. }
  { apply lookup_insert_eq. }
  { intros _. by exists s. }
  split; try done; [|apply Hb|apply Hb]. split.
  - by apply (slabs_inv_set st a s).
  - by apply (lists_inv_set _ _ _ s).
Qed.

Lemma small_alloc_new st0 st a s s' f n size align :
  usdm_inv [a] st -> slabs st !! a = Some s -> same_id s s' -> s_type s = SMALL ->
  s_ctrl s' = take_blocks fresh_slab f n -> allocations s' = 1 -> block_free fresh_slab size align f n ->
  user_mem st = user_mem st0 -> user_large st = user_large st0 ->
  (forall b, b <> a -> slabs st !! b = slabs st0 !! b) -> (a ∉ user_mem st0) -> (a ∉ user_large st0) ->
  small_alloc st0 (add_mem (set_slab st a s') a) size align a (a + f * UNIT_SIZE) f n.
Proof.
  intros Inv Ha Hid Ht Hc Hal Hb Em El Es Hm Hl. pose proof fresh_slab_ok as Hok.
  assert (Ms : mem_slab s').
  { destruct Hid as (_ & _ & _ & E4).
    apply (take_mem_slab s' fresh_slab f n size align); try done. congruence. }
  destruct (live_take st0 (add_mem (set_slab st a s') a) a s' fresh_slab f n size align) as [L1 L2]; try done.
  { intros b. cbn. rewrite Em. apply elem_of_cons. }
  { intros b Hne. cbn. rewrite lookup_insert_ne by done. by apply Es. }
  { apply lookup_insert_eq. }
  split; try done; [|apply Hb|apply Hb|cbn; apply elem_of_cons; by left]. by apply (add_mem_inv _ _ _ s).
Qed.

Lemma find_slab_spec err st size node align :
  usdm_inv [] st -> 0 < size < 2 ^ 64 - UNIT_SIZE -> 0 <= align ->
  let '(r, st1) := qae_find_slab err st size node align in
  match r with
  | Some (a, p) => exists f n, small_alloc st (count_alloc st1 a 1) size align a p f n
  | None => usdm_inv [] st1 /\ (forall a f p n, live_at st1 a f p n <-> live_at st a f p n)
  end.
Proof.
  intros Inv Hs Hal. unfold qae_find_slab, qae_userMemLookupBySize.
  destruct (lookup_loop_spec [] (user_mem st) st size node align 0 Inv ltac:(auto) Hs Hal)
    as [E|(a & s & f & n & Hm & Ha & Hb & E)]; rewrite E.
  2:{ exists f, n. by apply small_alloc_mem. }
  destruct (pop_slab_spec [] st node Inv) as [[Ec ->]|(a & l & s & Ec & Ha & Hes & Ep & Inv')]; [done|].
  cbv zeta in Ep. rewrite Ep. set (st0 := st <| g_cache_size := _ |> <| user_cache := _ |>) in *.
  pose proof Inv as [SI LI]. pose proof (lists_disjoint _ _ a LI) as (_ & Hd1 & Hd2).
  assert (Hac : a ∈ user_cache st) by (rewrite Ec; apply elem_of_cons; by left).
  assert (Hnm : a ∉ user_mem st) by (intros H; by apply Hd1 in H as [_ ?]).
  assert (Hnl : a ∉ user_large st) by (intros H; by apply Hd2 in H).
  destruct (sw_small _ _ _ (si_slab _ SI a s Ha) (es_type _ Hes)) as [_ Hsz].
  destruct (init_alloc_spec st0 a s size align Ha (or_introl (es_ctrl _ Hes)) Hsz
    (sw_addr _ _ _ (si_slab _ SI a s Ha)) Hs Hal) as [E1|(f & n & Hb & E1)]; rewrite E1.
  - cbn [Z.eqb].
    assert (Inv2 : usdm_inv [a] (set_slab st0 a (s <| s_ctrl := fresh_slab |>))).
    { rewrite <- (es_ctrl _ Hes). replace (s <| s_ctrl := s_ctrl s |>) with s by (by destruct s).
      by rewrite set_slab_id. }
    split; [by apply free_slab_inv|].
    assert (Hl : slabs (set_slab st0 a (s <| s_ctrl := fresh_slab |>)) !! a = Some (s <| s_ctrl := fresh_slab |>))
      by apply lookup_insert_eq.
    destruct (free_slab_fields err _ a _ Hl) as ([R1 R2 _ _ _ _ _] & Es & _).
    apply live_frame; [done|done|]. intros b Hb. rewrite Es, lookup_delete_ne by (intros ->; tauto).
    cbn. rewrite lookup_insert_ne by (intros ->; tauto). done.
  - destruct (Z.eqb_spec (a + f * UNIT_SIZE) 0) as [E0|_].
    { destruct (block_free_range _ _ _ _ _ Hb). pose proof (sw_addr _ _ _ (si_slab _ SI a s Ha)).
      unfold UNIT_SIZE in E0. lia. }
    exists f, n.
    replace (count_alloc _ a 1) with (add_mem (set_slab st0 a
      (s <| s_ctrl := take_blocks fresh_slab f n |> <| allocations := u32 (allocations s + 1) |>)) a)
      by (unfold count_alloc, add_mem, set_slab; cbn; rewrite lookup_insert_eq; cbn; by rewrite insert_insert_eq).
    apply (small_alloc_new st st0 a s); try done; [apply Hes|]. cbn. by rewrite (es_count _ Hes).
Qed.

(** ** Allocation *)

(** A number without two bits is a power of two. *)
Lemma pow2_land x : 0 < x -> Z.land x (x - 1) = 0 -> exists k, 0 <= k /\ x = 2 ^ k.
Proof.
  intros Hx H. exists (Z.log2 x). pose proof (Z.log2_nonneg x). destruct (Z.log2_spec x Hx) as [H1 H2].
  split; [done|]. destruct (Z.eq_dec x (2 ^ Z.log2 x)) as [|Hne]; [done|exfalso].
  assert (Hb : Z.testbit (Z.land x (x - 1)) (Z.log2 x) = true); [|by rewrite H, Z.bits_0 in Hb].
  rewrite Z.land_spec, Z.bit_log2 by done. rewrite <- (Z.log2_unique (x - 1) (Z.log2 x)) at 1 by lia.
  apply Z.bit_log2. pose proof (Z.pow_pos_nonneg 2 (Z.log2 x)). lia.
Qed.

(** What an allocation gives: new memory that is large enough, contiguous for the
    device, and at an I/O address with the alignment asked for *)
Record new_alloc (st st' : usdm) (size align a p f n : Z) : Prop := {
  na_live : forall b g q m, live_at st' b g q m <-> live_at st b g q m \/ (b = a /\ g = f /\ q = p /\ m = n);
  na_new : forall q m, ~ live_at st a f q m;
  na_nonnull : p <> 0;
  na_size : size <= n;
  na_phys : exists phys, phys mod align = 0 /\ forall i, 0 <= i < n -> qaeVirtToPhysNUMA st' (p + i) = phys + i
}.

(** A live allocation is contiguous for the device. *)
Lemma live_translate D st a f p n s :
  usdm_inv D st -> live_at st a f p n -> slabs st !! a = Some s ->
  forall i, 0 <= i < n -> qaeVirtToPhysNUMA st (p + i) = phy_addr s + (p - virt_addr s) + i.
Proof.
  intros Inv L Ha i Hi. destruct (live_inside _ _ _ _ _ _ Inv L) as (s' & Ha' & I1 & I2 & _).
  rewrite Ha in Ha'. injection Ha' as <-. destruct Inv as [SI _].
  destruct (sw_map _ _ _ (si_slab _ SI a s Ha) (p + i) ltac:(lia)) as [E _].
  unfold qaeVirtToPhysNUMA. rewrite E. lia.
Qed.

Lemma small_align phy f k :
  0 <= k -> 2 ^ k < 2 ^ 21 -> phy mod 2 ^ 21 = 0 -> 2 ^ k / 1024 = 0 \/ f mod (2 ^ k / 1024) = 0 ->
  (phy + f * 1024) mod 2 ^ k = 0.
Proof.
  intros Hk Hlt Hp Hf. assert (Hk21 : k < 21) by (apply (Z.pow_lt_mono_r_iff 2); lia).
  apply Z.mod_divide in Hp as [q ->]; [|lia]. pose proof (Z.pow_pos_nonneg 2 k).
  apply Z.mod_divide; [lia|]. apply Z.divide_add_r.
  { exists (q * 2 ^ (21 - k)). rewrite <- Z.mul_assoc, <- Z.pow_add_r by lia. do 2 f_equal. lia. }
  destruct (Z.lt_ge_cases k 10) as [Hlo|Hhi].
  { exists (f * 2 ^ (10 - k)). rewrite <- Z.mul_assoc, <- Z.pow_add_r by lia. f_equal.
    replace (10 - k + k) with 10 by lia. done. }
  assert (E : 2 ^ k = 2 ^ (k - 10) * 1024).
  { change 1024 with (2 ^ 10). rewrite <- Z.pow_add_r by lia. f_equal. lia. }
  rewrite E in Hf |- *. rewrite Z.div_mul in Hf by lia. pose proof (Z.pow_pos_nonneg 2 (k - 10)).
  destruct Hf as [?|Hf]; [lia|]. apply Z.mod_divide in Hf as [r ->]; [|lia]. exists r. lia.
Qed.

Lemma small_new_alloc st st' size k a p f n :
  0 <= k -> 2 ^ k < 2 ^ 21 -> small_alloc st st' size (2 ^ k / 1024) a p f n ->
  usdm_inv [] st' /\ new_alloc st st' size (2 ^ k) a p f (n * UNIT_SIZE).
Proof.
  intros Hk Hlt [Inv L N Ea Hs Hal Hm]. split; [done|].
  assert (Hl : live_at st' a f p (n * UNIT_SIZE)) by (apply L; by right).
  destruct (live_inside _ _ _ _ _ _ Inv Hl) as (s & Ha & I1 & I2 & I3). pose proof Inv as [SI LI].
  pose proof (si_slab _ SI a s Ha) as W. pose proof (li_mem _ _ LI a s Hm Ha) as Ms.
  destruct (sw_small _ _ _ W (ms_type _ Ms)) as [Ev _].
  split; try done; [pose proof (sw_virt _ _ _ W); lia|].
  exists (phy_addr s + (p - virt_addr s)). split; [|by eapply live_translate].
  rewrite Ev, Ea. replace (a + f * UNIT_SIZE - a) with (f * 1024) by (unfold UNIT_SIZE; lia).
  apply small_align; try done. apply (rng_align _ _ (sw_phys _ _ _ W)).
Qed.

(** A new large slab is a live allocation. *)
Definition add_large (st : usdm) (a : Z) : usdm := st <| user_large := a :: user_large st |>.

Lemma add_large_inv D st a s s' :
  usdm_inv (a :: D) st -> slabs st !! a = Some s -> same_id s s' -> s_type s = LARGE ->
  usdm_inv D (add_large (set_slab st a s') a).
Proof.
  intros [SI LI] Ha Hid Ht. pose proof (lists_disjoint _ _ a LI) as (Hd & _).
  specialize (Hd ltac:(apply elem_of_cons; by left)) as (Hd1 & Hd2 & Hd3). split.
  - apply (slabs_inv_ext (set_slab st a s')); try done. by apply (slabs_inv_set st a s).
  - apply (lists_inv_move (a :: D) _ (set_slab st a s')).
    + apply (lists_inv_set _ _ _ s); try done. apply Hid.
    + done.
    + unfold all_lists. cbn [add_large user_mem user_large user_cache upd set_slab app].
      rewrite (app_assoc D). symmetry. rewrite (app_assoc D). apply Permutation_middle.
    + intros b s1 Hb [[-> ->]|[Hne H]]%set_slab_lookup; [done|by apply (li_mem _ _ LI b)].
    + intros b s1 [->|Hb]%elem_of_cons [[? ->]|[Hne H]]%set_slab_lookup; try done; [| |by apply (li_large _ _ LI b)].
      * destruct Hid as (_ & _ & _ & ->). done.
      * destruct Hid as (_ & _ & _ & ->). done.
    + intros b s1 Hb [[-> ->]|[Hne H]]%set_slab_lookup; [done|by apply (li_cache _ _ LI b)].
    + apply LI.
    + apply LI.
Qed.

Lemma live_large st0 st a s :
  slabs st !! a = Some s -> user_mem st = user_mem st0 -> user_large st = user_large st0 ->
  (forall b, b <> a -> slabs st !! b = slabs st0 !! b) -> slabs st0 !! a = None ->
  (a ∉ user_mem st0) ->
  forall b g q m, live_at (add_large st a) b g q m <->
    live_at st0 b g q m \/ (b = a /\ g = -1 /\ q = virt_addr s /\ m = s_size s).
Proof.
  intros Ha Em El Es Hn Hm b g q m. unfold live_at. cbn. rewrite Em, El. setoid_rewrite elem_of_cons.
  destruct (decide (b = a)) as [->|Hne].
  - rewrite Ha, Hn. split.
    + intros (s1 & [= <-] & [(? & _)|(_ & -> & -> & ->)]); [done|by right].
    + intros [(s1 & ? & _)|(_ & -> & -> & ->)]; [done|]. exists s. auto 10.
  - rewrite Es by done. split.
    + intros (s1 & Hs1 & [?|([->|?] & ?)]); [by left; exists s1; auto|done|by left; exists s1; auto].
    + intros [(s1 & Hs1 & [?|(? & ?)])|(-> & _)]; [by exists s1; auto|by exists s1; auto|done].
Qed.

(** The request is for a large slab of its own. *)
Definition is_large (size align : Z) : bool :=
  (QAE_NUM_PAGES_PER_ALLOC * QAE_PAGE_SIZE / UNIT_SIZE <? div_round_up size UNIT_SIZE + reserved) ||
  (QAE_NUM_PAGES_PER_ALLOC * QAE_PAGE_SIZE <=? align).

(** What an allocation asks of the system, when it needs a new slab *)
Definition alloc_room (e : alloc_env) (errs : Z -> Z) (st : usdm) (size node align : Z) : Prop :=
  if is_large size align
  then room e st (mapped_size (div_round_up (Z.max size align) UNIT_SIZE * UNIT_SIZE)) align LARGE
  else let '(found, st1) := qae_find_slab errs st size node (align / UNIT_SIZE) in
       found = None -> room e st1 (2 ^ 21) align SMALL.

Lemma large_align phy k : 0 <= k <= 22 -> phy mod u32 (round_up (2 ^ k) IOVA_SLAB_SIZE) = 0 -> phy mod 2 ^ k = 0.
Proof.
  intros Hk H. assert (Hp : 2 ^ k <= 2 ^ 22) by (apply Z.pow_le_mono_r; lia). pose proof (Z.pow_pos_nonneg 2 k).
  destruct (alignment_spec (2 ^ k) ltac:(lia)) as (c & Hc & E & _). rewrite E in H.
  apply Z.mod_divide in H as [q ->]; [|lia]. apply Z.mod_divide; [lia|].
  apply Z.divide_mul_r. unfold round_up in E. change IOVA_SLAB_SIZE with (2 ^ 21) in E.
  destruct (Z.eq_dec k 22) as [->|].
  - exists 1. rewrite <- E. vm_compute. reflexivity.
  - exists (c * 2 ^ (21 - k)). rewrite <- Z.mul_assoc, <- Z.pow_add_r by lia. do 2 f_equal. lia.
Qed.

Lemma blocks_bytes size : 0 < size <= 2 ^ 26 -> size <= div_round_up size UNIT_SIZE * UNIT_SIZE <= 2 ^ 26.
Proof.
  intros H. unfold div_round_up, UNIT_SIZE. rewrite u64_small by lia. divmod (size + 1024 - 1) 1024. lia.
Qed.

Lemma alloc_large_spec e st size k :
  usdm_inv [] st -> 0 < size <= 2 ^ 26 -> 0 <= k <= 22 ->
  let size_r := div_round_up (Z.max size (2 ^ k)) UNIT_SIZE * UNIT_SIZE in
  room e st (mapped_size size_r) (2 ^ k) LARGE ->
  let '(slab, st1) := qae_alloc_slab e st size_r (2 ^ k) LARGE in
  match slab with
  | None => usdm_inv [] st1 /\ (forall a f p n, live_at st1 a f p n <-> live_at st a f p n)
  | Some a => exists s, slabs st1 !! a = Some s /\
      forall t pages, store_mmap_range (g_page_table st1) (virt_addr s) (phy_addr s) (s_size s) (pt_left st1) = (t, pages) ->
      let st2 := st1 <| g_page_table := t |> <| pt_left := pages |> in
      let st3 := add_large (set_slab st2 a (s <| allocations := 1 |>)) a in
      usdm_inv [] st3 /\ new_alloc st st3 size (2 ^ k) a (virt_addr s) (-1) (s_size s)
  end.
Proof.
  intros Inv Hs Hk size_r Hroom. assert (Hp : 2 ^ k <= 2 ^ 22) by (apply Z.pow_le_mono_r; lia).
  pose proof (Z.pow_pos_nonneg 2 k). pose proof (blocks_bytes (Z.max size (2 ^ k)) ltac:(lia)) as Hb.
  fold size_r in Hb. clearbody size_r. pose proof (rm_fresh _ _ _ _ _ Hroom) as Hf.
  pose proof (rm_virt _ _ _ _ _ Hroom) as (Rv & _).
  pose proof (alloc_slab_spec e [] st size_r (2 ^ k) LARGE Inv ltac:(lia) ltac:(lia) ltac:(done) ltac:(done) Hroom) as A.
  destruct (qae_alloc_slab e st size_r (2 ^ k) LARGE) as [slab st1].
  destruct A as [(-> & Inv1 & R & Es)|(phy & A)].
  { split; [done|]. apply live_frame; [apply R|apply R|]. by rewrite Es. }
  cbv zeta in A. destruct A as (-> & Es & R & HmA & A). set (s := mk_slab _ _ _ _ _ _ _) in *.
  assert (Ha : slabs st1 !! a_slab e = Some s) by (rewrite Es; apply lookup_insert_eq).
  exists s. split; [done|]. intros t pages Hst st2 st3. specialize (A t pages Hst). fold st2 in A.
  assert (Inv3 : usdm_inv [] st3) by (by apply (add_large_inv [] st2 (a_slab e) s)).
  split; [done|].
  assert (Ha3 : slabs st3 !! a_slab e = Some (s <| allocations := 1 |>)) by apply lookup_insert_eq.
  assert (Hnm : a_slab e ∉ all_lists [] st).
  { intros Hin. apply (li_dom _ _ (proj2 Inv)) in Hin as [? ?]. congruence. }
  unfold all_lists in Hnm. rewrite !not_elem_of_app in Hnm. destruct Hnm as (_ & Hn1 & Hn2 & _).
  pose proof (live_large st (set_slab st2 (a_slab e) (s <| allocations := 1 |>)) (a_slab e) (s <| allocations := 1 |>)) as L.
  specialize (L ltac:(apply lookup_insert_eq) (sr_mem _ _ R) (sr_large _ _ R)).
  specialize (L ltac:(intros b Hne; cbn; rewrite lookup_insert_ne, Es, lookup_insert_ne by done; done) Hf Hn1).
  assert (Hl : live_at st3 (a_slab e) (-1) (virt_addr s) (s_size s)) by (apply L; by right).
  destruct (mapped_size_spec size_r ltac:(lia)) as (_ & _ & _ & Hle & _).
  pose proof (sw_virt _ _ _ (si_slab _ (proj1 Inv3) _ _ Ha3)) as (Hv & _). split.
  - exact L.
  - intros q m (s1 & Hs1 & _). congruence.
  - cbn in *. lia.
  - cbn. lia.
  - exists phy. split; [by apply large_align|]. intros i Hi.
    rewrite (live_translate _ _ _ _ _ _ _ Inv3 Hl Ha3 i Hi). cbn. lia.
Qed.

Lemma alloc_small_spec e err st size k :
  usdm_inv [] st -> 0 < size < 2 ^ 64 - UNIT_SIZE -> 0 <= k -> 2 ^ k < 2 ^ 21 ->
  room e st (2 ^ 21) (2 ^ k) SMALL ->
  let '(slab, st1) := qae_alloc_slab e st (2 ^ 21) (2 ^ k) SMALL in
  match slab with
  | None => usdm_inv [] st1 /\ (forall a f p n, live_at st1 a f p n <-> live_at st a f p n)
  | Some a => exists s, slabs st1 !! a = Some s /\ virt_addr s mod QAE_PAGE_SIZE = 0 /\
      forall t pages, store_mmap_range (g_page_table st1) (virt_addr s) (phy_addr s) (s_size s) (pt_left st1) = (t, pages) ->
      let st2 := set_slab (st1 <| g_page_table := t |> <| pt_left := pages |>) a (s <| allocations := 1 |>) in
      let '(p, st3) := init_slab_and_alloc st2 a size (2 ^ k / 1024) in
      if p =? 0 then
        usdm_inv [] (qae_free_slab err st3 a) /\
        (forall b f q n, live_at (qae_free_slab err st3 a) b f q n <-> live_at st b f q n)
      else exists f n, small_alloc st st3 size (2 ^ k / 1024) a p f n
  end.
Proof.
  intros Inv Hs Hk Hlt Hroom. pose proof (Z.pow_pos_nonneg 2 k). pose proof (rm_fresh _ _ _ _ _ Hroom) as Hf.
  assert (Hd : 0 <= 2 ^ k / 1024) by (apply Z.div_pos; lia).
  pose proof (rm_virt _ _ _ _ _ Hroom) as (Rv & Rm & _).
  pose proof (alloc_slab_spec e [] st (2 ^ 21) (2 ^ k) SMALL Inv ltac:(lia) ltac:(lia) ltac:(done) ltac:(done) Hroom) as A.
  destruct (qae_alloc_slab e st (2 ^ 21) (2 ^ k) SMALL) as [slab st1].
  destruct A as [(-> & Inv1 & R & Es)|(phy & A)].
  { split; [done|]. apply live_frame; [apply R|apply R|]. by rewrite Es. }
  cbv zeta in A. destruct A as (-> & Es & R & HmA & A). set (s := mk_slab _ _ _ _ _ _ _) in *.
  assert (Ha : slabs st1 !! a_slab e = Some s) by (rewrite Es; apply lookup_insert_eq).
  exists s. split; [done|]. split; [done|]. intros t pages Hst st2. specialize (A t pages Hst).
  assert (Ha2 : slabs st2 !! a_slab e = Some (s <| allocations := 1 |>)) by apply lookup_insert_eq.
  assert (Inv2 : usdm_inv [a_slab e] st2).
  { pose proof (lists_disjoint _ _ (a_slab e) (proj2 A)) as (Hd1 & _).
    specialize (Hd1 ltac:(apply elem_of_cons; by left)) as (Hd1 & Hd2 & Hd3). split.
    - apply (slabs_inv_set _ _ s); [apply A|done|done].
    - apply (lists_inv_set _ _ _ s); [apply A|done..]. }
  assert (Hnm : a_slab e ∉ all_lists [] st).
  { intros Hin. apply (li_dom _ _ (proj2 Inv)) in Hin as [? ?]. congruence. }
  unfold all_lists in Hnm. rewrite !not_elem_of_app in Hnm. destruct Hnm as (_ & Hn1 & Hn2 & _).
  pose proof (sw_addr _ _ _ (si_slab _ (proj1 Inv2) _ _ Ha2)) as Hpos.
  assert (Hoth : forall b, b <> a_slab e -> slabs st2 !! b = slabs st !! b).
  { intros b Hne. cbn. rewrite lookup_insert_ne, Es, lookup_insert_ne by done. done. }
  destruct (init_alloc_spec st2 (a_slab e) _ size (2 ^ k / 1024) Ha2 (or_intror eq_refl) eq_refl Hpos Hs Hd)
    as [-> |(f & n & Hb & ->)]; cbn [Z.eqb].
  - set (st3 := set_slab st2 (a_slab e) _).
    assert (Inv3 : usdm_inv [a_slab e] st3).
    { pose proof (lists_disjoint _ _ (a_slab e) (proj2 Inv2)) as (Hd1 & _).
      specialize (Hd1 ltac:(apply elem_of_cons; by left)) as (Hd1 & Hd2 & Hd3). split.
      - apply (slabs_inv_set _ _ (s <| allocations := 1 |>)); [apply Inv2|done|done].
      - apply (lists_inv_set _ _ _ (s <| allocations := 1 |>)); [apply Inv2|done..]. }
    split; [by apply free_slab_inv|].
    assert (Ha3 : slabs st3 !! a_slab e = Some ((s <| allocations := 1 |>) <| s_ctrl := fresh_slab |>))
      by apply lookup_insert_eq.
    destruct (free_slab_fields err st3 (a_slab e) _ Ha3) as ([R1 R2 _ _ _ _ _] & E3 & _).
    apply live_frame; [rewrite R1; apply R|rewrite R2; apply R|]. intros b Hb.
    assert (Hne : b <> a_slab e) by (intros ->; tauto).
    rewrite E3, lookup_delete_ne by done. cbn. rewrite lookup_insert_ne by done. by apply Hoth.
  - destruct (Z.eqb_spec (a_slab e + f * UNIT_SIZE) 0) as [E0|_].
    { destruct (block_free_range _ _ _ _ _ Hb). unfold UNIT_SIZE in E0. lia. }
    exists f, n. apply (small_alloc_new st st2 (a_slab e) (s <| allocations := 1 |>)); try done; apply R.
Qed.

Lemma alloc_addr_spec e err getpid st size node k :
  usdm_inv [] st -> pid st = getpid -> 0 < size <= 2 ^ 26 -> 0 <= k <= 22 ->
  alloc_room e err st size node (2 ^ k) ->
  let '(p, st') := qae_alloc_addr e err getpid st size node (2 ^ k) in
  usdm_inv [] st' /\
  ((p = 0 /\ forall a f q n, live_at st' a f q n <-> live_at st a f q n) \/
   exists a f n, new_alloc st st' size (2 ^ k) a p f n).
Proof.
  intros Inv Hpid Hs Hk Hroom. unfold qae_alloc_addr, qae_open, qaeInitProcess, check_pid.
  rewrite Hpid, Z.eqb_refl. cbn [negb Z.eqb]. unfold alloc_room in Hroom. fold (is_large size (2 ^ k)).
  destruct (Z.ltb_spec (2 ^ 64 - 1 - reserved - UNIT_SIZE) size) as [Hc|_].
  { change (2 ^ 64 - 1 - reserved - UNIT_SIZE) with 18446744073709550586 in Hc. lia. }
  destruct (is_large size (2 ^ k)) eqn:El.
  - pose proof (alloc_large_spec e st size k Inv Hs Hk Hroom) as A. cbv zeta in A.
    destruct (qae_alloc_slab _ _ _ _ _) as [[a|] st1]; [|destruct A; split; [done|by left]].
    destruct A as (s & Ha & A). rewrite Ha. destruct (store_mmap_range _ _ _ _ _) as [t pages].
    destruct (A t pages eq_refl) as [I N]. split; [done|right]. by eexists _, _, _.
  - unfold is_large in El. breflect. change (QAE_NUM_PAGES_PER_ALLOC * QAE_PAGE_SIZE) with (2 ^ 21) in *.
    pose proof (find_slab_spec err st size node (2 ^ k / UNIT_SIZE) Inv) as F.
    specialize (F ltac:(unfold UNIT_SIZE; lia) ltac:(apply Z.div_pos; [apply Z.pow_nonneg; lia|done])).
    destruct (qae_find_slab _ _ _ _ _) as [[[a p]|] st1].
    + destruct F as (f & n & SA). destruct (small_new_alloc _ _ _ k _ _ _ _ ltac:(lia) ltac:(lia) SA) as [I N].
      split; [done|right]. by eexists _, _, _.
    + destruct F as [Inv1 L1]. specialize (Hroom eq_refl).
      change (2 ^ 21 / UNIT_SIZE * UNIT_SIZE) with (2 ^ 21).
      pose proof (alloc_small_spec e err st1 size k Inv1 ltac:(unfold UNIT_SIZE; lia) ltac:(lia) ltac:(lia) Hroom) as A.
      destruct (qae_alloc_slab _ _ _ _ _) as [[a|] st2].
      2:{ destruct A as [I L]. split; [done|left]. split; [done|]. intros. by rewrite L, L1. }
      destruct A as (s & Ha & Hvm & A). rewrite Ha. destruct (store_mmap_range _ _ _ _ _) as [t pages].
      specialize (A t pages eq_refl). rewrite Hvm. cbn [Z.eqb negb]. change (2 ^ k / UNIT_SIZE) with (2 ^ k / 1024).
      fold (set_slab (st2 <| g_page_table := t |> <| pt_left := pages |>) a (s <| allocations := 1 |>)).
      cbv zeta in A. destruct (init_slab_and_alloc _ _ _ _) as [p st3]. destruct (Z.eqb_spec p 0) as [->|Hp].
      * destruct A as [I L]. split; [done|left]. split; [done|]. intros. by rewrite L, L1.
      * destruct A as (f & n & SA). destruct (small_new_alloc _ _ _ k _ _ _ _ ltac:(lia) ltac:(lia) SA) as [I N].
        split; [done|right]. exists a, f, (n * UNIT_SIZE). destruct N as [N1 N2 N3 N4 N5].
        split; try done; [intros; by rewrite N1, L1|intros q m Hq; by apply (N2 q m), L1].
Qed.

(** ** Release *)

Lemma slab_has_spec st a s va :
  slab_wf st a s -> 0 <= va < 2 ^ 57 -> slab_has s va = true <-> virt_addr s <= va < virt_addr s + s_size s.
Proof.
  intros W Hva. unfold slab_has. destruct (sw_virt _ _ _ W) as (V1 & _ & V3).
  destruct (sw_phys _ _ _ W) as [_ _ P _ _]. cbn [fst snd] in P. rewrite Z.ltb_lt.
  destruct (Z.le_gt_cases (virt_addr s) va).
  - rewrite u64_small by lia. lia.
  - unfold u64. rewrite <- (Z.mod_unique (va - virt_addr s) (2 ^ 64) (-1) (va - virt_addr s + 2 ^ 64)) by lia. lia.
Qed.

(** The hash table finds the slab that holds an address. *)
Lemma find_slab_in_hash_spec st va :
  slabs_inv st -> 0 <= va < 2 ^ 57 ->
  match find_slab_in_hash st va with
  | Some a => exists s, slabs st !! a = Some s /\ virt_addr s <= va < virt_addr s + s_size s
  | None => forall a s, slabs st !! a = Some s -> ~ (virt_addr s <= va < virt_addr s + s_size s)
  end.
Proof.
  intros SI Hva. unfold find_slab_in_hash. destruct (List.find _ _) as [a|] eqn:E.
  - apply List.find_some in E as [_ E]. destruct (slabs st !! a) as [s|] eqn:Ha; [|done].
    exists s. split; [done|]. by apply (slab_has_spec st a s va (si_slab _ SI a s Ha) Hva).
  - intros a s Ha Hin. pose proof (si_slab _ SI a s Ha) as W.
    destruct (sw_map _ _ _ W va Hin) as [_ Hk].
    assert (Hb : a ∈ bucket st (load_key (g_page_table st) va)) by (rewrite Hk; apply (si_hash _ SI); by exists s).
    apply list_elem_of_In in Hb. pose proof (List.find_none _ _ E a Hb) as Hf. cbn beta in Hf. rewrite Ha in Hf. apply (slab_has_spec st a s va W Hva) in Hin. congruence.
Qed.

(** Freeing an address in a small slab *)
Definition release_blocks (ctrl : block_ctrl) (f : Z) : block_ctrl :=
  mk_block_ctrl (clear_bitmap (bitmap ctrl) f ((sizes ctrl).[f])) ((sizes ctrl).[f <- 0]).

Lemma slab_free_cases a ctrl p secure :
  ctrl_ok ctrl -> 0 < a -> a mod 4096 = 0 -> a + 2 ^ 21 + 4096 <= 2 ^ 57 -> a <= p < a + 2 ^ 21 ->
  (exists f, 0 <= f < BLOCK_SIZES /\ p = a + f * UNIT_SIZE /\ 0 < (sizes ctrl).[f] /\
    qae_mem_free a ctrl p secure =
    (true, release_blocks ctrl f, if secure then Some (p, (sizes ctrl).[f] * UNIT_SIZE) else None)) \/
  (qae_mem_free a ctrl p secure = (false, ctrl, None) /\
   forall f, 0 <= f < BLOCK_SIZES -> 0 < (sizes ctrl).[f] -> p <> a + f * UNIT_SIZE).
Proof.
  intros Hok Ha Hm Hr Hp. assert (Hm' : a mod UNIT_SIZE = 0).
  { apply Z.mod_divide in Hm as [q ->]; [|lia]. unfold UNIT_SIZE. replace (q * 4096) with (q * 4 * 1024) by lia.
    apply Z.mod_mul. lia. }
  destruct (decide (p mod UNIT_SIZE = 0)) as [Hpm|Hpm].
  - assert (exists f, 0 <= f < BLOCK_SIZES /\ p = a + f * UNIT_SIZE) as (f & Hf & ->).
    { unfold UNIT_SIZE in *. change BLOCK_SIZES with 2048. exists ((p - a) / 1024).
      divmod p 1024. divmod a 1024. divmod (p - a) 1024. lia. }
    rewrite qae_mem_free_eq; try done; [|change (BLOCK_SIZES * UNIT_SIZE) with (2 ^ 21); lia].
    destruct (Z.eqb_spec ((sizes ctrl).[f]) 0) as [E|E]; [right|left].
    + split; [done|]. intros g Hg Hpos Eg. assert (g = f) as -> by (unfold UNIT_SIZE in Eg; lia). lia.
    + exists f. pose proof (co_nonneg _ Hok f Hf). split_and!; try done; lia.
  - right. split.
    + unfold qae_mem_free. destruct (Z.eqb_spec a 0); [lia|]. destruct (Z.eqb_spec p 0); [lia|].
      cbn [orb]. by destruct (Z.eqb_spec (p mod UNIT_SIZE) 0).
    + intros f Hf _ ->. destruct Hpm. rewrite Z.mod_add by done. done.
Qed.

(** Releasing the allocation at block [f] of the used slab [a] *)
Lemma live_release st st' a s c f :
  slabs st !! a = Some s -> a ∈ user_mem st -> ctrl_ok (s_ctrl s) -> 0 <= f < BLOCK_SIZES -> (a ∉ user_large st) ->
  c = release_blocks (s_ctrl s) f ->
  user_large st' = user_large st -> (forall b, b <> a -> slabs st' !! b = slabs st !! b) ->
  (forall b, b <> a -> b ∈ user_mem st' <-> b ∈ user_mem st) ->
  (a ∈ user_mem st' -> exists s', slabs st' !! a = Some s' /\ s_ctrl s' = c) ->
  (a ∉ user_mem st' -> n_allocs c = 0) -> ctrl_ok c ->
  forall b g q m, live_at st' b g q m <-> live_at st b g q m /\ ~ (b = a /\ g = f).
Proof.
  intros Ha Hm Hok Hf Hnl Hc El Es Em Hin Hout Hokc b g q m. pose proof (co_sizes _ Hok) as Hlen.
  assert (Hsz : forall h, 0 <= h < BLOCK_SIZES -> (sizes c).[h] = if decide (h = f) then 0 else (sizes (s_ctrl s)).[h]).
  { intros h Hh. rewrite Hc. unfold release_blocks. cbn [sizes]. case_decide as Hhf; [subst; by rewrite arr_get_set_eq by lia|].
    by rewrite arr_get_set_ne by lia. }
  unfold live_at. rewrite El. destruct (decide (b = a)) as [->|Hne].
  2:{ rewrite Es by done. setoid_rewrite (Em b Hne). tauto. }
  rewrite Ha. split.
  - intros (s' & Hs' & [(Hm' & Hg & Hp & -> & ->)|(? & _)]); [|done].
    destruct (Hin Hm') as (s1 & Hs1 & Ec). rewrite Hs' in Hs1. injection Hs1 as <-. rewrite Ec, Hsz in Hp |- * by done.
    case_decide; [lia|]. split; [|tauto]. exists s. split; [done|]. by left.
  - intros [(s1 & [= <-] & [(_ & Hg & Hp & -> & ->)|(? & _)]) Hne]; [|done].
    assert (Hgf : g <> f) by tauto. pose proof (Hsz g Hg) as E. rewrite decide_False in E by done.
    destruct (decide (a ∈ user_mem st')) as [Hm'|Hm'].
    + destruct (Hin Hm') as (s' & Hs' & Ec). exists s'. split; [done|]. left. rewrite Ec, E. done.
    + rewrite (n_allocs_zero c g Hokc (Hout Hm') Hg) in E. lia.
Qed.

Lemma live_drop_large st st' a s :
  slabs st !! a = Some s -> a ∈ user_large st -> (a ∉ user_mem st) ->
  user_mem st' = user_mem st -> (forall b, b ∈ user_large st' <-> b ∈ user_large st /\ b <> a) ->
  slabs st' = delete a (slabs st) ->
  forall b g q m, live_at st' b g q m <-> live_at st b g q m /\ ~ (b = a /\ g = -1).
Proof.
  intros Ha Hl Hm Em El Es b g q m. unfold live_at. rewrite Em, Es. setoid_rewrite El.
  destruct (decide (b = a)) as [->|Hne].
  - rewrite lookup_delete_eq. split; [by intros (? & ? & _)|].
    intros [(s1 & Hs1 & [(? & _)|(_ & -> & _)]) Hn]; [done|]. by destruct Hn.
  - rewrite lookup_delete_ne by done. split.
    + intros (s1 & Hs1 & [?|([? _] & ?)]); (split; [|tauto]); exists s1; auto.
    + intros [(s1 & Hs1 & [?|(? & ?)]) _]; exists s1; auto.
Qed.

(** The outcomes of a release: the allocation that holds [p] is gone (and, when it
    is one of blocks, [p] is where it starts), or the address is refused. *)
Definition released (st st' : usdm) (p : Z) (secure : bool) (zeroed : option (Z * Z)) : Prop :=
  exists a f q n, live_at st a f q n /\ q <= p < q + n /\
    (0 <= f -> q = p) /\ zeroed = (if decide (f = -1) then None else if secure then Some (p, n) else None) /\
    forall b g q' m, live_at st' b g q' m <-> live_at st b g q' m /\ ~ (b = a /\ g = f).

Lemma release_blocks_ok ctrl f :
  ctrl_ok ctrl -> 0 <= f < BLOCK_SIZES -> 0 < (sizes ctrl).[f] ->
  ctrl_ok (release_blocks ctrl f) /\ n_allocs (release_blocks ctrl f) = n_allocs ctrl - 1.
Proof.
  intros Hok Hf Hp. split; [by apply release_ok|]. apply n_allocs_release; [done..|lia].
Qed.

(** Taking a slab off its list *)
Lemma detach_mem st a :
  lists_inv [] st -> a ∈ user_mem st ->
  lists_inv [a] (st <| user_mem := base.filter (fun x => x <> a) (user_mem st) |>).
Proof.
  intros LI Ha. assert (N : NoDup (user_mem st)).
  { pose proof (li_nodup _ _ LI) as N. unfold all_lists in N. cbn [app] in N. by apply NoDup_app in N as (? & _). }
  apply (lists_inv_move [] [a] st _ LI); try apply LI; [done|..].
  - unfold all_lists. cbn [user_mem user_large user_cache upd app]. by rewrite (filter_ne_perm a (user_mem st) N Ha) at 2.
  - intros b s [_ Hb]%list_elem_of_filter. by apply (li_mem _ _ LI).
Qed.

Lemma detach_large st a :
  lists_inv [] st -> a ∈ user_large st ->
  lists_inv [a] (st <| user_large := base.filter (fun x => x <> a) (user_large st) |>).
Proof.
  intros LI Ha. assert (N : NoDup (user_large st)).
  { pose proof (li_nodup _ _ LI) as N. unfold all_lists in N. cbn [app] in N.
    apply NoDup_app in N as (_ & _ & N). by apply NoDup_app in N as (? & _). }
  apply (lists_inv_move [] [a] st _ LI); try apply LI; [done|..].
  - unfold all_lists. cbn [user_mem user_large user_cache upd app].
    rewrite (filter_ne_perm a (user_large st) N Ha) at 2. cbn [app]. by rewrite <- Permutation_middle.
  - intros b s [_ Hb]%list_elem_of_filter. by apply (li_large _ _ LI).
Qed.

(** An empty slab goes to the cache, or is freed when the cache is full. *)
Definition retire (errs : Z -> Z) (st : usdm) (a : Z) (slab : dev_mem_info) : usdm :=
  let '(ret, st) := push_slab st a slab in
  if negb (ret =? 0) then qae_free_slab errs st a else st.

Lemma retire_spec err st a s :
  usdm_inv [a] st -> slabs st !! a = Some s -> empty_slab s ->
  let st' := retire err st a s in
  usdm_inv [] st' /\ user_mem st' = user_mem st /\ user_large st' = user_large st /\ pid st' = pid st /\
  forall b, b <> a -> slabs st' !! b = slabs st !! b.
Proof.
  intros [SI LI] Ha He. cbv zeta. unfold retire, push_slab.
  destruct (sw_small _ _ _ (si_slab _ SI a s Ha) (es_type _ He)) as [_ Hsz]. rewrite Hsz.
  pose proof (li_max _ _ LI) as X. pose proof (li_size _ _ LI) as Z0. change g_max_cache with (2 ^ 23) in *.
  rewrite u64_small by lia. destruct (Z.leb_spec (g_cache_size st + 2 ^ 21) (2 ^ 23)) as [Hc|Hc].
  - cbn [negb Z.eqb]. split_and!; try done. split; [by apply (slabs_inv_ext st)|].
    apply (lists_inv_move [a] [] st _ LI); cbn [g_cache_size user_cache user_mem user_large upd]; try apply LI; try lia; [done|..].
    + unfold all_lists. cbn. rewrite !(app_assoc (user_mem st)). by rewrite <- Permutation_middle.
    + intros b s1 [->|Hb]%elem_of_cons Hs1; [congruence|by apply (li_cache _ _ LI b)].
    + rewrite Z0. cbn [length]. lia.
    + done.
  - destruct (free_slab_fields err st a s Ha) as ([R1 R2 R3 R4 R5 R6 R7] & Es & _).
    change (negb (- ENOMEM =? 0)) with true. cbv iota.
    split_and!; try done; [by apply free_slab_inv|]. intros b Hb. rewrite Es. by rewrite lookup_delete_ne.
Qed.

(** Releasing the allocation at block [f] of the used slab [a], of which [s'] is the
    new contents *)
Lemma release_small_spec err st a s f s' :
  usdm_inv [] st -> a ∈ user_mem st -> slabs st !! a = Some s ->
  0 <= f < BLOCK_SIZES -> 0 < (sizes (s_ctrl s)).[f] ->
  same_id s s' -> s_ctrl s' = release_blocks (s_ctrl s) f -> allocations s' = allocations s - 1 ->
  let st1 := set_slab st a s' in
  let st' := if negb (allocations s' =? 0) then st1 else
    retire err (st1 <| user_mem := base.filter (fun x => x <> a) (user_mem st) |>) a s' in
  usdm_inv [] st' /\ pid st' = pid st /\
  forall b g q m, live_at st' b g q m <-> live_at st b g q m /\ ~ (b = a /\ g = f).
Proof.
  intros [SI LI] Hm Ha Hf Hp Hid Hc Hal st1. destruct (li_mem _ _ LI a s Hm Ha) as [Ht Hok Hcnt _].
  destruct (proj1 (proj2 (lists_disjoint _ _ a LI)) Hm) as [Hd1 Hd2].
  destruct (release_blocks_ok _ f Hok Hf Hp) as [Hok' Hn']. rewrite <- Hc in Hok', Hn'.
  pose proof (n_allocs_bound _ Hok') as Hb. pose proof Hid as (_ & _ & _ & E4).
  assert (SI1 : slabs_inv st1) by by apply (slabs_inv_set st a s).
  assert (Ha1 : slabs st1 !! a = Some s') by apply lookup_insert_eq.
  assert (Hne : forall b, b <> a -> slabs st1 !! b = slabs st !! b) by (intros b Hb'; by apply lookup_insert_ne).
  destruct (Z.eqb_spec (allocations s') 0) as [H0|H0]; cbn [negb].
  - assert (He : empty_slab s') by (split; [congruence|apply empty_ctrl_fresh; [done|lia]|done]).
    set (st2 := st1 <| user_mem := base.filter (fun x => x <> a) (user_mem st) |>).
    assert (LI2 : lists_inv [a] st2).
    { change st2 with (set_slab (st <| user_mem := base.filter (fun x => x <> a) (user_mem st) |>) a s').
      apply (lists_inv_set _ _ a s); try done; [by apply detach_mem|]. by intros [? _]%list_elem_of_filter. }
    destruct (retire_spec err st2 a s') as (I' & M' & L' & P' & S'); [|done..|].
    { split; [|done]. by apply (slabs_inv_ext st1). }
    cbv zeta. split_and!; try done.
    apply (live_release st _ a s (release_blocks (s_ctrl s) f) f); try done; rewrite <- ?Hc; try done; rewrite ?M'.
    + intros b Hba. rewrite S' by done. by apply Hne.
    + intros b Hba. cbn. rewrite list_elem_of_filter. tauto.
    + by intros [? _]%list_elem_of_filter.
    + intros _. lia.
  - cbv zeta. split_and!; try done.
    + split; [done|]. apply (lists_inv_set _ _ a s); try done. intros _. split; [congruence|done|lia|lia].
    + apply (live_release st _ a s (release_blocks (s_ctrl s) f) f); try done; rewrite <- ?Hc; try done.
      intros _. by exists s'.
Qed.

Lemma release_large_spec err st a s :
  usdm_inv [] st -> a ∈ user_large st -> slabs st !! a = Some s ->
  let st' := qae_free_slab err (st <| user_large := base.filter (fun x => x <> a) (user_large st) |>) a in
  usdm_inv [] st' /\ pid st' = pid st /\
  forall b g q m, live_at st' b g q m <-> live_at st b g q m /\ ~ (b = a /\ g = -1).
Proof.
  intros [SI LI] Hl Ha. set (st1 := st <| user_large := _ |>).
  destruct (free_slab_fields err st1 a s Ha) as ([R1 R2 R3 R4 R5 R6 R7] & Es & _).
  cbv zeta. split_and!; [|done|].
  - apply free_slab_inv. split; [by apply (slabs_inv_ext st)|by apply detach_large].
  - apply (live_drop_large st _ a s); try done.
    + intros Hm. by destruct (proj1 (proj2 (lists_disjoint _ _ a LI)) Hm).
    + intros b. rewrite R2. cbn. rewrite list_elem_of_filter. tauto.
Qed.

(** The list that a slab is on, and what that says of it *)
Lemma slab_list st a s :
  lists_inv [] st -> slabs st !! a = Some s ->
  (a ∈ user_mem st /\ mem_slab s) \/ (a ∈ user_large st /\ s_type s = LARGE) \/ (a ∈ user_cache st /\ empty_slab s).
Proof.
  intros LI Ha. pose proof (proj2 (li_dom _ _ LI a) ltac:(by eexists)) as Hd. unfold all_lists in Hd. cbn [app] in Hd.
  apply elem_of_app in Hd as [Hm|[Hl|Hc]%elem_of_app].
  - left. split; [done|]. by apply (li_mem _ _ LI a).
  - right. left. split; [done|]. by apply (li_large _ _ LI a).
  - right. right. split; [done|]. by apply (li_cache _ _ LI a).
Qed.

(** An address in a slab of blocks is the start of an allocation of it, or it is
    refused. *)
Lemma free_small_cases st a s p secure :
  usdm_inv [] st -> slabs st !! a = Some s -> s_type s <> LARGE -> virt_addr s <= p < virt_addr s + s_size s ->
  (exists f, a ∈ user_mem st /\ 0 <= f < BLOCK_SIZES /\ 0 < (sizes (s_ctrl s)).[f] /\ p = a + f * UNIT_SIZE /\
    allocations s = n_allocs (s_ctrl s) /\ 0 < n_allocs (s_ctrl s) <= BLOCK_SIZES /\
    qae_mem_free a (s_ctrl s) p secure =
    (true, release_blocks (s_ctrl s) f, if secure then Some (p, (sizes (s_ctrl s)).[f] * UNIT_SIZE) else None)) \/
  (qae_mem_free a (s_ctrl s) p secure = (false, s_ctrl s, None) /\
   forall f, 0 <= f < BLOCK_SIZES -> 0 < (sizes (s_ctrl s)).[f] -> p <> a + f * UNIT_SIZE).
Proof.
  intros [SI LI] Ha Ht Hin. pose proof (si_slab _ SI a s Ha) as W. destruct (sw_virt _ _ _ W) as (V1 & V2 & V3).
  destruct (slab_list st a s LI Ha) as [[Hm M]|[[_ ?]|[_ [T C _]]]]; [|done|].
  - destruct M as [T Hok Hcnt Hus]. destruct (sw_small _ _ _ W T) as [Ev Es]. rewrite Ev, Es in *.
    destruct (slab_free_cases a (s_ctrl s) p secure Hok) as [(f & Hf & -> & Hpos & E)|H]; try done; [left|by right].
    pose proof (n_allocs_bound _ Hok). exists f. split_and!; try done; lia.
  - destruct (sw_small _ _ _ W T) as [Ev Es]. rewrite Ev, Es, C in *.
    destruct (slab_free_cases a fresh_slab p secure fresh_slab_ok) as [(f & Hf & _ & Hpos & _)|H]; try done; [|by right].
    pose proof (n_allocs_zero _ f fresh_slab_ok n_allocs_fresh Hf). lia.
Qed.

(** [__qae_free_addr] *)
Lemma free_addr_spec err getpid st p secure :
  usdm_inv [] st -> pid st = getpid -> 0 <= p < 2 ^ 57 ->
  let '(va, st', zeroed) := qae_free_addr err getpid st p secure in
  usdm_inv [] st' /\ pid st' = getpid /\
  ((va = 0 /\ released st st' p secure zeroed) \/
   (st' = st /\ zeroed = None /\ (va = p \/ va = 0) /\
    forall a f q n, live_at st a f q n -> q <= p < q + n -> q <> p /\ f <> -1)).
Proof.
  intros Inv Hpid Hp. pose proof Inv as [SI LI]. unfold qae_free_addr, qae_open, qaeInitProcess, check_pid.
  rewrite Hpid, Z.eqb_refl. cbn [negb Z.eqb].
  pose proof (find_slab_in_hash_spec st p SI Hp) as F. destruct (find_slab_in_hash st p) as [a|].
  2:{ split_and!; try done. right. split_and!; try done; [by left|]. intros a f q n L Hq.
      destruct (live_inside _ _ _ _ _ _ Inv L) as (s & Hs & V). destruct (F a s Hs). lia. }
  destruct F as (s & Ha & Hin). rewrite Ha. case_decide as Ht.
  - assert (Hl : a ∈ user_large st).
    { destruct (slab_list st a s LI Ha) as [[_ M]|[[? _]|[_ M]]]; [|done|]; [destruct M|destruct M]; congruence. }
    destruct (release_large_spec err st a s Inv Hl Ha) as (I & P & L). split_and!; [done|congruence|left]. split; [done|].
    exists a, (-1), (virt_addr s), (s_size s). split_and!; try done; [|lia..]. exists s. split; [done|]. by right.
  - destruct (free_small_cases st a s p secure Inv Ha Ht Hin) as [(f & Hm & Hf & Hpos & -> & Hcnt & Hn & ->)|[-> Hno]].
    + set (s' := s <| s_ctrl := release_blocks (s_ctrl s) f |> <| allocations := u32 (allocations s - 1) |>).
      assert (Hal : allocations s' = allocations s - 1) by (apply u32_small; change BLOCK_SIZES with 2048 in *; lia).
      pose proof (release_small_spec err st a s f s' Inv Hm Ha Hf Hpos ltac:(done) eq_refl Hal) as R. cbv zeta in R.
      assert (Hin' : live_at st a f (a + f * UNIT_SIZE) ((sizes (s_ctrl s)).[f] * UNIT_SIZE)) by (exists s; split; [done|by left]).
      set (z := if secure then _ else _).
      assert (C : forall st', usdm_inv [] st' /\ pid st' = pid st /\
        (forall b g q m, live_at st' b g q m <-> live_at st b g q m /\ ~ (b = a /\ g = f)) ->
        usdm_inv [] st' /\ pid st' = getpid /\ ((0 = 0 /\ released st st' (a + f * UNIT_SIZE) secure z) \/
          (st' = st /\ z = None /\ (0 = a + f * UNIT_SIZE \/ 0 = 0) /\ forall b g q n, live_at st b g q n ->
             q <= a + f * UNIT_SIZE < q + n -> q <> a + f * UNIT_SIZE /\ g <> -1))).
      { intros st' (I & P & L). split_and!; [done|congruence|left]. split; [done|].
        exists a, f, (a + f * UNIT_SIZE), ((sizes (s_ctrl s)).[f] * UNIT_SIZE).
        rewrite decide_False by lia. split_and!; try done; unfold UNIT_SIZE; lia. }
      unfold retire in R. destruct (negb (allocations s' =? 0)); [by apply C|].
      fold (set_slab st a s'). change (user_mem (set_slab st a s')) with (user_mem st).
      destruct (push_slab _ a s') as [ret st1]. destruct (negb (ret =? 0)); by apply C.
    + split_and!; try done. right. split_and!; try done; [by right|]. intros b f q n L Hq.
      destruct (live_inside _ _ _ _ _ _ Inv L) as (s1 & Hs1 & V). destruct (decide (b = a)) as [->|Hne].
      2:{ pose proof (si_virt _ SI b a s1 s Hne Hs1 Ha) as D. unfold virt_disjoint, disjoint_ranges in D. cbn [fst snd] in D. lia. }
      destruct L as (s2 & Hs2 & [(_ & Hf & Hpos & E & _)|(Hl & _)]); rewrite Ha in Hs2; injection Hs2 as <-.
      * split; [|lia]. intros ->. by apply (Hno f).
      * by pose proof (li_large _ _ LI a s Hl Ha).
Qed.
