(* ===== verification/UsdmSys.v ===== *)
(** The memory driver as a whole: what its calls do together.

    The calls that a process makes (allocation, release, registering and
    unregistering of a device, shutdown) are steps of a relation on the state of
    [Usdm], from the state in which a process starts.  The invariant of [Usdm] holds
    in every state that is reached, so live allocations are apart, in virtual memory
    and for the device, and are mapped for the device while there is a container. *)

From S2P Require Import Prelude Bitmap Iova PageTable Usdm.

#[local] Arguments store_mmap_range : simpl never.
#[local] Arguments free_page_table : simpl never.
#[local] Arguments load_addr : simpl never.
#[local] Arguments load_key : simpl never.
#[local] Arguments get_key : simpl never.
#[local] Arguments allocate_iova : simpl never.
#[local] Arguments iova_release : simpl never.
#[local] Arguments qae_mem_alloc : simpl never.
#[local] Arguments zero_ctrl : simpl never.
#[local] Arguments fresh_slab : simpl never.

(** ** The process *)

Lemma slab_alloc_pid st a slab size align : pid (slab_alloc st a slab size align).2 = pid st.
Proof. unfold slab_alloc. by destruct (default _ _). Qed.

Lemma init_slab_and_alloc_pid st a size align : pid (init_slab_and_alloc st a size align).2 = pid st.
Proof.
  unfold init_slab_and_alloc. destruct (slabs st !! a) as [s|]; [|done].
  pose proof (slab_alloc_pid st a (s <| s_ctrl := init_slab (s_ctrl s) (s_size s) |>) size align) as E.
  destruct (slab_alloc _ _ _ _ _) as [v st']. by destruct (negb (v =? 0)).
Qed.

Lemma lookup_loop_pid l st size node align link : pid (lookup_loop l st size node align link).2 = pid st.
Proof.
  revert st link. induction l as [|a l IH]; intros st link; [done|]. cbn [lookup_loop].
  destruct (slabs st !! a) as [s|]; [|done]. destruct (_ && _); [done|].
  pose proof (slab_alloc_pid st a s size align) as E. destruct (slab_alloc _ _ _ _ _) as [v st']. cbn in E.
  destruct (negb (v =? 0)); [done|]. destruct (_ <=? _); [done|]. by rewrite IH.
Qed.

Lemma pop_slab_pid st node : pid (pop_slab st node).2 = pid st.
Proof. unfold pop_slab. by destruct (List.find _ _). Qed.

Lemma free_slab_pid err st a : pid (qae_free_slab err st a) = pid st.
Proof.
  destruct (slabs st !! a) as [s|] eqn:Ha; [|unfold qae_free_slab; by rewrite Ha].
  apply (sr_pid _ _ (proj1 (free_slab_fields err st a s Ha))).
Qed.

Lemma find_slab_pid err st size node align : pid (qae_find_slab err st size node align).2 = pid st.
Proof.
  unfold qae_find_slab, qae_userMemLookupBySize.
  pose proof (lookup_loop_pid (user_mem st) st size node align 0) as E.
  destruct (lookup_loop _ _ _ _ _ _) as [[r|] st1]; [done|]. cbn in E.
  pose proof (pop_slab_pid st1 node) as E1. destruct (pop_slab st1 node) as [[a|] st2]; cbn [snd] in *; [|congruence].
  pose proof (init_slab_and_alloc_pid st2 a size align) as E2. destruct (init_slab_and_alloc _ _ _ _) as [v st3].
  cbn [snd] in E2. destruct (v =? 0); cbn [snd]; rewrite ?free_slab_pid; congruence.
Qed.

Lemma alloc_slab_pid e st size align type : pid (qae_alloc_slab e st size align type).2 = pid st.
Proof.
  unfold qae_alloc_slab, ioctl_alloc_slab, dma_map_slab, add_slab_to_hash.
  destruct (a_slab e =? 0); [done|]. destruct (_ =? 0); [done|]. destruct (allocate_iova _ _ _) as [phy i].
  destruct (phy =? 0); [done|]. cbn. destruct (_ <? 0); cbn; [by rewrite lookup_insert_eq|].
  destruct (a_map e =? 0); cbn; [by rewrite lookup_insert_eq|].
  destruct (negb _); cbn; [done|by rewrite lookup_insert_eq].
Qed.

Lemma alloc_addr_pid e err getpid st size node align :
  pid st = getpid -> pid (qae_alloc_addr e err getpid st size node align).2 = getpid.
Proof.
  intros <-. unfold qae_alloc_addr, qae_open, qaeInitProcess, check_pid. rewrite Z.eqb_refl. cbn [negb Z.eqb].
  destruct (_ <? size); [done|]. destruct (_ || _).
  - pose proof (alloc_slab_pid e st (div_round_up (Z.max size align) UNIT_SIZE * UNIT_SIZE) align LARGE) as E.
    destruct (qae_alloc_slab _ _ _ _ _) as [[a|] st1]; [|done]. destruct (slabs st1 !! a) as [s|]; [|done].
    by destruct (store_mmap_range _ _ _ _ _).
  - pose proof (find_slab_pid err st size node (align / UNIT_SIZE)) as E.
    destruct (qae_find_slab _ _ _ _ _) as [[[a p]|] st1]; cbn [snd] in E.
    { unfold count_alloc. by destruct (slabs st1 !! a). }
    pose proof (alloc_slab_pid e st1 (QAE_NUM_PAGES_PER_ALLOC * QAE_PAGE_SIZE / UNIT_SIZE * UNIT_SIZE) align SMALL) as E1.
    destruct (qae_alloc_slab _ _ _ _ _) as [[a|] st2]; cbn [snd] in E1; [|cbn; congruence].
    destruct (slabs st2 !! a) as [s|]; [|cbn; congruence]. destruct (store_mmap_range _ _ _ _ _) as [t pages].
    destruct (negb _); [cbn [snd]; rewrite free_slab_pid; cbn; congruence|].
    set (st3 := _ <| slabs := _ |>). pose proof (init_slab_and_alloc_pid st3 a size (align / UNIT_SIZE)) as E2.
    assert (pid st3 = pid st) by (cbn; congruence).
    destruct (init_slab_and_alloc _ _ _ _) as [v st4]. cbn [snd] in E2.
    destruct (v =? 0); cbn [snd]; rewrite ?free_slab_pid; congruence.
Qed.

Lemma open_same getpid st : pid st = getpid -> qae_open getpid st = (0, st).
Proof. intros <-. unfold qae_open, qaeInitProcess, check_pid. by rewrite Z.eqb_refl. Qed.

(** A new process starts with nothing. *)
Lemma empty_inv st :
  slabs st = ∅ -> user_mem st = [] -> user_large st = [] -> user_cache st = [] -> g_cache_size st = 0 ->
  (forall k, bucket st k = []) -> iova_ok (g_iova st) -> usdm_inv [] st.
Proof.
  intros E1 E2 E3 E4 E5 E6 Hi. assert (No : forall a s, slabs st !! a = Some s -> False).
  { intros a s. rewrite E1, lookup_empty. done. }
  split; split; try done.
  - intros a s Ha. by destruct (No a s).
  - intros k a. rewrite E6. split; [by intros ?%elem_of_nil|]. intros (s & Hs & _). by destruct (No a s).
  - intros a b s s' _ Ha. by destruct (No a s).
  - intros a b s s' _ Ha. by destruct (No a s).
  - intros _ a s Ha. by destruct (No a s).
  - unfold all_lists. rewrite E2, E3, E4. apply NoDup_nil_2.
  - intros a. unfold all_lists. rewrite E1, E2, E3, E4, lookup_empty. split; [by intros ?%elem_of_nil|by intros [? ?]].
  - intros a s _ Ha. by destruct (No a s).
  - intros a s _ Ha. by destruct (No a s).
  - intros a s _ Ha. by destruct (No a s).
  - by rewrite E4, E5.
  - by rewrite E5.
Qed.

Lemma open_new getpid st :
  pid st <> getpid -> let st' := (qae_open getpid st).2 in
  usdm_inv [] st' /\ pid st' = getpid /\ slabs st' = ∅ /\ g_page_table st' = empty_table 4 /\ g_iova st' = iova_init.
Proof.
  intros H. unfold qae_open, qaeInitProcess, check_pid. rewrite (proj2 (Z.eqb_neq _ _) H). cbn [negb].
  fold iova_init. generalize iova_init_ok. generalize iova_init as i. intros i Hi.
  cbv zeta. split; [by apply empty_inv|done].
Qed.

(** ** Releasing everything *)

(** Freeing a slab does not look at the page table nor at the lists. *)
Definition frame (t : ptable 4) (n : nat) (m l : list Z) (st : usdm) : usdm :=
  st <| user_mem := m |> <| user_large := l |> <| g_page_table := t |> <| pt_left := n |>.

Lemma free_slab_frame err a t n m l st :
  qae_free_slab err (frame t n m l st) a = frame t n m l (qae_free_slab err st a).
Proof.
  unfold qae_free_slab, del_slab_from_hash, ioctl_free_slab, dma_unmap_slab, frame. cbn.
  destruct (slabs st !! a) as [s|]; [|done]. cbn. destruct (_ <? 0); [done|]. by destruct (err (phy_addr s) =? 0).
Qed.

(** [__qae_destroyList] on slabs that are between lists *)
Lemma destroy_list_inv err D l st :
  usdm_inv (l ++ D) st -> let st' := qae_destroyList err st l in usdm_inv D st' /\ same_rest st st'.
Proof.
  unfold qae_destroyList. revert st. induction l as [|a l IH]; intros st Inv; [done|]. cbn [foldl app] in *.
  assert (exists s, slabs st !! a = Some s) as [s Ha].
  { apply (li_dom _ _ (proj2 Inv) a). unfold all_lists. apply elem_of_cons. by left. }
  destruct (IH (qae_free_slab err st a) (free_slab_inv err _ _ _ Inv)) as [I [R1 R2 R3 R4 R5 R6 R7]].
  destruct (free_slab_fields err st a s Ha) as ([Q1 Q2 Q3 Q4 Q5 Q6 Q7] & _).
  split; [done|]. split; congruence.
Qed.

Lemma reset_cache_loop_inv fuel err st :
  usdm_inv [] st -> (length (user_cache st) < fuel)%nat ->
  let st' := reset_cache_loop fuel err st in
  usdm_inv [] st' /\ user_cache st' = [] /\ user_mem st' = user_mem st /\ user_large st' = user_large st /\
  pid st' = pid st.
Proof.
  revert st. induction fuel as [|fuel IH]; intros st Inv Hf; [lia|]. cbn [reset_cache_loop].
  destruct (pop_slab_spec [] st NUMA_ANY_NODE Inv) as [[Ec ->]|(a & l & s & Ec & Ha & He & Hp & Inv')]; [done|].
  rewrite Hp. set (st1 := _ <| user_cache := l |>) in *.
  destruct (free_slab_fields err st1 a s Ha) as ([Q1 Q2 Q3 Q4 Q5 Q6 Q7] & _).
  destruct (IH (qae_free_slab err st1 a)) as (I & C & M & L & P); [by apply free_slab_inv| |].
  - rewrite Q3. rewrite Ec in Hf. cbn in Hf |- *. lia.
  - cbv zeta. rewrite C, M, L, P, Q1, Q2, Q7. done.
Qed.

Lemma reset_cache_loop_frame fuel err t n m l st :
  reset_cache_loop fuel err (frame t n m l st) = frame t n m l (reset_cache_loop fuel err st).
Proof.
  revert st. induction fuel as [|fuel IH]; intros st; [done|]. cbn [reset_cache_loop]. unfold pop_slab.
  change (pop_match (frame t n m l st)) with (pop_match st). change (user_cache (frame t n m l st)) with (user_cache st).
  change (slabs (frame t n m l st)) with (slabs st). destruct (List.find _ _) as [a|]; [|done].
  rewrite <- IH, <- free_slab_frame. done.
Qed.

Lemma destroy_list_frame err k t n m l st :
  qae_destroyList err (frame t n m l st) k = frame t n m l (qae_destroyList err st k).
Proof.
  unfold qae_destroyList. revert st. induction k as [|a k IH]; intros st; [done|]. cbn [foldl].
  by rewrite free_slab_frame, IH.
Qed.

(** All slabs that are used are freed. *)
Lemma destroy_lists_spec err st :
  usdm_inv [] st -> user_cache st = [] ->
  let st' := qae_destroyList err (qae_destroyList err st (user_mem st)) (user_large st) in
  slabs st' = ∅ /\ user_cache st' = [] /\ g_cache_size st' = 0 /\ (forall k, bucket st' k = []) /\ iova_ok (g_iova st') /\
  pid st' = pid st.
Proof.
  intros [SI LI] Hc. set (m := user_mem st). set (l := user_large st).
  set (st0 := frame (g_page_table st) (pt_left st) [] [] st).
  assert (I0 : usdm_inv (m ++ l) st0).
  { split; [by apply (slabs_inv_ext st)|]. apply (lists_inv_move [] _ st _ LI); try apply LI; try done.
    - unfold all_lists. cbn. by rewrite Hc, !app_nil_r.
    - by intros a s ?%elem_of_nil.
    - by intros a s ?%elem_of_nil. }
  destruct (destroy_list_inv err l m st0 I0) as [I1 R1]. rewrite <- (app_nil_r l) in I1.
  destruct (destroy_list_inv err [] l _ I1) as [I2 R2].
  assert (E : qae_destroyList err (qae_destroyList err st0 m) l = frame (g_page_table st) (pt_left st) [] []
    (qae_destroyList err (qae_destroyList err st m) l)) by (unfold st0; by rewrite !destroy_list_frame).
  rewrite E in I2, R2. set (st' := qae_destroyList err (qae_destroyList err st m) l) in *. cbv zeta.
  destruct R1 as [_ _ C1 Z1 _ _ P1], R2 as [_ _ C2 Z2 _ _ P2]. destruct I2 as [S2 L2].
  assert (Hs : slabs st' = ∅).
  { apply map_empty. intros a. destruct (slabs st' !! a) as [s|] eqn:Ha; [|done].
    assert (a ∈ all_lists [] (frame (g_page_table st) (pt_left st) [] [] st')) as Hin by (apply (li_dom _ _ L2); by eexists).
    unfold all_lists in Hin. cbn [frame user_mem user_large user_cache upd app] in *. rewrite C2, C1 in Hin. cbn in Hin. rewrite Hc in Hin.
    by apply elem_of_nil in Hin. }
  pose proof (li_size _ _ L2) as Hz. cbn in *. rewrite C2, C1, Hc in *. split_and!; try done; [..|congruence].
  - intros k. destruct (bucket st' k) as [|a bk] eqn:Hb; [done|].
    destruct (proj1 (si_hash _ S2 k a)) as (s & Ha & _); [change (a ∈ bucket st' k); rewrite Hb; apply elem_of_cons; by left|].
    change (slabs st' !! a = Some s) in Ha. by rewrite Hs, lookup_empty in Ha.
  - apply (si_iova _ S2).
Qed.

(** [qaeMemDestroy] gives back every slab and every page of the page table. *)
Lemma destroy_spec err st :
  usdm_inv [] st -> let st' := qaeMemDestroy 0 err st in
  usdm_inv [] st' /\ pid st' = pid st /\ slabs st' = ∅ /\ g_page_table st' = empty_table 4.
Proof.
  intros Inv. unfold qaeMemDestroy, qae_reset_cache. change (negb (0 =? 0)) with false. cbv iota.
  assert (exists n, free_page_table (g_page_table st) (pt_left st) = (empty_table 4, n)) as [n ->] by (by eexists).
  generalize (empty_table 4) as t. intros t. cbv iota zeta.
  change (user_cache (st <| g_page_table := t |> <| pt_left := n |>)) with (user_cache st).
  change (st <| g_page_table := t |> <| pt_left := n |>) with (frame t n (user_mem st) (user_large st) st).
  rewrite reset_cache_loop_frame.
  destruct (reset_cache_loop_inv (S (length (user_cache st))) err st Inv ltac:(lia)) as (I1 & C1 & M1 & L1 & P1).
  set (st1 := reset_cache_loop _ err st) in *. rewrite !destroy_list_frame.
  destruct (destroy_lists_spec err st1 I1 C1) as (Es & Ec & Ez & Eb & Ei & Ep). rewrite M1, L1 in *.
  change (user_mem (frame t n (user_mem st) (user_large st) st1)) with (user_mem st).
  set (st2 := qae_destroyList err st1 (user_mem st)) in *.
  change (user_large (frame t n (user_mem st) (user_large st) st2)) with (user_large st).
  set (st3 := qae_destroyList err st2 (user_large st)) in *. rewrite <- P1, <- Ep.
  split; [by apply empty_inv|done].
Qed.

(** ** The container *)

Definition mapping (s : dev_mem_info) : Z * Z * Z := (virt_addr s, phy_addr s, s_size s).

(** Slabs of the list are mapped, as long as no mapping fails. *)
Lemma dma_map_slabs_spec errs l st :
  (forall x, errs x <> EEXIST) -> (forall a, a ∈ l -> is_Some (slabs st !! a)) ->
  exists d, (dma_map_slabs errs st l).2 = st <| dma := d |> /\ (forall m, m ∈ dma st -> m ∈ d) /\
    ((dma_map_slabs errs st l).1 = 0 -> forall a s, a ∈ l -> slabs st !! a = Some s -> mapping s ∈ d).
Proof.
  intros He. revert st. induction l as [|a l IH]; intros st Hl.
  - exists (dma st). cbn [dma_map_slabs fst snd]. split_and!; try done; [by destruct st|].
    intros _ a s Ha. by apply elem_of_nil in Ha.
  - cbn [dma_map_slabs]. destruct (Hl a) as [s Ha]; [apply elem_of_cons; by left|]. rewrite Ha. unfold dma_map_slab.
    destruct (errs (phy_addr s) =? 0) eqn:E0.
    + cbn [negb Z.eqb]. set (st1 := st <| dma := mapping s :: dma st |>).
      fold (mapping s). fold st1.
      destruct (IH st1) as (d & E & Hd & Hm).
      { intros b Hb. apply Hl. apply elem_of_cons. by right. }
      exists d. split; [by rewrite E|]. split.
      * intros m Hin. apply Hd. apply elem_of_cons. by right.
      * intros Hr b s' [->|Hb]%elem_of_cons Hs'; [|by apply (Hm Hr b)].
        rewrite Ha in Hs'. injection Hs' as <-. apply Hd. apply elem_of_cons. by left.
    + destruct (Z.eqb_spec (errs (phy_addr s)) EEXIST) as [E1|_]; [by destruct (He (phy_addr s))|].
      cbn [negb Z.eqb fst snd]. exists (dma st). split_and!; try done. by destruct st.
Qed.

Definition inside (m m' : Z * Z * Z) : Prop := m'.1.2 <= m.1.2 /\ m.1.2 + m.2 <= m'.1.2 + m'.2.

Lemma dma_unmap_slabs_spec errs l st :
  (forall a, a ∈ l -> is_Some (slabs st !! a)) ->
  exists d, (dma_unmap_slabs errs st l).2 = st <| dma := d |> /\ (forall m, m ∈ d -> m ∈ dma st) /\
    ((dma_unmap_slabs errs st l).1 = 0 -> forall a s m, a ∈ l -> slabs st !! a = Some s -> m ∈ d -> ~ inside m (mapping s)).
Proof.
  revert st. induction l as [|a l IH]; intros st Hl.
  - exists (dma st). cbn [dma_unmap_slabs fst snd]. split_and!; try done; [by destruct st|].
    intros _ a s m Ha. by apply elem_of_nil in Ha.
  - cbn [dma_unmap_slabs]. destruct (Hl a) as [s Ha]; [apply elem_of_cons; by left|]. rewrite Ha. unfold dma_unmap_slab.
    destruct (errs (phy_addr s) =? 0).
    + cbn [negb Z.eqb]. set (d1 := List.filter _ (dma st)). set (st1 := st <| dma := d1 |>).
      destruct (IH st1) as (d & E & Hd & Hm).
      { intros b Hb. apply Hl. apply elem_of_cons. by right. }
      assert (H1 : forall m, m ∈ d -> m ∈ dma st /\ ~ inside m (mapping s)).
      { intros m Hin%Hd. cbn in Hin. apply list_elem_of_In, List.filter_In in Hin as [Hin Hn].
        split; [by apply list_elem_of_In|]. intros [I1 I2]. cbn in I1, I2. apply negb_true_iff in Hn.
        apply not_true_iff_false in Hn. apply Hn. apply andb_true_iff. split; apply Z.leb_le; lia. }
      exists d. split; [by rewrite E|]. split; [intros m Hin; by apply H1|].
      intros Hr b s' m [->|Hb]%elem_of_cons Hs' Hin; [|by apply (Hm Hr b)].
      rewrite Ha in Hs'. injection Hs' as <-. by apply H1.
    + cbn [negb Z.eqb fst snd]. exists (dma st). split_and!; try done. by destruct st.
Qed.

(** The ranges that are excluded are only ever added to the bitmap. *)
Lemma filter_dma_sets caps used next :
  used_wf used ->
  only_sets used (foldl (fun '(used, next) ranges => filter_range used next ranges) (used, next) caps).1.
Proof.
  revert used next. induction caps as [|r caps IH]; intros used next W; [done|]. cbn [foldl].
  pose proof (filter_range_sets r used next W) as [W1 H1]. destruct (filter_range used next r) as [used1 next1]. cbn [fst] in *.
  destruct (IH used1 next1 W1) as [W2 H2]. split; [done|]. auto.
Qed.

Lemma filter_dma_inv caps st :
  usdm_inv [] st -> let '(r, st') := filter_dma_ranges caps st in
  usdm_inv [] st' /\ exists used, st' = st <| g_iova := (g_iova st) <| iova_used := used |> |>.
Proof.
  intros [SI LI]. unfold filter_dma_ranges. destruct caps as [caps|].
  2:{ split; [done|]. exists (iova_used (g_iova st)). by destruct st as [? ? ? ? ? ? ? ? [? ?] ?]. }
  destruct (si_iova _ SI) as [W1 W2].
  pose proof (filter_dma_sets caps (iova_used (g_iova st)) 0 W1) as Hs.
  destruct (foldl _ _ caps) as [used next]. cbn [fst] in Hs. split; [|by exists used]. split.
  2:{ by apply (lists_inv_ext [] st). }
  destruct SI as [W H V P I M]. split; try done.
  - intros a s Ha. destruct (W a s Ha) as [X1 X2 X3 X4 X5 X6]. split; try done. by eapply range_ok_sets.
  - split; [apply Hs|done].
Qed.

(** Only the container changes. *)
Record same_mem (st st' : usdm) : Prop := {
  sm_rest : same_rest st st'; sm_slabs : slabs st' = slabs st; sm_hash : g_slab_list st' = g_slab_list st;
  sm_iova : g_iova st' = g_iova st
}.

Lemma container_inv D st st' : same_mem st st' -> dma_inv st' -> usdm_inv D st -> usdm_inv D st'.
Proof.
  intros [R S H I] M [SI LI]. split; [|by apply (lists_inv_ext D st)].
  apply (slabs_inv_iova st); try done; [by destruct R|by rewrite I|rewrite I; apply SI].
Qed.

Lemma same_mem_trans st1 st2 st3 : same_mem st1 st2 -> same_mem st2 st3 -> same_mem st1 st3.
Proof. intros [[] ? ? ?] [[] ? ? ?]. split; [split|..]; congruence. Qed.

Lemma listed st a : lists_inv [] st -> a ∈ user_mem st \/ a ∈ user_large st \/ a ∈ user_cache st <-> is_Some (slabs st !! a).
Proof. intros LI. rewrite <- (li_dom _ _ LI a). unfold all_lists. cbn [app]. by rewrite !elem_of_app. Qed.

(** All three lists are mapped. *)
Definition map_all (errs : Z -> Z) (st : usdm) : Z * Z * Z * usdm :=
  let '(r1, st) := dma_map_slabs errs st (user_mem st) in
  let '(r2, st) := dma_map_slabs errs st (user_large st) in
  let '(r3, st) := dma_map_slabs errs st (user_cache st) in (r1, r2, r3, st).

Lemma map_all_spec errs st :
  lists_inv [] st -> (forall x, errs x <> EEXIST) ->
  let '(r1, r2, r3, st') := map_all errs st in
  exists d, st' = st <| dma := d |> /\
    (r1 = 0 -> r2 = 0 -> r3 = 0 -> forall a s, slabs st !! a = Some s -> mapping s ∈ d).
Proof.
  intros LI He. pose proof (listed st) as L. unfold map_all.
  destruct (dma_map_slabs_spec errs (user_mem st) st He) as (d1 & E1 & I1 & M1); [intros a Ha; apply L; auto|].
  destruct (dma_map_slabs errs st (user_mem st)) as [r1 st1]. cbn [fst snd] in *. subst st1.
  change (user_large (st <| dma := d1 |>)) with (user_large st).
  destruct (dma_map_slabs_spec errs (user_large st) (st <| dma := d1 |>) He) as (d2 & E2 & I2 & M2); [intros a Ha; apply L; auto|].
  destruct (dma_map_slabs errs (st <| dma := d1 |>) (user_large st)) as [r2 st2]. cbn [fst snd] in *. subst st2.
  change (user_cache (st <| dma := d1 |> <| dma := d2 |>)) with (user_cache st).
  destruct (dma_map_slabs_spec errs (user_cache st) (st <| dma := d1 |> <| dma := d2 |>) He) as (d3 & E3 & I3 & M3); [intros a Ha; apply L; auto|].
  destruct (dma_map_slabs errs (st <| dma := d1 |> <| dma := d2 |>) (user_cache st)) as [r3 st3]. cbn [fst snd] in *. subst st3.
  exists d3. split; [done|]. intros R1 R2 R3 a s Ha.
  destruct (proj2 (listed st a LI) ltac:(by eexists)) as [Hm|[Hl|Hc]].
  - apply I3, I2. by apply (M1 R1 a).
  - apply I3. by apply (M2 R2 a).
  - by apply (M3 R3 a).
Qed.

(** The slabs are mapped when the first device is registered. *)
Definition attach (errs : Z -> Z) (fd : Z) (st : usdm) : Z * usdm :=
  if vfio_container_fd st <? 0 then
    let '(r1, r2, r3, st) := map_all errs (st <| vfio_container_fd := fd |>) in
    if (r1 =? 0) && (r2 =? 0) && (r3 =? 0) then (0, st) else (1, st <| vfio_container_fd := -1 |>)
  else (0, st).

Lemma attach_spec errs fd st :
  usdm_inv [] st -> 0 <= fd -> (forall x, errs x <> EEXIST) ->
  let '(r, st') := attach errs fd st in usdm_inv [] st' /\ same_mem st st'.
Proof.
  intros Inv Hfd He. unfold attach. destruct (_ <? 0); [|by split].
  assert (L : lists_inv [] (st <| vfio_container_fd := fd |>)) by (apply (lists_inv_ext [] st); [done..|apply Inv]).
  pose proof (map_all_spec errs _ L He) as M.
  destruct (map_all _ _) as [[[r1 r2] r3] st1]. destruct M as (d & -> & Hd).
  destruct ((r1 =? 0) && (r2 =? 0) && (r3 =? 0)) eqn:E; cbv beta iota;
    (split; [apply (container_inv [] st); [by split| |done]|by split]).
  - breflect. intros _ a s Ha. by apply (Hd ltac:(done) ltac:(done) ltac:(done) a).
  - intros Hc. cbn in Hc. lia.
Qed.

Lemma register_spec caps errs getpid fd st :
  usdm_inv [] st -> pid st = getpid -> 0 <= fd -> (forall x, errs x <> EEXIST) ->
  let '(r, st') := qaeRegisterDevice caps errs getpid fd st in
  usdm_inv [] st' /\ pid st' = getpid /\ slabs st' = slabs st /\ user_mem st' = user_mem st /\
  user_large st' = user_large st /\ (r = 0 -> vfio_container_fd st' = fd).
Proof.
  intros Inv Hp Hfd He. unfold qaeRegisterDevice. pose proof (filter_dma_inv caps st Inv) as F.
  destruct (filter_dma_ranges caps st) as [r st1]. destruct F as [I1 [used E1]].
  assert (H1 : pid st1 = getpid /\ slabs st1 = slabs st /\ user_mem st1 = user_mem st /\ user_large st1 = user_large st) by by rewrite E1.
  clear E1. destruct H1 as (P1 & S1 & M1 & L1). destruct (Z.eqb_spec r 0) as [->|Hr]; cbn [negb].
  2:{ split; [done|]. split_and!; try done. }
  fold (qae_open getpid st1). rewrite (open_same getpid st1 P1). change (negb (0 =? 0)) with false. cbv iota.
  set (st2 := if negb (getpid =? vfio_pid st1) then _ else st1).
  assert (I2 : usdm_inv [] st2 /\ same_mem st1 st2).
  { unfold st2. destruct (negb _); [|by split]. split; [|by split]. apply (container_inv [] st1); [by split| |done].
    intros Hc. cbn in Hc. lia. }
  clearbody st2. destruct I2 as [I2 [R2 S2 _ _]].
  pose proof (attach_spec errs fd st2 I2 Hfd He) as A. unfold attach, map_all in A.
  change (user_mem (st2 <| vfio_container_fd := fd |>)) with (user_mem st2) in *.
  assert (Fin : forall r st', usdm_inv [] st' /\ same_mem st2 st' ->
    let '(r, st') := (if negb (r =? 0) then (1, st') else if fd =? vfio_container_fd st'
      then (0, st' <| vfio_container_ref := vfio_container_ref st' + 1 |>) else (1, st')) in
    usdm_inv [] st' /\ pid st' = getpid /\ slabs st' = slabs st /\ user_mem st' = user_mem st /\
    user_large st' = user_large st /\ (r = 0 -> vfio_container_fd st' = fd)).
  { intros r st' [I [[Q1 Q2 Q3 Q4 Q5 Q6 Q7] Q8 Q9 Q10]]. destruct R2 as [T1 T2 T3 T4 T5 T6 T7].
    assert (pid st' = getpid /\ slabs st' = slabs st /\ user_mem st' = user_mem st /\ user_large st' = user_large st)
      as (V1 & V2 & V3 & V4) by (split_and!; congruence).
    destruct (negb _); [by split|]. destruct (Z.eqb_spec fd (vfio_container_fd st')); [|by split].
    split; [|by cbn]. apply (container_inv [] st'); [by split|apply I|done]. }
  destruct (vfio_container_fd st2 <? 0); [|by apply Fin].
  destruct (dma_map_slabs errs _ (user_mem st2)) as [r1 st3]. destruct (dma_map_slabs errs st3 _) as [r2 st4].
  destruct (dma_map_slabs errs st4 _) as [r3 st5]. destruct (_ && _); by apply Fin.
Qed.

Definition unmap_all (errs : Z -> Z) (st : usdm) : Z * Z * Z * usdm :=
  let '(r1, st) := dma_unmap_slabs errs st (user_mem st) in
  let '(r2, st) := dma_unmap_slabs errs st (user_large st) in
  let '(r3, st) := dma_unmap_slabs errs st (user_cache st) in (r1, r2, r3, st).

Lemma unmap_all_spec errs st :
  lists_inv [] st ->
  let '(r1, r2, r3, st') := unmap_all errs st in
  exists d, st' = st <| dma := d |> /\
    (r1 = 0 -> r2 = 0 -> r3 = 0 -> forall a s m, slabs st !! a = Some s -> m ∈ d -> ~ inside m (mapping s)).
Proof.
  intros LI. pose proof (listed st) as L. unfold unmap_all.
  destruct (dma_unmap_slabs_spec errs (user_mem st) st) as (d1 & E1 & I1 & M1); [intros a Ha; apply L; auto|].
  destruct (dma_unmap_slabs errs st (user_mem st)) as [r1 st1]. cbn [fst snd] in *. subst st1.
  change (user_large (st <| dma := d1 |>)) with (user_large st).
  destruct (dma_unmap_slabs_spec errs (user_large st) (st <| dma := d1 |>)) as (d2 & E2 & I2 & M2); [intros a Ha; apply L; auto|].
  destruct (dma_unmap_slabs errs (st <| dma := d1 |>) (user_large st)) as [r2 st2]. cbn [fst snd] in *. subst st2.
  change (user_cache (st <| dma := d1 |> <| dma := d2 |>)) with (user_cache st).
  destruct (dma_unmap_slabs_spec errs (user_cache st) (st <| dma := d1 |> <| dma := d2 |>)) as (d3 & E3 & I3 & M3); [intros a Ha; apply L; auto|].
  destruct (dma_unmap_slabs errs (st <| dma := d1 |> <| dma := d2 |>) (user_cache st)) as [r3 st3]. cbn [fst snd] in *. subst st3.
  exists d3. split; [done|]. intros R1 R2 R3 a s m Ha Hm.
  destruct (proj2 (listed st a LI) ltac:(by eexists)) as [Hin|[Hin|Hin]].
  - by apply (M1 R1 a s m Hin Ha), I2, I3.
  - by apply (M2 R2 a s m Hin Ha), I3.
  - by apply (M3 R3 a s m Hin Ha).
Qed.

Lemma unregister_spec errs getpid fd st :
  usdm_inv [] st -> 0 <= fd ->
  let '(r, st') := qaeUnregisterDevice errs getpid fd st in
  usdm_inv [] st' /\ same_mem st st' /\
  (r = 0 -> vfio_container_fd st = fd /\ 0 < vfio_container_ref st) /\
  (r = 0 -> vfio_container_fd st' < 0 -> forall a s m, slabs st !! a = Some s -> m ∈ dma st' -> ~ inside m (mapping s)).
Proof.
  intros Inv Hfd. unfold qaeUnregisterDevice.
  destruct (Z.leb_spec (vfio_container_ref st) 0) as [|Hr]; [by split|]. cbn [orb].
  destruct (Z.eqb_spec (vfio_container_fd st) fd) as [Ef|]; cbn [negb]; [|by split].
  destruct (negb (getpid =? vfio_pid st)); [split; [done|]; split; [by split|]; split; [done|]; lia|].
  set (st1 := st <| vfio_container_ref := vfio_container_ref st - 1 |>).
  destruct (vfio_container_ref st1 =? 0).
  2:{ split; [apply (container_inv [] st); [by split|apply Inv|done]|]. split; [by split|]. split; [done|]. cbn. lia. }
  assert (L : lists_inv [] st1) by (apply (lists_inv_ext [] st); [done..|apply Inv]).
  pose proof (unmap_all_spec errs _ L) as M. unfold unmap_all in M.
  change (user_mem st1) with (user_mem st) in *.
  destruct (dma_unmap_slabs errs st1 (user_mem st)) as [r1 st2]. destruct (dma_unmap_slabs errs st2 _) as [r2 st3].
  destruct (dma_unmap_slabs errs st3 _) as [r3 st4]. destruct M as (d & -> & Hd).
  split; [apply (container_inv [] st); [by split| |done]; intros Hc; cbn in Hc; lia|]. split; [by split|]. split; [done|].
  destruct ((r1 =? 0) && (r2 =? 0) && (r3 =? 0)) eqn:E; [|done]. breflect. intros _ _. by apply Hd.
Qed.

(** ** Requests *)

(** The sizes and alignments that are accepted *)
Definition valid_request (size align : Z) : Prop :=
  0 < size <= QAE_MAX_ALLOC_SIZE /\ exists k, 0 <= k <= 22 /\ align = 2 ^ k.

Lemma pow2_land_self k : 0 <= k -> Z.land (2 ^ k) (2 ^ k - 1) = 0.
Proof.
  intros Hk. replace (2 ^ k - 1) with (Z.ones k) by (rewrite Z.ones_equiv; lia).
  rewrite Z.land_ones by done. apply Z.mod_same. apply Z.pow_nonzero; lia.
Qed.

(** The test of the alignment in [qaeMemAllocNUMA] *)
Lemma align_test align :
  0 <= align ->
  ((align =? 0) || (QAE_MAX_PHYS_ALIGN <? align) || negb (Z.land align (align - 1) =? 0)) = false <->
  exists k, 0 <= k <= 22 /\ align = 2 ^ k.
Proof.
  intros Ha. change QAE_MAX_PHYS_ALIGN with (2 ^ 22). split.
  - intros H. breflect. destruct (pow2_land align) as (k & Hk & ->); [lia|done|].
    exists k. split; [|done]. split; [done|]. apply (Z.pow_le_mono_r_iff 2); lia.
  - intros (k & Hk & ->). rewrite (pow2_land_self k) by lia. pose proof (Z.pow_pos_nonneg 2 k ltac:(lia) ltac:(lia)).
    pose proof (Z.pow_le_mono_r 2 k 22 ltac:(lia) ltac:(lia)).
    destruct (Z.eqb_spec (2 ^ k) 0); [lia|]. by destruct (Z.ltb_spec (2 ^ 22) (2 ^ k)); [lia|].
Qed.

Lemma mem_alloc_cases e lock unlock err getpid st size node align :
  0 <= size -> 0 <= align ->
  (valid_request size align /\ lock = 0 /\
   qaeMemAllocNUMA e lock unlock err getpid st size node align =
   (let '(p, st') := qae_alloc_addr e err getpid st size node align in if negb (unlock =? 0) then (0, st') else (p, st'))) \/
  (~ (valid_request size align /\ lock = 0) /\ qaeMemAllocNUMA e lock unlock err getpid st size node align = (0, st)).
Proof.
  intros Hs Ha. unfold qaeMemAllocNUMA, valid_request. change QAE_MAX_ALLOC_SIZE with (2 ^ 26).
  destruct (Z.eqb_spec size 0); [right; split; [lia|done]|].
  destruct (Z.ltb_spec (2 ^ 26) size); [right; split; [lia|done]|].
  pose proof (align_test align Ha) as T. destruct (_ || _ || _).
  { right. split; [|done]. intros [[_ V] _]. by apply T in V. }
  destruct (Z.eqb_spec lock 0) as [->|Hl]; cbn [negb]; [left|right; split; [tauto|done]].
  split_and!; try done; try lia. by apply T.
Qed.

(** ** The calls of a process *)

(** A call with its arguments and with what the system answers while it runs: what [mmap]
    and the ioctl that maps a slab return ([e]), the results of the mutex, and the error of
    each ioctl, by the I/O address that it is for *)
Inductive usdm_call :=
| CallAlloc (e : alloc_env) (lock unlock : Z) (errs : Z -> Z) (size node align : Z)
| CallFree (lock : Z) (errs : Z -> Z) (ptr : option Z) (secure : bool)
| CallRegister (caps : option (list (list (Z * Z)))) (errs : Z -> Z) (fd : Z)
| CallUnregister (errs : Z -> Z) (fd : Z)
| CallDestroy (lock : Z) (errs : Z -> Z).

Definition usdm_step (getpid : Z) (c : usdm_call) (st : usdm) : usdm :=
  match c with
  | CallAlloc e lock unlock errs size node align => (qaeMemAllocNUMA e lock unlock errs getpid st size node align).2
  | CallFree lock errs ptr secure => (qae_memFreeNUMA lock errs getpid st ptr secure).1.2
  | CallRegister caps errs fd => (qaeRegisterDevice caps errs getpid fd st).2
  | CallUnregister errs fd => (qaeUnregisterDevice errs getpid fd st).2
  | CallDestroy lock errs => qaeMemDestroy lock errs st
  end.

(** The arguments have the values of their types: sizes are not negative, pointers are
    addresses of user memory, file descriptors are open ones.  And the system has what the
    call needs: memory, I/O addresses and pages for the page table for a valid request that
    needs a new slab ([alloc_room]), and no ioctl reports [EEXIST] for a slab that is to be
    mapped. *)
Definition supplied (st : usdm) (c : usdm_call) : Prop :=
  match c with
  | CallAlloc e _ _ errs size node align =>
      0 <= size /\ 0 <= align /\ (valid_request size align -> alloc_room e errs st size node align)
  | CallFree _ _ ptr _ => forall p, ptr = Some p -> 0 <= p < 2 ^ 57
  | CallRegister _ errs fd => 0 <= fd /\ forall x, errs x <> EEXIST
  | CallUnregister _ fd => 0 <= fd
  | CallDestroy _ _ => True
  end.

(** The states that a process that starts with [qaeMemInit] can reach by calls that all
    satisfy [ok] in the state in which they are made *)
Inductive usdm_reachable (ok : usdm -> usdm_call -> Prop) (getpid : Z) : usdm -> Prop :=
| ur_start st0 : pid st0 <> getpid -> usdm_reachable ok getpid (qaeMemInit 0 0 getpid st0).2
| ur_step st c : usdm_reachable ok getpid st -> ok st c -> usdm_reachable ok getpid (usdm_step getpid c st).

Lemma step_inv getpid c st :
  supplied st c -> usdm_inv [] st -> pid st = getpid ->
  usdm_inv [] (usdm_step getpid c st) /\ pid (usdm_step getpid c st) = getpid.
Proof.
  intros S Inv Hp. destruct c as [e lock unlock errs size node align|lock errs ptr secure|caps errs fd|errs fd|lock errs];
    cbn [usdm_step supplied] in *.
  - destruct S as (Hs & Ha & Hr).
    destruct (mem_alloc_cases e lock unlock errs getpid st size node align Hs Ha) as [(V & -> & ->)|[_ ->]]; [|done].
    pose proof V as [V1 (k & Hk & ->)]. change QAE_MAX_ALLOC_SIZE with (2 ^ 26) in V1.
    pose proof (alloc_addr_spec e errs getpid st size node k Inv Hp V1 Hk (Hr V)) as A.
    pose proof (alloc_addr_pid e errs getpid st size node (2 ^ k) Hp) as P.
    destruct (qae_alloc_addr _ _ _ _ _ _ _) as [p st']. destruct A as [I _]. by destruct (negb _).
  - unfold qae_memFreeNUMA. destruct ptr as [p|]; [|done]. destruct (p =? 0); [done|]. destruct (negb _); [done|].
    pose proof (free_addr_spec errs getpid st p secure Inv Hp (S p eq_refl)) as F.
    destruct (qae_free_addr _ _ _ _ _) as [[va st'] z]. by destruct F as (I & P & _).
  - destruct S as [Hfd He]. pose proof (register_spec caps errs getpid fd st Inv Hp Hfd He) as R.
    destruct (qaeRegisterDevice _ _ _ _ _) as [r st']. by destruct R as (I & P & _).
  - pose proof (unregister_spec errs getpid fd st Inv S) as R.
    destruct (qaeUnregisterDevice _ _ _ _) as [r st']. destruct R as (I & [[] ? ? ?] & _). split; [done|]. cbn. congruence.
  - destruct (Z.eqb_spec lock 0) as [->|Hl].
    + destruct (destroy_spec errs st Inv) as (I & P & _). split; [done|congruence].
    + unfold qaeMemDestroy. by rewrite (proj2 (Z.eqb_neq _ _) Hl).
Qed.

Lemma reachable_inv getpid st : usdm_reachable supplied getpid st -> usdm_inv [] st /\ pid st = getpid.
Proof.
  induction 1 as [st0 H0|st c _ [I P] S]; [|by apply step_inv].
  destruct (open_new getpid st0 H0) as (I & P & _). unfold qaeMemInit. cbn [negb Z.eqb].
  by destruct (qae_open getpid st0) as [r st1].
Qed.

Lemma live_at_eq st a f p n q m : live_at st a f p n -> live_at st a f q m -> p = q /\ n = m.
Proof.
  intros (s & Hs & H1) (s' & Hs' & H2). rewrite Hs in Hs'. injection Hs' as <-.
  destruct H1 as [(_ & ? & _ & -> & ->)|(_ & -> & -> & ->)], H2 as [(_ & ? & _ & -> & ->)|(_ & ? & -> & ->)]; (done || lia).
Qed.

(** Live allocations are apart for the device. *)
Lemma live_phys_disjoint st a f p n b g q m :
  usdm_inv [] st -> live_at st a f p n -> live_at st b g q m -> ~ (a = b /\ f = g) ->
  forall i j, 0 <= i < n -> 0 <= j < m -> qaeVirtToPhysNUMA st (p + i) <> qaeVirtToPhysNUMA st (q + j).
Proof.
  intros Inv L1 L2 Hne i j Hi Hj. pose proof (live_at_disjoint _ _ _ _ _ _ _ _ _ _ Inv L1 L2 Hne) as Hv.
  destruct (live_inside _ _ _ _ _ _ Inv L1) as (s & Ha & I1 & I2 & _).
  destruct (live_inside _ _ _ _ _ _ Inv L2) as (t & Hb & J1 & J2 & _).
  rewrite (live_translate _ _ _ _ _ _ s Inv L1 Ha i Hi), (live_translate _ _ _ _ _ _ t Inv L2 Hb j Hj).
  unfold disjoint_ranges in Hv. cbn [fst snd] in Hv. destruct (decide (a = b)) as [->|Hab].
  - rewrite Ha in Hb. injection Hb as <-. lia.
  - destruct Inv as [SI _]. pose proof (units_disjoint_bytes _ _ _ (sw_phys _ _ _ (si_slab _ SI a s Ha))
      (sw_phys _ _ _ (si_slab _ SI b t Hb)) (si_phys _ SI a b s t Hab Ha Hb)) as D.
    unfold disjoint_ranges in D. cbn [fst snd] in D. lia.
Qed.

(** * Properties *)

(** A process that has just started, with room for the page table *)
Definition boot : usdm := mk_usdm ∅ [] [] [] ∅ 0 (empty_table 4) 4096 iova_init (-1) 0 0 [] 1.
Definition env0 : alloc_env := mk_alloc_env 0x7f0000000000 0x7f0000400000 0.
Definition env1 : alloc_env := mk_alloc_env 0x7f0000200000 0x7f0000800000 0.
Definition no_errs (x : Z) : Z := 0.

Lemma boot_inv : usdm_inv [] boot.
Proof. apply empty_inv; try done. apply iova_init_ok. Qed.

Lemma boot_room : alloc_room env0 no_errs boot 5000 0 4096.
Proof.
  unfold alloc_room. change (is_large 5000 4096) with false. cbv iota.
  assert (E : qae_find_slab no_errs boot 5000 0 (4096 / UNIT_SIZE) = (None, boot)) by reflexivity. rewrite E. intros _.
  split.
  - cbn. lia.
  - reflexivity.
  - vm_compute. split_and!; congruence.
  - intros b s Hb. cbn in Hb. by rewrite lookup_empty in Hb.
  - vm_compute. congruence.
  - vm_compute. congruence.
  - cbn. lia.
Qed.

(** Two allocations, and a device that is registered *)
Definition boot1 : usdm := usdm_step 1 (CallAlloc env0 0 0 no_errs 5000 0 4096) boot.
Definition boot2 : usdm := usdm_step 1 (CallAlloc env1 0 0 no_errs 3000 0 64) boot1.
Definition boot3 : usdm := usdm_step 1 (CallRegister (Some []) no_errs 7) boot2.

Lemma boot_reachable : usdm_reachable supplied 1 boot.
Proof.
  assert (E : (qaeMemInit 0 0 1 (boot <| pid := 0 |>)).2 = boot) by (vm_compute; reflexivity). rewrite <- E. by apply ur_start.
Qed.

Lemma boot1_reachable : usdm_reachable supplied 1 boot1.
Proof.
  apply (ur_step supplied 1 boot (CallAlloc env0 0 0 no_errs 5000 0 4096)); [apply boot_reachable|].
  split; [lia|]. split; [lia|]. intros _. apply boot_room.
Qed.

Lemma boot2_reachable : usdm_reachable supplied 1 boot2.
Proof.
  apply (ur_step supplied 1 boot1 (CallAlloc env1 0 0 no_errs 3000 0 64)); [apply boot1_reachable|].
  split; [lia|]. split; [lia|]. intros _. unfold alloc_room.
  change (is_large 3000 64) with false. cbv iota.
  assert (E : (qae_find_slab no_errs boot1 3000 0 (64 / UNIT_SIZE)).1 = Some (0x7f0000000000, 0x7f0000001400)) by (vm_compute; reflexivity).
  destruct (qae_find_slab no_errs boot1 3000 0 (64 / UNIT_SIZE)) as [r st']. cbn [fst] in E. rewrite E. discriminate.
Qed.

Lemma boot3_reachable : usdm_reachable supplied 1 boot3.
Proof.
  apply (ur_step supplied 1 boot2 (CallRegister (Some []) no_errs 7)); [apply boot2_reachable|].
  split; [lia|]. intros x. unfold no_errs. discriminate.
Qed.

Definition slab0 (st : usdm) : dev_mem_info :=
  default (mk_slab 0 0 SMALL 0 0 0 zero_ctrl) (slabs st !! 0x7f0000000000).

Lemma boot3_live : live_at boot3 0x7f0000000000 8 0x7f0000002000 5120 /\ live_at boot3 0x7f0000000000 5 0x7f0000001400 3072.
Proof.
  assert (S : slabs boot3 !! 0x7f0000000000 = Some (slab0 boot3)) by (vm_compute; reflexivity).
  assert (M : user_mem boot3 = [0x7f0000000000]) by (vm_compute; reflexivity).
  assert (Z : (sizes (s_ctrl (slab0 boot3))).[8] = 5 /\ (sizes (s_ctrl (slab0 boot3))).[5] = 3) by (vm_compute; split; reflexivity).
  destruct Z as [Z8 Z5]. split; exists (slab0 boot3); (split; [done|left]); rewrite M, ?Z8, ?Z5;
    (split; [apply elem_of_cons; by left|]); split_and!; try lia; reflexivity.
Qed.

(** ** Limits of the driver *)

(** A request of 1.5 MB aligned to 1 MB is valid but takes the way of small
    allocations, and no empty slab has room for it. *)
Lemma aligned_half_slab_fails : (qaeMemAllocNUMA env0 0 0 no_errs 1 boot (1536 * 1024) 0 (2 ^ 20)).1 = 0.
Proof. vm_compute. reflexivity. Qed.

(** The I/O address of a large allocation is not translated back. *)
Lemma large_phys_to_virt :
  let '(p, st) := qaeMemAllocNUMA env0 0 0 no_errs 1 boot (2 ^ 22) 0 64 in
  p = 0x7f0000400000 /\ qaePhysToVirtNUMA 0 0 st (qaeVirtToPhysNUMA st p) = 0.
Proof. vm_compute. split; reflexivity. Qed.

(** In a new process, the first registration forgets the ranges that it has just
    excluded: [qaeInitProcess] comes after [filter_dma_ranges]. *)
Lemma first_register_forgets :
  let caps := Some [[(0x800000, 2 ^ 40)]] in
  iova_used (g_iova (filter_dma_ranges caps boot).2) <> iova_used iova_init /\
  g_iova (qaeRegisterDevice caps (fun _ => 0) 2 7 boot).2 = iova_init.
Proof. split; [intros H|]; vm_compute; [|reflexivity]. vm_compute in H. discriminate H. Qed.

(** When there is no I/O address for a slab, the error path releases the range at
    address 0, which clears the units of slabs that are in use. *)
Lemma failed_slab_clears e st size align i :
  a_slab e <> 0 -> a_virt e <> 0 -> size = 2 ^ 22 -> 1 <= align <= 2 ^ 22 -> used_wf (iova_used i) ->
  allocate_iova (g_iova st) size align = (0, i) ->
  ubit (iova_used (g_iova (qae_alloc_slab e st size align LARGE).2)) 1 = false.
Proof.
  intros H1 H2 -> Ha W E. unfold qae_alloc_slab, ioctl_alloc_slab.
  change (round_up (2 ^ 22) PAGE_SIZE) with (2 ^ 22). change (u32 (2 ^ 22)) with (2 ^ 22). rewrite (u32_small align) by lia.
  destruct (Z.eqb_spec (a_slab e) 0); [done|].
  change (if decide (LARGE = SMALL) then a_slab e else a_virt e) with (a_virt e).
  destruct (Z.eqb_spec (a_virt e) 0); [done|]. rewrite E. change (0 =? 0) with true. cbv iota beta zeta.
  change (ubit (iova_release (iova_used i) 0 (2 ^ 22)) 1 = false).
  destruct (iova_release_spec (iova_used i) 0 (2 ^ 22) W) as [_ R]; try done; try lia. by rewrite R.
Qed.

(** C20. [qaeMemAllocNUMA].  A request with a bad size or alignment, or for which the lock
    cannot be taken, is refused without a change.  A valid one either fails, and the live
    allocations are what they were, or makes memory live that was not live, is at least as
    large as asked, overlaps no live allocation, is contiguous for the device, and starts at
    an I/O address with the alignment asked for; all other allocations stay live.  The caller
    gets the address of that memory, unless the lock cannot be released, when it gets NULL
    although the memory is live.  This is so in a consistent state, in which the system has
    what the call needs ([supplied]): if a new slab is needed, [mmap] returns unused pages of
    user memory or fails, [mmap] has pages for the levels of the page table, a slab of more
    than 2 MB finds an I/O address, and the ioctl that maps the slab does not report
    [EEXIST]. *)
Theorem mem_alloc_numa e lock unlock errs getpid st size node align :
  usdm_inv [] st -> pid st = getpid -> supplied st (CallAlloc e lock unlock errs size node align) ->
  let '(p, st') := qaeMemAllocNUMA e lock unlock errs getpid st size node align in
  (~ (valid_request size align /\ lock = 0) -> p = 0 /\ st' = st) /\
  (valid_request size align -> lock = 0 ->
    (p = 0 /\ forall a f q n, live_at st' a f q n <-> live_at st a f q n) \/
    exists a f v n, new_alloc st st' size align a v f n /\ p = (if decide (unlock = 0) then v else 0) /\
      forall q m, live st q m -> disjoint_ranges (v, n) (q, m)).
Proof.
  intros Inv Hp (Hs & Ha & Hr).
  destruct (mem_alloc_cases e lock unlock errs getpid st size node align Hs Ha) as [(V & -> & ->)|[V ->]].
  2:{ split; [done|]. intros V' H0. by destruct V. }
  pose proof V as [V1 (k & Hk & ->)]. change QAE_MAX_ALLOC_SIZE with (2 ^ 26) in V1.
  pose proof (alloc_addr_spec e errs getpid st size node k Inv Hp V1 Hk (Hr V)) as A.
  destruct (qae_alloc_addr _ _ _ _ _ _ _) as [p st'].
  assert (E : (if negb (unlock =? 0) then (0, st') else (p, st')) = (if decide (unlock = 0) then p else 0, st')).
  { destruct (Z.eqb_spec unlock 0) as [->|]; cbn [negb]; by case_decide. }
  rewrite E. split; [intros N; by destruct N|]. intros _ _.
  destruct A as [I [[-> L]|(a & f & n & N)]]; [left; by case_decide|right]. exists a, f, p, n. split; [done|]. split; [done|].
  intros q m (b & g & L). apply (live_at_disjoint [] st' a f p n b g q m I); [apply N; right; done|apply N; by left|].
  intros [-> ->]. by apply (na_new _ _ _ _ _ _ _ _ N) in L.
Qed.

Lemma mem_alloc_numa_witness :
  let '(p, st') := qaeMemAllocNUMA env0 0 0 no_errs 1 boot 5000 0 4096 in
  p = 0x7f0000002000 /\ exists a f n, new_alloc boot st' 5000 4096 a p f n.
Proof.
  assert (S : supplied boot (CallAlloc env0 0 0 no_errs 5000 0 4096)).
  { split; [lia|]. split; [lia|]. intros _. apply boot_room. }
  pose proof (mem_alloc_numa env0 0 0 no_errs 1 boot 5000 0 4096 boot_inv eq_refl S) as H.
  assert (V : valid_request 5000 4096) by (split; [unfold QAE_MAX_ALLOC_SIZE; lia|exists 12; split; [lia|reflexivity]]).
  assert (E : (qaeMemAllocNUMA env0 0 0 no_errs 1 boot 5000 0 4096).1 = 0x7f0000002000) by (vm_compute; reflexivity).
  destruct (qaeMemAllocNUMA env0 0 0 no_errs 1 boot 5000 0 4096) as [p st']. cbn [fst] in E. split; [done|].
  destruct H as [_ H]. destruct (H V eq_refl) as [[E0 _]|(a & f & v & n & N & Ev & _)]; [lia|].
  rewrite decide_True in Ev by done. subst v. by exists a, f, n.
Defined.



(** C19. Isolation.  In every state that a process can reach by allocations, releases,
    registrations and shutdowns, as long as the system has what each call needs ([supplied]),
    two live allocations have no byte in common, and no two bytes of them have the same I/O
    address.  [supplied] asks, for an allocation that needs a new slab, that [mmap] returns
    unused pages of user memory or fails, that [mmap] has pages for the page table, that the
    I/O addresses are not exhausted for a slab of more than 2 MB, and, for this and for a
    registration, that no ioctl that maps a slab reports [EEXIST]. *)
Theorem usdm_isolation getpid st a f p n b g q m :
  usdm_reachable supplied getpid st -> live_at st a f p n -> live_at st b g q m -> ~ (a = b /\ f = g) ->
  disjoint_ranges (p, n) (q, m) /\
  forall i j, 0 <= i < n -> 0 <= j < m -> qaeVirtToPhysNUMA st (p + i) <> qaeVirtToPhysNUMA st (q + j).
Proof.
  intros [Inv _]%reachable_inv L1 L2 Hne. split; [by eapply live_at_disjoint|]. by eapply live_phys_disjoint.
Qed.

Lemma usdm_isolation_witness :
  disjoint_ranges (0x7f0000002000, 5120) (0x7f0000001400, 3072) /\
  qaeVirtToPhysNUMA boot3 0x7f0000002000 <> qaeVirtToPhysNUMA boot3 0x7f0000001400.
Proof.
  destruct (usdm_isolation 1 boot3 _ _ _ _ _ _ _ _ boot3_reachable (proj1 boot3_live) (proj2 boot3_live)) as [H1 H2].
  - intros [_ H]. discriminate H.
  - split; [exact H1|]. exact (H2 0 0 ltac:(lia) ltac:(lia)).
Defined.

(** C21. While a container is registered, every live allocation is inside a range that is
    mapped for the device, at the I/O address that [qaeVirtToPhysNUMA] gives for it.  This is
    so in every state that a process can reach while the system has what each call needs
    ([supplied]), in particular while no ioctl that maps a slab reports [EEXIST]: the driver
    takes that error as success, and adds no mapping. *)
Theorem usdm_dma_mapped getpid st a f p n :
  usdm_reachable supplied getpid st -> 0 <= vfio_container_fd st -> live_at st a f p n ->
  exists virt iova size, (virt, iova, size) ∈ dma st /\ virt <= p /\ p + n <= virt + size /\
    forall i, 0 <= i < n -> qaeVirtToPhysNUMA st (p + i) = iova + (p + i - virt).
Proof.
  intros [Inv _]%reachable_inv Hfd L. destruct (live_inside _ _ _ _ _ _ Inv L) as (s & Ha & I1 & I2 & _).
  exists (virt_addr s), (phy_addr s), (s_size s). split; [by apply (si_dma _ (proj1 Inv) Hfd a)|].
  split; [done|]. split; [done|]. intros i Hi. rewrite (live_translate _ _ _ _ _ _ s Inv L Ha i Hi). lia.
Qed.

Lemma usdm_dma_mapped_witness : exists virt iova size, (virt, iova, size) ∈ dma boot3 /\ virt <= 0x7f0000002000.
Proof.
  assert (F : 0 <= vfio_container_fd boot3) by (vm_compute; discriminate).
  destruct (usdm_dma_mapped 1 boot3 _ _ _ _ boot3_reachable F (proj1 boot3_live)) as (v & i & z & H1 & H2 & _).
  exists v, i, z. exact (conj H1 H2).
Defined.

(** A mapping that is refused with [EEXIST] is taken to be there: the slab is live, and no
    range is mapped for it. *)
Lemma exists_not_mapped :
  let '(p, st) := qaeMemAllocNUMA (mk_alloc_env 0x7f0000000000 0 EEXIST) 0 0 no_errs 1
                    (boot <| vfio_container_fd := 7 |>) 5000 0 4096 in
  p = 0x7f0000002000 /\ dma st = [].
Proof. vm_compute. split; reflexivity. Qed.

(** C35. Registering and unregistering a device keep the slabs and the live allocations.  When
    a registration succeeds, its container is the one that is used and every slab is mapped,
    provided that no ioctl of it reports [EEXIST], which the driver takes as success without a
    mapping; when the last device is unregistered without an error, no mapping of a slab is
    left.  The state is one that a process can reach while the system has what each call needs
    ([supplied]). *)
Theorem container_lifecycle caps errs errs' getpid fd fd' st :
  usdm_reachable supplied getpid st -> 0 <= fd -> 0 <= fd' -> (forall x, errs x <> EEXIST) ->
  let '(r, st') := qaeRegisterDevice caps errs getpid fd st in
  let '(r', st'') := qaeUnregisterDevice errs' getpid fd' st' in
  slabs st' = slabs st /\ slabs st'' = slabs st /\
  (forall a f p n, live_at st'' a f p n <-> live_at st a f p n) /\
  (r = 0 -> vfio_container_fd st' = fd /\ forall a s, slabs st' !! a = Some s -> mapping s ∈ dma st') /\
  (r' = 0 -> vfio_container_fd st'' < 0 -> forall a s m, slabs st !! a = Some s -> m ∈ dma st'' -> ~ inside m (mapping s)).
Proof.
  intros [Inv Hp]%reachable_inv Hfd Hfd' He. pose proof (register_spec caps errs getpid fd st Inv Hp Hfd He) as R.
  destruct (qaeRegisterDevice _ _ _ _ _) as [r st']. destruct R as (I & P & Es & Em & El & Hr).
  pose proof (unregister_spec errs' getpid fd' st' I Hfd') as U.
  destruct (qaeUnregisterDevice _ _ _ _) as [r' st'']. destruct U as (I' & [[M1 M2 _ _ _ _ _] S' _ _] & _ & Hu).
  split; [done|]. split; [congruence|]. split.
  { intros a f p n. unfold live_at. by rewrite S', M1, M2, Es, Em, El. }
  split; [|by rewrite <- Es]. intros ->. split; [by apply Hr|]. apply (si_dma _ (proj1 I)). rewrite Hr by done. done.
Qed.

Lemma container_lifecycle_witness :
  let '(r, st') := qaeRegisterDevice (Some []) (fun _ => 0) 1 7 boot2 in
  let '(r', st'') := qaeUnregisterDevice (fun _ => 0) 1 7 st' in
  r = 0 /\ r' = 0 /\ slabs st'' = slabs boot2 /\ (forall m, m ∈ dma st'' -> ~ inside m (mapping (slab0 boot2))).
Proof.
  pose proof (container_lifecycle (Some []) (fun _ => 0) (fun _ => 0) 1 7 7 boot2 boot2_reachable ltac:(lia) ltac:(lia)
    ltac:(discriminate)) as H.
  assert (E1 : (qaeRegisterDevice (Some []) (fun _ => 0) 1 7 boot2).1 = 0) by (vm_compute; reflexivity).
  assert (E2 : (qaeUnregisterDevice (fun _ => 0) 1 7 (qaeRegisterDevice (Some []) (fun _ => 0) 1 7 boot2).2).1 = 0)
    by (vm_compute; reflexivity).
  assert (E3 : vfio_container_fd (qaeUnregisterDevice (fun _ => 0) 1 7 (qaeRegisterDevice (Some []) (fun _ => 0) 1 7 boot2).2).2 = -1)
    by (vm_compute; reflexivity).
  assert (E4 : slabs boot2 !! 0x7f0000000000 = Some (slab0 boot2)) by (vm_compute; reflexivity).
  destruct (qaeRegisterDevice (Some []) (fun _ => 0) 1 7 boot2) as [r st']. cbn [fst snd] in *.
  destruct (qaeUnregisterDevice (fun _ => 0) 1 7 st') as [r' st'']. cbn [fst snd] in *. destruct H as (_ & H2 & _ & _ & H5).
  split; [exact E1|]. split; [exact E2|]. split; [exact H2|].
  intros m. apply (H5 E2 ltac:(rewrite E3; reflexivity) 0x7f0000000000). exact E4.
Defined.

(** C36. Shutting down gives back all memory: from any state that a process can reach while
    the system has what each call needs ([supplied]), no slab and no page of the page table
    is left, no allocation is live, and the driver can be used again, whatever the ioctls
    that unmap the slabs report. *)
Theorem usdm_destroyed getpid errs st :
  usdm_reachable supplied getpid st ->
  let st' := qaeMemDestroy 0 errs st in
  slabs st' = ∅ /\ g_page_table st' = empty_table 4 /\ (forall p n, ~ live st' p n) /\ usdm_inv [] st' /\ pid st' = getpid.
Proof.
  intros [Inv Hp]%reachable_inv. destruct (destroy_spec errs st Inv) as (I & P & Es & Et). cbv zeta.
  split; [done|]. split; [done|]. split; [|split; [done|congruence]].
  intros p n (a & f & s & Ha & _). by rewrite Es, lookup_empty in Ha.
Qed.

Lemma usdm_destroyed_witness : slabs (qaeMemDestroy 0 no_errs boot3) = ∅ /\ slabs boot3 <> ∅.
Proof.
  split; [exact (proj1 (usdm_destroyed 1 no_errs boot3 boot3_reachable))|].
  intros E. destruct boot3_live as [(s & Hs & _) _]. rewrite E, lookup_empty in Hs. discriminate Hs.
Defined.
