(* ===== verification/Ring.v ===== *)
(** * Request and response rings

    [adf_user_ring.c] and [adf_user_ETring_mgr_dp.c] move messages between the
    process and the device over rings in shared memory.  A request ring and a
    response ring share one counter of requests in flight.  This file models a
    ring handle, the control registers it writes, the sizing and set-up of a
    ring, the put and poll operations and their data-plane variants, and shows
    what each of them does; [RingSys] puts them together with the device. *)

From S2P Require Import Prelude.

(** ** Constants ([adf_platform_common.h], [adf_dev_ring_ctl.h]) *)

Definition ICP_RINGSIZE_KILO_1 : Z := 0x04.
Definition ICP_RINGSIZE_KILO_16 : Z := 0x08.
Definition ICP_RINGSIZE_MEG_4 : Z := 0x10.
Definition ICP_RING_NEAR_WATERMARK_0 : Z := 0x00.
Definition ICP_RING_NEAR_WATERMARK_512 : Z := 0x08.
Definition MODULO_SHIFT_FOR_1K : Z := 10.
Definition MODULO_SHIFT_FOR_16K : Z := 14.
Definition MODULO_SHIFT_FOR_4M : Z := 22.
Definition ICP_ET_SIZE_TO_BYTES (size : Z) : Z := Z.shiftl 64 size.
Definition ADF_MSG_SIZE_64_BYTES : Z := 64.
Definition ADF_MSG_SIZE_128_BYTES : Z := 128.
Definition ICP_NO_RESPONSE_QUOTA : Z := 10000.
Definition MIN_RESPONSES_PER_HEAD_WRITE : Z := 32.
Definition EMPTY_RING_SIG_WORD : Z := 0x7f7f7f7f.

(** The modulo function that does not divide. *)
Definition modulo (data shift : Z) : Z :=
  let div := Z.shiftr data shift in
  let mult := u32 (Z.shiftl div shift) in
  u32 (data - mult).

(** ** Control registers

    A register is found by its base address (a mapped bundle or a bank's shadow
    copy) and its offset. *)
Abbreviation csr_file := (gmap (Z * Z) Z).
Definition ICP_ADF_CSR_WR (csrs : csr_file) (csrAddr csrOffset val : Z) : csr_file :=
  <[(csrAddr, csrOffset) := u32 val]> csrs.
Definition ICP_ADF_CSR_RD (csrs : csr_file) (csrAddr csrOffset : Z) : Z :=
  default 0 (csrs !! (csrAddr, csrOffset)).

Definition ICP_RING_CSR_RING_CONFIG : Z := 0x000.
Definition ICP_RING_CSR_RING_LBASE : Z := 0x040.
Definition ICP_RING_CSR_RING_UBASE : Z := 0x080.
Definition ICP_RING_CSR_RING_HEAD_OFFSET : Z := 0x0C0.
Definition ICP_RING_CSR_RING_TAIL_OFFSET : Z := 0x100.
Definition ICP_RING_CSR_E_STAT : Z := 0x14C.
Definition ICP_RING_CSR_INT_COL_EN : Z := 0x17C.
Definition ICP_RING_CSR_RING_SRV_ARB_EN : Z := 0x19C.
Definition ICP_RING_CSR_RING_CONFIG_GEN4 : Z := 0x1000.
Definition ICP_RING_CSR_RING_LBASE_GEN4 : Z := 0x1040.
Definition ICP_RING_CSR_RING_UBASE_GEN4 : Z := 0x1080.
Definition ICP_RING_CSR_RING_STAT_GEN4 : Z := 0x0140.
Definition CSR_RING_STAT_RL_EXCEPTION_MASK : Z := Z.shiftl 1 10.
Definition CSR_RING_STAT_RL_HALT_MASK : Z := Z.shiftl 1 9.
Definition RING_CONFIG_NEAR_FULL_WM : Z := 0x0A.
Definition RING_CONFIG_NEAR_EMPTY_WM : Z := 0x05.

Definition BUILD_RING_CONFIG (size : Z) : Z :=
  Z.lor (Z.lor (Z.shiftl ICP_RING_NEAR_WATERMARK_0 RING_CONFIG_NEAR_FULL_WM)
               (Z.shiftl ICP_RING_NEAR_WATERMARK_0 RING_CONFIG_NEAR_EMPTY_WM)) size.
Definition BUILD_RESP_RING_CONFIG (size watermark_nf watermark_ne : Z) : Z :=
  Z.lor (Z.lor (Z.shiftl watermark_nf RING_CONFIG_NEAR_FULL_WM)
               (Z.shiftl watermark_ne RING_CONFIG_NEAR_EMPTY_WM)) size.
Definition BUILD_RING_BASE_ADDR (addr size : Z) : Z :=
  Z.land (Z.shiftr addr 6) (u64 (Z.shiftl 0xFFFFFFFFFFFFFFFF size)).
Definition BUILD_RING_BASE_ADDR_GEN4 (addr size : Z) : Z :=
  u64 (Z.shiftl (Z.land (Z.shiftr addr 6) (u64 (Z.shiftl 0xFFFFFFFFFFFFFFFF size))) 6).

Definition WRITE_CSR_RING_CONFIG (csrs : csr_file) (base bank_offset ring value : Z) : csr_file :=
  ICP_ADF_CSR_WR csrs base (bank_offset + ICP_RING_CSR_RING_CONFIG + Z.shiftl ring 2) value.
Definition WRITE_CSR_RING_BASE (csrs : csr_file) (base bank_offset ring value : Z) : csr_file :=
  let l_base := u32 (Z.land value 0xFFFFFFFF) in
  let u_base := u32 (Z.shiftr (Z.land value 0xFFFFFFFF00000000) 32) in
  let csrs := ICP_ADF_CSR_WR csrs base (bank_offset + ICP_RING_CSR_RING_LBASE + Z.shiftl ring 2) l_base in
  ICP_ADF_CSR_WR csrs base (bank_offset + ICP_RING_CSR_RING_UBASE + Z.shiftl ring 2) u_base.
Definition read_base (csrs : csr_file) (base bank_offset ring : Z) : Z :=
  let l_base := ICP_ADF_CSR_RD csrs base (bank_offset + ICP_RING_CSR_RING_LBASE + Z.shiftl ring 2) in
  let u_base := ICP_ADF_CSR_RD csrs base (bank_offset + ICP_RING_CSR_RING_UBASE + Z.shiftl ring 2) in
  Z.lor (Z.land l_base 0xFFFFFFFF) (Z.land (u64 (Z.shiftl u_base 32)) 0xFFFFFFFF00000000).
Definition WRITE_CSR_RING_CONFIG_GEN4 (csrs : csr_file) (base bank_offset ring value : Z) : csr_file :=
  ICP_ADF_CSR_WR csrs base (bank_offset + ICP_RING_CSR_RING_CONFIG_GEN4 + Z.shiftl ring 2) value.
Definition WRITE_CSR_RING_BASE_GEN4 (csrs : csr_file) (base bank_offset ring value : Z) : csr_file :=
  let l_base := u32 (Z.land value 0xFFFFFFFF) in
  let u_base := u32 (Z.shiftr (Z.land value 0xFFFFFFFF00000000) 32) in
  let csrs := ICP_ADF_CSR_WR csrs base
    (bank_offset + ICP_RING_CSR_RING_LBASE_GEN4 + Z.shiftl ring 2) l_base in
  ICP_ADF_CSR_WR csrs base (bank_offset + ICP_RING_CSR_RING_UBASE_GEN4 + Z.shiftl ring 2) u_base.
Definition read_base_gen4 (csrs : csr_file) (base bank_offset ring : Z) : Z :=
  let l_base := ICP_ADF_CSR_RD csrs base
    (bank_offset + ICP_RING_CSR_RING_LBASE_GEN4 + Z.shiftl ring 2) in
  let u_base := ICP_ADF_CSR_RD csrs base
    (bank_offset + ICP_RING_CSR_RING_UBASE_GEN4 + Z.shiftl ring 2) in
  Z.lor (Z.land l_base 0xFFFFFFFF) (Z.land (u64 (Z.shiftl u_base 32)) 0xFFFFFFFF00000000).
Definition WRITE_CSR_RING_HEAD (csrs : csr_file) (base bank_offset ring value : Z) : csr_file :=
  ICP_ADF_CSR_WR csrs base (bank_offset + ICP_RING_CSR_RING_HEAD_OFFSET + Z.shiftl ring 2) value.
Definition WRITE_CSR_RING_TAIL (csrs : csr_file) (base bank_offset ring value : Z) : csr_file :=
  ICP_ADF_CSR_WR csrs base (bank_offset + ICP_RING_CSR_RING_TAIL_OFFSET + Z.shiftl ring 2) value.
Definition WRITE_CSR_INT_COL_EN (csrs : csr_file) (base bank_offset value : Z) : csr_file :=
  ICP_ADF_CSR_WR csrs base (bank_offset + ICP_RING_CSR_INT_COL_EN) value.
Definition READ_CSR_E_STAT (csrs : csr_file) (base bank_offset : Z) : Z :=
  ICP_ADF_CSR_RD csrs base (bank_offset + ICP_RING_CSR_E_STAT).
Definition READ_CSR_RING_STATUS_GEN4 (csrs : csr_file) (base bank_offset : Z) : Z :=
  ICP_ADF_CSR_RD csrs base (bank_offset + ICP_RING_CSR_RING_STAT_GEN4).

(** ** Devices, banks and rings *)

Inductive device_type :=
| DEVICE_UNKNOWN | DEVICE_DH895XCC | DEVICE_DH895XCCVF | DEVICE_C62X | DEVICE_C62XVF
| DEVICE_C3XXX | DEVICE_C3XXXVF | DEVICE_D15XX | DEVICE_D15XXVF | DEVICE_200XX | DEVICE_200XXVF
| DEVICE_C4XXX | DEVICE_C4XXXVF | DEVICE_4XXX | DEVICE_4XXXVF | DEVICE_420XX | DEVICE_420XXVF.

Definition IS_QAT_GEN4 (dt : device_type) : bool :=
  match dt with
  | DEVICE_4XXX | DEVICE_4XXXVF | DEVICE_420XX | DEVICE_420XXVF => true
  | _ => false
  end.

Inductive icp_resp_deliv_method :=
| ICP_RESP_TYPE_NONE | ICP_RESP_TYPE_IRQ | ICP_RESP_TYPE_POLL | ICP_RESP_TYPE_DELIMIT.
#[global] Instance resp_eq_dec : EqDecision icp_resp_deliv_method.
Proof. solve_decision. Defined.

(** The fields of [icp_accel_dev_t] that the transport reads. *)
Record accel_dev := mk_accel_dev {
  accelId : Z; deviceType : device_type; numa_node : Z;
  maxNumBanks : Z; maxNumRingsPerBank : Z; arb_mask : Z
}.

(** [adf_dev_bank_handle_t]; a pointer is its address, 0 for [NULL].  [b_rings] is
    the array of ring handles, by ring number, or [None] for [NULL]; a handle
    is named by a number. *)
Record adf_dev_bank_handle := mk_bank {
  b_bank_number : Z; b_bank_offset : Z; b_interrupt_mask : Z; b_pollingMask : Z;
  b_user_bank_lock : Z; b_tx_rings_mask : Z; b_ring_mask : Z;
  b_csr_addr : Z; b_csr_addr_shadow : Z; b_bundle : Z;
  b_rings : option (gmap Z Z); b_num_rings_per_bank : Z; b_refs : Z
}.
#[global] Instance eta_bank : Eta adf_dev_bank_handle := fun b =>
  mk_bank (b_bank_number b) (b_bank_offset b) (b_interrupt_mask b) (b_pollingMask b)
    (b_user_bank_lock b) (b_tx_rings_mask b) (b_ring_mask b) (b_csr_addr b) (b_csr_addr_shadow b)
    (b_bundle b) (b_rings b) (b_num_rings_per_bank b) (b_refs b).

(** [adf_dev_ring_handle_t].  [ring_mem] is the ring buffer at [ring_virt_addr], as
    32-bit words; [in_flight] is the index of the shared counter; [bank_data]
    is the number of the bank. *)
Record adf_dev_ring_handle := mk_ring {
  r_accel_dev : option accel_dev; bank_num : Z; bank_offset : Z; ring_num : Z;
  ring_size : Z; message_size : Z; send_seq : Z; resp : icp_resp_deliv_method;
  ring_virt_addr : Z; ring_mem : list Z; ring_phys_base_addr : Z;
  interrupt_user_mask : Z; pollingMask : Z; bank_data : Z;
  head : Z; tail : Z; space : Z; r_modulo : Z; ringResponseQuota : Z; pollingInProgress : Z;
  in_flight : Z; max_requests_inflight : Z; coal_write_count : Z; min_resps_per_head_write : Z;
  csrTailOffset : Z; csr_addr : Z
}.
#[global] Instance eta_ring : Eta adf_dev_ring_handle := fun r =>
  mk_ring (r_accel_dev r) (bank_num r) (bank_offset r) (ring_num r) (ring_size r) (message_size r)
    (send_seq r) (resp r) (ring_virt_addr r) (ring_mem r) (ring_phys_base_addr r)
    (interrupt_user_mask r) (pollingMask r) (bank_data r) (head r) (tail r) (space r) (r_modulo r)
    (ringResponseQuota r) (pollingInProgress r) (in_flight r) (max_requests_inflight r)
    (coal_write_count r) (min_resps_per_head_write r) (csrTailOffset r) (csr_addr r).

(** A handle as [ICP_MEMSET(pRingHandle, 0, ...)] leaves it. *)
Definition zero_ring : adf_dev_ring_handle :=
  mk_ring None 0 0 0 0 0 0 ICP_RESP_TYPE_NONE 0 [] 0 0 0 0 0 0 0 0 0 0 0 0 0 0 0 0.

(** ** Sizing a ring *)

(** [while (kbytes > 0) { kbytes = kbytes >> 1; k_size++; }] *)
Fixpoint k_size_loop (fuel : nat) (kbytes k_size : Z) : Z :=
  match fuel with
  | O => k_size
  | S fuel => if 0 <? kbytes then k_size_loop fuel (Z.shiftr kbytes 1) (k_size + 1) else k_size
  end.

(** [validateRingSize]: the size code and [*modulo_value].  The loop shifts a
    32-bit number, so 32 rounds are enough. *)
Definition validateRingSize (num_msgs_on_ring msg_size_in_bytes : Z) : Z * Z :=
  let size_in_bytes := u32 (num_msgs_on_ring * msg_size_in_bytes) in
  let max_ring_bytes := ICP_ET_SIZE_TO_BYTES ICP_RINGSIZE_MEG_4 in
  if (num_msgs_on_ring <=? 0) || (msg_size_in_bytes <=? 0) || negb (modulo msg_size_in_bytes 4 =? 0)
  then (ICP_RINGSIZE_KILO_16, MODULO_SHIFT_FOR_16K)
  else if size_in_bytes <=? max_ring_bytes then
    let kbytes := Z.shiftr (u32 (size_in_bytes - 1)) MODULO_SHIFT_FOR_1K in
    let k_size := k_size_loop 32 kbytes 0 in
    (ICP_RINGSIZE_KILO_1 + k_size, MODULO_SHIFT_FOR_1K + k_size)
  else (ICP_RINGSIZE_MEG_4, MODULO_SHIFT_FOR_4M).

(** ** Reserving a ring in its bank

    [lock] is what [ICP_MUTEX_LOCK] returns, 0 when the lock is taken. *)
Definition adf_reserve_ring (lock : Z) (bank : adf_dev_bank_handle) (ring_number : Z)
    : Z * adf_dev_bank_handle :=
  if b_user_bank_lock bank =? 0 then (-1, bank)
  else if negb (lock =? 0) then (lock, bank)
  else if Z.land (b_ring_mask bank) (Z.shiftl 1 ring_number) =? 0 then
    (lock, bank <| b_ring_mask := u16 (Z.lor (b_ring_mask bank) (Z.shiftl 1 ring_number)) |>)
  else (- EBUSY, bank).

Definition adf_unreserve_ring (lock : Z) (bank : adf_dev_bank_handle) (ring_number : Z)
    : adf_dev_bank_handle :=
  if negb (lock =? 0) then bank
  else bank <| b_ring_mask := u16 (Z.land (b_ring_mask bank) (Z.lnot (Z.shiftl 1 ring_number))) |>.

(** ** Enabling a ring in the arbiter ([adf_vfio_ring.c]) *)

Fixpoint popcount_pos (p : positive) : Z :=
  match p with xH => 1 | xO p => popcount_pos p | xI p => 1 + popcount_pos p end.
Definition builtin_popcount (z : Z) : Z := match z with Zpos p => popcount_pos p | _ => 0 end.

Definition update_ring (csrs : csr_file) (csr_base_addr bank_offset bank_ring_mask arb_mask : Z)
    : csr_file :=
  if csr_base_addr =? 0 then csrs
  else
    let shift := builtin_popcount arb_mask in
    let arben_tx := Z.land bank_ring_mask arb_mask in
    let arben_rx := Z.land (Z.shiftr bank_ring_mask shift) arb_mask in
    let arben := Z.land arben_tx arben_rx in
    ICP_ADF_CSR_WR csrs csr_base_addr (bank_offset + ICP_RING_CSR_RING_SRV_ARB_EN) arben.

(** [bank] is [ring->bank_data], [None] for [NULL]. *)
Definition adf_io_enable_ring (csrs : csr_file) (bank : option adf_dev_bank_handle)
    (ring : adf_dev_ring_handle) : Z * csr_file :=
  match bank, r_accel_dev ring with
  | Some bank, Some dev =>
      if csr_addr ring =? 0 then (CPA_STATUS_FAIL, csrs)
      else
        let bank_ring_mask := Z.lor (b_ring_mask bank) (Z.shiftl 1 (ring_num ring)) in
        (CPA_STATUS_SUCCESS,
         update_ring csrs (csr_addr ring) (bank_offset ring) bank_ring_mask (arb_mask dev))
  | _, _ => (CPA_STATUS_FAIL, csrs)
  end.

Definition adf_io_disable_ring (csrs : csr_file) (bank : option adf_dev_bank_handle)
    (ring : adf_dev_ring_handle) : Z * csr_file :=
  match bank, r_accel_dev ring with
  | Some bank, Some dev =>
      if csr_addr ring =? 0 then (CPA_STATUS_FAIL, csrs)
      else
        let bank_ring_mask := Z.land (b_ring_mask bank) (not32 (Z.shiftl 1 (ring_num ring))) in
        (CPA_STATUS_SUCCESS,
         update_ring csrs (csr_addr ring) (bank_offset ring) bank_ring_mask (arb_mask dev))
  | _, _ => (CPA_STATUS_FAIL, csrs)
  end.

(** ** Setting up and tearing down a ring *)

(** What [ICP_MEMSET(..., EMPTY_RING_SIG_BYTE, bytes)] leaves. *)
Definition empty_mem (bytes : Z) : list Z := replicate (Z.to_nat (bytes / 4)) EMPTY_RING_SIG_WORD.

Definition adf_init_ring_internal (lock : Z) (csrs : csr_file) (ring : adf_dev_ring_handle)
    (bank : adf_dev_bank_handle) (ring_num csr_base_addr num_msgs msg_size : Z)
    : Z * csr_file * adf_dev_ring_handle * adf_dev_bank_handle :=
  let '(ring_size_cfg, modulo) := validateRingSize num_msgs msg_size in
  let ring_size_bytes := ICP_ET_SIZE_TO_BYTES ring_size_cfg in
  let nearly_full_wm := ICP_RING_NEAR_WATERMARK_512 in
  let nearly_empty_wm := ICP_RING_NEAR_WATERMARK_0 in
  let max_space := ring_size_bytes in
  let '(reserved, bank) := adf_reserve_ring lock bank ring_num in
  if negb (reserved =? 0) then (- EBUSY, csrs, ring, bank)
  else match r_accel_dev ring with
  | None => (CPA_STATUS_INVALID_PARAM, csrs, ring, bank)
  | Some dev =>
      let ring := ring
        <| head := 0 |> <| tail := 0 |> <| send_seq := 0 |> <| bank_data := b_bank_number bank |>
        <| bank_offset := 0 |> <| Ring.ring_num := ring_num |> <| csr_addr := csr_base_addr |>
        <| message_size := msg_size |> <| r_modulo := modulo |> <| ring_size := ring_size_bytes |>
        <| ring_mem := empty_mem ring_size_bytes |>
        <| min_resps_per_head_write :=
             if MIN_RESPONSES_PER_HEAD_WRITE <? Z.shiftr (max_space / msg_size) 1
             then MIN_RESPONSES_PER_HEAD_WRITE
             else Z.shiftr (max_space / msg_size) 1 |>
        <| max_requests_inflight := u32 (num_msgs - 1) |> in
      let ring_config :=
        if negb (Z.land (b_tx_rings_mask bank) (Z.shiftl 1 ring_num) =? 0)
        then BUILD_RING_CONFIG ring_size_cfg
        else BUILD_RESP_RING_CONFIG ring_size_cfg nearly_full_wm nearly_empty_wm in
      let csrs :=
        if IS_QAT_GEN4 (deviceType dev) then
          let ring_base_cfg := BUILD_RING_BASE_ADDR_GEN4 (ring_phys_base_addr ring) ring_size_cfg in
          let csrs := WRITE_CSR_RING_BASE_GEN4 csrs csr_base_addr (bank_offset ring)
                        (Ring.ring_num ring) ring_base_cfg in
          WRITE_CSR_RING_CONFIG_GEN4 csrs csr_base_addr (bank_offset ring)
            (Ring.ring_num ring) ring_config
        else
          let ring_base_cfg := BUILD_RING_BASE_ADDR (ring_phys_base_addr ring) ring_size_cfg in
          let csrs := WRITE_CSR_RING_BASE csrs csr_base_addr (bank_offset ring)
                        (Ring.ring_num ring) ring_base_cfg in
          WRITE_CSR_RING_CONFIG csrs csr_base_addr (bank_offset ring)
            (Ring.ring_num ring) ring_config in
      let '(_, csrs) := adf_io_enable_ring csrs (Some bank) ring in
      (0, csrs, ring, bank)
  end.

(** [adf_init_ring].  [virt] and [phys] are what [qaeMemAllocNUMA] and
    [qaeVirtToPhysNUMA] return; the last result is the list of addresses given
    to [qaeMemFreeNUMA]. *)
Definition adf_init_ring (lock : Z) (csrs : csr_file) (ring : adf_dev_ring_handle)
    (bank : adf_dev_bank_handle) (ring_num virt phys num_msgs msg_size : Z)
    : Z * csr_file * adf_dev_ring_handle * adf_dev_bank_handle * list Z :=
  let ring := ring <| ring_virt_addr := virt |> <| ring_phys_base_addr := phys |> in
  if (virt =? 0) || (phys =? 0) then
    if negb (phys =? 0)
    then (- ENOMEM, csrs, ring <| ring_virt_addr := 0 |>, bank, [virt])
    else (- ENOMEM, csrs, ring, bank, [])
  else
    let '(status, csrs, ring, bank) :=
      adf_init_ring_internal lock csrs ring bank ring_num (b_csr_addr bank) num_msgs msg_size in
    if negb (status =? 0)
    then (status, csrs, ring <| ring_virt_addr := 0 |>, bank, [virt])
    else (0, csrs, ring, bank, []).

Definition adf_reinit_ring (lock : Z) (csrs : csr_file) (ring : adf_dev_ring_handle)
    (bank : adf_dev_bank_handle) (ring_num num_msgs msg_size : Z)
    : Z * csr_file * adf_dev_ring_handle * adf_dev_bank_handle :=
  adf_init_ring_internal lock csrs ring bank ring_num (b_csr_addr bank) num_msgs msg_size.

(** [osalMemZeroExplicit] over the ring buffer, before it is freed. *)
Definition zero_mem (ring : adf_dev_ring_handle) : list Z := replicate (length (ring_mem ring)) 0.

Definition adf_ring_freebuf (ring : adf_dev_ring_handle) : Z * adf_dev_ring_handle * list Z :=
  if negb (ring_virt_addr ring =? 0) then
    (0, ring <| ring_mem := zero_mem ring |> <| ring_virt_addr := 0 |>, [ring_virt_addr ring])
  else (0, ring, []).

(** [bank] is [ring->bank_data]. *)
Definition adf_clean_ring (lock : Z) (csrs : csr_file) (bank : adf_dev_bank_handle)
    (ring : adf_dev_ring_handle) : csr_file * adf_dev_bank_handle :=
  let csr_base_addr := csr_addr ring in
  match r_accel_dev ring with
  | None => (csrs, bank)
  | Some dev =>
      let '(_, csrs) := adf_io_disable_ring csrs (Some bank) ring in
      let csrs :=
        if IS_QAT_GEN4 (deviceType dev) then
          let csrs := WRITE_CSR_RING_CONFIG_GEN4 csrs csr_base_addr (bank_offset ring) (ring_num ring) 0 in
          WRITE_CSR_RING_BASE_GEN4 csrs csr_base_addr (bank_offset ring) (ring_num ring) 0
        else
          let csrs := WRITE_CSR_RING_CONFIG csrs csr_base_addr (bank_offset ring) (ring_num ring) 0 in
          WRITE_CSR_RING_BASE csrs csr_base_addr (bank_offset ring) (ring_num ring) 0 in
      (csrs, adf_unreserve_ring lock bank (ring_num ring))
  end.

Definition adf_cleanup_ring (lock : Z) (csrs : csr_file) (bank : adf_dev_bank_handle)
    (ring : adf_dev_ring_handle) : csr_file * adf_dev_bank_handle * adf_dev_ring_handle * list Z :=
  let '(csrs, bank) := adf_clean_ring lock csrs bank ring in
  if negb (ring_virt_addr ring =? 0) then
    (csrs, bank, ring <| ring_mem := zero_mem ring |> <| ring_virt_addr := 0 |>, [ring_virt_addr ring])
  else (csrs, bank, ring, []).

Definition adf_reset_ring (lock : Z) (csrs : csr_file) (bank : adf_dev_bank_handle)
    (ring : adf_dev_ring_handle) : csr_file * adf_dev_bank_handle * adf_dev_ring_handle :=
  let csr_addr_shadow := b_csr_addr_shadow bank in
  let '(csrs, bank) := adf_clean_ring lock csrs bank ring in
  let ring := if negb (ring_virt_addr ring =? 0)
              then ring <| ring_mem := empty_mem (ring_size ring) |> else ring in
  (csrs, bank, ring <| csr_addr := csr_addr_shadow |>).

(** ** Messages in a ring *)

Fixpoint write_words (mem : list Z) (i : Z) (ws : list Z) : list Z :=
  match ws with
  | [] => mem
  | w :: ws => write_words (mem.[i <- w]) (i + 1) ws
  end.
Definition read_words (mem : list Z) (i n : Z) : list Z := map (fun k => mem.[i + k]) (seqZ 0 n).

(** [adf_memcpy64] and [adf_memcpy128]: 16 or 32 words. *)
Definition adf_memcpy64 (mem : list Z) (dst : Z) (src : list Z) : list Z :=
  write_words mem (dst / 4) (take 16 src).
Definition adf_memcpy128 (mem : list Z) (dst : Z) (src : list Z) : list Z :=
  write_words mem (dst / 4) (take 32 src).

(** ** Put and poll

    What a ring operation reaches outside its handle: the shared counter of
    requests in flight, the registers, and the state [C] of the client whose
    callback gets the responses. *)
Record world (C : Type) := mk_world { inflight_cell : Z; csrs : csr_file; client : C }.
Arguments mk_world {C} _ _ _.
Arguments inflight_cell {C} _.
Arguments csrs {C} _.
Arguments client {C} _.
#[global] Instance eta_world C : Eta (world C) :=
  fun w => mk_world (inflight_cell w) (csrs w) (client w).

(** [__sync_add_and_fetch] and [__sync_sub_and_fetch] on the counter. *)
Definition sync_add {C} (w : world C) (n : Z) : world C :=
  w <| inflight_cell := u32 (inflight_cell w + n) |>.
Definition sync_sub {C} (w : world C) (n : Z) : world C :=
  w <| inflight_cell := u32 (inflight_cell w - n) |>.

(** Moving an offset to the next message. *)
Definition next_offset (ring : adf_dev_ring_handle) (offset : Z) : Z :=
  modulo (u32 (offset + message_size ring)) (r_modulo ring).

(** [adf_user_put_msg], for the ring and the message ([None] for [NULL]): the
    status, the ring and the world afterwards, and the sequence number. *)
Definition adf_user_put_msg {C} (lock : Z) (ring : option adf_dev_ring_handle) (w : world C)
    (inBuf : option (list Z)) : Z * option adf_dev_ring_handle * world C * option Z :=
  match ring, inBuf with
  | None, _ => (CPA_STATUS_INVALID_PARAM, ring, w, None)
  | _, None => (CPA_STATUS_INVALID_PARAM, ring, w, None)
  | Some r, Some buf =>
      if decide (r_accel_dev r = None) then (CPA_STATUS_INVALID_PARAM, ring, w, None)
      else if negb (lock =? 0) then (CPA_STATUS_FAIL, ring, w, None)
      else
        let w := sync_add w 1 in
        let flight := inflight_cell w in
        if max_requests_inflight r <? flight then (CPA_STATUS_RETRY, ring, sync_sub w 1, None)
        else
          let copied :=
            if message_size r =? ADF_MSG_SIZE_64_BYTES then Some (adf_memcpy64 (ring_mem r) (tail r) buf)
            else if message_size r =? ADF_MSG_SIZE_128_BYTES then
              Some (adf_memcpy128 (ring_mem r) (tail r) buf)
            else None in
          match copied with
          | None => (CPA_STATUS_FAIL, ring, w, None)
          | Some mem =>
              let r := r <| ring_mem := mem |> in
              let r := r <| tail := next_offset r (tail r) |> in
              let w := w <| csrs := WRITE_CSR_RING_TAIL (csrs w) (csr_addr r) (bank_offset r)
                                      (ring_num r) (tail r) |> in
              let r := r <| csrTailOffset := tail r |> in
              let seq_num := send_seq r in
              let r := r <| send_seq := u64 (send_seq r + 1) |> in
              (lock, Some r, w, Some seq_num)
          end
  end.

Section notify.
Context {C : Type}.
(** The callback of the ring: it is given the words of a message. *)
Context (callback : list Z -> world C -> world C).

(** The message at the head of the ring, and whether there is one. *)
Definition head_word (ring : adf_dev_ring_handle) : Z := (ring_mem ring).[head ring / 4].
Definition head_msg (ring : adf_dev_ring_handle) : list Z :=
  read_words (ring_mem ring) (head ring / 4) (message_size ring / 4).

(** One round of the loop: call back, mark the message as processed, advance. *)
Definition poll_body (ring : adf_dev_ring_handle) (w : world C) : adf_dev_ring_handle * world C :=
  let w := callback (head_msg ring) w in
  let ring := ring <| ring_mem := (ring_mem ring).[head ring / 4 <- EMPTY_RING_SIG_WORD] |> in
  (ring <| head := next_offset ring (head ring) |>, w).

(** The loop, with a quota or without one. *)
Fixpoint poll_loop (fuel : nat) (quota : option Z) (ring : adf_dev_ring_handle) (w : world C)
    (msg_counter : Z) : adf_dev_ring_handle * world C * Z :=
  match fuel with
  | O => (ring, w, msg_counter)
  | S fuel =>
      if negb (head_word ring =? EMPTY_RING_SIG_WORD) &&
         match quota with Some quota => msg_counter <? quota | None => true end
      then
        let '(ring, w) := poll_body ring w in
        poll_loop fuel quota ring w (u32 (msg_counter + 1))
      else (ring, w, msg_counter)
  end.

(** Each round empties a message slot, so one round per slot is enough. *)
Definition poll_fuel (ring : adf_dev_ring_handle) : nat :=
  S (Z.to_nat (ring_size ring / message_size ring)).

(** What follows the loop when messages were processed: the counter goes down
    and the head register is written when enough of them were processed, or
    when [force] is set. *)
Definition poll_finish (force : bool) (ring : adf_dev_ring_handle) (w : world C) (msg_counter : Z)
    : adf_dev_ring_handle * world C :=
  let w := sync_sub w msg_counter in
  if (coal_write_count ring <? msg_counter) || force then
    let ring := ring <| coal_write_count := min_resps_per_head_write ring |> in
    (ring, w <| csrs := WRITE_CSR_RING_HEAD (csrs w) (csr_addr ring) (bank_offset ring)
                          (ring_num ring) (head ring) |>)
  else (ring <| coal_write_count := u32 (coal_write_count ring - msg_counter) |>, w).

Definition adf_user_notify_msgs (ring : option adf_dev_ring_handle) (w : world C)
    : Z * option adf_dev_ring_handle * world C :=
  match ring with
  | None => (CPA_STATUS_INVALID_PARAM, None, w)
  | Some ring =>
      let '(ring, w, msg_counter) := poll_loop (poll_fuel ring) None ring w 0 in
      if 0 <? msg_counter then
        let '(ring, w) := poll_finish false ring w msg_counter in (0, Some ring, w)
      else (0, Some ring, w)
  end.

Definition adf_user_notify_msgs_poll (ring : adf_dev_ring_handle) (w : world C)
    : Z * adf_dev_ring_handle * world C :=
  let response_quota :=
    if negb (ringResponseQuota ring =? 0) then ringResponseQuota ring else ICP_NO_RESPONSE_QUOTA in
  let '(ring, w, msg_counter) := poll_loop (poll_fuel ring) (Some response_quota) ring w 0 in
  if 0 <? msg_counter then
    let '(ring, w) :=
      poll_finish (bool_decide (resp ring = ICP_RESP_TYPE_IRQ)) ring w msg_counter in
    (CPA_STATUS_SUCCESS, ring, w)
  else (CPA_STATUS_RETRY, ring, w).

(** [icp_adf_pollQueue] of the data plane: no interrupts, and the counter is not
    updated atomically. *)
Definition icp_adf_pollQueue (ring : adf_dev_ring_handle) (w : world C) (response_quota : Z)
    : Z * adf_dev_ring_handle * world C :=
  let response_quota := if response_quota =? 0 then ICP_NO_RESPONSE_QUOTA else response_quota in
  let '(ring, w, msg_counter) := poll_loop (poll_fuel ring) (Some response_quota) ring w 0 in
  if 0 <? msg_counter then
    let '(ring, w) := poll_finish false ring w msg_counter in (CPA_STATUS_SUCCESS, ring, w)
  else (CPA_STATUS_RETRY, ring, w).
End notify.

(** ** Checking a ring *)

Definition adf_user_check_ring_error (csrs : csr_file) (ring : option adf_dev_ring_handle) : Z :=
  match ring with
  | None => CPA_STATUS_INVALID_PARAM
  | Some ring =>
      if negb (match r_accel_dev ring with Some dev => IS_QAT_GEN4 (deviceType dev) | None => false end)
      then 0
      else
        let ring_stat := READ_CSR_RING_STATUS_GEN4 csrs (csr_addr ring) (bank_offset ring) in
        if negb (Z.land ring_stat CSR_RING_STAT_RL_EXCEPTION_MASK =? 0) then - EINTR
        else if negb (Z.land ring_stat CSR_RING_STAT_RL_HALT_MASK =? 0) then - EL2HLT
        else 0
  end.

(** The loop of [adf_user_check_resp_ring]; [n] is the number of messages left
    to check. *)
Fixpoint check_resp_loop (n : nat) (ring : adf_dev_ring_handle) (cur_head : Z) : bool :=
  match n with
  | O => true
  | S n =>
      if negb ((ring_mem ring).[cur_head / 4] =? EMPTY_RING_SIG_WORD) then false
      else check_resp_loop n ring (next_offset ring cur_head)
  end.

(** [adf_user_check_resp_ring]: whether none of the requests in flight has its
    response on the ring. *)
Definition adf_user_check_resp_ring (ring : adf_dev_ring_handle) (in_flight : Z) : bool :=
  check_resp_loop (Z.to_nat in_flight) ring (head ring).

(** The status, [*maxInflightRequests] and [*numInflightRequests]. *)
Definition adf_user_get_inflight_requests {C} (lock : Z) (ring : adf_dev_ring_handle) (w : world C)
    : Z * option (Z * Z) :=
  if negb (lock =? 0) then (CPA_STATUS_FAIL, None)
  else (lock, Some (max_requests_inflight ring, inflight_cell w)).

(** ** The data plane ([adf_user_ETring_mgr_dp.c])

    An address inside the ring buffer is its offset; [None] is [NULL]. *)

Definition icp_adf_getQueueMemory {C} (ring : adf_dev_ring_handle) (w : world C)
    (numberRequests : Z) : world C * option Z :=
  let in_flight := u32 (inflight_cell w + numberRequests) in
  if max_requests_inflight ring <? in_flight then (w, None)
  else (w <| inflight_cell := in_flight |>, Some (tail ring)).

Definition icp_adf_getSingleQueueAddr {C} (ring : adf_dev_ring_handle) (w : world C)
    : adf_dev_ring_handle * world C * option Z :=
  let in_flight := u32 (inflight_cell w + 1) in
  if max_requests_inflight ring <? in_flight then (ring, w, None)
  else
    (ring <| tail := next_offset ring (tail ring) |>,
     w <| inflight_cell := in_flight |>, Some (tail ring)).

Definition icp_adf_getQueueNext (ring : adf_dev_ring_handle) : adf_dev_ring_handle * Z :=
  let ring := ring <| tail := next_offset ring (tail ring) |> in
  (ring, tail ring).

Definition icp_adf_getDpInflightRequests {C} (ring : adf_dev_ring_handle) (w : world C) : Z * Z :=
  (max_requests_inflight ring, inflight_cell w).

Definition icp_adf_updateQueueTail {C} (ring : adf_dev_ring_handle) (w : world C)
    : adf_dev_ring_handle * world C :=
  (ring <| csrTailOffset := tail ring |>,
   w <| csrs := WRITE_CSR_RING_TAIL (csrs w) (csr_addr ring) (bank_offset ring)
                  (ring_num ring) (tail ring) |>).

Definition icp_adf_isRingEmpty (csrs : csr_file) (ring : adf_dev_ring_handle) : bool :=
  let mask := READ_CSR_E_STAT csrs (csr_addr ring) (bank_offset ring) in
  let mask := not32 mask in
  if negb (Z.land mask (Z.shiftl 1 (ring_num ring)) =? 0) then false else true.

Definition icp_adf_queueDataToSend (ring : adf_dev_ring_handle) : bool :=
  negb (tail ring =? csrTailOffset ring).

(** * Proofs *)

(** ** Arithmetic of offsets *)

Lemma modulo_spec d s : 0 <= d < 2 ^ 32 -> 0 <= s -> modulo d s = d mod 2 ^ s.
Proof.
  intros Hd Hs. unfold modulo. rewrite Z.shiftr_div_pow2, Z.shiftl_mul_pow2 by done.
  pose proof (Z.pow_pos_nonneg 2 s). divmod d (2 ^ s).
  assert (0 <= d / 2 ^ s) by (apply Z.div_pos; lia).
  rewrite (u32_small (d / 2 ^ s * 2 ^ s)) by nia. rewrite u32_small; lia.
Qed.

(** The shape of a ring that is set up: a power of two of bytes, that is a whole
    number of messages. *)
Record ring_geom (r : adf_dev_ring_handle) : Prop := {
  geo_mod : 0 <= r_modulo r <= 22;
  geo_size : ring_size r = 2 ^ r_modulo r;
  geo_msg : 0 < message_size r;
  geo_words : message_size r mod 4 = 0;
  geo_div : ring_size r mod message_size r = 0;
  geo_mem : len (ring_mem r) = ring_size r / 4
}.

(** The number of messages a ring holds, and the offset of its [k]-th message. *)
Definition slots (r : adf_dev_ring_handle) : Z := ring_size r / message_size r.
Definition offset_of (r : adf_dev_ring_handle) (k : Z) : Z := k mod slots r * message_size r.

(** The message in the slot of index [k], and its first word. *)
Definition word_at (r : adf_dev_ring_handle) (k : Z) : Z := (ring_mem r).[offset_of r k / 4].
Definition msg_at (r : adf_dev_ring_handle) (k : Z) : list Z :=
  read_words (ring_mem r) (offset_of r k / 4) (message_size r / 4).

Section geometry.
Context (r : adf_dev_ring_handle) (G : ring_geom r).

Lemma geo_bytes : 1 <= ring_size r <= 2 ^ 22.
Proof using G.
  destruct G as [Hm -> _ _ _ _]. pose proof (Z.pow_pos_nonneg 2 (r_modulo r)).
  pose proof (Z.pow_le_mono_r 2 (r_modulo r) 22). lia.
Qed.

Lemma slots_spec : ring_size r = slots r * message_size r /\ 1 <= slots r.
Proof using G.
  pose proof geo_bytes. destruct G as [_ _ Hp _ Hd _]. unfold slots.
  divmod (ring_size r) (message_size r). assert (ring_size r / message_size r <> 0) by nia.
  assert (0 <= ring_size r / message_size r) by (apply Z.div_pos; lia). lia.
Qed.

Lemma offset_range k : 0 <= offset_of r k < ring_size r.
Proof using G.
  destruct slots_spec. unfold offset_of. pose proof (Z.mod_pos_bound k (slots r)).
  pose proof (geo_msg _ G). nia.
Qed.

(** The next offset is the offset of the next message. *)
Lemma next_offset_spec k : next_offset r (offset_of r k) = offset_of r (k + 1).
Proof using G.
  pose proof (offset_range k). pose proof geo_bytes. destruct slots_spec as [Hs H1].
  pose proof (geo_msg _ G). unfold next_offset.
  assert (message_size r <= ring_size r) by nia.
  rewrite u32_small by lia. rewrite modulo_spec by (lia || apply G).
  rewrite <- (geo_size _ G). unfold offset_of. rewrite <- (Z.add_mod_idemp_l k) by lia.
  pose proof (Z.mod_pos_bound k (slots r)) as Hk.
  replace (k mod slots r * message_size r + message_size r) with
    ((k mod slots r + 1) * message_size r) by lia.
  rewrite Hs. by rewrite Z.mul_mod_distr_r by lia.
Qed.

(** The words of a message lie in the buffer. *)
Lemma slot_word k : offset_of r k / 4 = k mod slots r * (message_size r / 4).
Proof using G.
  unfold offset_of. pose proof (geo_words _ G). divmod (message_size r) 4.
  replace (k mod slots r * message_size r) with (k mod slots r * (message_size r / 4) * 4) by lia.
  by rewrite Z.div_mul.
Qed.

Lemma slot_bound k j : 0 <= j < message_size r / 4 -> 0 <= offset_of r k / 4 + j < len (ring_mem r).
Proof using G.
  intros Hj. rewrite slot_word, (geo_mem _ G). destruct slots_spec as [Hs H1].
  pose proof (Z.mod_pos_bound k (slots r)). pose proof (geo_words _ G). divmod (message_size r) 4.
  assert (E : ring_size r / 4 = slots r * (message_size r / 4)).
  { rewrite Hs. replace (slots r * message_size r) with (slots r * (message_size r / 4) * 4) by lia.
    by rewrite Z.div_mul. }
  rewrite E. nia.
Qed.

Lemma msg_words : 1 <= message_size r / 4.
Proof using G. pose proof (geo_words _ G). pose proof (geo_msg _ G). divmod (message_size r) 4. lia. Qed.

(** Words of different slots are at different places. *)
Lemma slot_disjoint k1 k2 j1 j2 :
  0 <= j1 < message_size r / 4 -> 0 <= j2 < message_size r / 4 ->
  k1 mod slots r <> k2 mod slots r -> offset_of r k1 / 4 + j1 <> offset_of r k2 / 4 + j2.
Proof using G.
  intros H1 H2 Hne. rewrite !slot_word. pose proof msg_words.
  destruct (Z.lt_trichotomy (k1 mod slots r) (k2 mod slots r)) as [?|[?|?]]; [nia|done|nia].
Qed.
End geometry.

(** ** Reading and writing words *)

Lemma length_write_words ws mem i : length (write_words mem i ws) = length mem.
Proof. revert mem i. induction ws; intros; simpl; [done|]. by rewrite IHws, length_arr_set. Qed.

Lemma get_write_words ws mem i j :
  0 <= i -> i + len ws <= len mem -> 0 <= j ->
  (write_words mem i ws).[j] = if (i <=? j) && (j <? i + len ws) then ws.[j - i] else mem.[j].
Proof.
  revert mem i. induction ws as [|x ws IH]; intros mem i Hi Hl Hj; simpl write_words.
  { simpl. zcases. }
  simpl length in *. rewrite IH by (rewrite ?length_arr_set; lia).
  unfold arr_get at 3. destruct (Z.eqb_spec j i) as [->|Hne].
  - rewrite Z.sub_diag. destruct (Z.leb_spec (i + 1) i); [lia|]. cbn [andb].
    rewrite arr_get_set_eq by lia. zcases.
  - rewrite arr_get_set_ne by lia.
    destruct (Z.leb_spec (i + 1) j); [|zcases].
    replace (Z.to_nat (j - i)) with (S (Z.to_nat (j - (i + 1)))) by lia. simpl nth.
    fold (arr_get ws (j - (i + 1))). zcases.
Qed.

Lemma length_read_words mem i n : 0 <= n -> len (read_words mem i n) = n.
Proof. intros. unfold read_words. rewrite length_map, length_seqZ. lia. Qed.

Lemma get_read_words mem i n j : 0 <= j < n -> (read_words mem i n).[j] = mem.[i + j].
Proof.
  intros Hj. unfold read_words, arr_get at 1.
  apply nth_lookup_Some. rewrite list_lookup_fmap, lookup_seqZ_lt by lia.
  cbn. f_equal. f_equal. lia.
Qed.

Lemma read_words_ext mem1 mem2 i n :
  (forall j, 0 <= j < n -> mem1.[i + j] = mem2.[i + j]) -> read_words mem1 i n = read_words mem2 i n.
Proof.
  intros H. unfold read_words. apply map_ext_in. intros j Hj%list_elem_of_In%elem_of_seqZ. apply H. lia.
Qed.

Lemma read_write_words mem i ws :
  0 <= i -> i + len ws <= len mem -> read_words (write_words mem i ws) i (len ws) = ws.
Proof.
  intros Hi Hl. apply arr_ext.
  { apply Nat2Z.inj. apply length_read_words. lia. }
  rewrite length_read_words by lia. intros j Hj.
  rewrite get_read_words, get_write_words by lia. rewrite Z.add_simpl_l. zcases.
Qed.

(** ** Changing one slot *)

(** Updates of the other fields keep the shape of the ring. *)
Definition same_geom (r r' : adf_dev_ring_handle) : Prop :=
  r_modulo r' = r_modulo r /\ ring_size r' = ring_size r /\ message_size r' = message_size r.

Lemma same_geom_offset r r' k : same_geom r r' -> offset_of r' k = offset_of r k.
Proof. intros (_ & Hs & Hm). unfold offset_of, slots. by rewrite Hs, Hm. Qed.

Lemma same_geom_wf r r' :
  same_geom r r' -> length (ring_mem r') = length (ring_mem r) -> ring_geom r -> ring_geom r'.
Proof.
  intros (H1 & H2 & H3) Hl [? ? ? ? ? ?]. by split; rewrite ?H1, ?H2, ?H3, ?Hl.
Qed.

(** Writing a message in the slot of index [n]. *)
Lemma msg_at_write r r' n ws k :
  ring_geom r -> same_geom r r' -> len ws = message_size r / 4 ->
  ring_mem r' = write_words (ring_mem r) (offset_of r n / 4) ws ->
  msg_at r' k = (if k mod slots r =? n mod slots r then ws else msg_at r k) /\
  word_at r' k = (if k mod slots r =? n mod slots r then ws.[0] else word_at r k).
Proof.
  intros G S Hl Hm. pose proof (msg_words _ G). pose proof S as (_ & _ & Hms).
  pose proof (slot_bound _ G n 0 ltac:(lia)).
  pose proof (slot_bound _ G n (message_size r / 4 - 1) ltac:(lia)).
  pose proof (slot_bound _ G k 0 ltac:(lia)).
  unfold msg_at, word_at. rewrite Hm, Hms, !(same_geom_offset r r') by done.
  destruct (Z.eqb_spec (k mod slots r) (n mod slots r)) as [E|E].
  - assert (Eo : offset_of r k = offset_of r n) by (unfold offset_of; by rewrite E).
    rewrite Eo, <- Hl. split; [apply read_write_words; lia|].
    rewrite get_write_words by lia. rewrite Z.sub_diag. zcases.
  - assert (D : forall j, 0 <= j < message_size r / 4 ->
      (write_words (ring_mem r) (offset_of r n / 4) ws).[offset_of r k / 4 + j] =
      (ring_mem r).[offset_of r k / 4 + j]).
    { intros j Hj. pose proof (slot_bound _ G k j Hj). rewrite get_write_words by lia.
      destruct (Z.leb_spec (offset_of r n / 4) (offset_of r k / 4 + j)); [|done].
      destruct (Z.ltb_spec (offset_of r k / 4 + j) (offset_of r n / 4 + len ws)); [|done].
      exfalso. eapply (slot_disjoint _ G k n j (offset_of r k / 4 + j - offset_of r n / 4)); lia. }
    split; [by apply read_words_ext|]. specialize (D 0 ltac:(lia)). by rewrite Z.add_0_r in D.
Qed.

(** Marking the message of index [n] as processed. *)
Lemma msg_at_mark r r' n v k :
  ring_geom r -> same_geom r r' -> ring_mem r' = (ring_mem r).[offset_of r n / 4 <- v] ->
  word_at r' k = (if k mod slots r =? n mod slots r then v else word_at r k) /\
  (k mod slots r <> n mod slots r -> msg_at r' k = msg_at r k).
Proof.
  intros G S Hm. pose proof (msg_words _ G). pose proof S as (_ & _ & Hms).
  pose proof (slot_bound _ G n 0 ltac:(lia)). pose proof (slot_bound _ G k 0 ltac:(lia)).
  assert (D : k mod slots r <> n mod slots r -> forall j, 0 <= j < message_size r / 4 ->
    ((ring_mem r).[offset_of r n / 4 <- v]).[offset_of r k / 4 + j] =
    (ring_mem r).[offset_of r k / 4 + j]).
  { intros E j Hj. pose proof (slot_bound _ G k j Hj). apply arr_get_set_ne; [lia|lia|].
    intros En. eapply (slot_disjoint _ G k n j 0); lia. }
  unfold msg_at, word_at. rewrite Hm, Hms, !(same_geom_offset r r') by done. split.
  - destruct (Z.eqb_spec (k mod slots r) (n mod slots r)) as [E|E].
    + replace (offset_of r k) with (offset_of r n) by (unfold offset_of; by rewrite E).
      apply arr_get_set_eq. lia.
    + specialize (D E 0 ltac:(lia)). by rewrite !Z.add_0_r in D.
  - intros E. apply read_words_ext. auto.
Qed.

(** ** Put *)

(** The message sizes that [adf_user_put_msg] copies. *)
Definition request_ring (r : adf_dev_ring_handle) : Prop :=
  (message_size r = 64 \/ message_size r = 128) /\ r_accel_dev r <> None.

Lemma put_full {C} r (w : world C) buf :
  r_accel_dev r <> None -> 0 <= inflight_cell w < 2 ^ 32 - 1 ->
  max_requests_inflight r <= inflight_cell w ->
  adf_user_put_msg 0 (Some r) w (Some buf) = (CPA_STATUS_RETRY, Some r, w, None).
Proof.
  intros Hd Hc Hm. unfold adf_user_put_msg. rewrite decide_False by done. cbn [Z.eqb negb].
  unfold sync_add, sync_sub. simpl. rewrite u32_small by lia.
  destruct (Z.ltb_spec (max_requests_inflight r) (inflight_cell w + 1)); [|lia].
  rewrite Z.add_simpl_r, u32_small by lia. by destruct w.
Qed.

(** A put when there is room: the message is in the slot of the tail, the tail
    and its register move on, and one more request is in flight. *)
Lemma put_room {C} r (w : world C) buf n :
  ring_geom r -> request_ring r -> tail r = offset_of r n -> len buf = message_size r / 4 ->
  0 <= inflight_cell w < max_requests_inflight r -> max_requests_inflight r < 2 ^ 32 ->
  let r' := r <| ring_mem := write_words (ring_mem r) (offset_of r n / 4) buf |>
              <| tail := offset_of r (n + 1) |> <| csrTailOffset := offset_of r (n + 1) |>
              <| send_seq := u64 (send_seq r + 1) |> in
  adf_user_put_msg 0 (Some r) w (Some buf) =
    (0, Some r',
     mk_world (inflight_cell w + 1)
       (WRITE_CSR_RING_TAIL (csrs w) (csr_addr r) (bank_offset r) (ring_num r) (offset_of r (n + 1)))
       (client w),
     Some (send_seq r)).
Proof.
  intros G [Hms Hd] Ht Hl Hc Hm. unfold adf_user_put_msg. rewrite decide_False by done.
  cbn [Z.eqb negb]. unfold sync_add; simpl. rewrite u32_small by lia.
  destruct (Z.ltb_spec (max_requests_inflight r) (inflight_cell w + 1)); [lia|].
  assert (E : (if message_size r =? ADF_MSG_SIZE_64_BYTES
               then Some (adf_memcpy64 (ring_mem r) (tail r) buf)
               else if message_size r =? ADF_MSG_SIZE_128_BYTES
               then Some (adf_memcpy128 (ring_mem r) (tail r) buf) else None) =
              Some (write_words (ring_mem r) (offset_of r n / 4) buf)).
  { rewrite Ht. unfold adf_memcpy64, adf_memcpy128. destruct Hms as [Hms|Hms]; rewrite Hms in Hl |- *;
      cbn [Z.eqb ADF_MSG_SIZE_64_BYTES ADF_MSG_SIZE_128_BYTES Pos.eqb];
      rewrite firstn_all2; (done || (change (64 / 4) with 16 in Hl || change (128 / 4) with 32 in Hl); lia). }
  rewrite E. simpl. unfold next_offset; simpl. fold (next_offset r (tail r)).
  by rewrite Ht, next_offset_spec.
Qed.

(** ** Poll *)

(** The messages on the ring from index [k] on, up to the first empty slot and
    at most [n] of them: what a consumer that reads the slots one after the
    other finds. *)
Fixpoint pending (n : nat) (r : adf_dev_ring_handle) (k : Z) : list (list Z) :=
  match n with
  | O => []
  | S n => if word_at r k =? EMPTY_RING_SIG_WORD then [] else msg_at r k :: pending n r (k + 1)
  end.

(** The messages that a poll with a quota takes. *)
Definition poll_take (quota : option Z) (ms : list (list Z)) : list (list Z) :=
  match quota with Some q => take (Z.to_nat q) ms | None => ms end.

(** [r'] is [r] after [m] messages from index [n] on were processed. *)
Record processed (r r' : adf_dev_ring_handle) (n m : Z) : Prop := {
  pr_ring : r' = r <| ring_mem := ring_mem r' |> <| head := offset_of r (n + m) |>;
  pr_len : length (ring_mem r') = length (ring_mem r);
  pr_word : forall k, n <= k < n + slots r ->
    word_at r' k = if k <? n + m then EMPTY_RING_SIG_WORD else word_at r k;
  pr_msg : forall k, n + m <= k < n + slots r -> msg_at r' k = msg_at r k
}.

Lemma processed_geom r r' n m : processed r r' n m -> same_geom r r'.
Proof. intros [E _ _ _]. rewrite E. done. Qed.

(** Indices less than a ring apart are in different slots. *)
Lemma slot_ne r k n : ring_geom r -> k <> n -> n - slots r < k < n + slots r ->
  k mod slots r <> n mod slots r.
Proof.
  intros G Hne Hk E. destruct (slots_spec _ G) as [_ H1].
  divmod k (slots r). divmod n (slots r).
  destruct (Z.lt_trichotomy (k / slots r) (n / slots r)) as [?|[Eq|?]]; [nia|rewrite Eq in *; lia|nia].
Qed.

Lemma processed_refl r n :
  ring_geom r -> head r = offset_of r n -> processed r r n 0.
Proof.
  intros G Hh. split; [|done| |done].
  - rewrite Z.add_0_r, <- Hh. by destruct r.
  - intros k Hk. zcases.
Qed.

Lemma processed_step r r1 r2 n m :
  ring_geom r -> 0 <= m < slots r ->
  r1 = r <| ring_mem := (ring_mem r).[offset_of r n / 4 <- EMPTY_RING_SIG_WORD] |>
         <| head := offset_of r (n + 1) |> ->
  processed r1 r2 (n + 1) m -> processed r r2 n (m + 1).
Proof.
  intros G Hm E1 P. pose proof (processed_geom _ _ _ _ P) as S2.
  assert (S1 : same_geom r r1) by (by subst r1).
  pose proof (fun k => msg_at_mark r r1 n EMPTY_RING_SIG_WORD k G S1 ltac:(by subst r1)) as M.
  assert (Sl : slots r1 = slots r) by (by subst r1). destruct P as [E2 Hl Hw Hg].
  split.
  - rewrite E2. subst r1. simpl. by replace (n + 1 + m) with (n + (m + 1)) by lia.
  - rewrite Hl. subst r1. simpl. apply length_arr_set.
  - intros k Hk. destruct (Z.eqb_spec k n) as [->|Hne].
    + destruct (Z.ltb_spec n (n + (m + 1))); [|lia].
      (* slot [n] is also slot [n + slots r], the last one of the window of [r1] *)
      assert (Hn : (n + slots r) mod slots r = n mod slots r)
        by (rewrite <- (Z.mul_1_l (slots r)) at 1; apply Z_mod_plus_full).
      replace (word_at r2 n) with (word_at r2 (n + slots r)).
      2:{ unfold word_at, offset_of. replace (slots r2) with (slots r) by (by rewrite <- Sl, E2). by rewrite Hn. }
      rewrite Hw by lia. destruct (Z.ltb_spec (n + slots r) (n + 1 + m)); [done|].
      destruct (M (n + slots r)) as [-> _]. by rewrite Hn, Z.eqb_refl.
    + rewrite Hw by lia. destruct (M k) as [-> _].
      pose proof (slot_ne r k n G Hne ltac:(lia)). zcases.
  - intros k Hk. rewrite Hg by lia. apply M. apply slot_ne; [done|lia|lia].
Qed.

Lemma pending_ext n r r' k :
  (forall j, k <= j < k + Z.of_nat n -> word_at r' j = word_at r j /\ msg_at r' j = msg_at r j) ->
  pending n r' k = pending n r k.
Proof.
  revert k. induction n as [|n IH]; intros k H; [done|]. simpl.
  destruct (H k ltac:(lia)) as [-> ->]. case_if; [done|]. f_equal. apply IH. intros. apply H. lia.
Qed.

Lemma length_pending n r k : len (pending n r k) <= Z.of_nat n.
Proof. revert k. induction n as [|n IH]; intros k; simpl; [lia|]. case_if; simpl; [lia|]. specialize (IH (k + 1)). lia. Qed.

Section poll_loop.
Context {C : Type} (callback : list Z -> world C -> world C).
Implicit Types (r : adf_dev_ring_handle) (w : world C).

Definition deliver (w : world C) (ms : list (list Z)) : world C :=
  foldl (fun w m => callback m w) w ms.

Lemma poll_body_spec r w n :
  ring_geom r -> head r = offset_of r n ->
  poll_body callback r w =
    (r <| ring_mem := (ring_mem r).[offset_of r n / 4 <- EMPTY_RING_SIG_WORD] |>
       <| head := offset_of r (n + 1) |>, callback (msg_at r n) w).
Proof.
  intros G Hh. unfold poll_body, head_msg, msg_at. rewrite Hh. simpl.
  unfold next_offset; simpl. fold (next_offset r (head r)). by rewrite Hh, next_offset_spec.
Qed.

(** The loop, when [s] slots are left of the round: it delivers the pending
    messages up to the quota. *)
Lemma poll_loop_spec s fuel quota r w n c :
  ring_geom r -> head r = offset_of r n -> (s < fuel)%nat -> Z.of_nat s <= slots r ->
  (forall k, n + Z.of_nat s <= k < n + slots r -> word_at r k = EMPTY_RING_SIG_WORD) ->
  0 <= c -> c + Z.of_nat s < 2 ^ 32 ->
  let ms := poll_take (option_map (fun q => q - c) quota) (pending s r n) in
  exists r', poll_loop callback fuel quota r w c = (r', deliver w ms, c + len ms) /\
    processed r r' n (len ms).
Proof.
  revert fuel r w n c. induction s as [|s IH]; intros fuel r w n c G Hh Hf Hs He Hc Hb ms;
    (destruct fuel as [|fuel]; [lia|]); cbn [poll_loop]; unfold head_word; rewrite Hh;
    fold (word_at r n); pose proof (slots_spec r G) as [_ Hs1].
  { assert (E : ms = []) by (subst ms; destruct quota; [apply firstn_nil|done]).
    rewrite (He n) by lia. rewrite Z.eqb_refl. cbn [negb andb]. rewrite E. exists r.
    rewrite Z.add_0_r. split; [done|]. by apply processed_refl. }
  destruct (Z.eqb_spec (word_at r n) EMPTY_RING_SIG_WORD) as [E0|E0]; cbn [negb andb].
  { assert (E : ms = []) by (subst ms; simpl pending; rewrite E0; destruct quota; [apply firstn_nil|done]).
    rewrite E. exists r. rewrite Z.add_0_r. split; [done|]. by apply processed_refl. }
  destruct (match quota with Some q => c <? q | None => true end) eqn:Eq.
  2:{ destruct quota as [q|]; [|done]. breflect.
      assert (E : ms = []) by (subst ms; simpl; by replace (Z.to_nat (q - c)) with 0%nat by lia).
      rewrite E. exists r. rewrite Z.add_0_r. split; [done|]. by apply processed_refl. }
  rewrite (poll_body_spec r w n) by done.
  set (r1 := r <| ring_mem := _ |> <| head := _ |>).
  assert (S1 : same_geom r r1) by done.
  pose proof (fun k => msg_at_mark r r1 n EMPTY_RING_SIG_WORD k G S1 eq_refl) as M.
  assert (Sl : slots r1 = slots r) by done.
  rewrite u32_small by lia.
  destruct (IH fuel r1 (callback (msg_at r n) w) (n + 1) (c + 1)) as (r' & Hr' & P).
  { apply (same_geom_wf r); [done|apply length_arr_set|done]. }
  { done. } { lia. } { rewrite Sl. lia. }
  { intros k Hk. rewrite Sl in Hk. destruct (M k) as [-> _].
    destruct (Z.eqb_spec (k mod slots r) (n mod slots r)); [done|]. apply He.
    assert (k <> n + slots r) by (intros ->; rewrite <- (Z.mul_1_l (slots r)) in n0 at 1;
      by rewrite Z_mod_plus_full in n0). lia. }
  { lia. } { lia. }
  assert (Ep : pending s r1 (n + 1) = pending s r (n + 1)).
  { apply pending_ext. intros j Hj. pose proof (slot_ne r j n G ltac:(lia) ltac:(lia)) as Hne.
    destruct (M j) as [-> Hg]. split; [zcases|by apply Hg]. }
  rewrite Ep in Hr', P.
  set (ms1 := poll_take _ (pending s r (n + 1))) in *.
  assert (E : ms = msg_at r n :: ms1).
  { subst ms ms1. simpl pending. destruct (Z.eqb_spec (word_at r n) EMPTY_RING_SIG_WORD); [done|].
    destruct quota as [q|]; [|done]. breflect. simpl.
    replace (Z.to_nat (q - c)) with (S (Z.to_nat (q - (c + 1)))) by lia. done. }
  assert (Hm1 : len ms1 < slots r).
  { pose proof (length_pending s r (n + 1)). subst ms1. destruct quota; simpl; rewrite ?length_take; lia. }
  exists r'. rewrite Hr', E. simpl length. split; [f_equal; lia|].
  replace (Z.of_nat (S (length ms1))) with (len ms1 + 1) by lia.
  eapply processed_step; [done|lia|reflexivity|done].
Qed.
End poll_loop.

Lemma pending_drop m s r n :
  (m <= length (pending s r n))%nat ->
  drop m (pending s r n) = pending (s - m) r (n + Z.of_nat m).
Proof.
  revert s n. induction m as [|m IH]; intros s n Hm.
  { by rewrite Nat.sub_0_r, Z.add_0_r. }
  destruct s as [|s]; [done|]. simpl in *. case_if; simpl in *; [lia|].
  rewrite IH by lia. f_equal. lia.
Qed.

(** An empty slot ends the pending messages. *)
Lemma pending_stop s j r n :
  word_at r (n + Z.of_nat j) = EMPTY_RING_SIG_WORD -> (j <= s)%nat -> pending s r n = pending j r n.
Proof.
  revert s n. induction j as [|j IH]; intros s n He Hj; destruct s as [|s]; try done; try lia; simpl.
  - rewrite Z.add_0_r in He. by rewrite He.
  - case_if; [done|]. f_equal. apply IH; [|lia]. rewrite <- He. f_equal. lia.
Qed.

(** After messages were processed, the rest are pending. *)
Lemma pending_processed r r' n m :
  ring_geom r -> processed r r' n (Z.of_nat m) ->
  (m <= length (pending (Z.to_nat (slots r)) r n))%nat ->
  pending (Z.to_nat (slots r)) r' (n + Z.of_nat m) = drop m (pending (Z.to_nat (slots r)) r n).
Proof.
  intros G P Hm. pose proof (length_pending (Z.to_nat (slots r)) r n) as Hlen.
  destruct (slots_spec r G) as [_ H1]. rewrite Z2Nat.id in Hlen by lia.
  rewrite pending_drop by done.
  assert (E : pending (Z.to_nat (slots r)) r' (n + Z.of_nat m) =
              pending (Z.to_nat (slots r) - m) r' (n + Z.of_nat m)).
  { destruct m as [|m]; [by rewrite Nat.sub_0_r|]. apply pending_stop; [|lia].
    replace (n + Z.of_nat (S m) + Z.of_nat (Z.to_nat (slots r) - S m)) with (n + slots r) by lia.
    assert (Ew : word_at r' (n + slots r) = word_at r' n).
    { unfold word_at, offset_of. destruct (processed_geom _ _ _ _ P) as (_ & Es & Em).
      replace (slots r') with (slots r) by (unfold slots; by rewrite Es, Em).
      by rewrite <- (Z.mul_1_l (slots r)) at 1; rewrite Z_mod_plus_full. }
    rewrite Ew, (pr_word _ _ _ _ P) by lia. zcases. }
  rewrite E. apply pending_ext. intros k Hk. rewrite (pr_msg _ _ _ _ P), (pr_word _ _ _ _ P) by lia.
  split; [zcases|done].
Qed.

Lemma slots_bound r : ring_geom r -> slots r <= 2 ^ 22.
Proof.
  intros G. pose proof (geo_bytes r G). destruct (slots_spec r G). pose proof (geo_msg _ G). nia.
Qed.

Lemma poll_take_prefix q (ms : list (list Z)) :
  (length (poll_take q ms) <= length ms)%nat /\
  poll_take q ms = take (length (poll_take q ms)) ms.
Proof.
  destruct q as [q|]; simpl; [|by rewrite firstn_all].
  rewrite length_take. split; [lia|]. destruct (decide (Z.to_nat q <= length ms)%nat).
  - by replace (Z.to_nat q `min` length ms)%nat with (Z.to_nat q) by lia.
  - rewrite Nat.min_r by lia. rewrite firstn_all. apply firstn_all2. lia.
Qed.

(** One poll with its loop, from any quota. *)
Lemma poll_once {C} (callback : list Z -> world C -> world C) quota r w n :
  ring_geom r -> head r = offset_of r n ->
  let ms := poll_take quota (pending (Z.to_nat (slots r)) r n) in
  exists r1, poll_loop callback (poll_fuel r) quota r w 0 = (r1, deliver callback w ms, len ms) /\
    processed r r1 n (len ms) /\
    pending (Z.to_nat (slots r)) r1 (n + len ms) = drop (length ms) (pending (Z.to_nat (slots r)) r n).
Proof.
  intros G Hh ms. destruct (slots_spec r G) as [_ H1]. pose proof (slots_bound r G).
  destruct (poll_loop_spec callback (Z.to_nat (slots r)) (poll_fuel r) quota r w n 0) as (r1 & E & P);
    [done|done|unfold poll_fuel, slots; lia|lia|lia|lia|lia|].
  assert (Eq : option_map (fun q => q - 0) quota = quota) by (destruct quota; simpl; f_equal; lia).
  rewrite Eq in E, P. fold ms in E, P. exists r1. rewrite Z.add_0_l in E. split_and!; [done|done|].
  apply pending_processed; [done..|]. apply poll_take_prefix.
Qed.

(** ** Sizes *)

Lemma k_size_spec fuel kb k :
  0 <= kb < 2 ^ Z.of_nat fuel ->
  k_size_loop fuel kb k = k + (if kb =? 0 then 0 else Z.log2 kb + 1).
Proof.
  revert kb k. induction fuel as [|fuel IH]; intros kb k Hk; simpl k_size_loop.
  { simpl in Hk. replace kb with 0 by lia. simpl. lia. }
  destruct (Z.ltb_spec 0 kb) as [Hp|Hp]; [|replace kb with 0 by lia; simpl; lia].
  rewrite Z.shiftr_div_pow2 by lia. change (2 ^ 1) with 2.
  rewrite Nat2Z.inj_succ, Z.pow_succ_r in Hk by lia. divmod kb 2.
  rewrite IH by lia. destruct (Z.eqb_spec kb 0); [lia|].
  destruct (Z.eqb_spec (kb / 2) 0) as [E|E].
  - replace kb with 1 by lia. simpl. lia.
  - rewrite <- Z.div2_div, Z.div2_spec, Z.log2_shiftr by lia. 
    assert (1 <= Z.log2 kb) by (change 1 with (Z.log2 2); apply Z.log2_le_mono; lia). lia.
Qed.

(** The size of a ring for [b] bytes: the power of two from 1 KB on that holds
    them. *)
Lemma ring_shift b : 1 <= b <= 2 ^ 22 ->
  let kb := (b - 1) / 2 ^ 10 in
  let k := if kb =? 0 then 0 else Z.log2 kb + 1 in
  0 <= k <= 12 /\ b <= 2 ^ (10 + k) /\ (k = 0 \/ 2 ^ (10 + k - 1) < b).
Proof.
  intros Hb kb k. subst kb k. divmod (b - 1) (2 ^ 10).
  destruct (Z.eqb_spec ((b - 1) / 2 ^ 10) 0) as [E|E].
  { change (2 ^ (10 + 0)) with (2 ^ 10). lia. }
  assert (0 < (b - 1) / 2 ^ 10) as Hp by (assert (0 <= (b - 1) / 2 ^ 10) by (apply Z.div_pos; lia); lia).
  destruct (Z.log2_spec _ Hp) as [L1 L2]. set (l := Z.log2 ((b - 1) / 2 ^ 10)) in *.
  assert (0 <= l) by apply Z.log2_nonneg.
  assert (l <= 11). { destruct (Z.le_gt_cases l 11); [done|]. pose proof (Z.pow_le_mono_r 2 12 l). lia. }
  replace (10 + (l + 1)) with (10 + Z.succ l) by lia.
  replace (10 + Z.succ l - 1) with (10 + l) by lia. rewrite !Z.pow_add_r by lia. lia.
Qed.

(** The size code, for a request that fits the largest ring and for one that
    does not. *)
Lemma validate_spec num msz :
  1 <= num -> 1 <= msz -> msz mod 16 = 0 -> num * msz < 2 ^ 32 ->
  exists m, validateRingSize num msz = (m - 6, m) /\ 10 <= m <= 22 /\
    (num * msz <= 2 ^ m \/ (m = 22 /\ 2 ^ 22 < num * msz)) /\ (m = 10 \/ 2 ^ (m - 1) < num * msz).
Proof.
  intros Hn Hm Hd Hb. unfold validateRingSize. rewrite (u32_small (num * msz)) by nia.
  rewrite modulo_spec by nia. change (2 ^ 4) with 16. rewrite Hd.
  destruct (Z.leb_spec num 0); [lia|]. destruct (Z.leb_spec msz 0); [lia|]. cbn [orb negb Z.eqb].
  change (ICP_ET_SIZE_TO_BYTES ICP_RINGSIZE_MEG_4) with (2 ^ 22).
  destruct (Z.leb_spec (num * msz) (2 ^ 22)) as [Hle|Hgt].
  - rewrite u32_small by nia. change MODULO_SHIFT_FOR_1K with 10. rewrite Z.shiftr_div_pow2 by lia.
    pose proof (ring_shift (num * msz) ltac:(nia)) as R. cbv zeta in R.
    divmod (num * msz - 1) (2 ^ 10).
    assert (0 <= (num * msz - 1) / 2 ^ 10) by (apply Z.div_pos; nia).
    rewrite k_size_spec, Z.add_0_l by (change (2 ^ Z.of_nat 32) with (2 ^ 32); lia).
    set (k := if _ =? 0 then _ else _) in *. exists (10 + k).
    change ICP_RINGSIZE_KILO_1 with 4. split_and!; [f_equal; lia|lia|lia|left; lia|lia].
  - exists 22. split_and!; [done|lia|lia|right; lia|right; lia].
Qed.

Lemma size_to_bytes m : 10 <= m -> ICP_ET_SIZE_TO_BYTES (m - 6) = 2 ^ m.
Proof.
  intros. unfold ICP_ET_SIZE_TO_BYTES. rewrite Z.shiftl_mul_pow2 by lia.
  change 64 with (2 ^ 6). rewrite <- Z.pow_add_r by lia. f_equal. lia.
Qed.

(** ** Registers *)

Lemma csr_rd_wr c b o v : ICP_ADF_CSR_RD (ICP_ADF_CSR_WR c b o v) b o = u32 v.
Proof. unfold ICP_ADF_CSR_RD, ICP_ADF_CSR_WR. by rewrite lookup_insert_eq. Qed.
Lemma csr_rd_wr_ne c b o o' v :
  o <> o' -> ICP_ADF_CSR_RD (ICP_ADF_CSR_WR c b o v) b o' = ICP_ADF_CSR_RD c b o'.
Proof. intros. unfold ICP_ADF_CSR_RD, ICP_ADF_CSR_WR. by rewrite lookup_insert_ne by congruence. Qed.
#[export] Hint Rewrite csr_rd_wr : qatrw.
#[export] Hint Rewrite csr_rd_wr_ne using lia : qatrw.

(** The base address that was written in two halves is read back. *)
Lemma base_halves v : 0 <= v < 2 ^ 64 ->
  Z.lor (Z.land (u32 (u32 (Z.land v 0xFFFFFFFF))) 0xFFFFFFFF)
    (Z.land (u64 (Z.shiftl (u32 (u32 (Z.shiftr (Z.land v 0xFFFFFFFF00000000) 32))) 32))
       0xFFFFFFFF00000000) = v.
Proof.
  intros Hv. change 0xFFFFFFFF with (Z.ones 32).
  change 0xFFFFFFFF00000000 with (Z.shiftl (Z.ones 32) 32).
  apply Z.bits_inj'. intros i Hi. bits_cases; try lia; try btauto.
  - rewrite (Z.testbit_neg_r _ (i - 32)) by lia. btauto.
  - replace (i - 32 + 32) with i by lia. btauto.
  - replace (i - 32 + 32) with i by lia. rewrite (testbit_range v 64) by lia. btauto.
Qed.

(** An address that is a multiple of the ring's size is written unchanged. *)
Lemma base_addr_gen4 addr m :
  10 <= m <= 22 -> 0 <= addr < 2 ^ 64 -> addr mod 2 ^ m = 0 ->
  BUILD_RING_BASE_ADDR_GEN4 addr (m - 6) = addr.
Proof.
  intros Hm Ha Hd. unfold BUILD_RING_BASE_ADDR_GEN4. apply Z.bits_inj'. intros i Hi.
  assert (Hl : i < m -> Z.testbit addr i = false).
  { intros. rewrite <- (Z.mod_pow2_bits_low addr m) by lia. by rewrite Hd, Z.bits_0. }
  change 0xFFFFFFFFFFFFFFFF with (Z.ones 64). rewrite testbit_u64, Z.shiftl_spec by lia.
  destruct (Z.ltb_spec i 64); [|by rewrite (testbit_range addr 64) by lia].
  destruct (Z.lt_ge_cases i 6); [rewrite Z.testbit_neg_r by lia; by rewrite Hl by lia|].
  rewrite Z.land_spec, Z.shiftr_spec, testbit_u64, Z.shiftl_spec by lia.
  replace (i - 6 + 6) with i by lia.
  destruct (Z.lt_ge_cases i m); [by rewrite Hl by lia|].
  rewrite testbit_ones by lia. zcases. btauto.
Qed.

(** ** Set-up *)

(** The message sizes of the firmware: requests of 64 or 128 bytes, responses of
    16, 32 or 64. *)
Definition msg_size_ok (msz : Z) : Prop := msz = 16 \/ msz = 32 \/ msz = 64 \/ msz = 128.

Lemma msg_size_divides msz m : msg_size_ok msz -> 10 <= m -> 2 ^ m mod msz = 0.
Proof.
  intros Hs Hm. assert (exists e, 0 <= e <= 7 /\ msz = 2 ^ e) as (e & He & ->).
  { destruct Hs as [->|[->|[->| ->]]]; [exists 4|exists 5|exists 6|exists 7]; lia. }
  replace m with (m - e + e) by lia. rewrite Z.pow_add_r by lia. apply Z.mod_mul.
  pose proof (Z.pow_pos_nonneg 2 e). lia.
Qed.

Lemma word_at_empty r k m :
  ring_geom r -> ring_mem r = empty_mem (2 ^ m) -> word_at r k = EMPTY_RING_SIG_WORD.
Proof.
  intros G E. unfold word_at. pose proof (msg_words _ G).
  pose proof (slot_bound _ G k 0 ltac:(lia)) as Hb. rewrite E in *. unfold empty_mem, arr_get in *.
  rewrite length_replicate in Hb. apply nth_lookup_Some, lookup_replicate_2. lia.
Qed.

(** What a successful set-up leaves in the handle. *)
Definition fresh_ring (r : adf_dev_ring_handle) (num msz m : Z) : Prop :=
  head r = 0 /\ tail r = 0 /\ bank_offset r = 0 /\ message_size r = msz /\ r_modulo r = m /\
  ring_size r = 2 ^ m /\ ring_mem r = empty_mem (2 ^ m) /\ max_requests_inflight r = num - 1.

Lemma fresh_ring_geom r num msz m :
  10 <= m <= 22 -> msg_size_ok msz -> fresh_ring r num msz m ->
  ring_geom r /\ slots r * msz = 2 ^ m.
Proof.
  intros Hm Hs (_ & _ & _ & Em & Emod & Es & Emem & _).
  pose proof (msg_size_divides msz m Hs ltac:(lia)) as Hd.
  assert (G : ring_geom r).
  { split; rewrite ?Em, ?Emod, ?Es, ?Emem; try done.
    - lia.
    - destruct Hs as [->|[->|[->| ->]]]; done.
    - destruct Hs as [->|[->|[->| ->]]]; done.
    - unfold empty_mem. rewrite length_replicate. apply Z2Nat.id, Z.div_pos; [|lia].
      apply Z.pow_nonneg. lia. }
  split; [done|]. destruct (slots_spec r G) as [E _]. rewrite <- Em, <- Es. lia.
Qed.

Lemma init_internal_spec lock c r bank n base num msz dev :
  r_accel_dev r = Some dev -> lock = 0 -> b_user_bank_lock bank <> 0 ->
  Z.land (b_ring_mask bank) (Z.shiftl 1 n) = 0 ->
  1 <= num < 2 ^ 32 -> msg_size_ok msz -> num * msz < 2 ^ 32 ->
  exists m c' r', 10 <= m <= 22 /\
    (num * msz <= 2 ^ m \/ (m = 22 /\ 2 ^ 22 < num * msz)) /\
    adf_init_ring_internal lock c r bank n base num msz =
      (0, c', r', bank <| b_ring_mask := u16 (Z.lor (b_ring_mask bank) (Z.shiftl 1 n)) |>) /\
    fresh_ring r' num msz m /\ ring_phys_base_addr r' = ring_phys_base_addr r /\
    ring_num r' = n /\ csr_addr r' = base /\ r_accel_dev r' = Some dev /\
    (IS_QAT_GEN4 (deviceType dev) = true -> 0 <= n < 16 ->
     read_base_gen4 c' base 0 n = u64 (BUILD_RING_BASE_ADDR_GEN4 (ring_phys_base_addr r) (m - 6))).
Proof.
  intros Hd -> Hl Hfree Hn Hs Hb.
  assert (H16 : msz mod 16 = 0 /\ 1 <= msz) by (destruct Hs as [->|[->|[->| ->]]]; split; done).
  destruct (validate_spec num msz ltac:(lia) ltac:(lia) (proj1 H16) Hb) as (m & Ev & Hm & Hfit & _).
  unfold adf_init_ring_internal. rewrite Ev. unfold adf_reserve_ring.
  destruct (Z.eqb_spec (b_user_bank_lock bank) 0); [done|]. cbn [negb Z.eqb]. rewrite Hfree.
  cbn [Z.eqb negb]. rewrite Hd, size_to_bytes by lia.
  unfold adf_io_enable_ring. simpl. rewrite Hd.
  match goal with |- context [if base =? 0 then (_, ?a) else (_, ?b)] =>
    exists m, (if base =? 0 then a else b) end.
  destruct (base =? 0) eqn:Eb; eexists; (split; [done|split; [done|split; [reflexivity|]]]);
    (split; [unfold fresh_ring; simpl; rewrite u32_small by lia; done|]); simpl;
    (split_and!; [done..|]); intros -> Hr; unfold read_base_gen4, WRITE_CSR_RING_CONFIG_GEN4,
      WRITE_CSR_RING_BASE_GEN4, update_ring; rewrite ?Eb;
    unfold ICP_RING_CSR_RING_LBASE_GEN4, ICP_RING_CSR_RING_UBASE_GEN4, ICP_RING_CSR_RING_CONFIG_GEN4,
      ICP_RING_CSR_RING_SRV_ARB_EN; rewrite !(Z.shiftl_mul_pow2 n 2) by lia; autorewrite with qatrw;
    unfold BUILD_RING_BASE_ADDR_GEN4; rewrite base_halves by apply u64_range; symmetry; apply u64_small, u64_range.
Qed.

(** ** The arbiter *)

Lemma popcount_ones s : 0 <= s <= 16 -> builtin_popcount (Z.ones s) = s.
Proof.
  intros Hs. assert (H : forallb (fun s => builtin_popcount (Z.ones s) =? s) (seqZ 0 17) = true)
    by (vm_compute; reflexivity).
  rewrite forallb_seqZ in H. apply Z.eqb_eq, H. lia.
Qed.

(** * Properties *)

(** C15. [adf_user_put_msg], on every branch.  A missing ring, message or device and a lock
    that cannot be taken are refused with nothing changed.  With room, the message is copied
    to the slot of the tail and no other slot changes, the tail and its register advance by
    one message and no other register changes, one more request is in flight, and the caller
    gets the sequence number, which then advances by one (modulo 2^64); every other field of
    the ring is kept.  Without room the ring and the counter are as before and the status asks
    for a retry.  A ring of another message size is refused, with its request left counted in
    flight.  The ring that is given is well formed, its tail is the slot of message [n], the
    message has the ring's message size, and the counter and the limit fit 32 bits. *)
Theorem put_msg_spec {C} lock ring (w : world C) inBuf n :
  (forall r, ring = Some r -> ring_geom r /\ tail r = offset_of r n /\ max_requests_inflight r < 2 ^ 32 /\
     forall buf, inBuf = Some buf -> len buf = message_size r / 4) ->
  0 <= inflight_cell w < 2 ^ 32 - 1 ->
  let '(status, ring', w', seq) := adf_user_put_msg lock ring w inBuf in
  match ring, inBuf with
  | Some r, Some buf =>
      if decide (r_accel_dev r = None) then status = CPA_STATUS_INVALID_PARAM /\ ring' = ring /\ w' = w /\ seq = None
      else if decide (lock <> 0) then status = CPA_STATUS_FAIL /\ ring' = ring /\ w' = w /\ seq = None
      else if max_requests_inflight r <=? inflight_cell w then
        status = CPA_STATUS_RETRY /\ ring' = ring /\ w' = w /\ seq = None
      else
        inflight_cell w' = inflight_cell w + 1 /\ client w' = client w /\
        if (message_size r =? 64) || (message_size r =? 128) then
          status = CPA_STATUS_SUCCESS /\ seq = Some (send_seq r) /\
          exists r', ring' = Some r' /\
            r' = r <| ring_mem := ring_mem r' |> <| tail := tail r' |> <| csrTailOffset := tail r' |>
                   <| send_seq := (send_seq r + 1) mod 2 ^ 64 |> /\
            ring_geom r' /\ tail r' = offset_of r (n + 1) /\
            (forall a o, ICP_ADF_CSR_RD (csrs w') a o =
               if decide ((a, o) = (csr_addr r, bank_offset r + ICP_RING_CSR_RING_TAIL_OFFSET + Z.shiftl (ring_num r) 2))
               then tail r' else ICP_ADF_CSR_RD (csrs w) a o) /\
            forall k, msg_at r' k = if k mod slots r =? n mod slots r then buf else msg_at r k
        else status = CPA_STATUS_FAIL /\ ring' = ring /\ csrs w' = csrs w /\ seq = None
  | _, _ => status = CPA_STATUS_INVALID_PARAM /\ ring' = ring /\ w' = w /\ seq = None
  end.
Proof.
  intros HR Hc. destruct ring as [r|]; [|done]. destruct (HR r eq_refl) as (G & Ht & Hm & Hl). clear HR.
  destruct inBuf as [buf|]; [|done]. specialize (Hl buf eq_refl).
  destruct (decide (r_accel_dev r = None)) as [Hd|Hd]; [by (unfold adf_user_put_msg; rewrite decide_True)|].
  destruct (decide (lock <> 0)) as [Hk|Hk].
  { unfold adf_user_put_msg. rewrite decide_False by done. by destruct (Z.eqb_spec lock 0). }
  assert (lock = 0) as -> by lia. destruct (Z.leb_spec (max_requests_inflight r) (inflight_cell w)) as [Hf|Hr].
  { by rewrite put_full. }
  destruct ((message_size r =? 64) || (message_size r =? 128)) eqn:Es.
  - assert (R : request_ring r) by (split; [breflect; destruct Es; breflect; auto|done]).
    rewrite (put_room r w buf n) by (done || lia). simpl.
    split_and!; [done..|]. pose proof (offset_range r G (n + 1)). pose proof (geo_bytes r G).
    eexists. split; [reflexivity|]. simpl.
    split_and!; [done|apply (same_geom_wf r); [done|apply length_write_words|done]|done| |].
    + intros a o. unfold WRITE_CSR_RING_TAIL, ICP_ADF_CSR_WR, ICP_ADF_CSR_RD. case_decide as E.
      * injection E as -> ->. rewrite lookup_insert_eq. apply u32_small. lia.
      * by rewrite lookup_insert_ne.
    + intros k. by eapply (msg_at_write r _ n buf k).
  - breflect. unfold adf_user_put_msg. rewrite decide_False by done. cbn [Z.eqb negb].
    unfold sync_add; simpl. rewrite u32_small by lia.
    destruct (Z.ltb_spec (max_requests_inflight r) (inflight_cell w + 1)); [lia|].
    unfold ADF_MSG_SIZE_64_BYTES, ADF_MSG_SIZE_128_BYTES.
    destruct (Z.eqb_spec (message_size r) 64); [done|].
    destruct (Z.eqb_spec (message_size r) 128); [done|]. done.
Qed.

(** A device, and a bank whose lock is there. *)
Definition dev_4xxx : accel_dev := mk_accel_dev 0 DEVICE_4XXX 0 4 16 0xff.
Definition bank_0 : adf_dev_bank_handle := mk_bank 0 0 0 0 1 0xff 0 0x1000 0x9000 1 (Some ∅) 16 0.

(** A request ring of 64 messages of 128 bytes and a response ring of 64
    messages of 32 bytes, as they are set up. *)
Definition tx_ring : adf_dev_ring_handle :=
  (adf_init_ring_internal 0 ∅ (zero_ring <| r_accel_dev := Some dev_4xxx |>) bank_0 0 0x1000 64 128).1.2.
Definition rx_ring : adf_dev_ring_handle :=
  (adf_init_ring_internal 0 ∅ (zero_ring <| r_accel_dev := Some dev_4xxx |>) bank_0 8 0x1000 64 32).1.2.
Definition world_0 : world (list (list Z)) := mk_world 0 ∅ [].

Lemma tx_ring_geom : ring_geom tx_ring.
Proof. split; vm_compute; done. Qed.
Lemma rx_ring_geom : ring_geom rx_ring.
Proof. split; vm_compute; done. Qed.

Lemma put_msg_spec_witness :
  let '(status, ring, w', _) := adf_user_put_msg 0 (Some tx_ring) world_0 (Some (replicate 32 5)) in
  status = CPA_STATUS_SUCCESS /\ inflight_cell w' = 1.
Proof.
  pose proof (put_msg_spec 0 (Some tx_ring) world_0 (Some (replicate 32 5)) 0) as H.
  destruct (adf_user_put_msg 0 (Some tx_ring) world_0 (Some (replicate 32 5))) as [[[st ring] w'] seq].
  destruct H as (Hc & _ & Hs & _).
  - intros r [= <-]. split_and!; [apply tx_ring_geom|vm_compute; done|vm_compute; done|].
    intros buf [= <-]. vm_compute. done.
  - vm_compute. done.
  - by split.
Defined.

(** C16. A poll of the response ring ([adf_user_notify_msgs_poll]) gives the
    callback, in ring order and each once, the pending messages up to the
    quota, and no other.  The messages beyond the quota stay pending.  The
    counter of requests in flight goes down by the number delivered, and the
    head register is written when more than [coal_write_count] messages were
    delivered or the ring uses interrupts.  It reports success exactly when
    something was delivered. *)
Theorem poll_delivers {C} (callback : list Z -> world C -> world C) r w n :
  ring_geom r -> head r = offset_of r n ->
  let quota := if ringResponseQuota r =? 0 then ICP_NO_RESPONSE_QUOTA else ringResponseQuota r in
  let all := pending (Z.to_nat (slots r)) r n in
  let ms := take (Z.to_nat quota) all in
  let w1 := deliver callback w ms in
  exists r' w', adf_user_notify_msgs_poll callback r w =
      (if (length ms =? 0)%nat then CPA_STATUS_RETRY else CPA_STATUS_SUCCESS, r', w') /\
    ring_geom r' /\ head r' = offset_of r (n + len ms) /\ tail r' = tail r /\
    pending (Z.to_nat (slots r)) r' (n + len ms) = drop (length ms) all /\
    client w' = client w1 /\
    inflight_cell w' = (if (length ms =? 0)%nat then inflight_cell w else u32 (inflight_cell w1 - len ms)) /\
    csrs w' =
      (if (coal_write_count r <? len ms) || (bool_decide (resp r = ICP_RESP_TYPE_IRQ) && (0 <? len ms))
       then if (length ms =? 0)%nat then csrs w else
         WRITE_CSR_RING_HEAD (csrs w1) (csr_addr r) (bank_offset r) (ring_num r) (head r')
       else csrs w1).
Proof.
  intros G Hh quota all ms w1.
  destruct (poll_once callback (Some quota) r w n G Hh) as (r1 & E & P & Hp).
  change (poll_take (Some quota) (pending (Z.to_nat (slots r)) r n)) with ms in *.
  assert (G1 : ring_geom r1).
  { apply (same_geom_wf r); [by eapply processed_geom|apply P|done]. }
  unfold adf_user_notify_msgs_poll.
  replace (if negb (ringResponseQuota r =? 0) then _ else _) with quota
    by (subst quota; by destruct (ringResponseQuota r =? 0)).
  rewrite E. pose proof (pr_ring _ _ _ _ P) as Er.
  destruct (Z.ltb_spec 0 (len ms)) as [Hpos|Hz].
  - assert ((length ms =? 0)%nat = false) as -> by (apply Nat.eqb_neq; lia).
    unfold poll_finish. rewrite andb_true_r.
    replace (coal_write_count r1) with (coal_write_count r) by (by rewrite Er).
    replace (resp r1) with (resp r) by (by rewrite Er).
    destruct ((coal_write_count r <? len ms) || bool_decide (resp r = ICP_RESP_TYPE_IRQ));
      eexists _, _; (split; [reflexivity|]);
      (split; [apply (same_geom_wf r1); done|]);
      (split; [simpl; by rewrite Er|]); (split; [simpl; by rewrite Er|]);
      (split; [erewrite pending_ext; [exact Hp|done]|]); split_and!; try done;
      simpl; rewrite Er; done.
  - assert (Hnil : ms = []) by (destruct ms; [done|simpl in Hz; lia]).
    subst w1. clearbody ms. subst ms. exists r1, w. split_and!; try done; try (by rewrite Er).
    by destruct (_ || _).
Qed.

(** The callback that records what it is given. *)
Definition log_cb (m : list Z) (w : world (list (list Z))) : world (list (list Z)) :=
  w <| client := client w ++ [m] |>.

(** The response ring with one response on it. *)
Definition rx_ring_1 : adf_dev_ring_handle :=
  rx_ring <| ring_mem := write_words (ring_mem rx_ring) 0 (replicate 8 1) |>.

Lemma rx_ring_1_geom : ring_geom rx_ring_1.
Proof. split; vm_compute; done. Qed.

Lemma poll_delivers_witness :
  exists r' w', adf_user_notify_msgs_poll log_cb rx_ring_1 world_0 = (CPA_STATUS_SUCCESS, r', w') /\
    client w' = [replicate 8 1].
Proof.
  destruct (poll_delivers log_cb rx_ring_1 world_0 0 rx_ring_1_geom) as (r' & w' & E & _ & _ & _ & _ & Hc & _);
    [vm_compute; reflexivity|].
  exists r', w'. split; [rewrite E; f_equal|rewrite Hc]; vm_compute; reflexivity.
Defined.

(** [adf_user_notify_msgs], which has no quota, drains the ring: it ends
    after delivering every pending message in order, and leaves the head slot
    empty. *)
Theorem notify_msgs_drains {C} (callback : list Z -> world C -> world C) r w n :
  ring_geom r -> head r = offset_of r n ->
  let all := pending (Z.to_nat (slots r)) r n in
  exists r' w', adf_user_notify_msgs callback (Some r) w = (0, Some r', w') /\
    head r' = offset_of r (n + len all) /\ client w' = client (deliver callback w all) /\
    head_word r' = EMPTY_RING_SIG_WORD.
Proof.
  intros G Hh all. destruct (poll_once callback None r w n G Hh) as (r1 & E & P & Hp).
  change (poll_take None (pending (Z.to_nat (slots r)) r n)) with all in *.
  pose proof (pr_ring _ _ _ _ P) as Er. destruct (slots_spec r G) as [_ H1].
  assert (Hh1 : head r1 = offset_of r1 (n + len all))
    by (rewrite (same_geom_offset r r1) by (by eapply processed_geom); by rewrite Er).
  assert (He : head_word r1 = EMPTY_RING_SIG_WORD).
  { unfold head_word. rewrite Hh1. fold (word_at r1 (n + len all)). fold all in Hp. rewrite drop_all in Hp.
    destruct (Z.to_nat (slots r)) eqn:Es; [lia|]. simpl in Hp. case_if; done. }
  unfold adf_user_notify_msgs. rewrite E.
  destruct (0 <? len all); [unfold poll_finish; case_if|]; eexists _, _;
    (split; [reflexivity|split_and!; [simpl; by rewrite Er|done|done]]).
Qed.

Lemma notify_msgs_drains_witness :
  exists r' w', adf_user_notify_msgs log_cb (Some rx_ring_1) world_0 = (0, Some r', w') /\
    head_word r' = EMPTY_RING_SIG_WORD.
Proof.
  destruct (notify_msgs_drains log_cb rx_ring_1 world_0 0 rx_ring_1_geom) as (r' & w' & E & _ & _ & H);
    [vm_compute; reflexivity|].
  exists r', w'. by split.
Defined.

(** Setting up a ring ([adf_init_ring_internal]) on a free ring of the bank
    succeeds and leaves a ring whose size is a power of two of whole messages,
    empty, with its number marked in the bank and its base address readable
    from the registers.  The counter's limit leaves the ring with a slot to
    spare exactly when the requested messages fit the 4 MB of the largest ring;
    past that, more requests can be in flight than the ring has slots. *)
Theorem init_ring_ready c r bank n base num msz dev :
  r_accel_dev r = Some dev -> IS_QAT_GEN4 (deviceType dev) = true -> b_user_bank_lock bank <> 0 ->
  0 <= n < 16 -> Z.testbit (b_ring_mask bank) n = false ->
  1 <= num < 2 ^ 32 -> msg_size_ok msz -> num * msz < 2 ^ 32 ->
  0 <= ring_phys_base_addr r < 2 ^ 64 -> ring_phys_base_addr r mod 2 ^ 22 = 0 ->
  exists c' r' bank', adf_init_ring_internal 0 c r bank n base num msz = (0, c', r', bank') /\
    ring_geom r' /\ head r' = offset_of r' 0 /\ tail r' = offset_of r' 0 /\
    pending (Z.to_nat (slots r')) r' 0 = [] /\ message_size r' = msz /\
    Z.testbit (b_ring_mask bank') n = true /\
    read_base_gen4 c' base 0 n = ring_phys_base_addr r /\
    (max_requests_inflight r' < slots r' <-> num * msz <= 2 ^ 22).
Proof.
  intros Hd Hg Hl Hn Hfree Hnum Hs Hb Hp Ha.
  assert (Hland : Z.land (b_ring_mask bank) (Z.shiftl 1 n) = 0).
  { apply Z.bits_inj'. intros i Hi. rewrite Z.land_spec, Z.bits_0, Z.shiftl_1_l, Z.pow2_bits_eqb by lia.
    destruct (Z.eqb_spec n i) as [<-|]; [by rewrite Hfree|apply andb_false_r]. }
  destruct (init_internal_spec 0 c r bank n base num msz dev Hd eq_refl Hl Hland Hnum Hs Hb)
    as (m & c' & r' & Hm & Hfit & E & F & Ep & _ & _ & _ & Hbase).
  destruct (fresh_ring_geom r' num msz m Hm Hs F) as [G Hsl].
  pose proof F as (Fh & Ft & _ & Fm & _ & _ & Fmem & Fmax).
  assert (Hd22 : ring_phys_base_addr r mod 2 ^ m = 0).
  { apply Z.mod_divide in Ha as [q ->]; [|lia]. replace 22 with (22 - m + m) by lia.
    rewrite Z.pow_add_r, Z.mul_assoc by lia. apply Z.mod_mul. pose proof (Z.pow_pos_nonneg 2 m). lia. }
  exists c', r', (bank <| b_ring_mask := u16 (Z.lor (b_ring_mask bank) (Z.shiftl 1 n)) |>).
  destruct (slots_spec r' G) as [_ H1].
  assert (Hoff : offset_of r' 0 = 0) by (unfold offset_of; by rewrite Z.mod_0_l by lia).
  split_and!; try done; try (by rewrite Hoff).
  - destruct (Z.to_nat (slots r')); [done|]. simpl. by rewrite (word_at_empty r' 0 m).
  - simpl. unfold u16. rewrite Z.mod_pow2_bits_low, Z.lor_spec, Z.shiftl_1_l, Z.pow2_bits_true by lia.
    apply orb_true_r.
  - rewrite Hbase by done. rewrite base_addr_gen4 by done. by apply u64_small.
  - rewrite Fmax. assert (1 <= msz) by (destruct Hs as [->|[->|[->| ->]]]; lia).
    pose proof (Z.pow_le_mono_r 2 m 22). destruct Hfit as [Hfit|[-> Hfit]]; nia.
Qed.

Lemma init_ring_ready_witness :
  exists r', (adf_init_ring_internal 0 ∅ (zero_ring <| r_accel_dev := Some dev_4xxx |>) bank_0 0 0x1000 64 128).1.2 = r' /\
    ring_geom r' /\ max_requests_inflight r' < slots r'.
Proof.
  destruct (init_ring_ready ∅ (zero_ring <| r_accel_dev := Some dev_4xxx |>) bank_0 0 0x1000 64 128 dev_4xxx)
    as (c' & r' & b' & E & G & _ & _ & _ & _ & _ & _ & H);
    [done|done|done|lia|done|lia|by (right; right; right)|lia|done|done|].
  exists r'. rewrite E. split; [done|]. split; [done|]. apply H. lia.
Defined.

(** The arbiter register enables request ring [i] exactly when both the
    request ring [i] and its response ring are reserved in the bank, so the
    device never starts on a pair that is half set up.  [s] is the number of
    rings in the arbiter mask. *)
Theorem arbiter_enables_pairs c base offset ring_mask s i :
  base <> 0 -> 0 <= s <= 16 -> 0 <= ring_mask < 2 ^ 32 -> 0 <= i ->
  let c' := update_ring c base offset ring_mask (Z.ones s) in
  Z.testbit (ICP_ADF_CSR_RD c' base (offset + ICP_RING_CSR_RING_SRV_ARB_EN)) i =
  (i <? s) && Z.testbit ring_mask i && Z.testbit ring_mask (i + s).
Proof.
  intros Hb Hs Hm Hi c'. subst c'. unfold update_ring. destruct (Z.eqb_spec base 0); [done|].
  rewrite csr_rd_wr, testbit_u32, popcount_ones, !Z.land_spec, Z.shiftr_spec by done.
  rewrite testbit_ones by lia. zcases; btauto.
Qed.

Lemma arbiter_enables_pairs_witness :
  Z.testbit (ICP_ADF_CSR_RD (update_ring ∅ 0x1000 0 0x101 (Z.ones 8)) 0x1000 0x19C) 0 = true.
Proof.
  pose proof (arbiter_enables_pairs ∅ 0x1000 0 0x101 8 0 ltac:(lia) ltac:(lia) ltac:(lia) ltac:(lia)) as H.
  exact H.
Defined.

Lemma poll_loop_quota_field {C} (callback : list Z -> world C -> world C) fuel quota r w c q :
  poll_loop callback fuel quota (r <| ringResponseQuota := q |>) w c =
  let '(r', w', c') := poll_loop callback fuel quota r w c in (r' <| ringResponseQuota := q |>, w', c').
Proof.
  revert r w c. induction fuel as [|fuel IH]; intros r w c; [done|]. cbn [poll_loop].
  change (head_word (r <| ringResponseQuota := q |>)) with (head_word r).
  destruct (negb (head_word r =? EMPTY_RING_SIG_WORD) && _); [|done]. unfold poll_body. simpl.
  specialize (IH (r <| ring_mem := (ring_mem r).[head r / 4 <- EMPTY_RING_SIG_WORD] |>
    <| head := next_offset r (head r) |>) (callback (head_msg r) w) (u32 (c + 1))).
  simpl in IH. exact IH.
Qed.

(** The data-plane poll is the poll of the traditional interface with the
    quota given as an argument instead of in the handle, for a ring that does
    not use interrupts. *)
Theorem pollQueue_is_poll {C} (callback : list Z -> world C -> world C) r w quota :
  resp r <> ICP_RESP_TYPE_IRQ ->
  let '(s1, r1, w1) := icp_adf_pollQueue callback r w quota in
  adf_user_notify_msgs_poll callback (r <| ringResponseQuota := quota |>) w =
    (s1, r1 <| ringResponseQuota := quota |>, w1).
Proof.
  intros Hr. unfold icp_adf_pollQueue, adf_user_notify_msgs_poll.
  change (Ring.ringResponseQuota (r <| ringResponseQuota := quota |>)) with quota.
  change (poll_fuel (r <| ringResponseQuota := quota |>)) with (poll_fuel r).
  replace (if negb (quota =? 0) then quota else ICP_NO_RESPONSE_QUOTA) with
    (if quota =? 0 then ICP_NO_RESPONSE_QUOTA else quota) by (by destruct (quota =? 0)).
  rewrite poll_loop_quota_field.
  assert (Hresp : forall fuel q r0 w0 c0, resp (poll_loop callback fuel q r0 w0 c0).1.1 = resp r0).
  { induction fuel as [|fuel IH]; intros; cbn [poll_loop]; [done|]. case_if; [|done].
    unfold poll_body. by rewrite IH. }
  specialize (Hresp (poll_fuel r) (Some (if quota =? 0 then ICP_NO_RESPONSE_QUOTA else quota)) r w 0).
  destruct (poll_loop _ _ _ r w 0) as [[r1 w1] c1]. simpl in Hresp.
  destruct (0 <? c1); [|done]. unfold poll_finish.
  change (resp (r1 <| ringResponseQuota := quota |>)) with (resp r1).
  rewrite Hresp, bool_decide_eq_false_2 by done. simpl. by destruct ((_ <? _) || false).
Qed.

Lemma pollQueue_is_poll_witness :
  (adf_user_notify_msgs_poll log_cb (rx_ring_1 <| ringResponseQuota := 7 |>) world_0).1.1 =
  (icp_adf_pollQueue log_cb rx_ring_1 world_0 7).1.1.
Proof.
  pose proof (pollQueue_is_poll log_cb rx_ring_1 world_0 7 ltac:(done)) as H.
  destruct (icp_adf_pollQueue log_cb rx_ring_1 world_0 7) as [[s1 r1] w1]. by rewrite H.
Defined.
