(* ===== verification/RingSys.v ===== *)
(** * A pair of rings and the device

    The operations of [Ring] on a request ring and its response ring, interleaved
    with a device that fetches requests and writes responses.  The steps of a
    poll interleave with puts and with the device; a put is one step, since it
    runs under the ring's lock.  The invariant ties the memory of the rings to
    the sequences of messages sent, fetched, answered and delivered; from it
    follow that nothing is overwritten or lost, that both rings are first in,
    first out, and that the shared counter is exact. *)

From S2P Require Import Prelude Ring.

(** ** The system *)

(** [sent] and [produced] are the messages written to the two rings so far,
    [fetched] the requests the device has read; what was delivered is in the
    client's log.  [dev_head] and [dev_tail] are the offsets the device keeps;
    [polling] is the message counter of the poll that runs.  [published] and
    [reported] count the requests and the responses that the tail and the head
    register tell the device of. *)
Record sys := mk_sys {
  tx : adf_dev_ring_handle; rx : adf_dev_ring_handle; wd : world (list (list Z));
  sent : list (list Z); fetched : list (list Z); produced : list (list Z);
  dev_head : Z; dev_tail : Z; polling : option Z; published : Z; reported : Z
}.

Definition tail_csr (r : adf_dev_ring_handle) : Z :=
  bank_offset r + ICP_RING_CSR_RING_TAIL_OFFSET + Z.shiftl (ring_num r) 2.
Definition head_csr (r : adf_dev_ring_handle) : Z :=
  bank_offset r + ICP_RING_CSR_RING_HEAD_OFFSET + Z.shiftl (ring_num r) 2.

(** The steps.  The device may write any response whose first word is not the
    empty signature, one for each request it fetched, in any order. *)
Inductive sys_step : sys -> sys -> Prop :=
| step_put s msg st tx' w' seq :
    len msg = message_size (tx s) / 4 ->
    adf_user_put_msg 0 (Some (tx s)) (wd s) (Some msg) = (st, Some tx', w', seq) ->
    sys_step s (mk_sys tx' (rx s) w'
      (if st =? CPA_STATUS_SUCCESS then sent s ++ [msg] else sent s) (fetched s) (produced s)
      (dev_head s) (dev_tail s) (polling s)
      (if st =? CPA_STATUS_SUCCESS then len (sent s) + 1 else published s) (reported s))
| step_dp_put s msg tx' w' off :
    len msg = message_size (tx s) / 4 ->
    icp_adf_getSingleQueueAddr (tx s) (wd s) = (tx', w', Some off) ->
    sys_step s (mk_sys (tx' <| ring_mem := write_words (ring_mem tx') (off / 4) msg |>) (rx s) w'
      (sent s ++ [msg]) (fetched s) (produced s) (dev_head s) (dev_tail s) (polling s)
      (published s) (reported s))
| step_dp_update s tx' w' :
    icp_adf_updateQueueTail (tx s) (wd s) = (tx', w') ->
    sys_step s (mk_sys tx' (rx s) w' (sent s) (fetched s) (produced s) (dev_head s) (dev_tail s)
      (polling s) (len (sent s)) (reported s))
| step_fetch s :
    dev_head s <> ICP_ADF_CSR_RD (csrs (wd s)) (csr_addr (tx s)) (tail_csr (tx s)) ->
    sys_step s (mk_sys (tx s) (rx s) (wd s) (sent s)
      (fetched s ++ [read_words (ring_mem (tx s)) (dev_head s / 4) (message_size (tx s) / 4)])
      (produced s) ((dev_head s + message_size (tx s)) mod ring_size (tx s)) (dev_tail s)
      (polling s) (published s) (reported s))
| step_respond s msg :
    len (produced s) < len (fetched s) ->
    len msg = message_size (rx s) / 4 -> msg.[0] <> EMPTY_RING_SIG_WORD ->
    sys_step s (mk_sys (tx s)
      ((rx s) <| ring_mem := write_words (ring_mem (rx s)) (dev_tail s / 4) msg |>) (wd s)
      (sent s) (fetched s) (produced s ++ [msg]) (dev_head s)
      ((dev_tail s + message_size (rx s)) mod ring_size (rx s)) (polling s)
      (published s) (reported s))
| step_poll_start s :
    polling s = None ->
    sys_step s (mk_sys (tx s) (rx s) (wd s) (sent s) (fetched s) (produced s) (dev_head s)
      (dev_tail s) (Some 0) (published s) (reported s))
| step_poll_msg s c rx' w' :
    polling s = Some c -> head_word (rx s) <> EMPTY_RING_SIG_WORD ->
    c < 2 ^ 32 - 1 ->
    poll_body log_cb (rx s) (wd s) = (rx', w') ->
    sys_step s (mk_sys (tx s) rx' w' (sent s) (fetched s) (produced s) (dev_head s) (dev_tail s)
      (Some (u32 (c + 1))) (published s) (reported s))
| step_poll_end s c rx' w' :
    polling s = Some c ->
    (if 0 <? c then poll_finish (bool_decide (resp (rx s) = ICP_RESP_TYPE_IRQ)) (rx s) (wd s) c
     else (rx s, wd s)) = (rx', w') ->
    sys_step s (mk_sys (tx s) rx' w' (sent s) (fetched s) (produced s) (dev_head s) (dev_tail s)
      None (published s)
      (if (0 <? c) && ((coal_write_count (rx s) <? c) || bool_decide (resp (rx s) = ICP_RESP_TYPE_IRQ))
       then len (client (wd s)) else reported s)).

(** A pair of rings ready for use. *)
Record ring_pair (t r : adf_dev_ring_handle) : Prop := {
  pair_tx : ring_geom t;
  pair_rx : ring_geom r;
  pair_req : request_ring t;
  pair_csr : csr_addr t = csr_addr r;
  pair_off : bank_offset t = 0 /\ bank_offset r = 0;
  pair_num : 0 <= ring_num t < 16 /\ 0 <= ring_num r < 16;
  pair_max : 1 <= max_requests_inflight t < slots t /\ max_requests_inflight t < slots r;
  pair_resps : 0 <= min_resps_per_head_write r < 2 ^ 32
}.

Record pair_ready (t r : adf_dev_ring_handle) : Prop := {
  rdy_pair : ring_pair t r;
  rdy_tx : tail t = 0;
  rdy_rx : head r = 0 /\ coal_write_count r = 0;
  rdy_mem : forall k, word_at r k = EMPTY_RING_SIG_WORD
}.

Definition sys_init (t r : adf_dev_ring_handle) : sys :=
  mk_sys t r (mk_world 0 ∅ []) [] [] [] 0 0 None 0 0.

(** ** The invariant *)

Record sys_inv (s : sys) : Prop := {
  inv_pair : ring_pair (tx s) (rx s);
  (* how far each stage has come *)
  inv_pub : len (fetched s) <= published s <= len (sent s);
  inv_prod : len (produced s) <= len (fetched s);
  inv_deliv : len (client (wd s)) <= len (produced s);
  inv_poll : 0 <= default 0 (polling s) <= len (client (wd s));
  inv_cell : inflight_cell (wd s) = len (sent s) - len (client (wd s)) + default 0 (polling s);
  inv_max : inflight_cell (wd s) <= max_requests_inflight (tx s);
  (* offsets and registers *)
  inv_tail : tail (tx s) = offset_of (tx s) (len (sent s));
  inv_csr : ICP_ADF_CSR_RD (csrs (wd s)) (csr_addr (tx s)) (tail_csr (tx s)) =
              offset_of (tx s) (published s);
  inv_dhead : dev_head s = offset_of (tx s) (len (fetched s));
  inv_dtail : dev_tail s = offset_of (rx s) (len (produced s));
  inv_head : head (rx s) = offset_of (rx s) (len (client (wd s)));
  (* messages *)
  inv_fetched : fetched s = take (length (fetched s)) (sent s);
  inv_client : client (wd s) = take (length (client (wd s))) (produced s);
  inv_txmem : forall k, len (fetched s) <= k < len (sent s) ->
    sent s !! Z.to_nat k = Some (msg_at (tx s) k);
  inv_rxmem : forall k, len (client (wd s)) <= k < len (produced s) ->
    produced s !! Z.to_nat k = Some (msg_at (rx s) k) /\ word_at (rx s) k <> EMPTY_RING_SIG_WORD;
  inv_rxempty : forall k, len (produced s) <= k < len (client (wd s)) + slots (rx s) ->
    word_at (rx s) k = EMPTY_RING_SIG_WORD;
  (* the head register *)
  inv_coal : 0 <= coal_write_count (rx s);
  inv_rep : 0 <= reported s <= len (client (wd s)) - default 0 (polling s);
  inv_lag : len (client (wd s)) - default 0 (polling s) - reported s + coal_write_count (rx s) <=
              min_resps_per_head_write (rx s);
  inv_hcsr : ICP_ADF_CSR_RD (csrs (wd s)) (csr_addr (rx s)) (head_csr (rx s)) =
               offset_of (rx s) (reported s)
}.

(** ** Lemmas for the steps *)

Lemma ring_pair_ext t t' r r' :
  ring_pair t r -> same_geom t t' -> same_geom r r' ->
  length (ring_mem t') = length (ring_mem t) -> length (ring_mem r') = length (ring_mem r) ->
  (csr_addr t', bank_offset t', ring_num t', max_requests_inflight t', r_accel_dev t') =
  (csr_addr t, bank_offset t, ring_num t, max_requests_inflight t, r_accel_dev t) ->
  (csr_addr r', bank_offset r', ring_num r', min_resps_per_head_write r') =
  (csr_addr r, bank_offset r, ring_num r, min_resps_per_head_write r) ->
  ring_pair t' r'.
Proof.
  intros [Gt Gr [Hm Hd] Hc Ho Hn Hx Hp] St Sr Lt Lr Et Er.
  injection Et as E1 E2 E3 E4 E5. injection Er as F1 F2 F3 F4.
  pose proof St as (_ & St2 & St3). pose proof Sr as (_ & Sr2 & Sr3).
  split; rewrite ?E1, ?E2, ?E3, ?E4, ?F1, ?F2, ?F3, ?F4; try done.
  - by apply (same_geom_wf t).
  - by apply (same_geom_wf r).
  - split; [by rewrite St3|by rewrite E5].
  - unfold slots in *. by rewrite St2, St3, Sr2, Sr3.
Qed.

Lemma dev_next r k : ring_geom r ->
  (offset_of r k + message_size r) mod ring_size r = offset_of r (k + 1).
Proof.
  intros G. rewrite <- next_offset_spec by done. unfold next_offset.
  pose proof (offset_range r G k). pose proof (geo_bytes r G). destruct (slots_spec r G).
  pose proof (geo_msg _ G). assert (message_size r <= ring_size r) by nia.
  rewrite u32_small by lia. rewrite modulo_spec by (lia || apply G). by rewrite (geo_size _ G).
Qed.

Lemma csr_disjoint t r : ring_pair t r -> tail_csr t <> head_csr r.
Proof.
  intros P. destruct (pair_off _ _ P) as [Et Er]. destruct (pair_num _ _ P).
  unfold tail_csr, head_csr. rewrite Et, Er, !Z.shiftl_mul_pow2 by lia.
  unfold ICP_RING_CSR_RING_TAIL_OFFSET, ICP_RING_CSR_RING_HEAD_OFFSET. lia.
Qed.

Lemma rd_tail c t v : ICP_ADF_CSR_RD
  (WRITE_CSR_RING_TAIL c (csr_addr t) (bank_offset t) (ring_num t) v) (csr_addr t) (tail_csr t) = u32 v.
Proof. apply csr_rd_wr. Qed.
Lemma rd_head c r v : ICP_ADF_CSR_RD
  (WRITE_CSR_RING_HEAD c (csr_addr r) (bank_offset r) (ring_num r) v) (csr_addr r) (head_csr r) = u32 v.
Proof. apply csr_rd_wr. Qed.
Lemma rd_head_tail c t r v : ring_pair t r -> ICP_ADF_CSR_RD
  (WRITE_CSR_RING_TAIL c (csr_addr t) (bank_offset t) (ring_num t) v) (csr_addr r) (head_csr r) =
  ICP_ADF_CSR_RD c (csr_addr r) (head_csr r).
Proof. intros P. rewrite <- (pair_csr _ _ P). apply csr_rd_wr_ne. by apply csr_disjoint. Qed.
Lemma rd_tail_head c t r v : ring_pair t r -> ICP_ADF_CSR_RD
  (WRITE_CSR_RING_HEAD c (csr_addr r) (bank_offset r) (ring_num r) v) (csr_addr t) (tail_csr t) =
  ICP_ADF_CSR_RD c (csr_addr t) (tail_csr t).
Proof. intros P. rewrite (pair_csr _ _ P). apply csr_rd_wr_ne. intros E. by eapply csr_disjoint. Qed.

Lemma u32_offset r k : ring_geom r -> u32 (offset_of r k) = offset_of r k.
Proof. intros G. apply u32_small. pose proof (offset_range r G k). pose proof (geo_bytes r G). lia. Qed.

(** One more request in the ring: it is where the tail was, and the earlier ones
    that the device has not fetched are where they were. *)
Lemma txmem_snoc t t' (l : list (list Z)) msg f :
  ring_geom t -> same_geom t t' -> len msg = message_size t / 4 ->
  ring_mem t' = write_words (ring_mem t) (offset_of t (len l) / 4) msg ->
  0 <= f -> len l - f < slots t ->
  (forall k, f <= k < len l -> l !! Z.to_nat k = Some (msg_at t k)) ->
  forall k, f <= k < len (l ++ [msg]) -> (l ++ [msg]) !! Z.to_nat k = Some (msg_at t' k).
Proof.
  intros G S Hl Hm Hf0 Hf H k Hk. rewrite length_app in Hk. simpl in Hk.
  destruct (msg_at_write t t' (len l) msg k G S Hl Hm) as [-> _].
  destruct (Z.eqb_spec k (len l)) as [->|Hne].
  - rewrite Z.eqb_refl, lookup_app_r, Nat2Z.id, Nat.sub_diag by lia. done.
  - pose proof (slot_ne t k (len l) G Hne ltac:(lia)).
    destruct (Z.eqb_spec (k mod slots t) (len l mod slots t)); [done|].
    rewrite lookup_app_l by lia. apply H. lia.
Qed.

Lemma take_snoc {A} (l : list A) n x :
  l !! n = Some x -> take n l ++ [x] = take (S n) l.
Proof. intros. symmetry. by apply take_S_r. Qed.

Lemma take_app_keep {A} (l1 l2 : list A) n : (n <= length l1)%nat -> take n (l1 ++ l2) = take n l1.
Proof. intros. by rewrite take_app_le. Qed.

(** ** Every step keeps the invariant *)

Section preservation.
Context (s : sys) (I : sys_inv s).

Lemma inv_room : len (sent s) - len (fetched s) <= inflight_cell (wd s) /\
  len (produced s) - len (client (wd s)) <= inflight_cell (wd s) /\
  0 <= inflight_cell (wd s) < 2 ^ 32 - 1.
Proof using I.
  pose proof (inv_pub _ I). pose proof (inv_prod _ I). pose proof (inv_deliv _ I).
  pose proof (inv_poll _ I). pose proof (inv_cell _ I). pose proof (inv_max _ I).
  pose proof (pair_max _ _ (inv_pair _ I)).
  pose proof (slots_bound _ (pair_tx _ _ (inv_pair _ I))). lia.
Qed.

Lemma enqueue_inv tx' w' msg pub' :
  inflight_cell (wd s) < max_requests_inflight (tx s) -> len msg = message_size (tx s) / 4 ->
  same_geom (tx s) tx' ->
  ring_mem tx' = write_words (ring_mem (tx s)) (offset_of (tx s) (len (sent s)) / 4) msg ->
  tail tx' = offset_of (tx s) (len (sent s) + 1) ->
  (csr_addr tx', bank_offset tx', ring_num tx', max_requests_inflight tx', r_accel_dev tx') =
  (csr_addr (tx s), bank_offset (tx s), ring_num (tx s), max_requests_inflight (tx s), r_accel_dev (tx s)) ->
  inflight_cell w' = inflight_cell (wd s) + 1 -> client w' = client (wd s) ->
  ICP_ADF_CSR_RD (csrs w') (csr_addr (tx s)) (tail_csr (tx s)) = offset_of (tx s) pub' ->
  ICP_ADF_CSR_RD (csrs w') (csr_addr (rx s)) (head_csr (rx s)) =
    ICP_ADF_CSR_RD (csrs (wd s)) (csr_addr (rx s)) (head_csr (rx s)) ->
  len (fetched s) <= pub' <= len (sent s) + 1 ->
  sys_inv (mk_sys tx' (rx s) w' (sent s ++ [msg]) (fetched s) (produced s) (dev_head s) (dev_tail s)
             (polling s) pub' (reported s)).
Proof using I.
  intros Hroom Hl S Hm Ht Hf Hc Hcl Hcsr Hcsr' Hp. pose proof inv_room as (Hr1 & Hr2 & Hr3).
  pose proof (pair_max _ _ (inv_pair _ I)) as Hmax.
  assert (Lsent : len (sent s ++ [msg]) = len (sent s) + 1) by (rewrite length_app; simpl; lia).
  injection Hf as E1 E2 E3 E4 E5.
  assert (Et : tail_csr tx' = tail_csr (tx s)) by (unfold tail_csr; by rewrite E2, E3).
  destruct I as [P I2 I3 I4 I5 I6 I7 I8 I9 I10 I11 I12 I13 I14 I15 I16 I17 I18 I19 I20 I21].
  split; simpl; rewrite ?Lsent, ?Hc, ?Hcl, ?E1, ?E4, ?Et, ?(same_geom_offset (tx s) tx') by done; try done; try lia.
  - apply (ring_pair_ext (tx s) _ (rx s)); try done; [by rewrite Hm, length_write_words|congruence].
  - rewrite take_app_keep by (apply (f_equal length) in I13; rewrite length_take in I13; lia). done.
  - rewrite <- Lsent. eapply txmem_snoc; [apply P|done|done|done|lia|lia|done].
Qed.

Lemma fetch_inv :
  dev_head s <> ICP_ADF_CSR_RD (csrs (wd s)) (csr_addr (tx s)) (tail_csr (tx s)) ->
  sys_inv (mk_sys (tx s) (rx s) (wd s) (sent s)
    (fetched s ++ [read_words (ring_mem (tx s)) (dev_head s / 4) (message_size (tx s) / 4)])
    (produced s) ((dev_head s + message_size (tx s)) mod ring_size (tx s)) (dev_tail s)
    (polling s) (published s) (reported s)).
Proof using I.
  intros Hne. destruct I as [P I2 I3 I4 I5 I6 I7 I8 I9 I10 I11 I12 I13 I14 I15 I16 I17 I18 I19 I20 I21].
  assert (Hlt : len (fetched s) < published s).
  { destruct (decide (len (fetched s) = published s)) as [E|]; [|lia].
    by rewrite I10, I9, E in Hne. }
  set (m := read_words _ _ _). assert (Em : m = msg_at (tx s) (len (fetched s))) by (subst m; by rewrite I10).
  assert (L : len (fetched s ++ [m]) = len (fetched s) + 1) by (rewrite length_app; simpl; lia).
  split; simpl; rewrite ?L; try done; try lia.
  - rewrite I10. apply dev_next, P.
  - rewrite length_app, Nat.add_1_r. simpl length. rewrite I13 at 1. apply take_snoc.
    rewrite Em. specialize (I15 (len (fetched s)) ltac:(lia)). by rewrite Nat2Z.id in I15.
  - intros k Hk. apply I15. lia.
Qed.

Lemma respond_inv msg :
  len (produced s) < len (fetched s) -> len msg = message_size (rx s) / 4 ->
  msg.[0] <> EMPTY_RING_SIG_WORD ->
  sys_inv (mk_sys (tx s) ((rx s) <| ring_mem := write_words (ring_mem (rx s)) (dev_tail s / 4) msg |>)
    (wd s) (sent s) (fetched s) (produced s ++ [msg]) (dev_head s)
    ((dev_tail s + message_size (rx s)) mod ring_size (rx s)) (polling s) (published s) (reported s)).
Proof using I.
  intros Hlt Hl Hne. pose proof inv_room as (Hr1 & Hr2 & Hr3).
  pose proof (pair_max _ _ (inv_pair _ I)) as Hmax.
  destruct I as [P I2 I3 I4 I5 I6 I7 I8 I9 I10 I11 I12 I13 I14 I15 I16 I17 I18 I19 I20 I21].
  assert (L : len (produced s ++ [msg]) = len (produced s) + 1) by (rewrite length_app; simpl; lia).
  set (r' := (rx s) <| ring_mem := _ |>). assert (S : same_geom (rx s) r') by done.
  pose proof (pair_rx _ _ P) as G.
  assert (M : ring_mem r' = write_words (ring_mem (rx s)) (offset_of (rx s) (len (produced s)) / 4) msg)
    by (unfold r'; simpl; by rewrite I11).
  split; simpl; rewrite ?L, ?(same_geom_offset (rx s) r') by done; try done; try lia.
  - apply (ring_pair_ext (tx s) _ (rx s)); try done. unfold r'. simpl. apply length_write_words.
  - rewrite I11. by apply dev_next.
  - rewrite take_app_keep by (apply (f_equal length) in I14; rewrite length_take in I14; lia). done.
  - intros k Hk. split.
    + eapply (txmem_snoc (rx s) r' (produced s) msg (len (client (wd s)))); try done; try lia.
      intros j Hj. by apply I16.
    + destruct (msg_at_write (rx s) r' (len (produced s)) msg k G S Hl M) as [_ ->].
      destruct (Z.eqb_spec (k mod slots (rx s)) (len (produced s) mod slots (rx s))); [done|].
      destruct (decide (k = len (produced s))) as [->|]; [done|]. apply I16. lia.
  - intros k Hk. change (slots r') with (slots (rx s)) in Hk.
    destruct (msg_at_write (rx s) r' (len (produced s)) msg k G S Hl M) as [_ ->].
    pose proof (slot_ne (rx s) k (len (produced s)) G ltac:(lia) ltac:(lia)).
    destruct (Z.eqb_spec (k mod slots (rx s)) (len (produced s) mod slots (rx s))); [done|]. apply I17. lia.
Qed.
End preservation.

Section preservation_poll.
Context (s : sys) (I : sys_inv s).

Lemma dp_update_inv :
  sys_inv (mk_sys ((tx s) <| csrTailOffset := tail (tx s) |>) (rx s)
    ((wd s) <| csrs := WRITE_CSR_RING_TAIL (csrs (wd s)) (csr_addr (tx s)) (bank_offset (tx s))
                        (ring_num (tx s)) (tail (tx s)) |>)
    (sent s) (fetched s) (produced s) (dev_head s) (dev_tail s) (polling s) (len (sent s)) (reported s)).
Proof using I.
  pose proof (inv_pair _ I) as P.
  destruct I as [_ I2 I3 I4 I5 I6 I7 I8 I9 I10 I11 I12 I13 I14 I15 I16 I17 I18 I19 I20 I21].
  split; simpl; try done; try lia.
  - by apply (ring_pair_ext (tx s) _ (rx s)).
  - exact (eq_trans (rd_tail _ _ _) (eq_trans (f_equal u32 I8) (u32_offset (tx s) _ (pair_tx _ _ P)))).
  - by rewrite rd_head_tail.
Qed.

Lemma poll_msg_inv c rx' w' :
  polling s = Some c -> head_word (rx s) <> EMPTY_RING_SIG_WORD -> c < 2 ^ 32 - 1 ->
  poll_body log_cb (rx s) (wd s) = (rx', w') ->
  sys_inv (mk_sys (tx s) rx' w' (sent s) (fetched s) (produced s) (dev_head s) (dev_tail s)
             (Some (u32 (c + 1))) (published s) (reported s)).
Proof using I.
  intros Hc Hw Hb E. pose proof (inv_room s I) as (Hr1 & Hr2 & Hr3).
  pose proof (pair_max _ _ (inv_pair _ I)) as Hmax.
  destruct I as [P I2 I3 I4 I5 I6 I7 I8 I9 I10 I11 I12 I13 I14 I15 I16 I17 I18 I19 I20 I21].
  pose proof (pair_rx _ _ P) as G. destruct (slots_spec _ G) as [_ H1].
  rewrite Hc in *. simpl in I5, I6, I19, I20.
  rewrite (poll_body_spec log_cb (rx s) (wd s) (len (client (wd s)))) in E by done.
  set (d := len (client (wd s))) in *.
  assert (Hlt : d < len (produced s)).
  { destruct (decide (d = len (produced s))) as [Ed|]; [|lia]. exfalso. apply Hw.
    unfold head_word. rewrite I12. apply (I17 d). lia. }
  destruct (I16 d ltac:(lia)) as [Hmsg _].
  injection E as Er Ew.
  assert (S : same_geom (rx s) rx') by (by subst rx').
  pose proof (fun k => msg_at_mark (rx s) rx' d EMPTY_RING_SIG_WORD k G S ltac:(by subst rx')) as M.
  assert (Ld : len (client w') = d + 1) by (subst w'; simpl; rewrite length_app; simpl; unfold d; lia).
  assert (Esl : slots rx' = slots (rx s)) by (by subst rx').
  split; simpl; rewrite ?Ld, ?Esl, ?u32_small, ?(same_geom_offset (rx s) rx') by (done || lia).
  - apply (ring_pair_ext (tx s) _ (rx s)); try done; subst rx'; [apply length_arr_set|done].
  - done. - done. - lia. - lia. - subst w'. simpl. lia. - by subst w'. - done. - by subst w'. - done. - done.
  - by subst rx'.
  - done.
  - subst w'. simpl. rewrite length_app, Nat.add_1_r. simpl length. rewrite I14 at 1. apply take_snoc.
    unfold d in Hmsg. by rewrite Nat2Z.id in Hmsg.
  - done.
  - intros k Hk. destruct (M k) as [-> Hg].
    pose proof (slot_ne (rx s) k d G ltac:(lia) ltac:(lia)) as Hne.
    destruct (Z.eqb_spec (k mod slots (rx s)) (d mod slots (rx s))); [done|]. rewrite Hg by done.
    apply I16. lia.
  - intros k Hk. destruct (M k) as [-> _].
    destruct (Z.eqb_spec (k mod slots (rx s)) (d mod slots (rx s))) as [|Hne]; [done|]. apply I17.
    assert (k <> d + slots (rx s)); [|lia]. intros ->. apply Hne.
    rewrite <- (Z.mul_1_l (slots (rx s))) at 1. apply Z_mod_plus_full.
  - by subst rx'.
  - lia.
  - subst rx'. simpl. lia.
  - subst rx' w'. simpl. done.
Qed.

Lemma poll_end_inv c rx' w' :
  polling s = Some c ->
  (if 0 <? c then poll_finish (bool_decide (resp (rx s) = ICP_RESP_TYPE_IRQ)) (rx s) (wd s) c
   else (rx s, wd s)) = (rx', w') ->
  sys_inv (mk_sys (tx s) rx' w' (sent s) (fetched s) (produced s) (dev_head s) (dev_tail s)
    None (published s)
    (if (0 <? c) && ((coal_write_count (rx s) <? c) || bool_decide (resp (rx s) = ICP_RESP_TYPE_IRQ))
     then len (client (wd s)) else reported s)).
Proof using I.
  intros Hc E. pose proof (inv_room s I) as (Hr1 & Hr2 & Hr3).
  destruct I as [P I2 I3 I4 I5 I6 I7 I8 I9 I10 I11 I12 I13 I14 I15 I16 I17 I18 I19 I20 I21].
  pose proof (pair_resps _ _ P) as Hres.
  rewrite Hc in *. simpl in I5, I6, I19, I20.
  destruct (Z.ltb_spec 0 c) as [Hpos|Hz].
  2:{ injection E as <- <-. assert (c = 0) by lia. subst c. split; simpl; try done; lia. }
  assert (Hcell : u32 (inflight_cell (wd s) - c) = inflight_cell (wd s) - c) by (apply u32_small; lia).
  unfold poll_finish in E. cbn [andb].
  destruct ((coal_write_count (rx s) <? c) || bool_decide (resp (rx s) = ICP_RESP_TYPE_IRQ)) eqn:Ef.
  - injection E as <- <-. split; simpl; rewrite ?Hcell; try done; try lia.
    + by apply (ring_pair_ext (tx s) _ (rx s)).
    + by rewrite (rd_tail_head _ (tx s) (rx s)).
    + exact (eq_trans (rd_head _ (rx s) _)
        (eq_trans (f_equal u32 I12) (u32_offset (rx s) _ (pair_rx _ _ P)))).
  - breflect. injection E as <- <-.
    assert (Hco : u32 (coal_write_count (rx s) - c) = coal_write_count (rx s) - c) by (apply u32_small; lia).
    split; simpl; rewrite ?Hcell, ?Hco; try done; try lia.
    by apply (ring_pair_ext (tx s) _ (rx s)).
Qed.
End preservation_poll.

Lemma sys_step_inv s s' : sys_inv s -> sys_step s s' -> sys_inv s'.
Proof.
  intros I Hstep. pose proof (inv_pair _ I) as P. pose proof (inv_room s I) as (_ & _ & Hc).
  pose proof (pair_max _ _ P) as Hmax. pose proof (slots_bound _ (pair_tx _ _ P)) as Hsb.
  destruct Hstep as [s msg st tx' w' seq Hl E|s msg tx' w' off Hl E|s tx' w' E|s Hne|s msg H1 H2 H3|s Hn
    |s c rx' w' H1 H2 H3 H4|s c rx' w' H1 H2].
  - destruct (Z.lt_ge_cases (inflight_cell (wd s)) (max_requests_inflight (tx s))) as [Hr|Hf].
    + rewrite (put_room _ _ _ (len (sent s))) in E; [|apply P|apply P|apply I|done|lia|lia].
      injection E as <- <- <- _. simpl.
      apply (enqueue_inv s I); try done; simpl.
      * rewrite (rd_tail _ (tx s)). apply u32_offset, P.
      * by apply rd_head_tail.
      * pose proof (inv_pub _ I). lia.
    + rewrite put_full in E; [|apply P|lia|lia]. injection E as <- <- <- _. simpl. by destruct s.
  - unfold icp_adf_getSingleQueueAddr in E. rewrite u32_small in E by lia.
    destruct (Z.ltb_spec (max_requests_inflight (tx s)) (inflight_cell (wd s) + 1)); [done|].
    rewrite (inv_tail _ I), next_offset_spec in E by apply P. injection E as <- <- <-. simpl.
    apply (enqueue_inv s I); try done; simpl; try lia; [apply I|]. pose proof (inv_pub _ I). lia.
  - injection E as <- <-. by apply dp_update_inv.
  - by apply fetch_inv.
  - by apply respond_inv.
  - destruct I. rewrite Hn in *. simpl in *. split; simpl; done.
  - by eapply poll_msg_inv.
  - by apply poll_end_inv.
Qed.

Lemma sys_init_inv t r : pair_ready t r -> sys_inv (sys_init t r).
Proof.
  intros [P Ht [Hh Hc] Hm]. pose proof (pair_max _ _ P). pose proof (pair_resps _ _ P).
  assert (Ot : offset_of t 0 = 0) by (unfold offset_of; rewrite Z.mod_0_l; lia).
  assert (Or : offset_of r 0 = 0) by (unfold offset_of; rewrite Z.mod_0_l; lia).
  split; simpl; rewrite ?Ot, ?Or, ?Hc; try done; try lia.
Qed.

Lemma sys_reachable t r s : pair_ready t r -> rtc sys_step (sys_init t r) s -> sys_inv s.
Proof.
  intros R H. pose proof (sys_init_inv t r R) as H0. revert H0.
  generalize dependent (sys_init t r). intros s0 H. induction H; eauto using sys_step_inv.
Qed.

(** Two rings that the code sets up for the same number of messages are ready. *)
Lemma pair_ready_init c1 c2 t0 r0 b1 b2 nt nr base num mt mr dev :
  r_accel_dev t0 = Some dev -> r_accel_dev r0 = Some dev -> coal_write_count r0 = 0 ->
  b_user_bank_lock b1 <> 0 -> b_user_bank_lock b2 <> 0 ->
  0 <= nt < 16 -> 0 <= nr < 16 ->
  Z.land (b_ring_mask b1) (Z.shiftl 1 nt) = 0 -> Z.land (b_ring_mask b2) (Z.shiftl 1 nr) = 0 ->
  mt = 64 \/ mt = 128 -> mr = 16 \/ mr = 32 \/ mr = 64 -> 2 <= num -> num * mt <= 2 ^ 22 -> mr <= mt ->
  pair_ready (adf_init_ring_internal 0 c1 t0 b1 nt base num mt).1.2
             (adf_init_ring_internal 0 c2 r0 b2 nr base num mr).1.2.
Proof.
  intros Dt Dr Hc L1 L2 Ht Hr F1 F2 Mt Mr Hn Hfit Hle.
  assert (St : msg_size_ok mt) by (unfold msg_size_ok; tauto).
  assert (Sr : msg_size_ok mr) by (unfold msg_size_ok; tauto).
  assert (0 < mr) by lia. assert (num * mr <= num * mt) by nia. assert (num <= num * mt) by nia.
  destruct (init_internal_spec 0 c1 t0 b1 nt base num mt dev) as
    (m1 & c1' & t & Hm1 & Hf1 & E1 & Fr1 & _ & N1 & B1 & D1 & _); [done|done|done|done|lia|done|lia|].
  destruct (init_internal_spec 0 c2 r0 b2 nr base num mr dev) as
    (m2 & c2' & r & Hm2 & Hf2 & E2 & Fr2 & _ & N2 & B2 & D2 & _); [done|done|done|done|lia|done|lia|].
  destruct (fresh_ring_geom t num mt m1 Hm1 St Fr1) as [G1 S1].
  destruct (fresh_ring_geom r num mr m2 Hm2 Sr Fr2) as [G2 S2].
  assert (Hx : coal_write_count r = 0 /\ 0 <= min_resps_per_head_write r < 2 ^ 32).
  { unfold adf_init_ring_internal in E2. destruct (validateRingSize num mr) as [cfg m].
    destruct (adf_reserve_ring 0 b2 nr) as [rs b]. destruct (negb (rs =? 0)); [done|].
    rewrite Dr in E2. destruct (adf_io_enable_ring _ _ _) as [? ?]. injection E2 as _ <- _. simpl.
    split; [done|]. rewrite Z.shiftr_div_pow2 by lia.
    assert (0 <= ICP_ET_SIZE_TO_BYTES cfg) by (by apply Z.shiftl_nonneg).
    assert (0 <= ICP_ET_SIZE_TO_BYTES cfg / mr / 2 ^ 1)
      by (apply Z.div_pos; [apply Z.div_pos; lia|lia]).
    unfold MIN_RESPONSES_PER_HEAD_WRITE. destruct (Z.ltb_spec 32 (ICP_ET_SIZE_TO_BYTES cfg / mr / 2 ^ 1)); lia. }
  rewrite E1, E2. simpl. destruct Fr1 as (A1 & A2 & A3 & A4 & A5 & A6 & A7 & A8).
  destruct Fr2 as (C1 & C2 & C3 & C4 & C5 & C6 & C7 & C8).
  split; [split|..]; try done; try (by destruct Hx); try congruence; try lia.
  - split; [by rewrite A4|congruence].
  - intros k. by apply (word_at_empty r k m2).
Qed.

Lemma sample_ready : pair_ready tx_ring rx_ring.
Proof.
  apply (pair_ready_init _ _ _ _ _ _ _ _ _ _ _ _ dev_4xxx);
    (done || lia || (by vm_compute) || auto).
Qed.

(** * Properties *)

(** C1. Nothing is lost on the way: in every reachable state the requests in
    flight never exceed the limit, every request the device has not fetched is
    intact in its slot, and every response the client has not seen is intact in
    its slot.  In particular a put never overwrites a request that is still to
    be read, and the device never overwrites an undelivered response. *)
Theorem rings_never_overwrite t r s :
  pair_ready t r -> rtc sys_step (sys_init t r) s ->
  inflight_cell (wd s) <= max_requests_inflight (tx s) /\
  len (sent s) - len (fetched s) < slots (tx s) /\
  len (produced s) - len (client (wd s)) < slots (rx s) /\
  (forall k, len (fetched s) <= k < len (sent s) -> sent s !! Z.to_nat k = Some (msg_at (tx s) k)) /\
  (forall k, len (client (wd s)) <= k < len (produced s) ->
     produced s !! Z.to_nat k = Some (msg_at (rx s) k)).
Proof.
  intros R H. pose proof (sys_reachable t r s R H) as I. pose proof (inv_room s I) as (H1 & H2 & _).
  pose proof (inv_max _ I). pose proof (pair_max _ _ (inv_pair _ I)).
  split_and!; try lia; [apply I|]. intros k Hk. by apply I.
Qed.

(** A step that puts a request, one that takes it through the device, and a poll
    of its response, from any state where they can be taken. *)
Lemma can_put s m :
  sys_inv s -> inflight_cell (wd s) < max_requests_inflight (tx s) ->
  len m = message_size (tx s) / 4 ->
  exists s', sys_step s s' /\ sent s' = sent s ++ [m] /\ published s' = len (sent s) + 1 /\
    fetched s' = fetched s /\ produced s' = produced s /\ polling s' = polling s /\
    client (wd s') = client (wd s) /\ rx s' = rx s /\ same_geom (tx s) (tx s').
Proof.
  intros I Hr Hl. pose proof (inv_pair _ I) as P. pose proof (inv_room s I) as (_ & _ & Hc).
  pose proof (pair_max _ _ P). pose proof (slots_bound _ (pair_tx _ _ P)).
  eexists. split; [eapply step_put; [exact Hl|]|].
  { apply (put_room (tx s) (wd s) m (len (sent s))); [apply P|apply P|apply I|done|lia|lia]. }
  done.
Qed.

Lemma can_fetch s :
  sys_inv s -> len (fetched s) < published s ->
  exists s' m, sys_step s s' /\ fetched s' = fetched s ++ [m] /\ sent s' = sent s /\
    produced s' = produced s /\ polling s' = polling s /\ client (wd s') = client (wd s) /\
    rx s' = rx s.
Proof.
  intros I Hlt. pose proof (inv_pair _ I) as P. pose proof (inv_room s I) as (Hr & _ & _).
  pose proof (inv_max _ I). pose proof (pair_max _ _ P). pose proof (inv_pub _ I).
  eexists _, _. split; [apply step_fetch|done].
  rewrite (inv_csr _ I), (inv_dhead _ I). unfold offset_of. pose proof (geo_msg _ (pair_tx _ _ P)).
  intros E. apply Z.mul_reg_r in E; [|lia].
  by eapply (slot_ne (tx s) (len (fetched s)) (published s)); [apply P|lia|lia|].
Qed.

Lemma can_poll s c :
  sys_inv s -> polling s = Some c -> c < 2 ^ 32 - 1 -> len (client (wd s)) < len (produced s) ->
  exists s', sys_step s s' /\ polling s' = Some (u32 (c + 1)) /\ produced s' = produced s /\
    sent s' = sent s /\ fetched s' = fetched s /\ len (client (wd s')) = len (client (wd s)) + 1.
Proof.
  intros I Hp Hc Hlt. eexists. split; [eapply step_poll_msg; [exact Hp| |done|apply surjective_pairing]|].
  - unfold head_word. rewrite (inv_head _ I). apply (inv_rxmem _ I). lia.
  - simpl. split_and!; try done. rewrite length_app. simpl. lia.
Qed.

(** A run of any pair of rings: one request is put, fetched, answered and its
    response polled. *)
Lemma run_exists t r m1 m2 :
  pair_ready t r -> len m1 = message_size t / 4 -> len m2 = message_size r / 4 ->
  m2.[0] <> EMPTY_RING_SIG_WORD ->
  exists s, rtc sys_step (sys_init t r) s /\ sent s = [m1] /\ client (wd s) = [m2] /\
    fetched s = [m1] /\ produced s = [m2] /\ polling s = None.
Proof.
  intros R H1 H2 H3. pose proof (pair_max _ _ (rdy_pair _ _ R)) as Hmax.
  pose proof (sys_init_inv t r R) as I0.
  destruct (can_put (sys_init t r) m1 I0) as (s1 & E1 & A1 & A2 & A3 & A4 & A5 & A6 & A7 & _); [simpl; lia|done|].
  simpl in *. pose proof (sys_step_inv _ _ I0 E1) as I1.
  destruct (can_fetch s1 I1) as (s2 & m & E2 & B1 & B2 & B3 & B4 & B5 & B6); [rewrite A3, A2; simpl; lia|].
  pose proof (sys_step_inv _ _ I1 E2) as I2.
  pose proof (step_respond s2 m2 ltac:(rewrite B1, B3, A4, A3; simpl; lia) ltac:(by rewrite B6, A7) H3) as E3.
  pose proof (sys_step_inv _ _ I2 E3) as I3.
  match type of E3 with sys_step _ ?s3 =>
    pose proof (step_poll_start s3 ltac:(simpl; by rewrite B4, A5)) as E4 end.
  pose proof (sys_step_inv _ _ I3 E4) as I4.
  destruct (can_poll _ 0 I4 eq_refl) as (s5 & E5 & C1 & C2 & C3 & C4 & C5);
    [lia|simpl; rewrite B5, A6, B3, A4; simpl; lia|].
  pose proof (sys_step_inv _ _ I4 E5) as I5.
  pose proof (step_poll_end s5 _ _ _ C1 (surjective_pairing _)) as E6.
  eexists. split.
  { eapply rtc_l; [exact E1|]. eapply rtc_l; [exact E2|]. eapply rtc_l; [exact E3|].
    eapply rtc_l; [exact E4|]. eapply rtc_l; [exact E5|]. apply rtc_once, E6. }
  simpl in *. rewrite u32_small by lia. cbn [Z.ltb Z.compare Z.add].
  assert (Hcl : client (wd s5) = [m2]).
  { rewrite (inv_client _ I5), C2, B3, A4. simpl. rewrite B5, A6 in C5. simpl in C5.
    replace (length (client (wd s5))) with 1%nat by lia. done. }
  assert (Hf : fetched s5 = [m1]).
  { rewrite (inv_fetched _ I5), C4, C3, B1, B2, A1, A3. done. }
  rewrite C2, C3, B2, B3, A1, A4. split_and!; try done. unfold poll_finish.
  by destruct ((_ <? _) || _).
Qed.

Lemma rings_never_overwrite_witness :
  exists s, rtc sys_step (sys_init tx_ring rx_ring) s /\ sent s = [replicate 32 5] /\
    inflight_cell (wd s) <= max_requests_inflight (tx s).
Proof.
  destruct (run_exists tx_ring rx_ring (replicate 32 5) (replicate 8 1) sample_ready)
    as (s & Hs & Es & _); [by vm_compute..|].
  exists s. split; [exact Hs|]. split; [exact Es|].
  exact (proj1 (rings_never_overwrite tx_ring rx_ring s sample_ready Hs)).
Defined.

(** C2. Both rings are first in, first out, and deliver exactly once: what the
    device has fetched is a prefix of what was put, in the same order, and what
    the callback was given is a prefix of what the device answered. *)
Theorem rings_fifo t r s :
  pair_ready t r -> rtc sys_step (sys_init t r) s ->
  fetched s `prefix_of` sent s /\ client (wd s) `prefix_of` produced s.
Proof.
  intros R H. pose proof (sys_reachable t r s R H) as I. split.
  - rewrite (inv_fetched _ I). apply prefix_take.
  - rewrite (inv_client _ I). apply prefix_take.
Qed.

Lemma rings_fifo_witness :
  exists s, rtc sys_step (sys_init tx_ring rx_ring) s /\ client (wd s) = [replicate 8 1] /\
    client (wd s) `prefix_of` produced s.
Proof.
  destruct (run_exists tx_ring rx_ring (replicate 32 5) (replicate 8 1) sample_ready)
    as (s & Hs & _ & Ec & _); [by vm_compute..|].
  exists s. split; [exact Hs|]. split; [exact Ec|].
  exact (proj2 (rings_fifo tx_ring rx_ring s sample_ready Hs)).
Defined.

(** C37. In every state that puts, polls and the device can reach with a pair of rings that is
    ready for use (empty, of one bank, with a limit below the number of slots of each), the
    shared counter is exactly the number of requests sent whose response the client has not
    been given, plus the responses that a poll now running has given and not yet accounted
    for, and it never exceeds the limit of the ring.  So the ring does not leak capacity:
    between polls, when fewer requests than the limit are unanswered, a put of a message of
    the ring's size succeeds; and there is a response to take if and only if the poll's test
    of the word at the head finds it. *)
Theorem inflight_exact t r s msg :
  pair_ready t r -> rtc sys_step (sys_init t r) s -> len msg = message_size (tx s) / 4 ->
  inflight_cell (wd s) = len (sent s) - len (client (wd s)) + default 0 (polling s) /\
  0 <= inflight_cell (wd s) <= max_requests_inflight (tx s) /\
  (len (client (wd s)) < len (produced s) <-> head_word (rx s) <> EMPTY_RING_SIG_WORD) /\
  (polling s = None -> len (sent s) - len (client (wd s)) < max_requests_inflight (tx s) ->
   (adf_user_put_msg 0 (Some (tx s)) (wd s) (Some msg)).1.1.1 = CPA_STATUS_SUCCESS).
Proof.
  intros R H Hl. pose proof (sys_reachable t r s R H) as I. pose proof (inv_room s I) as (_ & _ & Hc).
  pose proof (inv_cell _ I) as Ec. pose proof (inv_pair _ I) as P. pose proof (inv_poll _ I). pose proof (inv_pub _ I).
  pose proof (inv_max _ I). pose proof (inv_prod _ I).
  pose proof (pair_max _ _ P). pose proof (slots_bound _ (pair_tx _ _ P)).
  destruct (slots_spec _ (pair_rx _ _ P)) as [_ Hs1]. pose proof (inv_deliv _ I).
  split_and!; [lia|lia|lia| |].
  - unfold head_word. rewrite (inv_head _ I). fold (word_at (rx s) (len (client (wd s)))). split.
    + intros Hlt. apply (inv_rxmem _ I). lia.
    + intros Hne. destruct (decide (len (client (wd s)) = len (produced s))) as [E|]; [|lia].
      exfalso. apply Hne, (inv_rxempty _ I). lia.
  - intros Hp Hlt. rewrite Hp in Ec. simpl in Ec.
    rewrite (put_room _ _ _ (len (sent s))); [done|apply P|apply P|apply I|done|lia|lia].
Qed.

Lemma inflight_exact_witness :
  exists s, rtc sys_step (sys_init tx_ring rx_ring) s /\ sent s = [replicate 32 5] /\
    inflight_cell (wd s) = 0.
Proof.
  destruct (run_exists tx_ring rx_ring (replicate 32 5) (replicate 8 1) sample_ready)
    as (s & Hs & Es & Ec & _ & _ & Ep); [by vm_compute..|].
  exists s. split; [exact Hs|]. split; [exact Es|].
  assert (Hl : len (replicate (Z.to_nat (message_size (tx s) / 4)) 0) = message_size (tx s) / 4).
  { rewrite length_replicate. pose proof (sys_reachable _ _ _ sample_ready Hs) as I.
    pose proof (msg_words _ (pair_tx _ _ (inv_pair _ I))). lia. }
  pose proof (proj1 (inflight_exact tx_ring rx_ring s _ sample_ready Hs Hl)) as H.
  rewrite Es, Ec, Ep in H. exact H.
Defined.

(** Coalescing the writes of the head register holds back at most
    [min_resps_per_head_write] responses: between polls, the register tells the
    device of all the delivered responses but that many, and never of more than
    were delivered. *)
Theorem head_coalescing_bounded t r s :
  pair_ready t r -> rtc sys_step (sys_init t r) s -> polling s = None ->
  exists n, ICP_ADF_CSR_RD (csrs (wd s)) (csr_addr (rx s)) (head_csr (rx s)) = offset_of (rx s) n /\
    len (client (wd s)) - min_resps_per_head_write (rx s) <= n <= len (client (wd s)).
Proof.
  intros R H Hp. pose proof (sys_reachable t r s R H) as I. exists (reported s).
  pose proof (inv_rep _ I) as Hr. pose proof (inv_lag _ I) as Hl. pose proof (inv_coal _ I).
  rewrite Hp in Hr, Hl. simpl in *. split; [apply I|lia].
Qed.

Lemma head_coalescing_bounded_witness :
  exists s n, rtc sys_step (sys_init tx_ring rx_ring) s /\ client (wd s) = [replicate 8 1] /\
    ICP_ADF_CSR_RD (csrs (wd s)) (csr_addr (rx s)) (head_csr (rx s)) = offset_of (rx s) n /\ n <= 1.
Proof.
  destruct (run_exists tx_ring rx_ring (replicate 32 5) (replicate 8 1) sample_ready)
    as (s & Hs & _ & Ec & _ & _ & Ep); [by vm_compute..|].
  destruct (head_coalescing_bounded tx_ring rx_ring s sample_ready Hs Ep) as (n & E & Hn).
  exists s, n. rewrite Ec in Hn. simpl in Hn. split_and!; [exact Hs|exact Ec|exact E|lia].
Defined.
