(* ===== verification/Transport.v ===== *)
(** * Transport handles, banks and polling

    [adf_user_transport_ctrl.c] creates and releases ring handles in the banks of
    a device, shares the counters of requests in flight between the rings of a
    pair, and polls the rings of a bank, of all banks or of an instance.  The
    file models the banks and handles of one device, and shows that a counter
    belongs to exactly one pair of rings, that a handle that cannot be created
    leaves the bank as it was, that one thread polls a ring at a time, and which
    rings a poll of a bank reaches. *)

From S2P Require Import Prelude Ring.

(** ** State

    [rings] holds the allocated handles by address, [banks] the device's array
    of banks, [inflights] the array [ringInflights] of the device, [heap] the
    ring buffers that are allocated. *)
Record tstate (C : Type) := mk_tstate {
  rings : gmap Z adf_dev_ring_handle; banks : gmap Z adf_dev_bank_handle;
  inflights : gmap Z Z; t_csrs : csr_file; heap : list Z; t_client : C
}.
Arguments mk_tstate {C} _ _ _ _ _ _.
Arguments rings {C} _.
Arguments banks {C} _.
Arguments inflights {C} _.
Arguments t_csrs {C} _.
Arguments heap {C} _.
Arguments t_client {C} _.
#[global] Instance eta_tstate C : Eta (tstate C) := fun s =>
  mk_tstate (rings s) (banks s) (inflights s) (t_csrs s) (heap s) (t_client s).

(** The value of a signed 64-bit expression. *)
Definition s64 (z : Z) : Z := (z + 2 ^ 63) mod 2 ^ 64 - 2 ^ 63.

(** [osalAtomicDecAndTest]: the new value, and whether it is 0. *)
Definition osalAtomicDecAndTest (v : Z) : Z * bool :=
  let v := s64 (v - 1) in (v, v =? 0).

(** ** Banks *)

Definition adf_dev_bank_handle_get (bank : adf_dev_bank_handle) : Z * adf_dev_bank_handle :=
  (b_refs bank, bank <| b_refs := s32 (b_refs bank + 1) |>).
Definition adf_dev_bank_handle_put (bank : adf_dev_bank_handle) : Z * adf_dev_bank_handle :=
  (b_refs bank, bank <| b_refs := s32 (b_refs bank - 1) |>).
Definition adf_dev_bank_handle_check (bank : adf_dev_bank_handle) : Z := b_refs bank.

(** [adf_free_bundle] and [adf_clean_bundle]: a bank that no handle refers to. *)
Definition adf_free_bundle (bank : adf_dev_bank_handle) : adf_dev_bank_handle :=
  if negb (adf_dev_bank_handle_check bank =? 0) then bank
  else
    let bank := match b_rings bank with Some _ => bank <| b_rings := None |> | None => bank end in
    let bank := if negb (b_bundle bank =? 0) then bank <| b_bundle := 0 |> else bank in
    if negb (b_csr_addr_shadow bank =? 0) then bank <| b_csr_addr_shadow := 0 |> else bank.

Definition adf_clean_bundle (bank : adf_dev_bank_handle) : adf_dev_bank_handle :=
  if adf_dev_bank_handle_check bank =? 0 then
    let bank := bank <| b_csr_addr := b_csr_addr_shadow bank |> in
    let bank := bank <| b_bundle := 0 |> in
    bank <| b_rings := None |>
  else bank.

(** What the calls to other parts return while a handle is created: allocations
    (0 or [false] for [NULL]), the configured ring number, locks. *)
Record create_env := mk_create_env {
  e_bundle : Z; e_populate : Z; e_bundle_ptr : Z; e_shadow : Z; e_rings : bool;
  e_cfg : option Z; e_handle : Z; e_service : bool; e_section : bool; e_lock : bool; e_mutex : bool;
  e_virt : Z; e_phys : Z; e_bank_lock : Z
}.

Definition init_rings_from_bank (e : create_env) (bank : adf_dev_bank_handle)
    : Z * adf_dev_bank_handle :=
  if negb (e_rings e) then (CPA_STATUS_FAIL, bank <| b_rings := None |>)
  else (CPA_STATUS_SUCCESS, bank <| b_rings := Some ∅ |>).

(** [ICP_MEMSET(bank->csr_addr_shadow, 0, ICP_BUNDLE_SIZE)] *)
Definition clear_shadow (csrs : csr_file) (shadow : Z) : csr_file :=
  base.filter (fun kv => kv.1.1 <> shadow) csrs.

(** The status, the registers, the bank, and the bundles given to
    [adf_io_free_bundle]. *)
Definition init_bank_from_accel (e : create_env) (csrs : csr_file) (bank : adf_dev_bank_handle)
    : Z * csr_file * adf_dev_bank_handle * list Z :=
  if e_bundle e =? 0 then (CPA_STATUS_FAIL, csrs, bank, [])
  else if negb (e_populate e =? 0) then (CPA_STATUS_FAIL, csrs, bank, [e_bundle e])
  else
    let bank := bank <| b_csr_addr := e_bundle_ptr e |> in
    let bank := bank <| b_csr_addr_shadow := e_shadow e |> in
    if e_shadow e =? 0 then (CPA_STATUS_FAIL, csrs, bank, [e_bundle e])
    else
      let csrs := clear_shadow csrs (b_csr_addr_shadow bank) in
      let bank := bank <| b_bundle := e_bundle e |> in
      let '(status, bank) := init_rings_from_bank e bank in
      if negb (status =? CPA_STATUS_SUCCESS)
      then (CPA_STATUS_FAIL, csrs, bank <| b_csr_addr_shadow := 0 |>, [e_bundle e])
      else (CPA_STATUS_SUCCESS, csrs, bank, []).

Definition reinit_bank_from_accel (dev : accel_dev) (e : create_env) (csrs : csr_file)
    (bank : adf_dev_bank_handle) : Z * csr_file * adf_dev_bank_handle * list Z :=
  if e_bundle e =? 0 then (CPA_STATUS_FAIL, csrs, bank, [])
  else if negb (e_populate e =? 0) then (CPA_STATUS_FAIL, csrs, bank, [e_bundle e])
  else
    let bank := bank <| b_csr_addr := e_bundle_ptr e |> in
    let csrs := clear_shadow csrs (b_csr_addr_shadow bank) in
    let bank := bank <| b_bundle := e_bundle e |> in
    let '(status, bank) := init_rings_from_bank e bank in
    if negb (status =? CPA_STATUS_SUCCESS)
    then (CPA_STATUS_FAIL, csrs, bank <| b_bundle := 0 |>, [e_bundle e])
    else (CPA_STATUS_SUCCESS, csrs, bank <| b_num_rings_per_bank := maxNumRingsPerBank dev |>, []).

(** The defaults of a bank, and those of the banks of a device. *)
Definition default_bank (i : Z) (bank : adf_dev_bank_handle) : adf_dev_bank_handle :=
  bank <| b_bank_number := i |> <| b_bank_offset := 0 |> <| b_tx_rings_mask := 0xff |>
       <| b_ring_mask := 0 |>.
Definition zero_bank : adf_dev_bank_handle := mk_bank 0 0 0 0 0 0 0 0 0 0 None 0 0.

Definition adf_proxy_set_bank_default_info (dev : accel_dev) (banks : gmap Z adf_dev_bank_handle)
    : gmap Z adf_dev_bank_handle :=
  foldl (fun m i => <[i := default_bank i (default zero_bank (m !! i))]> m) banks
    (seqZ 0 (maxNumBanks dev)).

(** [adf_proxy_populate_bank_ring_info]: [banks_ok] and [inflight_ok] tell whether
    the two allocations succeed. *)
Definition adf_proxy_populate_bank_ring_info {C} (dev : accel_dev) (banks_ok inflight_ok : bool)
    (st : tstate C) : Z * tstate C :=
  if negb banks_ok then (CPA_STATUS_FAIL, st)
  else
    let st := st <| banks := adf_proxy_set_bank_default_info dev ∅ |> in
    if negb inflight_ok then (CPA_STATUS_FAIL, st <| banks := ∅ |>)
    else (CPA_STATUS_SUCCESS, st).

(** ** Ring handles *)

(** The index of the counter of a ring: a request ring and its response ring
    share one. *)
Definition in_flight_index (dev : accel_dev) (bank_num ring_num : Z) : Z :=
  if ring_num <? maxNumRingsPerBank dev / 2 then
    u32 (Z.shiftr (u32 (maxNumRingsPerBank dev * bank_num)) 1 + ring_num)
  else
    u32 (Z.shiftr (u32 (maxNumRingsPerBank dev * bank_num)) 1 +
         (ring_num - maxNumRingsPerBank dev / 2)).

Definition adf_populate_ring_info_internal {C} (dev : accel_dev) (st : tstate C)
    (ring : adf_dev_ring_handle) (bank_nr : Z) (resp : icp_resp_deliv_method)
    (num_msgs msg_size ring_rnum : Z) : Z * tstate C * adf_dev_ring_handle :=
  let ring := ring
    <| ringResponseQuota := 0 |> <| coal_write_count := 0 |> <| csrTailOffset := 0 |>
    <| r_accel_dev := Some dev |> <| bank_num := bank_nr |> <| Ring.resp := resp |> in
  let masks :=
    match resp with
    | ICP_RESP_TYPE_POLL => Some (ring <| pollingMask := Z.shiftl 1 ring_rnum |>)
    | ICP_RESP_TYPE_IRQ =>
        Some (ring <| pollingMask := Z.shiftl 1 ring_rnum |>
                   <| interrupt_user_mask := Z.shiftl 1 ring_rnum |>)
    | ICP_RESP_TYPE_NONE => Some ring
    | ICP_RESP_TYPE_DELIMIT => None
    end in
  match masks with
  | None => (CPA_STATUS_FAIL, st, ring)
  | Some ring =>
      let ring := ring
        <| space := num_msgs |> <| message_size := msg_size |> <| ring_num := ring_rnum |> in
      let index := in_flight_index dev bank_nr ring_rnum in
      let ring := ring <| in_flight := index |> in
      let st := st <| inflights := <[index := 0]> (inflights st) |> in
      (CPA_STATUS_SUCCESS, st, ring <| pollingInProgress := 1 |>)
  end.

Definition adf_populate_ring_info {C} (dev : accel_dev) (e : create_env) (st : tstate C)
    (ring : adf_dev_ring_handle) (bank_nr : Z) (resp : icp_resp_deliv_method)
    (num_msgs msg_size ring_rnum : Z) : Z * tstate C * adf_dev_ring_handle :=
  if negb (e_service e) then (CPA_STATUS_FAIL, st, ring)
  else if negb (e_section e) then (CPA_STATUS_FAIL, st, ring)
  else if negb (e_lock e) then (CPA_STATUS_FAIL, st, ring)
  else if negb (e_mutex e) then (CPA_STATUS_RESOURCE, st, ring)
  else
    let '(status, st, ring) :=
      adf_populate_ring_info_internal dev st ring bank_nr resp num_msgs msg_size ring_rnum in
    if negb (status =? CPA_STATUS_SUCCESS) then (CPA_STATUS_FAIL, st, ring)
    else (CPA_STATUS_SUCCESS, st, ring).

Definition icp_adf_transGetRingNum (ring : option adf_dev_ring_handle) : Z * option Z :=
  match ring with
  | None => (CPA_STATUS_INVALID_PARAM, None)
  | Some ring =>
      (CPA_STATUS_SUCCESS,
       Some (u32 (bank_num ring *
                  match r_accel_dev ring with Some dev => maxNumRingsPerBank dev | None => 0 end +
                  ring_num ring)))
  end.

(** ** Creating and releasing a handle *)

Definition set_bank {C} (st : tstate C) (bank_nr : Z) (bank : adf_dev_bank_handle) : tstate C :=
  st <| banks := <[bank_nr := bank]> (banks st) |>.
Definition get_bank {C} (st : tstate C) (bank_nr : Z) : adf_dev_bank_handle :=
  default zero_bank (banks st !! bank_nr).

(** [icp_adf_transCreateHandle]: the status, the state and [*trans_handle] when it
    is written.  [heap] gains the ring buffer that is allocated and loses the
    ones that are freed. *)
Definition icp_adf_transCreateHandle {C} (dev : accel_dev) (e : create_env) (st : tstate C)
    (bank_nr : Z) (resp : icp_resp_deliv_method) (num_msgs msg_size : Z)
    : Z * tstate C * option Z :=
  let bank := get_bank st bank_nr in
  let '(bundle_status, csrs, bank, _) :=
    if b_bundle bank =? 0 then init_bank_from_accel e (t_csrs st) bank
    else (CPA_STATUS_SUCCESS, t_csrs st, bank, []) in
  let st := st <| t_csrs := csrs |> in
  if bundle_status <? 0 then (CPA_STATUS_FAIL, set_bank st bank_nr bank, None)
  else
    let fail st bank := (CPA_STATUS_FAIL, set_bank st bank_nr (adf_free_bundle bank), None) in
    match e_cfg e with
    | None => fail st bank
    | Some ring_rnum =>
        if (ring_rnum <? 0) || (maxNumRingsPerBank dev <=? ring_rnum) then fail st bank
        else if e_handle e =? 0 then fail st bank
        else
          let '(status, st, ring) :=
            adf_populate_ring_info dev e st zero_ring bank_nr resp num_msgs msg_size ring_rnum in
          if negb (status =? CPA_STATUS_SUCCESS) then fail st bank
          else
            let '(status, csrs, ring, bank, freed) :=
              adf_init_ring (e_bank_lock e) (t_csrs st) ring bank ring_rnum (e_virt e) (e_phys e)
                num_msgs msg_size in
            let allocated := if e_virt e =? 0 then [] else [e_virt e] in
            let st := st <| t_csrs := csrs |>
                         <| heap := List.filter (fun p => negb (bool_decide (p ∈ freed)))
                                      (allocated ++ heap st) |> in
            if negb (status =? CPA_STATUS_SUCCESS) then fail st bank
            else
              let '(_, bank) := adf_dev_bank_handle_get bank in
              let rs := default ∅ (b_rings bank) in
              let bank := bank <| b_rings := Some (<[ring_rnum := e_handle e]> rs) |> in
              let bank := bank
                <| b_interrupt_mask := Z.lor (b_interrupt_mask bank) (interrupt_user_mask ring) |>
                <| b_pollingMask := Z.lor (b_pollingMask bank) (pollingMask ring) |> in
              let st := set_bank st bank_nr bank in
              let st := st <| rings := <[e_handle e := ring]> (rings st) |> in
              let st :=
                if decide (resp = ICP_RESP_TYPE_IRQ) then
                  st <| t_csrs := WRITE_CSR_INT_COL_EN (t_csrs st) (csr_addr ring)
                                    (bank_offset ring) (b_interrupt_mask bank) |>
                else st in
              (CPA_STATUS_SUCCESS, st, Some (e_handle e))
    end.

(** [icp_adf_transCleanHandle]; [adf_io_release_ring] of the VFIO driver always
    succeeds. *)
Definition icp_adf_transCleanHandle {C} (st : tstate C) (p : Z) : Z * tstate C :=
  match rings st !! p with
  | None => (CPA_STATUS_INVALID_PARAM, st)
  | Some ring =>
      match r_accel_dev ring with
      | None => (CPA_STATUS_INVALID_PARAM, st)
      | Some _ =>
          let bank := get_bank st (bank_num ring) in
          let bank := bank
            <| b_interrupt_mask := Z.land (b_interrupt_mask bank) (not32 (Z.shiftl 1 (ring_num ring))) |>
            <| b_pollingMask := Z.land (b_pollingMask bank) (not32 (Z.shiftl 1 (ring_num ring))) |> in
          (CPA_STATUS_SUCCESS, set_bank st (bank_num ring) bank)
      end
  end.

(** [icp_adf_transReleaseHandle]; [lock] is the status of the bank's lock. *)
Definition icp_adf_transReleaseHandle {C} (lock : Z) (st : tstate C) (p : Z) : Z * tstate C :=
  match rings st !! p with
  | None => (CPA_STATUS_INVALID_PARAM, st)
  | Some ring =>
      match r_accel_dev ring with
      | None => (CPA_STATUS_INVALID_PARAM, st)
      | Some _ =>
          let '(status, st) := icp_adf_transCleanHandle st p in
          let bank := get_bank st (bank_num ring) in
          let '(csrs, bank, ring, freed) := adf_cleanup_ring lock (t_csrs st) bank ring in
          let bank :=
            match b_rings bank with
            | None => bank
            | Some rs => (adf_dev_bank_handle_put (bank <| b_rings := Some (delete (ring_num ring) rs) |>)).2
            end in
          let bank := adf_free_bundle bank in
          let st := set_bank (st <| t_csrs := csrs |>) (bank_num ring) bank in
          (status, st <| rings := delete p (rings st) |>
                      <| heap := List.filter (fun q => negb (bool_decide (q ∈ freed))) (heap st) |>)
      end
  end.

(** [icp_adf_transResetHandle]: the handle stays. *)
Definition icp_adf_transResetHandle {C} (lock : Z) (st : tstate C) (p : Z) : Z * tstate C :=
  match rings st !! p with
  | None => (CPA_STATUS_INVALID_PARAM, st)
  | Some ring =>
      match r_accel_dev ring with
      | None => (CPA_STATUS_INVALID_PARAM, st)
      | Some _ =>
          let '(status, st) := icp_adf_transCleanHandle st p in
          let bank := get_bank st (bank_num ring) in
          let '(csrs, bank, ring) := adf_reset_ring lock (t_csrs st) bank ring in
          let bank :=
            match b_rings bank with
            | None => bank
            | Some rs =>
                adf_clean_bundle
                  (adf_dev_bank_handle_put (bank <| b_rings := Some (delete (ring_num ring) rs) |>)).2
            end in
          let st := set_bank (st <| t_csrs := csrs |>) (bank_num ring) bank in
          (status, st <| rings := <[p := ring]> (rings st) |>)
      end
  end.

(** [icp_adf_transReinitHandle]: a handle that was reset is set up again; on a
    failure it is released. *)
Definition icp_adf_transReinitHandle {C} (dev : accel_dev) (e : create_env) (st : tstate C)
    (p bank_nr : Z) (resp : icp_resp_deliv_method) (num_msgs msg_size : Z)
    : Z * tstate C * option Z :=
  let bank := get_bank st bank_nr in
  let fail st := (CPA_STATUS_FAIL, (icp_adf_transReleaseHandle (e_bank_lock e) st p).2, None) in
  let '(bundle_status, csrs, bank, _) :=
    if b_bundle bank =? 0 then reinit_bank_from_accel dev e (t_csrs st) bank
    else (CPA_STATUS_SUCCESS, t_csrs st, bank, []) in
  let st := set_bank (st <| t_csrs := csrs |>) bank_nr bank in
  if negb (bundle_status =? CPA_STATUS_SUCCESS) then fail st
  else
    let '(_, bank) := adf_dev_bank_handle_get bank in
    let st := set_bank st bank_nr bank in
    match e_cfg e, rings st !! p with
    | Some ring_rnum, Some ring =>
        if (ring_rnum <? 0) || (maxNumRingsPerBank dev <=? ring_rnum) then fail st
        else
          let '(status, st, ring) :=
            adf_populate_ring_info_internal dev st ring bank_nr resp num_msgs msg_size ring_rnum in
          let st := st <| rings := <[p := ring]> (rings st) |> in
          if negb (status =? CPA_STATUS_SUCCESS) then fail st
          else
            let '(status, csrs, ring, bank) :=
              adf_reinit_ring (e_bank_lock e) (t_csrs st) ring bank ring_rnum num_msgs msg_size in
            let st := set_bank (st <| t_csrs := csrs |>) bank_nr bank in
            let st := st <| rings := <[p := ring]> (rings st) |> in
            if negb (status =? CPA_STATUS_SUCCESS) then fail st
            else
              let rs := default ∅ (b_rings bank) in
              let bank := bank <| b_rings := Some (<[ring_rnum := p]> rs) |> in
              let bank := bank
                <| b_interrupt_mask := Z.lor (b_interrupt_mask bank) (interrupt_user_mask ring) |>
                <| b_pollingMask := Z.lor (b_pollingMask bank) (pollingMask ring) |> in
              let st := set_bank st bank_nr bank in
              let st :=
                if decide (resp = ICP_RESP_TYPE_IRQ) then
                  st <| t_csrs := WRITE_CSR_INT_COL_EN (t_csrs st) (csr_addr ring)
                                    (bank_offset ring) (b_interrupt_mask bank) |>
                else st in
              (CPA_STATUS_SUCCESS, st, Some p)
    | _, _ => fail st
    end.

(** ** Put *)

(** What the operations of [Ring] reach through a handle. *)
Definition ring_world {C} (st : tstate C) (ring : adf_dev_ring_handle) : world C :=
  mk_world (default 0 (inflights st !! in_flight ring)) (t_csrs st) (t_client st).
Definition set_ring {C} (st : tstate C) (p : Z) (ring : adf_dev_ring_handle) (w : world C) : tstate C :=
  mk_tstate (<[p := ring]> (rings st)) (banks st)
    (<[in_flight ring := inflight_cell w]> (inflights st)) (csrs w) (heap st) (client w).

(** [icp_adf_transPutMsg]; [bufLen] is in words. *)
Definition icp_adf_transPutMsg {C} (lock : Z) (st : tstate C) (p : Z) (inBuf : option (list Z))
    (bufLen : Z) : Z * tstate C * option Z :=
  match rings st !! p with
  | None => (CPA_STATUS_INVALID_PARAM, st, None)
  | Some ring =>
      let bytes := u32 (bufLen * 4) in
      if (message_size ring <? bytes) || (bytes <? message_size ring)
      then (CPA_STATUS_INVALID_PARAM, st, None)
      else
        let '(status, ring', w, seq) := adf_user_put_msg lock (Some ring) (ring_world st ring) inBuf in
        (status, set_ring st p (default ring ring') w, seq)
  end.

Definition icp_adf_getInflightRequests {C} (lock : Z) (st : tstate C) (p : Z) : Z * option (Z * Z) :=
  match rings st !! p with
  | None => (CPA_STATUS_INVALID_PARAM, None)
  | Some ring => adf_user_get_inflight_requests lock ring (ring_world st ring)
  end.

(** ** Polling *)

Section polling.
Context {C : Type}.
(** The callback of the ring at an address. *)
Context (callback : Z -> list Z -> world C -> world C).
Context (dev : accel_dev).
Implicit Types (st : tstate C).

Definition adf_pollRing (st : tstate C) (p response_quota : Z) : Z * tstate C :=
  match rings st !! p with
  | None => (CPA_STATUS_RETRY, st)
  | Some ring =>
      let '(v, test) := osalAtomicDecAndTest (pollingInProgress ring) in
      let ring := ring <| pollingInProgress := v |> in
      if test then
        let ring := ring <| ringResponseQuota := response_quota |> in
        let '(status, ring, w) := adf_user_notify_msgs_poll (callback p) ring (ring_world st ring) in
        (status, set_ring st p (ring <| pollingInProgress := 1 |>) w)
      else (CPA_STATUS_RETRY, st <| rings := <[p := ring]> (rings st) |>)
  end.

(** The loop of [icp_adf_pollBank] over the ring numbers. *)
Definition poll_bank_ring (csrVal response_quota : Z) (bank : adf_dev_bank_handle)
    (acc : Z * tstate C) (ringnum_in_bank : Z) : Z * tstate C :=
  let '(stat_total, st) := acc in
  match default ∅ (b_rings bank) !! ringnum_in_bank with
  | None => (stat_total, st)
  | Some p =>
      match rings st !! p with
      | None => (stat_total, st)
      | Some ring =>
          if Z.land csrVal (pollingMask ring) =? 0 then (stat_total, st)
          else
            let '(status, st) := adf_pollRing st p response_quota in
            let stat_total := if status =? CPA_STATUS_SUCCESS then stat_total + 1 else stat_total in
            let st :=
              if decide (resp ring = ICP_RESP_TYPE_IRQ) then
                st <| t_csrs := WRITE_CSR_INT_COL_EN (t_csrs st) (b_csr_addr bank) (bank_offset ring)
                                  (b_interrupt_mask bank) |>
              else st in
            (stat_total, st)
      end
  end.

(** [icp_adf_pollBank] once the device is found. *)
Definition icp_adf_pollBank (st : tstate C) (bank_number response_quota : Z) : Z * tstate C :=
  if maxNumBanks dev <=? bank_number then (CPA_STATUS_INVALID_PARAM, st)
  else
    let bank := get_bank st bank_number in
    let csrVal := READ_CSR_E_STAT (t_csrs st) (b_csr_addr bank) (b_bank_offset bank) in
    let csrVal := not32 csrVal in
    if Z.land csrVal (b_pollingMask bank) =? 0 then (CPA_STATUS_RETRY, st)
    else
      let '(stat_total, st) :=
        foldl (poll_bank_ring csrVal response_quota bank) (0, st) (seqZ 0 (maxNumRingsPerBank dev)) in
      if negb (stat_total =? 0) then (CPA_STATUS_SUCCESS, st) else (CPA_STATUS_RETRY, st).

Definition poll_all_bank (response_quota : Z) (acc : Z * tstate C) (bank_num : Z) : Z * tstate C :=
  let '(stat_total, st) := acc in
  if b_pollingMask (get_bank st bank_num) =? 0 then (stat_total, st)
  else
    let '(status, st) := icp_adf_pollBank st bank_num response_quota in
    ((if status =? CPA_STATUS_SUCCESS then stat_total + 1 else stat_total), st).

Definition icp_adf_pollAllBanks (st : tstate C) (response_quota : Z) : Z * tstate C :=
  let '(stat_total, st) := foldl (poll_all_bank response_quota) (0, st) (seqZ 0 (maxNumBanks dev)) in
  if negb (stat_total =? 0) then (CPA_STATUS_SUCCESS, st) else (CPA_STATUS_RETRY, st).

(** [icp_sal_pollAllBanks]: a device in error gets dummy responses, which
    [gen_responses] makes. *)
Definition icp_sal_pollAllBanks (in_error : bool) (gen_responses : tstate C -> Z * tstate C)
    (st : tstate C) (response_quota : Z) : Z * tstate C :=
  if in_error then gen_responses st else icp_adf_pollAllBanks st response_quota.

(** The loop of [icp_adf_pollInstance]; [None] is the early return. *)
Fixpoint poll_instance_loop (csr_base_addr response_quota : Z) (hnds : list Z) (stat_total : Z)
    (st : tstate C) : option Z * tstate C :=
  match hnds with
  | [] => (Some stat_total, st)
  | p :: hnds =>
      match rings st !! p with
      | None => (None, st)
      | Some ring =>
          if pollingMask ring =? 0
          then poll_instance_loop csr_base_addr response_quota hnds stat_total st
          else
            let '(status, st) := adf_pollRing st p response_quota in
            let stat_total := if status =? CPA_STATUS_SUCCESS then stat_total + 1 else stat_total in
            let st :=
              if decide (resp ring = ICP_RESP_TYPE_IRQ) then
                st <| t_csrs := WRITE_CSR_INT_COL_EN (t_csrs st) csr_base_addr (bank_offset ring)
                                  (b_interrupt_mask (get_bank st (bank_data ring))) |>
              else st in
            poll_instance_loop csr_base_addr response_quota hnds stat_total st
      end
  end.

(** [icp_adf_pollInstance] for an array of handles; an address with no handle is
    [NULL]. *)
Definition icp_adf_pollInstance (st : tstate C) (trans_hnd : list Z) (response_quota : Z)
    : Z * tstate C :=
  match trans_hnd with
  | [] => (CPA_STATUS_INVALID_PARAM, st)
  | first :: _ =>
      match rings st !! first with
      | None => (CPA_STATUS_FAIL, st)
      | Some ring =>
          match poll_instance_loop (csr_addr ring) response_quota trans_hnd 0 st with
          | (None, st) => (CPA_STATUS_FAIL, st)
          | (Some stat_total, st) =>
              if negb (stat_total =? 0) then (CPA_STATUS_SUCCESS, st) else (CPA_STATUS_RETRY, st)
          end
      end
  end.

Fixpoint icp_adf_check_RespInstance (st : tstate C) (trans_hnd : list Z) : Z :=
  match trans_hnd with
  | [] => CPA_STATUS_SUCCESS
  | p :: trans_hnd =>
      match rings st !! p with
      | None => CPA_STATUS_FAIL
      | Some ring =>
          if pollingMask ring =? 0 then icp_adf_check_RespInstance st trans_hnd
          else if adf_user_check_resp_ring ring (default 0 (inflights st !! in_flight ring))
          then icp_adf_check_RespInstance st trans_hnd
          else CPA_STATUS_RETRY
      end
  end.

Fixpoint check_error_loop (st : tstate C) (trans_hnd : list Z) : Z :=
  match trans_hnd with
  | [] => CPA_STATUS_SUCCESS
  | p :: trans_hnd =>
      match rings st !! p with
      | None => check_error_loop st trans_hnd
      | Some ring =>
          if pollingMask ring =? 0 then check_error_loop st trans_hnd
          else
            let res := adf_user_check_ring_error (t_csrs st) (Some ring) in
            if (res =? - EINTR) || (res =? - EL2HLT) then CPA_STATUS_FAIL
            else check_error_loop st trans_hnd
      end
  end.

Definition icp_adf_checkRingError (st : tstate C) (trans_hnd : list Z) : Z :=
  match trans_hnd with
  | [] => CPA_STATUS_INVALID_PARAM
  | first :: _ =>
      match rings st !! first with
      | None => CPA_STATUS_SUCCESS
      | Some _ => check_error_loop st trans_hnd
      end
  end.
End polling.

(** ** Going down *)

(** The loops of [adf_user_unmap_rings]: [bank] is the first bank throughout, and
    the inner loop looks at ring [i], the number of the bank. *)
Definition adf_user_unmap_rings {C} (dev : accel_dev) (st : tstate C) : Z * tstate C :=
  let bank := get_bank st 0 in
  let body st i :=
    match b_rings bank with
    | None => st
    | Some rs =>
        foldl (fun st _ =>
          match rs !! i with
          | None => st
          | Some p =>
              match rings st !! p with
              | None => st
              | Some ring =>
                  let '(_, ring, freed) := adf_ring_freebuf ring in
                  st <| rings := <[p := ring]> (rings st) |>
                     <| heap := List.filter (fun q => negb (bool_decide (q ∈ freed))) (heap st) |>
              end
          end) st (seqZ 0 (maxNumRingsPerBank dev))
    end in
  (CPA_STATUS_SUCCESS, foldl body st (seqZ 0 (maxNumBanks dev))).

(** ** The transport data of a device *)

Definition adf_proxy_depopulate_bank_ring_info {C} (st : tstate C) : tstate C :=
  st <| banks := ∅ |> <| inflights := ∅ |>.

(** The loop of [adf_user_transport_init] over the banks [bs].  [alloc i] is the
    address of the mutex of bank [i] (0 for [NULL]), [minit i] whether its
    initialisation succeeds; [locks] are the mutexes that are allocated, the
    newest first.  On an error the loops that go back free them all. *)
Fixpoint init_locks {C} (alloc : Z -> Z) (minit : Z -> bool) (st : tstate C) (locks bs : list Z)
    : Z * tstate C * list Z :=
  match bs with
  | [] => (CPA_STATUS_SUCCESS, st, locks)
  | i :: bs =>
      let bank := get_bank st i in
      let bank := bank <| b_user_bank_lock := alloc i |> in
      let st := set_bank st i bank in
      if b_user_bank_lock bank =? 0 then
        let locks := List.filter (fun l => negb (bool_decide (l ∈ locks))) locks in
        (CPA_STATUS_FAIL, adf_proxy_depopulate_bank_ring_info st, locks)
      else
        let locks := b_user_bank_lock bank :: locks in
        if negb (minit i) then
          let locks := List.filter (fun l => negb (bool_decide (l ∈ locks))) locks in
          (CPA_STATUS_RESOURCE, adf_proxy_depopulate_bank_ring_info st, locks)
        else init_locks alloc minit st locks bs
  end.

Definition adf_user_transport_init {C} (dev : accel_dev) (banks_ok inflight_ok : bool)
    (alloc : Z -> Z) (minit : Z -> bool) (st : tstate C) : Z * tstate C * list Z :=
  let '(status, st) := adf_proxy_populate_bank_ring_info dev banks_ok inflight_ok st in
  if negb (status =? CPA_STATUS_SUCCESS) then (status, st, [])
  else init_locks alloc minit st [] (seqZ 0 (maxNumBanks dev)).

Definition adf_user_transport_reinit {C} (dev : accel_dev) (minit : Z -> bool) (st : tstate C)
    : Z * tstate C :=
  let st := st <| banks := adf_proxy_set_bank_default_info dev (banks st) |> in
  if forallb minit (seqZ 0 (maxNumBanks dev)) then (CPA_STATUS_SUCCESS, st)
  else (CPA_STATUS_RESOURCE, st).

(** [adf_user_transport_exit]: the bundles and the mutexes that are released. *)
Definition adf_user_transport_exit {C} (dev : accel_dev) (st : tstate C)
    : Z * tstate C * list Z * list Z :=
  let bundles := List.filter (fun x => negb (x =? 0))
    (List.map (fun i => b_bundle (get_bank st i)) (seqZ 0 (maxNumBanks dev))) in
  let locks := List.filter (fun x => negb (x =? 0))
    (List.map (fun i => b_user_bank_lock (get_bank st i)) (seqZ 0 (maxNumBanks dev))) in
  (CPA_STATUS_SUCCESS, adf_proxy_depopulate_bank_ring_info st, bundles, locks).

(** [adf_user_transport_clean]: the mutexes stay allocated and the counters of the
    device become 0. *)
Definition adf_user_transport_clean {C} (dev : accel_dev) (st : tstate C) : Z * tstate C * list Z :=
  let bundles := List.filter (fun x => negb (x =? 0))
    (List.map (fun i => b_bundle (get_bank st i)) (seqZ 0 (maxNumBanks dev))) in
  let st := foldl (fun st i =>
      let bank := get_bank st i in
      let bank := if negb (b_bundle bank =? 0) then bank <| b_bundle := 0 |> else bank in
      set_bank st i (bank <| b_rings := None |>)) st (seqZ 0 (maxNumBanks dev)) in
  (CPA_STATUS_SUCCESS, st <| inflights := (fun _ => 0) <$> inflights st |>, bundles).

(** * Proofs *)

(** ** The counters of the pairs *)

(** A device with [2 h] rings in each bank: the first [h] are request rings. *)
Record ring_layout (dev : accel_dev) (h : Z) : Prop := {
  lay_rings : maxNumRingsPerBank dev = 2 * h;
  lay_pos : 1 <= h;
  lay_banks : 2 * h * maxNumBanks dev < 2 ^ 32
}.

Lemma in_flight_index_spec dev h b r :
  ring_layout dev h -> 0 <= b < maxNumBanks dev -> 0 <= r < 2 * h ->
  in_flight_index dev b r = h * b + r mod h.
Proof.
  intros [E Hh Hb] Hbn Hr. unfold in_flight_index. rewrite E.
  replace (2 * h) with (h * 2) by lia. rewrite Z.div_mul by lia.
  rewrite (u32_small (h * 2 * b)) by nia. rewrite Z.shiftr_div_pow2 by lia. change (2 ^ 1) with 2.
  replace (h * 2 * b) with (h * b * 2) by lia. rewrite Z.div_mul by lia.
  destruct (Z.ltb_spec r h).
  - rewrite Z.mod_small, u32_small by nia. done.
  - replace (r mod h) with (r - h); [apply u32_small; nia|].
    symmetry. rewrite <- (Z.mod_small (r - h) h) by lia.
    rewrite <- (Z.mod_add (r - h) 1 h) by lia. f_equal. lia.
Qed.

(** ** One poller at a time *)

Lemma dec_and_test v : - 2 ^ 63 < v <= 1 -> osalAtomicDecAndTest v = (v - 1, v =? 1).
Proof.
  intros Hv. unfold osalAtomicDecAndTest, s64. rewrite Z.mod_small by lia.
  replace (v - 1 + 2 ^ 63 - 2 ^ 63) with (v - 1) by lia. f_equal. zcases.
Qed.

(** The threads that call [adf_pollRing] on one ring: the flag of the ring and
    the threads between the test and the reset of the flag. *)
Record pollers := mk_pollers { flag : Z; inside : list Z }.

Inductive poller_step : pollers -> pollers -> Prop :=
| poller_enter v f l (t : Z) :
    osalAtomicDecAndTest f = (v, true) -> poller_step (mk_pollers f l) (mk_pollers v (t :: l))
| poller_turned_away v f l :
    osalAtomicDecAndTest f = (v, false) -> poller_step (mk_pollers f l) (mk_pollers v l)
| poller_leave f l1 t l2 :
    poller_step (mk_pollers f (l1 ++ t :: l2)) (mk_pollers 1 (l1 ++ l2)).

Definition pollers_inv (n : nat) (s : pollers) : Prop :=
  (inside s = [] /\ flag s = 1) \/ (exists t, inside s = [t] /\ - Z.of_nat n <= flag s <= 0).

Lemma poller_step_inv n s s' :
  Z.of_nat n < 2 ^ 63 - 1 -> pollers_inv n s -> poller_step s s' -> pollers_inv (S n) s'.
Proof.
  intros Hn I Hs. destruct Hs as [v f l t E|v f l E|f l1 t l2]; unfold pollers_inv in *; simpl in *.
  - destruct I as [[-> ->]|(t' & -> & Hf)].
    + right. exists t. rewrite dec_and_test in E by lia. injection E as <-. split; [done|lia].
    + rewrite dec_and_test in E by lia. injection E as _ E. breflect. lia.
  - destruct I as [[-> ->]|(t' & -> & Hf)].
    + rewrite dec_and_test in E by lia. done.
    + right. exists t'. rewrite dec_and_test in E by lia. injection E as <- _. split; [done|lia].
  - left. split; [|done]. destruct I as [[E _]|(t' & E & _)].
    + by destruct l1.
    + destruct l1 as [|x [|? ?]]; simplify_eq/=; done.
Qed.

Lemma pollers_nsteps k n s s' :
  Z.of_nat (n + k) < 2 ^ 63 - 1 -> pollers_inv n s -> nsteps poller_step k s s' -> pollers_inv (n + k) s'.
Proof.
  revert n s. induction k as [|k IH]; intros n s Hn I H; inversion H; subst.
  - by rewrite Nat.add_0_r.
  - rewrite <- Nat.add_succ_comm. eapply IH; [lia| |done]. eapply poller_step_inv; [|done..]. lia.
Qed.

(** ** Polling a ring *)

Section poll_proofs.
Context {C : Type} (callback : Z -> list Z -> world C -> world C) (dev : accel_dev).
Implicit Types (st : tstate C).

(** A poll touches only its ring among the handles, and no bank. *)
Lemma pollRing_frame st p q p' :
  p' <> p -> rings (adf_pollRing callback st p q).2 !! p' = rings st !! p'.
Proof.
  intros Hne. unfold adf_pollRing. destruct (rings st !! p) as [ring|]; [|done].
  destruct (osalAtomicDecAndTest (pollingInProgress ring)) as [v []].
  - destruct (adf_user_notify_msgs_poll _ _ _) as [[status r] w]. simpl. by rewrite lookup_insert_ne.
  - simpl. by rewrite lookup_insert_ne.
Qed.

Lemma pollRing_banks st p q : banks (adf_pollRing callback st p q).2 = banks st.
Proof.
  unfold adf_pollRing. destruct (rings st !! p) as [ring|]; [|done].
  destruct (osalAtomicDecAndTest (pollingInProgress ring)) as [v []]; [|done].
  by destruct (adf_user_notify_msgs_poll _ _ _) as [[status r] w].
Qed.

(** An idle ring with a message at its head is polled successfully. *)
Lemma pollRing_success st p q ring n :
  rings st !! p = Some ring -> pollingInProgress ring = 1 -> ring_geom ring ->
  head ring = offset_of ring n -> head_word ring <> EMPTY_RING_SIG_WORD -> 0 <= q ->
  (adf_pollRing callback st p q).1 = CPA_STATUS_SUCCESS.
Proof.
  intros Hp Hf G Hh Hw Hq. unfold adf_pollRing. rewrite Hp, Hf, dec_and_test by lia. cbn [Z.eqb Pos.eqb].
  set (r1 := (ring <| pollingInProgress := _ |>) <| ringResponseQuota := q |>).
  assert (G1 : ring_geom r1) by (by apply (same_geom_wf ring)).
  unfold adf_user_notify_msgs_poll. set (quota := if negb (_ =? 0) then _ else _).
  assert (Hquota : 0 < quota).
  { unfold quota. change (ringResponseQuota r1) with q. unfold ICP_NO_RESPONSE_QUOTA.
    destruct (Z.eqb_spec q 0); simpl; lia. }
  destruct (poll_once (callback p) (Some quota) r1 (ring_world st r1) n G1 Hh) as (r2 & E & _ & _).
  rewrite E. simpl poll_take. destruct (slots_spec r1 G1) as [_ Hs].
  assert (Hms : 0 < len (take (Z.to_nat quota) (pending (Z.to_nat (slots r1)) r1 n))).
  { destruct (Z.to_nat quota) eqn:E1; [lia|]. destruct (Z.to_nat (slots r1)) eqn:E2; [lia|]. simpl.
    destruct (Z.eqb_spec (word_at r1 n) EMPTY_RING_SIG_WORD) as [Ew|]; [|simpl; lia].
    exfalso. apply Hw. unfold head_word. by rewrite Hh. }
  destruct (Z.ltb_spec 0 (len (take (Z.to_nat quota) (pending (Z.to_nat (slots r1)) r1 n)))); [|lia].
  by destruct (poll_finish _ _ _ _).
Qed.
End poll_proofs.

Section bank_proofs.
Context {C : Type} (callback : Z -> list Z -> world C -> world C) (dev : accel_dev).
Implicit Types (st : tstate C).

(** One round of the loop: whether it polls ring [p], and what it leaves alone. *)
Lemma poll_bank_ring_frame csrVal q bank n st i p :
  default ∅ (b_rings bank) !! i <> Some p ->
  rings (poll_bank_ring callback csrVal q bank (n, st) i).2 !! p = rings st !! p.
Proof.
  intros Hi. unfold poll_bank_ring. destruct (default ∅ (b_rings bank) !! i) as [p'|]; [|done].
  destruct (rings st !! p') as [ring|]; [|done]. case_if; [done|].
  pose proof (pollRing_frame callback st p' q p ltac:(congruence)) as H.
  destruct (adf_pollRing callback st p' q) as [status st']. simpl in H. by case_decide.
Qed.

Lemma poll_bank_ring_skip csrVal q bank n st i p ring :
  rings st !! p = Some ring -> Z.land csrVal (pollingMask ring) = 0 ->
  rings (poll_bank_ring callback csrVal q bank (n, st) i).2 !! p = Some ring.
Proof.
  intros Hp Hm. destruct (decide (default ∅ (b_rings bank) !! i = Some p)) as [Hi|Hi].
  - unfold poll_bank_ring. by rewrite Hi, Hp, Hm.
  - by rewrite poll_bank_ring_frame.
Qed.

Lemma poll_bank_ring_count csrVal q bank n st i :
  n <= (poll_bank_ring callback csrVal q bank (n, st) i).1.
Proof.
  unfold poll_bank_ring. destruct (default ∅ (b_rings bank) !! i) as [p'|]; [|done].
  destruct (rings st !! p') as [ring|]; [|done]. case_if; [done|].
  destruct (adf_pollRing callback st p' q) as [status st']. simpl. case_if; lia.
Qed.

Lemma poll_bank_fold_count csrVal q bank l n st :
  n <= (foldl (poll_bank_ring callback csrVal q bank) (n, st) l).1.
Proof.
  revert n st. induction l as [|i l IH]; intros n st; cbn [foldl]; [simpl; lia|].
  pose proof (poll_bank_ring_count csrVal q bank n st i).
  destruct (poll_bank_ring callback csrVal q bank (n, st) i) as [n' st']. simpl in *.
  specialize (IH n' st'). lia.
Qed.

Lemma poll_bank_fold_skip csrVal q bank l n st p ring :
  rings st !! p = Some ring -> Z.land csrVal (pollingMask ring) = 0 ->
  rings (foldl (poll_bank_ring callback csrVal q bank) (n, st) l).2 !! p = Some ring.
Proof.
  revert n st. induction l as [|i l IH]; intros n st Hp Hm; cbn [foldl]; [done|].
  pose proof (poll_bank_ring_skip csrVal q bank n st i p ring Hp Hm) as H.
  destruct (poll_bank_ring callback csrVal q bank (n, st) i) as [n' st']. by apply IH.
Qed.

(** The loop polls a ring of the bank that is ready. *)
Lemma poll_bank_fold_success csrVal q bank l n st p ring i m :
  i ∈ l -> default ∅ (b_rings bank) !! i = Some p -> 0 <= n ->
  rings st !! p = Some ring -> Z.land csrVal (pollingMask ring) <> 0 ->
  pollingInProgress ring = 1 -> ring_geom ring -> head ring = offset_of ring m ->
  head_word ring <> EMPTY_RING_SIG_WORD -> 0 <= q ->
  0 < (foldl (poll_bank_ring callback csrVal q bank) (n, st) l).1.
Proof.
  revert n st. induction l as [|j l IH]; intros n st Hin Hi Hn Hp Hm Hf G Hh Hw Hq; [by apply not_elem_of_nil in Hin|].
  cbn [foldl]. destruct (decide (default ∅ (b_rings bank) !! j = Some p)) as [Hj|Hj].
  - unfold poll_bank_ring at 2. rewrite Hj, Hp. destruct (Z.eqb_spec (Z.land csrVal (pollingMask ring)) 0); [done|].
    pose proof (pollRing_success callback st p q ring m Hp Hf G Hh Hw Hq) as Hs.
    destruct (adf_pollRing callback st p q) as [status st']. simpl in Hs. subst status. simpl.
    eapply Z.lt_le_trans; [|apply poll_bank_fold_count]. lia.
  - apply elem_of_cons in Hin as [->|Hin]; [by rewrite Hi in Hj|].
    pose proof (poll_bank_ring_frame csrVal q bank n st j p Hj) as Hfr.
    pose proof (poll_bank_ring_count csrVal q bank n st j).
    destruct (poll_bank_ring callback csrVal q bank (n, st) j) as [n' st']. simpl in *.
    apply IH; try done; [lia|]. by rewrite Hfr.
Qed.
End bank_proofs.

(** ** Creating a handle *)

(** The part of a bank that tells which rings are in use. *)
Definition bank_use (bank : adf_dev_bank_handle) : Z * Z * Z * Z :=
  (b_ring_mask bank, b_refs bank, b_interrupt_mask bank, b_pollingMask bank).

Lemma free_bundle_use bank : bank_use (adf_free_bundle bank) = bank_use bank.
Proof. unfold adf_free_bundle. case_if; [done|]. destruct (b_rings bank); simpl; repeat case_if; done. Qed.

Lemma init_bank_use e c bank : bank_use (init_bank_from_accel e c bank).1.2 = bank_use bank.
Proof.
  unfold init_bank_from_accel, init_rings_from_bank. case_if; [done|]. case_if; [done|]. case_if; [done|].
  by destruct (e_rings e).
Qed.

Lemma bank_step_use e c bank :
  bank_use (if b_bundle bank =? 0 then init_bank_from_accel e c bank
            else (CPA_STATUS_SUCCESS, c, bank, [])).1.2 = bank_use bank.
Proof. case_if; [apply init_bank_use|done]. Qed.

(** A ring set-up that fails for a device that is there leaves the bank. *)
Lemma init_ring_fail lock c r bank n v ph num msz dev :
  r_accel_dev r = Some dev ->
  let '(status, _, _, bank', freed) := adf_init_ring lock c r bank n v ph num msz in
  status <> 0 -> bank' = bank /\ (forall p, p ∈ freed -> p = v) /\ (v <> 0 -> ph <> 0 -> freed = [v]) /\
    (v <> 0 -> ph = 0 -> freed = []).
Proof.
  intros Hd. unfold adf_init_ring. destruct ((v =? 0) || (ph =? 0)) eqn:Ez.
  { destruct (negb (ph =? 0)) eqn:Ep; breflect; intros _; (split_and!; [done|set_solver| |]);
      intros; destruct Ez; breflect; done. }
  assert (Hs : forall p, p ∈ [v] -> p = v) by set_solver.
  assert (Hp : v <> 0 -> ph = 0 -> [v] = []) by (breflect; done).
  unfold adf_init_ring_internal, adf_reserve_ring. destruct (validateRingSize num msz) as [cfg m].
  destruct (b_user_bank_lock bank =? 0); simpl; [done|].
  destruct (negb (lock =? 0)) eqn:El; simpl.
  { rewrite El. simpl. done. }
  breflect. subst lock. destruct (Z.land (b_ring_mask bank) (1 ≪ n) =? 0); simpl; [|done].
  rewrite Hd. simpl. by destruct (b_csr_addr bank =? 0).
Qed.

Lemma get_set_bank {C} (st : tstate C) b bank : get_bank (set_bank st b bank) b = bank.
Proof. unfold get_bank, set_bank. simpl. by rewrite lookup_insert_eq. Qed.

Lemma populate_frame {C} dev e (st : tstate C) ring b resp num msz n :
  let '(status, st', ring') := adf_populate_ring_info dev e st ring b resp num msz n in
  rings st' = rings st /\ banks st' = banks st /\ heap st' = heap st /\ t_csrs st' = t_csrs st /\
  (status = CPA_STATUS_SUCCESS -> r_accel_dev ring' = Some dev).
Proof.
  unfold adf_populate_ring_info. repeat (case_if; [done|]).
  unfold adf_populate_ring_info_internal. by destruct resp.
Qed.

Lemma filter_none_freed (l : list Z) : List.filter (fun p => negb (bool_decide (p ∈ @nil Z))) l = l.
Proof. induction l as [|x l IH]; [done|]. cbn [List.filter]. rewrite bool_decide_eq_false_2 by set_solver. cbn. by rewrite IH. Qed.
Lemma filter_fresh (l freed allocated : list Z) :
  (forall p, p ∈ freed -> p ∉ l) -> (forall p, p ∈ allocated -> p ∈ freed) ->
  List.filter (fun p => negb (bool_decide (p ∈ freed))) (allocated ++ l) = l.
Proof.
  intros Hf Ha. rewrite List.filter_app.
  assert (E : List.filter (fun p => negb (bool_decide (p ∈ freed))) allocated = []).
  { clear Hf. induction allocated as [|x a IH]; [done|]. simpl.
    rewrite bool_decide_eq_true_2 by (apply Ha; set_solver). simpl. apply IH. set_solver. }
  rewrite E. simpl. clear E Ha. induction l as [|x l IH]; [done|]. simpl.
  rewrite bool_decide_eq_false_2 by (intros H; eapply Hf; [exact H|set_solver]). simpl. f_equal.
  apply IH. set_solver.
Qed.

(** What a ring set-up that succeeds leaves. *)
Lemma init_ring_success lock c r bank n v ph num msz dev :
  r_accel_dev r = Some dev ->
  let '(status, _, r', bank', freed) := adf_init_ring lock c r bank n v ph num msz in
  status = 0 ->
  freed = [] /\ v <> 0 /\ Z.land (b_ring_mask bank) (1 ≪ n) = 0 /\
  bank' = bank <| b_ring_mask := u16 (Z.lor (b_ring_mask bank) (1 ≪ n)) |> /\
  r_accel_dev r' = Some dev /\ ring_virt_addr r' = v /\ ring_num r' = n /\
  bank_num r' = bank_num r /\ pollingMask r' = pollingMask r /\
  interrupt_user_mask r' = interrupt_user_mask r.
Proof.
  intros Hd. unfold adf_init_ring. destruct ((v =? 0) || (ph =? 0)) eqn:Ez; [by case_if|].
  breflect. unfold adf_init_ring_internal, adf_reserve_ring. destruct (validateRingSize num msz) as [cfg m].
  destruct (b_user_bank_lock bank =? 0); [done|].
  destruct (negb (lock =? 0)) eqn:El; [by rewrite El|].
  destruct (Z.eqb_spec (Z.land (b_ring_mask bank) (1 ≪ n)) 0); [|done]. rewrite El.
  unfold adf_io_enable_ring. simpl. rewrite Hd. simpl. destruct (b_csr_addr bank =? 0); simpl; done.
Qed.

(** A mask of which a bit is set, and then cleared. *)
Lemma mask_set_clear m x n :
  0 <= m < 2 ^ 32 -> 0 <= n < 32 -> x = 0 \/ x = 1 ≪ n -> Z.testbit m n = false ->
  Z.land (Z.lor m x) (not32 (1 ≪ n)) = m.
Proof.
  intros Hm Hn Hx Hb. apply Z.bits_inj'. intros i Hi. unfold not32, u32.
  rewrite Z.land_spec, Z.lor_spec.
  destruct (Z.ltb_spec i 32).
  - rewrite Z.mod_pow2_bits_low, Z.lnot_spec, Z.shiftl_1_l, Z.pow2_bits_eqb by lia.
    destruct (Z.eqb_spec n i) as [->|Hne]; [by rewrite Hb, andb_false_r|].
    destruct Hx as [->| ->]; rewrite ?Z.bits_0, ?Z.shiftl_1_l, ?Z.pow2_bits_eqb by lia;
      rewrite ?(proj2 (Z.eqb_neq n i) Hne); by destruct (Z.testbit m i).
  - rewrite Z.mod_pow2_bits_high by lia. rewrite andb_false_r. symmetry.
    destruct (Z.eq_dec m 0) as [->|]; [apply Z.bits_0|]. apply Z.bits_above_log2; [lia|].
    apply Z.log2_lt_pow2; [lia|]. apply (Z.lt_le_trans _ (2 ^ 32)); [lia|]. apply Z.pow_le_mono_r; lia.
Qed.

Lemma populate_masks {C} dev e (st : tstate C) b resp num msz n :
  let '(status, _, ring') := adf_populate_ring_info dev e st zero_ring b resp num msz n in
  status = CPA_STATUS_SUCCESS ->
  (pollingMask ring' = 0 \/ pollingMask ring' = 1 ≪ n) /\
  (interrupt_user_mask ring' = 0 \/ interrupt_user_mask ring' = 1 ≪ n) /\ bank_num ring' = b.
Proof.
  unfold adf_populate_ring_info. repeat (case_if; [done|]).
  unfold adf_populate_ring_info_internal. destruct resp; simpl; auto; done.
Qed.

(** The state after a handle has been created. *)
Lemma create_success {C} dev e (st : tstate C) b resp num msz h :
  let '(status, st', h') := icp_adf_transCreateHandle dev e st b resp num msz in
  status = CPA_STATUS_SUCCESS -> h' = Some h ->
  exists ring bank n pm im,
    rings st' = <[h := ring]> (rings st) /\ banks st' = <[b := bank]> (banks st) /\
    heap st' = e_virt e :: heap st /\ 0 <= n < maxNumRingsPerBank dev /\
    r_accel_dev ring = Some dev /\ ring_virt_addr ring = e_virt e /\ e_virt e <> 0 /\
    ring_num ring = n /\ bank_num ring = b /\
    Z.land (b_ring_mask (get_bank st b)) (1 ≪ n) = 0 /\
    (pm = 0 \/ pm = 1 ≪ n) /\ (im = 0 \/ im = 1 ≪ n) /\ (exists rs, b_rings bank = Some rs) /\
    bank_use bank = (u16 (Z.lor (b_ring_mask (get_bank st b)) (1 ≪ n)), s32 (b_refs (get_bank st b) + 1),
                     Z.lor (b_interrupt_mask (get_bank st b)) im, Z.lor (b_pollingMask (get_bank st b)) pm).
Proof.
  unfold icp_adf_transCreateHandle. pose proof (bank_step_use e (t_csrs st) (get_bank st b)) as U.
  destruct (if _ =? 0 then _ else _) as [[[bs csrs] bank1] fr]. cbn [fst snd] in U.
  case_if; [done|]. destruct (e_cfg e) as [n|]; [|done]. case_if; [done|]. case_if; [done|].
  pose proof (populate_frame dev e (st <| t_csrs := csrs |>) zero_ring b resp num msz n) as P.
  pose proof (populate_masks dev e (st <| t_csrs := csrs |>) b resp num msz n) as M.
  destruct (adf_populate_ring_info _ _ _ _ _ _ _ _ _) as [[s1 st1] r1]. destruct P as (P1 & P2 & P3 & _ & P5).
  case_if; [done|]. breflect. destruct M as (M1 & M2 & M3); [done|].
  pose proof (init_ring_success (e_bank_lock e) (t_csrs st1) r1 bank1 n (e_virt e) (e_phys e) num msz dev
    ltac:(auto)) as I.
  destruct (adf_init_ring _ _ _ _ _ _ _ _ _) as [[[[s2 c2] r2] bank2] freed].
  case_if; [done|]. breflect. destruct I as (-> & Hv & Hl & -> & Hd & Hva & Hn & Hb & Hpm & Him); [done|].
  unfold bank_use in U. injection U as U1 U2 U3 U4. rewrite <- U1, <- U2, <- U3, <- U4.
  intros _ [= <-]. exists r2. eexists. exists n, (pollingMask r2), (interrupt_user_mask r2).
  rewrite Hpm, Him. destruct (Z.eqb_spec (e_virt e) 0); [done|].
  destruct (decide (resp = ICP_RESP_TYPE_IRQ)); simpl; rewrite ?P1, ?P2, ?P3;
    split_and!; try done; try lia; try (by eexists); try (by rewrite Hb);
    f_equal; apply List.filter_true.
Qed.

(** The state after a handle has been released. *)
Lemma release_spec {C} (st : tstate C) p ring dev rs :
  let bank := get_bank st (bank_num ring) in
  let bit := 1 ≪ ring_num ring in
  rings st !! p = Some ring -> r_accel_dev ring = Some dev -> ring_virt_addr ring <> 0 ->
  b_rings bank = Some rs ->
  exists st' bank', icp_adf_transReleaseHandle 0 st p = (CPA_STATUS_SUCCESS, st') /\
    rings st' = delete p (rings st) /\ banks st' = <[bank_num ring := bank']> (banks st) /\
    heap st' = List.filter (fun q => negb (bool_decide (q ∈ [ring_virt_addr ring]))) (heap st) /\
    bank_use bank' = (u16 (Z.land (b_ring_mask bank) (Z.lnot bit)), s32 (b_refs bank - 1),
                      Z.land (b_interrupt_mask bank) (not32 bit), Z.land (b_pollingMask bank) (not32 bit)).
Proof.
  intros bank bit Hp Hd Hv Hrs. unfold icp_adf_transReleaseHandle, icp_adf_transCleanHandle.
  rewrite Hp, Hd. rewrite get_set_bank. fold bank bit. unfold adf_cleanup_ring, adf_clean_ring. rewrite Hd.
  match goal with |- context [adf_io_disable_ring ?a ?b ?r] => destruct (adf_io_disable_ring a b r) as [x c] end.
  destruct (Z.eqb_spec (ring_virt_addr ring) 0); [done|]. cbn [negb].
  match goal with |- context [adf_unreserve_ring 0 ?b ?n] => remember (adf_unreserve_ring 0 b n) as bank1 eqn:E1 end.
  assert (E2 : b_rings bank1 = Some rs) by (rewrite E1; exact Hrs). rewrite E2.
  do 2 eexists. split; [reflexivity|]. split; [reflexivity|].
  split; [apply insert_insert_eq|]. split; [reflexivity|].
  rewrite free_bundle_use, E1. reflexivity.
Qed.

Lemma s32_inc_dec r : 0 <= r < 2 ^ 31 - 1 -> s32 (s32 (r + 1) - 1) = r.
Proof. intros. unfold s32. rewrite (Z.mod_small (r + 1 + _)) by lia. rewrite Z.mod_small; lia. Qed.

Lemma ring_mask_set_clear m n :
  0 <= m < 2 ^ 16 -> 0 <= n < 16 -> Z.testbit m n = false ->
  u16 (Z.land (u16 (Z.lor m (1 ≪ n))) (Z.lnot (1 ≪ n))) = m.
Proof.
  intros Hm Hn Hb. apply Z.bits_inj'. intros i Hi. unfold u16. rewrite Z.shiftl_1_l.
  destruct (Z.ltb_spec i 16).
  - rewrite Z.mod_pow2_bits_low, Z.land_spec, Z.mod_pow2_bits_low, Z.lor_spec, Z.lnot_spec, Z.pow2_bits_eqb by lia.
    destruct (Z.eqb_spec n i) as [->|]; [by rewrite Hb|]. by destruct (Z.testbit m i).
  - rewrite Z.mod_pow2_bits_high by lia. rewrite <- (Z.mod_small m (2 ^ 16)) by lia.
    by rewrite Z.mod_pow2_bits_high by lia.
Qed.

(** ** The mutexes of the banks *)

Lemma filter_self (l : list Z) : List.filter (fun x => negb (bool_decide (x ∈ l))) l = [].
Proof. pose proof (filter_fresh [] l l) as H. rewrite app_nil_r in H. apply H; set_solver. Qed.

Lemma init_locks_spec {C} alloc minit bs (st : tstate C) locks :
  NoDup bs ->
  let '(status, st', locks') := init_locks alloc minit st locks bs in
  (status = CPA_STATUS_SUCCESS /\ locks' = rev (map alloc bs) ++ locks /\
   (forall i, i ∈ bs -> b_user_bank_lock (get_bank st' i) = alloc i /\ alloc i <> 0) /\
   (forall i, i ∉ bs -> get_bank st' i = get_bank st i)) \/
  (status <> CPA_STATUS_SUCCESS /\ locks' = [] /\ banks st' = ∅ /\ inflights st' = ∅).
Proof.
  revert st locks. induction bs as [|i bs IH]; intros st locks Hnd.
  { left. split_and!; [done|done|set_solver|done]. }
  apply NoDup_cons in Hnd as [Hi Hnd]. cbn [init_locks b_user_bank_lock upd].
  destruct (Z.eqb_spec (alloc i) 0); [right; by rewrite filter_self|].
  destruct (negb (minit i)); [right; by rewrite filter_self|].
  specialize (IH (set_bank st i ((get_bank st i) <| b_user_bank_lock := alloc i |>)) (alloc i :: locks) Hnd).
  cbn [b_user_bank_lock upd] in *.
  destruct (init_locks _ _ _ _ bs) as [[status st'] locks']. destruct IH as [(E & El & Hin & Hout)|IH]; [left|by right].
  split_and!; [done|simpl; by rewrite El, <- app_assoc| |].
  - intros j Hj. destruct (decide (j ∈ bs)); [by apply Hin|]. assert (j = i) as -> by set_solver.
    by rewrite Hout, get_set_bank.
  - intros j Hj. rewrite Hout by set_solver. unfold get_bank, set_bank. simpl.
    by rewrite lookup_insert_ne by set_solver.
Qed.

(** * Properties *)

(** Each pair of rings has a counter of requests in flight of its own: two
    rings of a device have the same counter exactly when they are the request
    and the response ring of one pair (or the same ring), and every counter is
    inside the array that is allocated for the device. *)
Theorem inflight_counter_per_pair dev h b1 r1 b2 r2 :
  ring_layout dev h -> 0 <= b1 < maxNumBanks dev -> 0 <= b2 < maxNumBanks dev ->
  0 <= r1 < 2 * h -> 0 <= r2 < 2 * h ->
  (in_flight_index dev b1 r1 = in_flight_index dev b2 r2 <-> b1 = b2 /\ r1 mod h = r2 mod h) /\
  0 <= in_flight_index dev b1 r1 < h * maxNumBanks dev.
Proof.
  intros L H1 H2 Hr1 Hr2. rewrite !(in_flight_index_spec dev h) by done.
  pose proof (lay_pos _ _ L). pose proof (Z.mod_pos_bound r1 h). pose proof (Z.mod_pos_bound r2 h).
  split; [|nia]. split; [|by intros [-> ->]]. intros E.
  assert (b1 = b2) by (destruct (Z.lt_trichotomy b1 b2) as [?|[?|?]]; [nia|done|nia]). subst. lia.
Qed.

Lemma inflight_counter_per_pair_witness :
  in_flight_index dev_4xxx 1 3 = in_flight_index dev_4xxx 1 11 /\
  ~ in_flight_index dev_4xxx 1 3 = in_flight_index dev_4xxx 2 3.
Proof.
  assert (L : ring_layout dev_4xxx 8) by (split; simpl; lia). split.
  - apply (inflight_counter_per_pair dev_4xxx 8 1 3 1 11 L); simpl; (lia || done).
  - intros E. apply (inflight_counter_per_pair dev_4xxx 8 1 3 2 3 L) in E; simpl in *; lia.
Defined.

(** One thread polls a ring at a time: however the calls of [adf_pollRing] of
    any number of threads interleave, at most one of them is between the test
    of [pollingInProgress] and its reset.  The counter has 64 bits, so the
    statement holds for any run shorter than [2 ^ 63 - 1] steps. *)
Theorem pollRing_exclusive n s :
  Z.of_nat n < 2 ^ 63 - 1 -> nsteps poller_step n (mk_pollers 1 []) s -> (length (inside s) <= 1)%nat.
Proof.
  intros Hn H. destruct (pollers_nsteps n 0 _ s Hn (or_introl (conj eq_refl eq_refl) : pollers_inv 0 (mk_pollers 1 [])) H)
    as [[-> _]|(t & -> & _)]; simpl; lia.
Qed.

Lemma pollRing_exclusive_witness :
  exists s, nsteps poller_step 2 (mk_pollers 1 []) s /\ inside s = [7] /\ (length (inside s) <= 1)%nat.
Proof.
  assert (H : nsteps poller_step 2 (mk_pollers 1 []) (mk_pollers (-1) [7])).
  { eapply nsteps_l; [apply (poller_enter 0 1 [] 7); reflexivity|].
    eapply nsteps_l; [apply (poller_turned_away (-1) 0 [7]); reflexivity|]. constructor. }
  eexists. split; [exact H|]. split; [reflexivity|].
  exact (pollRing_exclusive 2 _ ltac:(lia) H).
Defined.

(** A poll of a bank makes progress and keeps to its rings: when a ring of
    the bank is marked by the polling mask, reported non-empty by the status
    register, not being polled, and has a message at its head, the poll
    reports success; and a ring that the register reports empty, or that is
    not in a polling mode, is left as it is. *)
Theorem pollBank_progress {C} (callback : Z -> list Z -> world C -> world C) dev st b q p ring i n :
  let bank := get_bank st b in
  let csrVal := not32 (READ_CSR_E_STAT (t_csrs st) (b_csr_addr bank) (b_bank_offset bank)) in
  let '(status, st') := icp_adf_pollBank callback dev st b q in
  rings st !! p = Some ring -> b < maxNumBanks dev -> 0 <= q ->
  (0 <= i < maxNumRingsPerBank dev -> default ∅ (b_rings bank) !! i = Some p ->
   Z.land csrVal (b_pollingMask bank) <> 0 -> Z.land csrVal (pollingMask ring) <> 0 ->
   pollingInProgress ring = 1 -> ring_geom ring -> head ring = offset_of ring n ->
   head_word ring <> EMPTY_RING_SIG_WORD -> status = CPA_STATUS_SUCCESS) /\
  (Z.land csrVal (pollingMask ring) = 0 -> rings st' !! p = Some ring).
Proof.
  intros bank csrVal. unfold icp_adf_pollBank. fold bank. fold csrVal.
  destruct (Z.leb_spec (maxNumBanks dev) b).
  { intros _ Hb. lia. }
  destruct (Z.eqb_spec (Z.land csrVal (b_pollingMask bank)) 0).
  { intros Hp _ _. split; [done|]. intros _. exact Hp. }
  pose proof (fun Hp => poll_bank_fold_skip callback csrVal q bank (seqZ 0 (maxNumRingsPerBank dev)) 0 st p ring Hp) as Hskip.
  pose proof (fun Hin => poll_bank_fold_success callback csrVal q bank (seqZ 0 (maxNumRingsPerBank dev)) 0 st p ring i n Hin) as Hsucc.
  destruct (foldl _ _ _) as [tot st']. simpl in Hskip, Hsucc.
  destruct (Z.eqb_spec tot 0); simpl; intros Hp _ Hq; (split; [|auto]); intros Hi Hrs Hbm Hm Hf G Hh Hw; [|done].
  exfalso. assert (0 < tot); [|lia]. apply Hsucc; try done. apply elem_of_seqZ. lia.
Qed.

(** A state with the response ring of [Ring] in its bank. *)
Definition rx_ring_p : adf_dev_ring_handle :=
  rx_ring_1 <| pollingMask := 0x100 |> <| pollingInProgress := 1 |>.
Definition st_1 : tstate (list (list Z)) :=
  mk_tstate {[ 100 := rx_ring_p ]}
    {[ 0 := bank_0 <| b_rings := Some {[ 8 := 100 ]} |> <| b_pollingMask := 0x100 |> ]}
    ∅ ∅ [] [].

Lemma rx_ring_p_geom : ring_geom rx_ring_p.
Proof. split; vm_compute; done. Qed.

Lemma pollBank_progress_witness :
  (icp_adf_pollBank (fun _ => log_cb) dev_4xxx st_1 0 0).1 = CPA_STATUS_SUCCESS.
Proof.
  pose proof (pollBank_progress (fun _ => log_cb) dev_4xxx st_1 0 0 100 rx_ring_p 8 0) as H.
  cbv zeta in H. destruct (icp_adf_pollBank (fun _ => log_cb) dev_4xxx st_1 0 0) as [status st'].
  cbv beta iota in H.
  assert (Hp : rings st_1 !! 100 = Some rx_ring_p) by apply lookup_singleton_eq.
  refine (proj1 (H Hp _ _) _ _ _ _ _ rx_ring_p_geom _ _); vm_compute; done.
Defined.

(** C39. When [icp_adf_transCreateHandle] fails, whatever call made it fail, no handle is
    returned, the handles of the device are those it had, every bank keeps its ring mask, its
    references and its interrupt and polling masks, and the ring buffer, if one was allocated,
    is freed again.  There is one exception: a buffer that was allocated and has no physical
    address ([e_phys e = 0]) may stay allocated.  (The address of the buffer is not one that is
    already in use.  Registers and the ring's counter of requests in flight may be left
    changed.) *)
Theorem create_failure_clean {C} dev e (st : tstate C) b resp num msz :
  let '(status, st', h) := icp_adf_transCreateHandle dev e st b resp num msz in
  status <> CPA_STATUS_SUCCESS -> e_virt e ∉ heap st ->
  h = None /\ rings st' = rings st /\
  (heap st' = heap st \/ (e_virt e <> 0 /\ e_phys e = 0 /\ heap st' = e_virt e :: heap st)) /\
  bank_use (get_bank st' b) = bank_use (get_bank st b) /\
  (forall b', b' <> b -> banks st' !! b' = banks st !! b').
Proof.
  unfold icp_adf_transCreateHandle. pose proof (bank_step_use e (t_csrs st) (get_bank st b)) as U.
  destruct (if _ =? 0 then _ else _) as [[[bs csrs] bank1] fr]. cbn [fst snd] in U.
  set (leaks (st1 : tstate C) := heap st1 = heap st \/ (e_virt e <> 0 /\ e_phys e = 0 /\ heap st1 = e_virt e :: heap st)).
  assert (F : forall st1 : tstate C, rings st1 = rings st -> banks st1 = banks st -> leaks st1 ->
    forall bank2, bank_use bank2 = bank_use (get_bank st b) ->
    @None Z = None /\ rings (set_bank st1 b bank2) = rings st /\ leaks (set_bank st1 b bank2) /\
    bank_use (get_bank (set_bank st1 b bank2) b) = bank_use (get_bank st b) /\
    (forall b', b' <> b -> banks (set_bank st1 b bank2) !! b' = banks st !! b')).
  { intros st1 E1 E2 E3 bank2 E4. rewrite get_set_bank. split_and!; try done.
    intros b' Hb. simpl. rewrite lookup_insert_ne by done. by rewrite E2. }
  case_if; [intros; apply F; done || by left|].
  destruct (e_cfg e) as [n|]; [|intros; apply F; try done; [by left|by rewrite free_bundle_use]].
  case_if; [intros; apply F; try done; [by left|by rewrite free_bundle_use]|].
  case_if; [intros; apply F; try done; [by left|by rewrite free_bundle_use]|].
  pose proof (populate_frame dev e (st <| t_csrs := csrs |>) zero_ring b resp num msz n) as P.
  destruct (adf_populate_ring_info _ _ _ _ _ _ _ _ _) as [[s1 st1] r1]. destruct P as (P1 & P2 & P3 & _ & P5).
  case_if; [intros; apply F; try done; [by left|by rewrite free_bundle_use]|]. breflect.
  pose proof (init_ring_fail (e_bank_lock e) (t_csrs st1) r1 bank1 n (e_virt e) (e_phys e) num msz dev
    ltac:(auto)) as I.
  destruct (adf_init_ring _ _ _ _ _ _ _ _ _) as [[[[s2 c2] r2] bank2] freed].
  case_if; [|by case_if]. intros _ Hv. breflect. destruct I as (-> & I1 & I2 & I3); [done|].
  apply F; try done; [|by rewrite free_bundle_use]. unfold leaks. simpl. rewrite P3.
  destruct (decide (e_virt e <> 0 /\ e_phys e = 0)) as [[H1 H2]|Hp].
  - right. rewrite (I3 H1 H2). destruct (Z.eqb_spec (e_virt e) 0); [done|]. split_and!; try done. apply filter_none_freed.
  - left. apply filter_fresh; [intros p Hin; by rewrite (I1 p Hin)|].
    intros p. destruct (Z.eqb_spec (e_virt e) 0) as [|Hz]; [set_solver|]. rewrite I2; try done. intros Hph. by apply Hp.
Qed.

(** Calls that all succeed, with ring [n] and the handle at [100]. *)
Definition env_ok (n : Z) : create_env :=
  mk_create_env 0x50 0 0x2000 0x3000 true (Some n) 100 true true true true 0x7000 0x400000 0.
(** A device whose banks have been populated. *)
Definition st_0 : tstate (list (list Z)) :=
  mk_tstate ∅ {[ 0 := bank_0 <| b_bundle := 0 |> ]} ∅ ∅ [] [].
(** The same with ring 3 in use. *)
Definition st_busy : tstate (list (list Z)) :=
  mk_tstate ∅ {[ 0 := bank_0 <| b_ring_mask := 8 |> <| b_refs := 1 |> ]} {[ 3 := 5 ]} ∅ [] [].

Lemma create_failure_clean_witness :
  bank_use (get_bank (icp_adf_transCreateHandle dev_4xxx (env_ok 3) st_busy 0 ICP_RESP_TYPE_NONE 64 128).1.2 0)
  = (8, 1, 0, 0).
Proof.
  pose proof (create_failure_clean dev_4xxx (env_ok 3) st_busy 0 ICP_RESP_TYPE_NONE 64 128) as H.
  assert (S : (icp_adf_transCreateHandle dev_4xxx (env_ok 3) st_busy 0 ICP_RESP_TYPE_NONE 64 128).1.1 <> 0)
    by (vm_compute; done).
  destruct (icp_adf_transCreateHandle _ _ _ _ _ _ _) as [[status st'] h]. cbn [fst snd] in *.
  destruct H as (_ & _ & _ & -> & _); [done|vm_compute; set_solver|]. vm_compute. reflexivity.
Defined.

(** A ring that is busy keeps its bank, but its counter of requests in flight is
    set to 0 before the reservation fails. *)
Lemma create_busy_resets_counter :
  let '(status, st', h) :=
    icp_adf_transCreateHandle dev_4xxx (env_ok 3) st_busy 0 ICP_RESP_TYPE_NONE 64 128 in
  status = CPA_STATUS_FAIL /\ h = None /\ inflights st_busy !! 3 = Some 5 /\ inflights st' !! 3 = Some 0.
Proof. vm_compute. done. Qed.

(** What the masks of a bank are while it is in use. *)
Record bank_wf (bank : adf_dev_bank_handle) : Prop := {
  bw_ring : 0 <= b_ring_mask bank < 2 ^ 16;
  bw_refs : 0 <= b_refs bank < 2 ^ 31 - 1;
  bw_int : 0 <= b_interrupt_mask bank < 2 ^ 32;
  bw_poll : 0 <= b_pollingMask bank < 2 ^ 32;
  (* only a ring that is reserved is in the interrupt and polling masks *)
  bw_used : forall n, Z.testbit (b_ring_mask bank) n = false ->
    Z.testbit (b_interrupt_mask bank) n = false /\ Z.testbit (b_pollingMask bank) n = false
}.

(** C38. Releasing a handle undoes its creation: the release succeeds, the handle
    is gone, the ring buffer is freed, and the bank has the ring mask, the
    references and the interrupt and polling masks it had before, so that the
    ring can be created again. *)
Theorem create_release_roundtrip {C} dev e (st : tstate C) b resp num msz h :
  let '(status, st1, h1) := icp_adf_transCreateHandle dev e st b resp num msz in
  let '(status', st2) := icp_adf_transReleaseHandle 0 st1 h in
  status = CPA_STATUS_SUCCESS -> h1 = Some h ->
  rings st !! h = None -> e_virt e ∉ heap st -> bank_wf (get_bank st b) -> maxNumRingsPerBank dev <= 16 ->
  status' = CPA_STATUS_SUCCESS /\ rings st2 = rings st /\ heap st2 = heap st /\
  bank_use (get_bank st2 b) = bank_use (get_bank st b) /\
  (forall b', b' <> b -> banks st2 !! b' = banks st !! b').
Proof.
  pose proof (create_success dev e st b resp num msz h) as S.
  destruct (icp_adf_transCreateHandle _ _ _ _ _ _ _) as [[status st1] h1].
  destruct (icp_adf_transReleaseHandle 0 st1 h) as [status' st2] eqn:R.
  intros Hs Hh Hfresh Hv W Hmax.
  destruct (S Hs Hh) as (ring & bank & n & pm & im & Er & Eb & Eh & Hn & Hd & Hva & Hv0 & Hrn & Hbn & Hl & Hpm &
    Him & (rs & Hrs) & U). clear S.
  assert (Hbit : Z.testbit (b_ring_mask (get_bank st b)) n = false).
  { pose proof (f_equal (fun z => Z.testbit z n) Hl) as Hb. cbn beta in Hb.
    rewrite Z.land_spec, Z.shiftl_1_l, Z.pow2_bits_true, Z.bits_0, andb_true_r in Hb by lia. done. }
  destruct W as [W1 W2 W3 W4 W5]. destruct (W5 n Hbit) as [Wi Wp].
  assert (Gb : get_bank st1 b = bank) by (unfold get_bank; by rewrite Eb, lookup_insert_eq).
  destruct (release_spec st1 h ring dev rs) as (st' & bank' & R' & A1 & A2 & A3 & A4);
    [by rewrite Er, lookup_insert_eq|done|by rewrite Hva|by rewrite Hbn, Gb|].
  rewrite R in R'. injection R' as -> ->. rewrite Hbn, Gb, Hrn, Hva in *.
  unfold bank_use in U. injection U as U1 U2 U3 U4. rewrite U1, U2, U3, U4 in A4.
  rewrite ring_mask_set_clear, s32_inc_dec, !mask_set_clear in A4 by (done || lia).
  split_and!; [done| | | |].
  - by rewrite A1, Er, delete_insert_id.
  - rewrite A3, Eh. apply (filter_fresh (heap st) [e_virt e] [e_virt e]); set_solver.
  - unfold get_bank at 1. by rewrite A2, lookup_insert_eq.
  - intros b' Hb'. by rewrite A2, Eb, !lookup_insert_ne.
Qed.

Lemma create_release_roundtrip_witness :
  let st1 := (icp_adf_transCreateHandle dev_4xxx (env_ok 3) st_0 0 ICP_RESP_TYPE_POLL 64 128).1.2 in
  let st2 := (icp_adf_transReleaseHandle 0 st1 100).2 in
  bank_use (get_bank st1 0) = (8, 1, 0, 8) /\ bank_use (get_bank st2 0) = (0, 0, 0, 0) /\ heap st2 = [].
Proof.
  intros st1 st2.
  pose proof (create_release_roundtrip dev_4xxx (env_ok 3) st_0 0 ICP_RESP_TYPE_POLL 64 128 100) as H.
  assert (S : (icp_adf_transCreateHandle dev_4xxx (env_ok 3) st_0 0 ICP_RESP_TYPE_POLL 64 128).1.1 = 0 /\
    (icp_adf_transCreateHandle dev_4xxx (env_ok 3) st_0 0 ICP_RESP_TYPE_POLL 64 128).2 = Some 100 /\
    bank_use (get_bank st1 0) = (8, 1, 0, 8)) by (vm_compute; done).
  subst st2. subst st1.
  destruct (icp_adf_transCreateHandle _ _ _ _ _ _ _) as [[status st1] h]. cbn [fst snd] in *.
  destruct (icp_adf_transReleaseHandle 0 st1 100) as [status' st2].
  assert (W : bank_wf (get_bank st_0 0)).
  { split; vm_compute; done. }
  destruct (H (proj1 S) (proj1 (proj2 S)) eq_refl (not_elem_of_nil _) W ltac:(done)) as (_ & _ & Hh & Hb & _).
  split_and!; [apply S|exact Hb|exact Hh].
Defined.

(** Setting up the transport data of a device and taking it down balance: an
    initialisation that fails, at whatever bank, frees the mutexes it has
    allocated, the banks and the counters; one that succeeds gives each bank a
    mutex, and the exit releases exactly these. *)
Theorem transport_init_balanced {C} dev banks_ok inflight_ok alloc minit (st : tstate C) :
  let '(status, st1, locks) := adf_user_transport_init dev banks_ok inflight_ok alloc minit st in
  (status <> CPA_STATUS_SUCCESS /\ locks = [] /\ (banks_ok = true -> banks st1 = ∅)) \/
  (status = CPA_STATUS_SUCCESS /\
   (forall i, 0 <= i < maxNumBanks dev ->
      b_user_bank_lock (get_bank st1 i) = alloc i /\ alloc i <> 0) /\
   (adf_user_transport_exit dev st1).2 ≡ₚ locks).
Proof.
  unfold adf_user_transport_init, adf_proxy_populate_bank_ring_info.
  destruct banks_ok; simpl; [|by left]. destruct inflight_ok; simpl; [|by left].
  match goal with |- context [init_locks _ _ ?s0 _ _] =>
    pose proof (init_locks_spec alloc minit (seqZ 0 (maxNumBanks dev)) s0 [] (NoDup_seqZ _ _)) as H end.
  destruct (init_locks _ _ _ _ _) as [[status st1] locks].
  destruct H as [(-> & -> & Hin & _)|(Hs & -> & Hb & _)]; [right|by left].
  split_and!; [done|intros i Hi; apply Hin, elem_of_seqZ; lia|].
  rewrite app_nil_r. simpl. rewrite (List.map_ext_in _ alloc).
  2:{ intros i Hi. by apply Hin, list_elem_of_In. }
  rewrite <- Permutation_rev, (List.forallb_filter_id _ (map alloc _)); [done|].
  apply List.forallb_forall. intros x Hx. apply in_map_iff in Hx as (i & <- & Hi).
  apply negb_true_iff, Z.eqb_neq. by apply Hin, list_elem_of_In.
Qed.
