(* ===== verification/Pfvf.v ===== *)
(** * Messages between a virtual function and the host

    The protocol with which the library, as the driver of a virtual function (VF), asks the
    host's driver of the physical function (PF) what the device can do
    ([qat_direct/vfio/adf_pfvf_proto.c], [adf_pfvf_vf_msg.c], [adf_pfvf_msg.h]).  There are two
    registers of 32 bits, one for each direction.  Who writes a message sets the interrupt bit
    and who has read it clears the bit.  Longer answers (block messages) are fetched byte by
    byte, with a CRC-8 over all of them at the end.

    The host is not part of the library: it is the argument [pf], which may change both
    registers in any way before each access of the library and while it sleeps.  The hypothesis
    [serves] says what a host does that follows the protocol of [adf_pfvf_msg.h].  Pointers to
    the device's data and to the results are not [NULL]. *)

From S2P Require Import Prelude.

Definition EFAULT : Z := 14.

(** * Messages *)

(** [struct pfvf_message]: a word of 32 bits, [data] in its lower 24 bits *)
Record pfvf_message := mk_msg { m_data : Z; m_type : Z }.

Definition ADF_PF2VF_MSGTYPE_RESTARTING : Z := 1.
Definition ADF_PF2VF_MSGTYPE_VERSION_RESP : Z := 2.
Definition ADF_PF2VF_MSGTYPE_BLKMSG_RESP : Z := 3.

Definition ADF_VF2PF_MSGTYPE_INIT : Z := 3.
Definition ADF_VF2PF_MSGTYPE_SHUTDOWN : Z := 4.
Definition ADF_VF2PF_MSGTYPE_COMPAT_VER_REQ : Z := 6.
Definition ADF_VF2PF_MSGTYPE_LARGE_BLOCK_REQ : Z := 7.
Definition ADF_VF2PF_MSGTYPE_MEDIUM_BLOCK_REQ : Z := 8.
Definition ADF_VF2PF_MSGTYPE_SMALL_BLOCK_REQ : Z := 9.
Definition ADF_VF2PF_MSGTYPE_RESTARTING_COMPLETE : Z := 10.

Definition ADF_PFVF_COMPAT_CAPABILITIES : Z := 2.
Definition ADF_PFVF_COMPAT_RING_TO_SVC_MAP : Z := 4.
Definition ADF_PFVF_COMPAT_THIS_VERSION : Z := 5.
Definition ADF_PF2VF_VF_COMPATIBLE : Z := 1.
Definition ADF_PF2VF_VF_COMPAT_UNKNOWN : Z := 3.

Definition ADF_PF2VF_BLKMSG_RESP_TYPE_DATA : Z := 0.
Definition ADF_PF2VF_BLKMSG_RESP_TYPE_CRC : Z := 1.
Definition ADF_PF2VF_BLKMSG_RESP_TYPE_ERROR : Z := 2.

Definition ADF_VF2PF_SMALL_PAYLOAD_SIZE : Z := 30.
Definition ADF_VF2PF_MEDIUM_PAYLOAD_SIZE : Z := 62.
Definition ADF_VF2PF_LARGE_PAYLOAD_SIZE : Z := 126.
Definition ADF_VF2PF_MAX_SMALL_MESSAGE_TYPE : Z := 15.
Definition ADF_VF2PF_MIN_MEDIUM_MESSAGE_TYPE : Z := 16.
Definition ADF_VF2PF_MAX_MEDIUM_MESSAGE_TYPE : Z := 23.
Definition ADF_VF2PF_MIN_LARGE_MESSAGE_TYPE : Z := 24.
Definition ADF_VF2PF_MAX_LARGE_MESSAGE_TYPE : Z := 27.

Definition ADF_VF2PF_BLKMSG_REQ_CAP_SUMMARY : Z := 2.
Definition ADF_VF2PF_BLKMSG_REQ_RING_SVC_MAP : Z := 3.

Definition PFVF_BLKMSG_HEADER_SIZE : Z := 2.
Definition PFVF_BLKMSG_VERSION_BYTE : Z := 0.
Definition PFVF_BLKMSG_LEN_BYTE : Z := 1.

(** A bit field of [n] bits at position [p] of a word *)
Definition field (w p n : Z) : Z := Z.land (Z.shiftr w p) (Z.ones n).
Definition put_field (v p n : Z) : Z := Z.shiftl (Z.land v (Z.ones n)) p.

(** The requests for a byte of a block message, by the width of the block type *)
Definition blkmsg_req (w blk_type byte_num crc : Z) : Z :=
  Z.lor (put_field blk_type 0 w) (Z.lor (put_field byte_num w (9 - w)) (put_field crc 9 1)).
Definition vf2pf_blkmsg_req_small := blkmsg_req 4.
Definition vf2pf_blkmsg_req_medium := blkmsg_req 3.
Definition vf2pf_blkmsg_req_large := blkmsg_req 2.

(** [struct pf2vf_blkmsg_resp] and [struct pfvf_compat_message] *)
Definition blk_resp (m : pfvf_message) : Z := field (m_data m) 0 2.
Definition blk_data (m : pfvf_message) : Z := field (m_data m) 2 8.
Definition compat_version_of (m : pfvf_message) : Z := field (m_data m) 0 8.
Definition compat_of (m : pfvf_message) : Z := field (m_data m) 8 2.

(** * The device *)

Definition ADF_PFVF_INT : Z := 1.
Definition ADF_PFVF_MSGORIGIN_SYSTEM : Z := 2.
Definition ADF_PFVF_GEN4_MSGTYPE_SHIFT : Z := 2.
Definition ADF_PFVF_GEN4_MSGTYPE_MASK : Z := 63.
Definition ADF_PFVF_GEN4_MSGDATA_SHIFT : Z := 8.
Definition ADF_PFVF_GEN4_MSGDATA_MASK : Z := 16777215.
Definition ADF_PFVF_GEN4_PF2VF_CSR_ADDR_OFFSET : Z := 4104.
Definition ADF_PFVF_GEN4_VF2PF_CSR_ADDR_OFFSET : Z := 4108.
Definition ADF_PFVF_MSG_ACK_DELAY_US : Z := 5.
Definition ADF_PFVF_MSG_ACK_MAX_RETRIES : Z := 500.
Definition ADF_PFVF_MSG_RESP_TIMEOUT : Z := 100.
Definition ADF_PFVF_MSG_RESP_RETRIES : Z := 5.

Record adf_pfvf_dev_data := mk_dev {
  pmiscbar_addr : Z; dev_id : Z; local_csr_offset : Z; remote_csr_offset : Z;
  type_shift : Z; data_shift : Z; type_mask : Z; data_mask : Z;
  pfvf_initialized : Z; compat_version : Z; frequency : Z; ext_dc_caps : Z; capabilities : Z; ring_to_svc_map : Z
}.
#[global] Instance eta_dev : Eta adf_pfvf_dev_data := fun r =>
  mk_dev (pmiscbar_addr r) (dev_id r) (local_csr_offset r) (remote_csr_offset r) (type_shift r) (data_shift r)
    (type_mask r) (data_mask r) (pfvf_initialized r) (compat_version r) (frequency r) (ext_dc_caps r)
    (capabilities r) (ring_to_svc_map r).

Definition adf_init_pfvf_dev_data (pmiscbar_addr dev_id : Z) : adf_pfvf_dev_data :=
  if pmiscbar_addr =? 0 then mk_dev 0 0 0 0 0 0 0 0 0 0 0 0 0 0
  else mk_dev pmiscbar_addr dev_id ADF_PFVF_GEN4_VF2PF_CSR_ADDR_OFFSET ADF_PFVF_GEN4_PF2VF_CSR_ADDR_OFFSET
         ADF_PFVF_GEN4_MSGTYPE_SHIFT ADF_PFVF_GEN4_MSGDATA_SHIFT ADF_PFVF_GEN4_MSGTYPE_MASK ADF_PFVF_GEN4_MSGDATA_MASK
         0 0 0 0 0 0.

(** * CRC-8 *)

Definition ADF_CRC8_INIT_VALUE : Z := 255.

Definition pfvf_crc8_table : list Z := [
0; 151; 185; 46; 229; 114; 92; 203; 93; 202; 228; 115; 184; 47; 1; 150;
186; 45; 3; 148; 95; 200; 230; 113; 231; 112; 94; 201; 2; 149; 187; 44;
227; 116; 90; 205; 6; 145; 191; 40; 190; 41; 7; 144; 91; 204; 226; 117;
89; 206; 224; 119; 188; 43; 5; 146; 4; 147; 189; 42; 225; 118; 88; 207;
81; 198; 232; 127; 180; 35; 13; 154; 12; 155; 181; 34; 233; 126; 80; 199;
235; 124; 82; 197; 14; 153; 183; 32; 182; 33; 15; 152; 83; 196; 234; 125;
178; 37; 11; 156; 87; 192; 238; 121; 239; 120; 86; 193; 10; 157; 179; 36;
8; 159; 177; 38; 237; 122; 84; 195; 85; 194; 236; 123; 176; 39; 9; 158;
162; 53; 27; 140; 71; 208; 254; 105; 255; 104; 70; 209; 26; 141; 163; 52;
24; 143; 161; 54; 253; 106; 68; 211; 69; 210; 252; 107; 160; 55; 25; 142;
65; 214; 248; 111; 164; 51; 29; 138; 28; 139; 165; 50; 249; 110; 64; 215;
251; 108; 66; 213; 30; 137; 167; 48; 166; 49; 31; 136; 67; 212; 250; 109;
243; 100; 74; 221; 22; 129; 175; 56; 174; 57; 23; 128; 75; 220; 242; 101;
73; 222; 240; 103; 172; 59; 21; 130; 20; 131; 173; 58; 241; 102; 72; 223;
16; 135; 169; 62; 245; 98; 76; 219; 77; 218; 244; 99; 168; 63; 17; 134;
170; 61; 19; 132; 79; 216; 246; 97; 247; 96; 78; 217; 18; 133; 171; 60
].

Fixpoint adf_pfvf_crc (crc : Z) (buf : list Z) (n : nat) {struct n} : Z :=
  match n, buf with
  | S n, b :: buf => adf_pfvf_crc (pfvf_crc8_table.[Z.land (Z.lxor crc b) 255]) buf n
  | _, _ => crc
  end.

Definition adf_pfvf_calc_blkmsg_crc (buf : list Z) (buf_len : Z) : Z :=
  adf_pfvf_crc ADF_CRC8_INIT_VALUE buf (Z.to_nat buf_len).

(** * Registers *)

(** [vf2pf] is written by the library, [pf2vf] by the host *)
Record csrs := mk_csrs { vf2pf : Z; pf2vf : Z }.
#[global] Instance eta_csrs : Eta csrs := fun r => mk_csrs (vf2pf r) (pf2vf r).

(** When the host can act: while the library sleeps and before each access *)
Inductive event := Sleep (us : Z) | Access.

Section library.
Context {host : Type} (pf : event -> host -> csrs -> host * csrs).

(** The host's state, the registers, and the messages that the library has written *)
Record world := mk_world { w_host : host; w_csrs : csrs; w_sent : list Z }.

Definition env (e : event) (w : world) : world :=
  let '(h, r) := pf e (w_host w) (w_csrs w) in mk_world h r (w_sent w).
Definition usleep (us : Z) (w : world) : world := env (Sleep us) w.

Definition csr_get (offset : Z) (r : csrs) : Z :=
  if offset =? ADF_PFVF_GEN4_VF2PF_CSR_ADDR_OFFSET then vf2pf r
  else if offset =? ADF_PFVF_GEN4_PF2VF_CSR_ADDR_OFFSET then pf2vf r else 0.
Definition csr_set (offset v : Z) (r : csrs) : csrs :=
  if offset =? ADF_PFVF_GEN4_VF2PF_CSR_ADDR_OFFSET then r <| vf2pf := v |>
  else if offset =? ADF_PFVF_GEN4_PF2VF_CSR_ADDR_OFFSET then r <| pf2vf := v |> else r.

Definition csr_rd (offset : Z) (w : world) : Z * world :=
  let w := env Access w in (csr_get offset (w_csrs w), w).
Definition csr_wr (offset v : Z) (w : world) : world :=
  let w := env Access w in
  mk_world (w_host w) (csr_set offset v (w_csrs w))
    (if offset =? ADF_PFVF_GEN4_VF2PF_CSR_ADDR_OFFSET then w_sent w ++ [v] else w_sent w).

(** * Sending and receiving *)

(** [n] attempts are left; [true] when there was no acknowledgement *)
Fixpoint ack_loop (n : nat) (dev : adf_pfvf_dev_data) (int_bit : Z) (w : world) : bool * world :=
  match n with
  | O => (true, w)
  | S n =>
      let w := usleep ADF_PFVF_MSG_ACK_DELAY_US w in
      let '(last, w) := csr_rd (local_csr_offset dev) w in
      if Z.land last int_bit =? 0 then (false, w) else ack_loop n dev int_bit w
  end.
Definition adf_pfvf_msg_ack_timed_out : adf_pfvf_dev_data -> Z -> world -> bool * world :=
  ack_loop (Z.to_nat ADF_PFVF_MSG_ACK_MAX_RETRIES).

Definition adf_pfvf_gen4_send (dev : adf_pfvf_dev_data) (msg : pfvf_message) (w : world) : Z * world :=
  let raw_msg := u32 (Z.lor (Z.shiftl (m_type msg) (type_shift dev)) (Z.shiftl (m_data msg) (data_shift dev))) in
  let raw_msg := Z.lor raw_msg (Z.lor ADF_PFVF_INT ADF_PFVF_MSGORIGIN_SYSTEM) in
  let w := csr_wr (local_csr_offset dev) raw_msg w in
  let '(timed_out, w) := adf_pfvf_msg_ack_timed_out dev ADF_PFVF_INT w in
  (if timed_out then - EIO else 0, w).

Definition adf_send_vf2pf_msg (dev : adf_pfvf_dev_data) (msg : pfvf_message) (w : world) : Z * world :=
  if negb (Z.land (m_type msg) (type_mask dev) =? m_type msg) then (- EINVAL, w)
  else if negb (Z.land (m_data msg) (data_mask dev) =? m_data msg) then (- EINVAL, w)
  else adf_pfvf_gen4_send dev msg w.

Definition adf_pfvf_gen4_recv (dev : adf_pfvf_dev_data) (w : world) : pfvf_message * world :=
  let '(val, w) := csr_rd (remote_csr_offset dev) w in
  if negb (Z.land val ADF_PFVF_INT =? 0) then
    let w := csr_wr (remote_csr_offset dev) (Z.land val (not32 ADF_PFVF_INT)) w in
    (mk_msg (Z.land (Z.shiftr val (data_shift dev)) (data_mask dev))
            (Z.land (Z.shiftr val (type_shift dev)) (type_mask dev)), w)
  else (mk_msg 0 0, w).
Definition adf_recv_pf2vf_msg := adf_pfvf_gen4_recv.

(** [n] retries are left *)
Fixpoint req_loop (n : nat) (dev : adf_pfvf_dev_data) (req : pfvf_message) (w : world) : Z * pfvf_message * world :=
  let '(err, w) := adf_send_vf2pf_msg dev req w in
  if negb (err =? 0) then (err, mk_msg 0 0, w)
  else
    let w := usleep ADF_PFVF_MSG_RESP_TIMEOUT w in
    let '(resp, w) := adf_recv_pf2vf_msg dev w in
    if negb (m_type resp =? 0) then (0, resp, w)
    else match n with
         | O => (- EIO, resp, w)
         | S n => req_loop n dev req w
         end.
Definition adf_send_vf2pf_req : adf_pfvf_dev_data -> pfvf_message -> world -> Z * pfvf_message * world :=
  req_loop (Z.to_nat ADF_PFVF_MSG_RESP_RETRIES).

(** * Block messages *)

(** The message that asks for a byte, or for the CRC of the bytes up to it, and the payload
    size of the block type; nothing when there is no such type *)
Definition build_blkmsg (type byte is_crc : Z) : option (pfvf_message * Z) :=
  if type <=? ADF_VF2PF_MAX_SMALL_MESSAGE_TYPE then
    Some (mk_msg (vf2pf_blkmsg_req_small type byte is_crc) ADF_VF2PF_MSGTYPE_SMALL_BLOCK_REQ,
          ADF_VF2PF_SMALL_PAYLOAD_SIZE)
  else if type <=? ADF_VF2PF_MAX_MEDIUM_MESSAGE_TYPE then
    Some (mk_msg (vf2pf_blkmsg_req_medium (type - ADF_VF2PF_MIN_MEDIUM_MESSAGE_TYPE) byte is_crc)
            ADF_VF2PF_MSGTYPE_MEDIUM_BLOCK_REQ, ADF_VF2PF_MEDIUM_PAYLOAD_SIZE)
  else if type <=? ADF_VF2PF_MAX_LARGE_MESSAGE_TYPE then
    Some (mk_msg (vf2pf_blkmsg_req_large (type - ADF_VF2PF_MIN_LARGE_MESSAGE_TYPE) byte is_crc)
            ADF_VF2PF_MSGTYPE_LARGE_BLOCK_REQ, ADF_VF2PF_LARGE_PAYLOAD_SIZE)
  else None.

(** The error code and the byte; the caller's byte is written only without an error *)
Definition adf_vf2pf_blkmsg_data_req (dev : adf_pfvf_dev_data) (type byte is_crc : Z) (w : world) : Z * Z * world :=
  match build_blkmsg type byte is_crc with
  | None => (- EINVAL, 0, w)
  | Some (req, max_payload_size) =>
      if max_payload_size + PFVF_BLKMSG_HEADER_SIZE <=? byte then (- EINVAL, 0, w)
      else
        let '(err, resp, w) := adf_send_vf2pf_req dev req w in
        if negb (err =? 0) then (err, 0, w)
        else if blk_resp resp =? ADF_PF2VF_BLKMSG_RESP_TYPE_ERROR then (- EIO, 0, w)
        else (0, blk_data resp, w)
  end.
Definition adf_vf2pf_blkmsg_get_byte (dev : adf_pfvf_dev_data) (type index : Z) (w : world) : Z * Z * world :=
  adf_vf2pf_blkmsg_data_req dev type index 0 w.
Definition adf_vf2pf_blkmsg_get_crc (dev : adf_pfvf_dev_data) (type bytes : Z) (w : world) : Z * Z * world :=
  adf_vf2pf_blkmsg_data_req dev type (u8 (bytes - 1)) 1 w.

(** A byte of the message is fetched into the buffer. *)
Definition fetch (dev : adf_pfvf_dev_data) (type index : Z) (buffer : list Z) (w : world) : Z * list Z * world :=
  let '(ret, b, w) := adf_vf2pf_blkmsg_get_byte dev type (u8 index) w in
  (ret, if ret =? 0 then buffer.[index <- b] else buffer, w).

(** [n] bytes are left *)
Fixpoint payload_loop (n : nat) (dev : adf_pfvf_dev_data) (type index : Z) (buffer : list Z) (w : world) : Z * list Z * world :=
  match n with
  | O => (0, buffer, w)
  | S n =>
      let '(ret, buffer, w) := fetch dev type index buffer w in
      if negb (ret =? 0) then (ret, buffer, w) else payload_loop n dev type (u16 (index + 1)) buffer w
  end.

(** The error code, the buffer and its length *)
Definition adf_send_vf2pf_blkmsg_req (dev : adf_pfvf_dev_data) (type : Z) (buffer : list Z) (buffer_len : Z) (w : world)
    : Z * list Z * Z * world :=
  if ADF_VF2PF_MAX_LARGE_MESSAGE_TYPE <? type then (- EINVAL, buffer, buffer_len, w)
  else if buffer_len <? PFVF_BLKMSG_HEADER_SIZE then (- EINVAL, buffer, buffer_len, w)
  else
    let '(ret, buffer, w) := fetch dev type PFVF_BLKMSG_VERSION_BYTE buffer w in
    if negb (ret =? 0) then (ret, buffer, buffer_len, w)
    else if buffer.[PFVF_BLKMSG_VERSION_BYTE] =? 0 then (- EFAULT, buffer, buffer_len, w)
    else
      let '(ret, buffer, w) := fetch dev type PFVF_BLKMSG_LEN_BYTE buffer w in
      if negb (ret =? 0) then (ret, buffer, buffer_len, w)
      else if buffer.[PFVF_BLKMSG_LEN_BYTE] =? 0 then (- EFAULT, buffer, buffer_len, w)
      else
        let msg_len := u16 (PFVF_BLKMSG_HEADER_SIZE + buffer.[PFVF_BLKMSG_LEN_BYTE]) in
        let msg_len := if buffer_len <? msg_len then buffer_len else msg_len in
        let '(ret, buffer, w) :=
          payload_loop (Z.to_nat (msg_len - PFVF_BLKMSG_HEADER_SIZE)) dev type PFVF_BLKMSG_HEADER_SIZE buffer w in
        if negb (ret =? 0) then (ret, buffer, buffer_len, w)
        else
          let '(ret, remote_crc, w) := adf_vf2pf_blkmsg_get_crc dev type (u8 msg_len) w in
          if negb (ret =? 0) then (ret, buffer, buffer_len, w)
          else
            let local_crc := adf_pfvf_calc_blkmsg_crc buffer (u8 msg_len) in
            if negb (local_crc =? remote_crc) then (- EIO, buffer, buffer_len, w)
            else (0, buffer, msg_len, w).

(** * Notifications and questions *)

Definition VF2PF_MAYBE_AVAILABLE : Z := -1.
Definition VF2PF_AVAILABLE : Z := 1.
Definition VF2PF_NOT_AVAILABLE : Z := 0.

(** The device's data, the variable [vf2pf_available] and the world *)
Record vf := mk_vf { v_dev : adf_pfvf_dev_data; vf2pf_available : Z; v_world : world }.

Definition adf_set_vf2pf_available (available : Z) (s : vf) : vf := mk_vf (v_dev s) available (v_world s).
Definition adf_vf2pf_available (s : vf) : bool := negb (vf2pf_available s =? VF2PF_NOT_AVAILABLE).
Definition set_world (w : world) (s : vf) : vf := mk_vf (v_dev s) (vf2pf_available s) w.
Definition set_dev (f : adf_pfvf_dev_data -> adf_pfvf_dev_data) (s : vf) : vf := mk_vf (f (v_dev s)) (vf2pf_available s) (v_world s).

Definition adf_vf2pf_notify_init (s : vf) : Z * vf :=
  if negb (adf_vf2pf_available s) then (- EIO, s)
  else
    let '(err, w) := adf_send_vf2pf_msg (v_dev s) (mk_msg 0 ADF_VF2PF_MSGTYPE_INIT) (v_world s) in
    let s := set_world w s in
    if negb (err =? 0) then (- EFAULT, adf_set_vf2pf_available VF2PF_NOT_AVAILABLE s)
    else (0, set_dev (fun d => d <| pfvf_initialized := 1 |>) s).

(** The common body of [adf_vf2pf_notify_shutdown] and [adf_vf2pf_notify_restarting_complete] *)
Definition notify_end (type : Z) (s : vf) : vf :=
  if negb (adf_vf2pf_available s) then s
  else if negb (pfvf_initialized (v_dev s) =? 0) then
    let '(err, w) := adf_send_vf2pf_msg (v_dev s) (mk_msg 0 type) (v_world s) in
    let s := set_world w s in
    if negb (err =? 0) then adf_set_vf2pf_available VF2PF_NOT_AVAILABLE s
    else set_dev (fun d => d <| pfvf_initialized := 0 |>) s
  else s.
Definition adf_vf2pf_notify_shutdown : vf -> vf := notify_end ADF_VF2PF_MSGTYPE_SHUTDOWN.
Definition adf_vf2pf_notify_restarting_complete : vf -> vf := notify_end ADF_VF2PF_MSGTYPE_RESTARTING_COMPLETE.

(** Whether the library works with a host of this version *)
Definition version_accepted (version compat : Z) : bool :=
  (compat =? ADF_PF2VF_VF_COMPATIBLE) ||
  ((compat =? ADF_PF2VF_VF_COMPAT_UNKNOWN) &&
   ((ADF_PFVF_COMPAT_RING_TO_SVC_MAP <=? version) && (version <? ADF_PFVF_COMPAT_THIS_VERSION))).

Definition adf_vf2pf_check_compat_version (s : vf) : Z * vf :=
  if negb (adf_vf2pf_available s) then (- EIO, s)
  else
    let '(ret, resp, w) := adf_send_vf2pf_req (v_dev s)
      (mk_msg (put_field ADF_PFVF_COMPAT_THIS_VERSION 0 8) ADF_VF2PF_MSGTYPE_COMPAT_VER_REQ) (v_world s) in
    let s := set_world w s in
    if negb (ret =? 0) then (ret, adf_set_vf2pf_available VF2PF_NOT_AVAILABLE s)
    else if negb (m_type resp =? ADF_PF2VF_MSGTYPE_VERSION_RESP) then (- EFAULT, s)
    else if version_accepted (compat_version_of resp) (compat_of resp)
    then (0, set_dev (fun d => d <| compat_version := compat_version_of resp |>) s)
    else (- EFAULT, s).

(** The value of [n] bytes from [i] on, the lowest one first *)
Fixpoint le_at (buf : list Z) (i : Z) (n : nat) : Z :=
  match n with O => 0 | S n => buf.[i] + 256 * le_at buf (i + 1) n end.

(** [sizeof (struct ring_to_svc_map_v1)] *)
Definition sizeof_ring_to_svc_map_v1 : Z := 4.

Definition adf_vf2pf_get_ring_to_svc (s : vf) : Z * vf :=
  if negb (adf_vf2pf_available s) then (- EIO, s)
  else if compat_version (v_dev s) <? ADF_PFVF_COMPAT_RING_TO_SVC_MAP then (- EFAULT, s)
  else
    let '(err, buf, n, w) := adf_send_vf2pf_blkmsg_req (v_dev s) ADF_VF2PF_BLKMSG_REQ_RING_SVC_MAP
      (replicate (Z.to_nat sizeof_ring_to_svc_map_v1) 0) sizeof_ring_to_svc_map_v1 (v_world s) in
    let s := set_world w s in
    if negb (err =? 0) then (- EFAULT, adf_set_vf2pf_available VF2PF_NOT_AVAILABLE s)
    else if n <? sizeof_ring_to_svc_map_v1 then (- EFAULT, s)
    else (0, set_dev (fun d => d <| ring_to_svc_map := le_at buf 2 2 |>) s).

(** The sizes of [struct capabilities_v1], [_v2] and [_v3] *)
Definition sizeof_capabilities_v1 : Z := 6.
Definition sizeof_capabilities_v2 : Z := 10.
Definition sizeof_capabilities_v3 : Z := 14.

(** A case of the [switch] on the version, with the code of the cases above it *)
Definition take_cap (size : Z) (f : adf_pfvf_dev_data -> adf_pfvf_dev_data) (n : Z) (r : Z * vf) : Z * vf :=
  if size <=? n then (r.1, set_dev f r.2) else (- EFAULT, r.2).

Definition adf_vf2pf_get_capabilities (s : vf) : Z * vf :=
  if negb (adf_vf2pf_available s) then (- EIO, s)
  else if compat_version (v_dev s) <? ADF_PFVF_COMPAT_CAPABILITIES then (- EFAULT, s)
  else
    let '(err, buf, n, w) := adf_send_vf2pf_blkmsg_req (v_dev s) ADF_VF2PF_BLKMSG_REQ_CAP_SUMMARY
      (replicate (Z.to_nat sizeof_capabilities_v3) 0) sizeof_capabilities_v3 (v_world s) in
    let s := set_world w s in
    if negb (err =? 0) then (- EFAULT, adf_set_vf2pf_available VF2PF_NOT_AVAILABLE s)
    else
      let version := buf.[PFVF_BLKMSG_VERSION_BYTE] in
      let r := (0, s) in
      let r := if (version =? 1) || (version =? 2) then r
               else take_cap sizeof_capabilities_v3 (fun d => d <| frequency := le_at buf 10 4 |>) n r in
      let r := if version =? 1 then r
               else take_cap sizeof_capabilities_v2 (fun d => d <| capabilities := le_at buf 6 4 |>) n r in
      take_cap sizeof_capabilities_v1 (fun d => d <| ext_dc_caps := le_at buf 2 4 |>) n r.

Definition adf_check_pf2vf_notification (s : vf) : Z * vf :=
  let '(msg, w) := adf_recv_pf2vf_msg (v_dev s) (v_world s) in (m_type msg, set_world w s).

(** * Hosts that follow the protocol *)

Definition ack_round (w : world) : world := env Access (usleep ADF_PFVF_MSG_ACK_DELAY_US w).

(** A host that does nothing unless asked, and that acknowledges a request for which it has an
    answer and answers it in time *)
Record serves (idle : host -> Prop) (answer : Z -> option Z) : Prop := {
  serves_quiet : forall e h r, idle h -> Z.testbit (vf2pf r) 0 = false -> exists h', pf e h r = (h', r) /\ idle h';
  serves_request : forall w a, idle (w_host w) -> Z.testbit (vf2pf (w_csrs w)) 0 = true -> answer (vf2pf (w_csrs w)) = Some a ->
    exists k, (k < Z.to_nat ADF_PFVF_MSG_ACK_MAX_RETRIES)%nat /\
      (forall j, (0 < j <= k)%nat -> Z.testbit (vf2pf (w_csrs (Nat.iter j ack_round w))) 0 = true) /\
      Z.testbit (vf2pf (w_csrs (Nat.iter (S k) ack_round w))) 0 = false /\
      let w' := usleep ADF_PFVF_MSG_RESP_TIMEOUT (Nat.iter (S k) ack_round w) in
      idle (w_host w') /\ Z.testbit (vf2pf (w_csrs w')) 0 = false /\ pf2vf (w_csrs w') = a
}.

(** The block type, the byte and whether its CRC is wanted, as a request tells them *)
Definition blk_fields (raw : Z) : option (Z * Z * Z) :=
  let data := field raw 8 24 in
  let parts w := (field data 0 w, field data w (9 - w), field data 9 1) in
  let type := field raw 2 6 in
  if type =? ADF_VF2PF_MSGTYPE_SMALL_BLOCK_REQ then Some (parts 4)
  else if type =? ADF_VF2PF_MSGTYPE_MEDIUM_BLOCK_REQ then
    let '(t, i, c) := parts 3 in Some (ADF_VF2PF_MIN_MEDIUM_MESSAGE_TYPE + t, i, c)
  else if type =? ADF_VF2PF_MSGTYPE_LARGE_BLOCK_REQ then
    let '(t, i, c) := parts 2 in Some (ADF_VF2PF_MIN_LARGE_MESSAGE_TYPE + t, i, c)
  else None.

(** A response to such a request *)
Definition blk_reply (kind v : Z) : Z :=
  Z.lor (Z.lor ADF_PFVF_INT ADF_PFVF_MSGORIGIN_SYSTEM)
    (Z.lor (Z.shiftl ADF_PF2VF_MSGTYPE_BLKMSG_RESP 2) (Z.shiftl (Z.lor (put_field kind 0 2) (put_field v 2 8)) 8)).

(** The host has the block message [blk]; a CRC is that of the bytes up to the one named. *)
Definition has_block (answer : Z -> option Z) (type : Z) (blk : list Z) : Prop :=
  forall raw i c, blk_fields raw = Some (type, i, c) -> 0 <= i < len blk ->
    answer raw = Some (if c =? 0 then blk_reply ADF_PF2VF_BLKMSG_RESP_TYPE_DATA (blk.[i])
                       else blk_reply ADF_PF2VF_BLKMSG_RESP_TYPE_CRC (adf_pfvf_calc_blkmsg_crc blk (i + 1))).

Definition raw_of (m : pfvf_message) : Z :=
  Z.lor (u32 (Z.lor (Z.shiftl (m_type m) 2) (Z.shiftl (m_data m) 8))) 3.
(** The number of bytes of a message of this type *)
Definition capacity (type : Z) : Z := if type <=? 15 then 32 else if type <=? 23 then 64 else 128.

(** The device's data as [adf_init_pfvf_dev_data] sets it up *)
Definition dev_ok (dev : adf_pfvf_dev_data) : Prop :=
  local_csr_offset dev = ADF_PFVF_GEN4_VF2PF_CSR_ADDR_OFFSET /\ remote_csr_offset dev = ADF_PFVF_GEN4_PF2VF_CSR_ADDR_OFFSET /\
  type_shift dev = 2 /\ data_shift dev = 8 /\ type_mask dev = 63 /\ data_mask dev = 16777215.

(** * Encoding *)

Definition build_ok (t i c : Z) : bool :=
  match build_blkmsg t i c with
  | None => false
  | Some (m, size) =>
      (size + PFVF_BLKMSG_HEADER_SIZE =? capacity t) && (Z.land (m_type m) 63 =? m_type m) &&
      (Z.land (m_data m) 16777215 =? m_data m) &&
      (negb (i <? capacity t) ||
       bool_decide (blk_fields (raw_of m) = Some (t, i, c)) && Z.testbit (raw_of m) 0)
  end.
Lemma build_table : forallb (fun t => forallb (fun i => build_ok t i 0 && build_ok t i 1) (seqZ 0 256)) (seqZ 0 28) = true.
Proof. by vm_compute. Qed.

Lemma build_spec t i c : 0 <= t <= 27 -> 0 <= i < 256 -> c = 0 \/ c = 1 ->
  exists m, build_blkmsg t i c = Some (m, capacity t - 2) /\ Z.land (m_type m) 63 = m_type m /\ Z.land (m_data m) 16777215 = m_data m /\
    (i < capacity t -> blk_fields (raw_of m) = Some (t, i, c) /\ Z.testbit (raw_of m) 0 = true).
Proof.
  intros Ht Hi Hc. pose proof build_table as HT. rewrite forallb_seqZ in HT. specialize (HT t ltac:(lia)).
  rewrite forallb_seqZ in HT. specialize (HT i ltac:(lia)). apply andb_true_iff in HT as [H0 H1].
  assert (build_ok t i c = true) as H by (by destruct Hc as [-> | ->]). clear H0 H1. unfold build_ok in H.
  destruct (build_blkmsg t i c) as [[m size]|]; [|done]. exists m. breflect. unfold PFVF_BLKMSG_HEADER_SIZE in *.
  split_and!; [do 2 f_equal; lia|done..|]. intros Hlt. destruct H0 as [H0|H0]; breflect; [lia|].
  apply bool_decide_eq_true in H0. done.
Qed.

(** What the library reads from a response *)
Definition reply_ok (kind v : Z) : bool :=
  let raw := blk_reply kind v in
  let m := mk_msg (Z.land (Z.shiftr raw 8) 16777215) (Z.land (Z.shiftr raw 2) 63) in
  negb (Z.land raw 1 =? 0) && (m_type m =? 3) && (blk_resp m =? kind) && (blk_data m =? v).
Lemma reply_table : forallb (fun v => reply_ok 0 v && reply_ok 1 v) (seqZ 0 256) = true.
Proof. by vm_compute. Qed.
Lemma reply_spec kind v : kind = 0 \/ kind = 1 -> 0 <= v < 256 -> reply_ok kind v = true.
Proof.
  intros Hk Hv. pose proof reply_table as HT. rewrite forallb_seqZ in HT. specialize (HT v ltac:(lia)).
  apply andb_true_iff in HT as [H0 H1]. by destruct Hk as [-> | ->].
Qed.

(** The beginning of [l1] over that of [l2] *)
Lemma splice_get (l1 l2 : list Z) m j : 0 <= m <= len l1 -> 0 <= j ->
  (take (Z.to_nat m) l1 ++ drop (Z.to_nat m) l2).[j] = if j <? m then l1.[j] else l2.[j].
Proof.
  intros Hm Hj. unfold arr_get. destruct (Z.ltb_spec j m).
  - rewrite app_nth1 by (rewrite length_take; lia). rewrite nth_firstn, (proj2 (Nat.ltb_lt _ _)) by lia. done.
  - rewrite app_nth2 by (rewrite length_take; lia). rewrite length_take, nth_skipn. f_equal. lia.
Qed.

(** * CRC-8 *)

Lemma crc8_table_range i : 0 <= pfvf_crc8_table.[i] < 256.
Proof.
  unfold arr_get. generalize (Z.to_nat i). intros n. destruct (nth_in_or_default n pfvf_crc8_table 0) as [H| ->]; [|lia].
  assert (Forall (fun x => 0 <= x < 256) pfvf_crc8_table) as HF by (repeat (constructor; [lia|]); constructor).
  rewrite List.Forall_forall in HF. by apply HF.
Qed.
Lemma crc8_range n : forall c buf, 0 <= c < 256 -> 0 <= adf_pfvf_crc c buf n < 256.
Proof.
  induction n as [|n IH]; intros c buf Hc; [done|]. destruct buf as [|b buf]; [done|]. apply IH, crc8_table_range.
Qed.
Lemma crc8_take n : forall c buf m, (n <= m)%nat -> adf_pfvf_crc c (take m buf) n = adf_pfvf_crc c buf n.
Proof.
  induction n as [|n IH]; intros c buf m Hm; [done|]. destruct m as [|m]; [lia|]. destruct buf as [|b buf]; [done|].
  cbn. apply IH. lia.
Qed.

(** * A host that follows the protocol *)

Lemma int_test x : (Z.land x ADF_PFVF_INT =? 0) = negb (Z.testbit x 0).
Proof.
  unfold ADF_PFVF_INT. change 1 with (Z.ones 1). rewrite Z.land_ones, Z.bit0_odd by lia. change (2 ^ 1) with 2. rewrite Zmod_odd.
  by destruct (Z.odd x).
Qed.

Lemma ack_loop_acked dev k : local_csr_offset dev = ADF_PFVF_GEN4_VF2PF_CSR_ADDR_OFFSET -> forall n w, (k < n)%nat ->
  (forall j, (0 < j <= k)%nat -> Z.testbit (vf2pf (w_csrs (Nat.iter j ack_round w))) 0 = true) ->
  Z.testbit (vf2pf (w_csrs (Nat.iter (S k) ack_round w))) 0 = false ->
  ack_loop n dev ADF_PFVF_INT w = (false, Nat.iter (S k) ack_round w).
Proof.
  intros Ho. induction k as [|k IH]; intros [|n] w Hn Hj Hk; try lia; cbn [ack_loop]; unfold csr_rd; rewrite Ho;
    change (env Access (usleep ADF_PFVF_MSG_ACK_DELAY_US w)) with (ack_round w); cbn [csr_get]; rewrite int_test.
  - change (Nat.iter 1 ack_round w) with (ack_round w) in Hk. change (csr_get _ ?r) with (vf2pf r). by rewrite Hk.
  - change (csr_get _ ?r) with (vf2pf r). specialize (Hj 1%nat ltac:(lia)) as H1. change (Nat.iter 1 ack_round w) with (ack_round w) in H1. rewrite H1. cbn [negb]. rewrite (Nat.iter_succ_r (S k)).
    apply IH; [lia| |by rewrite <- Nat.iter_succ_r]. intros j Hjk. rewrite <- Nat.iter_succ_r. apply Hj. lia.
Qed.

Section honest.
Context (idle : host -> Prop) (answer : Z -> option Z) (HS : serves idle answer).
Context (dev : adf_pfvf_dev_data) (HD : dev_ok dev).

Definition ready (w : world) : Prop := idle (w_host w) /\ Z.testbit (vf2pf (w_csrs w)) 0 = false.

Lemma quiet_env e w : ready w -> exists h, env e w = mk_world h (w_csrs w) (w_sent w) /\ idle h.
Proof.
  intros [Hi Hb]. destruct (serves_quiet _ _ HS e _ _ Hi Hb) as (h & E & Hh). exists h. unfold env. by rewrite E.
Qed.

(** A message is written and acknowledged, and then there is the answer. *)
Lemma send_served m a w : ready w -> Z.land (m_type m) 63 = m_type m -> Z.land (m_data m) 16777215 = m_data m ->
  Z.testbit (raw_of m) 0 = true -> answer (raw_of m) = Some a ->
  exists w', adf_send_vf2pf_msg dev m w = (0, w') /\
    let w'' := usleep ADF_PFVF_MSG_RESP_TIMEOUT w' in ready w'' /\ pf2vf (w_csrs w'') = a.
Proof.
  intros HR Ht Hd Hb Ha. destruct HD as (Ho & _ & Hts & Hds & Htm & Hdm). unfold adf_send_vf2pf_msg. rewrite Htm, Hdm, Ht, Hd, !Z.eqb_refl.
  cbn [negb]. unfold adf_pfvf_gen4_send. rewrite Hts, Hds. change (Z.lor ADF_PFVF_INT ADF_PFVF_MSGORIGIN_SYSTEM) with 3.
  fold (raw_of m). unfold csr_wr. destruct (quiet_env Access w HR) as (h & -> & Hh). rewrite Ho.
  change (ADF_PFVF_GEN4_VF2PF_CSR_ADDR_OFFSET =? ADF_PFVF_GEN4_VF2PF_CSR_ADDR_OFFSET) with true. cbn [w_host w_csrs w_sent].
  set (w1 := mk_world h _ _). assert (vf2pf (w_csrs w1) = raw_of m) as E1 by done.
  destruct (serves_request _ _ HS w1 a) as (k & Hk & Hj & Hc & Hi & Hv & Hp); [done|by rewrite E1|by rewrite E1|].
  unfold adf_pfvf_msg_ack_timed_out. rewrite (ack_loop_acked dev k Ho _ w1 Hk Hj Hc). eexists. split; [reflexivity|]. done.
Qed.

Lemma recv_answer w a : ready w -> pf2vf (w_csrs w) = a -> negb (Z.land a 1 =? 0) = true ->
  exists w', adf_recv_pf2vf_msg dev w = (mk_msg (Z.land (Z.shiftr a 8) 16777215) (Z.land (Z.shiftr a 2) 63), w') /\ ready w'.
Proof.
  intros HR Hp Hb. destruct HD as (_ & Ho & Hts & Hds & Htm & Hdm). unfold adf_recv_pf2vf_msg, adf_pfvf_gen4_recv, csr_rd.
  destruct (quiet_env Access w HR) as (h & -> & Hh). rewrite Ho. cbn [w_csrs].
  change (csr_get ADF_PFVF_GEN4_PF2VF_CSR_ADDR_OFFSET ?r) with (pf2vf r). rewrite Hp. change ADF_PFVF_INT with 1. rewrite Hb.
  unfold csr_wr. destruct (quiet_env Access (mk_world h (w_csrs w) (w_sent w))) as (h' & -> & Hh').
  { split; [done|apply HR]. }
  rewrite Hts, Hds, Htm, Hdm. eexists. split; [reflexivity|]. split; [done|]. apply HR.
Qed.

Context (type : Z) (blk : list Z) (HB : has_block answer type blk) (Htype : 0 <= type <= 27).
Context (Hblk : Forall (fun b => 0 <= b < 256) blk) (Hlen : len blk <= capacity type).

Lemma blk_byte i : 0 <= blk.[i] < 256.
Proof.
  unfold arr_get. generalize (Z.to_nat i). intros n. destruct (nth_in_or_default n blk 0) as [H| ->]; [|lia].
  rewrite List.Forall_forall in Hblk. by apply Hblk.
Qed.

(** A byte or a CRC is asked for and received. *)
Lemma data_req_served i c w : ready w -> 0 <= i < len blk -> c = 0 \/ c = 1 ->
  exists w', adf_vf2pf_blkmsg_data_req dev type i c w =
    (0, if c =? 0 then blk.[i] else adf_pfvf_calc_blkmsg_crc blk (i + 1), w') /\ ready w'.
Proof.
  intros HR Hi Hc. assert (capacity type <= 128) by (unfold capacity; repeat case_if; lia).
  destruct (build_spec type i c) as (m & Em & Ht & Hd & Hf); [lia..|done|].
  destruct (Hf ltac:(lia)) as [Hfi Hb]. unfold adf_vf2pf_blkmsg_data_req. rewrite Em.
  unfold PFVF_BLKMSG_HEADER_SIZE. rewrite (proj2 (Z.leb_gt _ i)) by lia.
  pose proof (HB _ _ _ Hfi Hi) as Ha. set (kind := if c =? 0 then 0 else 1).
  set (v := if c =? 0 then blk.[i] else adf_pfvf_calc_blkmsg_crc blk (i + 1)).
  assert (answer (raw_of m) = Some (blk_reply kind v)) as Ha' by (rewrite Ha; subst kind v; by destruct (c =? 0)).
  assert (reply_ok kind v = true) as Hr.
  { apply reply_spec; subst kind v; destruct (c =? 0); auto; [apply blk_byte|]. apply crc8_range. unfold ADF_CRC8_INIT_VALUE. lia. }
  destruct (send_served m _ w HR Ht Hd Hb Ha') as (w1 & E1 & HR1 & Hp).
  unfold reply_ok in Hr. cbv zeta in Hr. rewrite !andb_true_iff, !Z.eqb_eq in Hr. destruct Hr as (((Hint & Hty) & Hre) & Hda).
  destruct (recv_answer _ _ HR1 Hp Hint) as (w2 & E2 & HR2). set (msg := mk_msg _ _) in *.
  exists w2. split; [|done]. unfold adf_send_vf2pf_req. destruct (Z.to_nat ADF_PFVF_MSG_RESP_RETRIES); cbn [req_loop]; rewrite E1; cbn [negb Z.eqb];
    rewrite E2, Hty; cbn [negb Z.eqb]; rewrite Hre, Hda; subst kind; by destruct (c =? 0).
Qed.
Lemma fetch_served i buffer w : ready w -> 0 <= i < len blk ->
  exists w', fetch dev type i buffer w = (0, buffer.[i <- blk.[i]], w') /\ ready w'.
Proof.
  intros HR Hi. assert (capacity type <= 128) by (unfold capacity; repeat case_if; lia).
  unfold fetch, adf_vf2pf_blkmsg_get_byte, u8. rewrite Z.mod_small by lia.
  destruct (data_req_served i 0 w HR Hi (or_introl eq_refl)) as (w' & -> & HR'). by exists w'.
Qed.

Lemma payload_served n : forall i buffer w, ready w -> 0 <= i -> i + Z.of_nat n <= len blk ->
  exists buffer' w', payload_loop n dev type i buffer w = (0, buffer', w') /\ ready w' /\ length buffer' = length buffer /\
    forall j, 0 <= j < len buffer -> buffer'.[j] = if (i <=? j) && (j <? i + Z.of_nat n) then blk.[j] else buffer.[j].
Proof.
  assert (capacity type <= 128) by (unfold capacity; repeat case_if; lia).
  induction n as [|n IH]; intros i buffer w HR Hi Hn; cbn [payload_loop].
  { exists buffer, w. split_and!; [done..|]. intros j Hj. zcases. }
  destruct (fetch_served i buffer w HR ltac:(lia)) as (w1 & -> & HR1). cbn [negb Z.eqb]. rewrite u16_small by lia.
  destruct (IH (i + 1) (buffer.[i <- blk.[i]]) w1 HR1 ltac:(lia) ltac:(lia)) as (b2 & w2 & -> & HR2 & Hl & Hb).
  rewrite length_arr_set in Hl, Hb. exists b2, w2. split_and!; [done..|]. intros j Hj. rewrite Hb by done.
  destruct (decide (j = i)) as [->|].
  - rewrite arr_get_set_eq by done. zcases.
  - rewrite arr_get_set_ne by lia. zcases.
Qed.

(** The library gets the message, or as much of it as fits. *)
Lemma blkmsg_served buffer n w : ready w -> len blk = 2 + blk.[1] -> blk.[0] <> 0 -> blk.[1] <> 0 -> 2 <= n <= len buffer -> n < 2 ^ 16 ->
  let m := Z.min n (len blk) in
  exists w', adf_send_vf2pf_blkmsg_req dev type buffer n w = (0, take (Z.to_nat m) blk ++ drop (Z.to_nat m) buffer, m, w') /\ ready w'.
Proof.
  intros HR Hb1 Hv Hz Hn Hn16 m. assert (capacity type <= 128) by (unfold capacity; repeat case_if; lia). pose proof (blk_byte 1).
  unfold adf_send_vf2pf_blkmsg_req, ADF_VF2PF_MAX_LARGE_MESSAGE_TYPE, PFVF_BLKMSG_HEADER_SIZE, PFVF_BLKMSG_VERSION_BYTE, PFVF_BLKMSG_LEN_BYTE.
  rewrite (proj2 (Z.ltb_ge _ _)), (proj2 (Z.ltb_ge n _)) by lia.
  destruct (fetch_served 0 buffer w HR ltac:(lia)) as (w1 & -> & HR1). cbn [negb Z.eqb].
  rewrite arr_get_set_eq, (proj2 (Z.eqb_neq _ _)) by (done || lia). cbn [negb].
  destruct (fetch_served 1 (buffer.[0 <- blk.[0]]) w1 HR1 ltac:(lia)) as (w2 & -> & HR2). cbn [negb Z.eqb].
  rewrite arr_get_set_eq, (proj2 (Z.eqb_neq _ _)) by (done || rewrite ?length_arr_set; lia). cbn [negb].
  rewrite u16_small by lia. assert ((if n <? 2 + blk.[1] then n else 2 + blk.[1]) = m) as -> by (subst m; case_if; lia).
  set (b2 := (buffer.[0 <- blk.[0]]).[1 <- blk.[1]]).
  destruct (payload_served (Z.to_nat (m - 2)) 2 b2 w2 HR2 ltac:(lia) ltac:(lia)) as (b3 & w3 & -> & HR3 & Hl & Hg). cbn [negb Z.eqb].
  assert (len b2 = len buffer) as Hl2 by (subst b2; by rewrite !length_arr_set).
  assert (b3 = take (Z.to_nat m) blk ++ drop (Z.to_nat m) buffer) as ->.
  { apply arr_ext; [rewrite length_app, length_take, length_drop; lia|]. intros j Hj. rewrite Hg, splice_get by lia. subst b2.
    destruct (decide (j = 1)) as [->|]; [rewrite arr_get_set_eq by (rewrite length_arr_set; lia); zcases|]. rewrite arr_get_set_ne by lia.
    destruct (decide (j = 0)) as [->|]; [rewrite arr_get_set_eq by lia; zcases|]. rewrite arr_get_set_ne by lia. zcases. }
  unfold adf_vf2pf_blkmsg_get_crc, u8. rewrite !(Z.mod_small m), (Z.mod_small (m - 1)) by lia.
  destruct (data_req_served (m - 1) 1 w3 HR3 ltac:(lia) (or_intror eq_refl)) as (w4 & -> & HR4). cbn [negb Z.eqb].
  rewrite Z.sub_add. exists w4. split; [|done].
  unfold adf_pfvf_calc_blkmsg_crc. rewrite <- (crc8_take _ _ (_ ++ _) (Z.to_nat m)), <- (crc8_take _ _ blk (Z.to_nat m)) by lia.
  rewrite take_app_le, take_take, Nat.min_id by (rewrite length_take; lia). by rewrite Z.eqb_refl.
Qed.
End honest.

(** * Any host *)

(** Between [w] and [w'] the library has written at most [n] messages, all of them [P]. *)
Definition wrote (P : Z -> Prop) (n : nat) (w w' : world) : Prop :=
  exists l, w_sent w' = w_sent w ++ l /\ (length l <= n)%nat /\ Forall P l.

Lemma wrote_refl P n w w' : w_sent w' = w_sent w -> wrote P n w w'.
Proof. intros E. exists []. rewrite app_nil_r. split_and!; [done|cbn; lia|constructor]. Qed.
Lemma wrote_trans P n1 n2 n w1 w2 w3 : wrote P n1 w1 w2 -> wrote P n2 w2 w3 -> (n1 + n2 <= n)%nat -> wrote P n w1 w3.
Proof.
  intros (l1 & E1 & H1 & F1) (l2 & E2 & H2 & F2) Hn. exists (l1 ++ l2). rewrite length_app, E2, E1, app_assoc.
  split_and!; [done|lia|by apply Forall_app].
Qed.
Lemma wrote_weaken (P Q : Z -> Prop) n m w w' : (forall x, P x -> Q x) -> (n <= m)%nat -> wrote P n w w' -> wrote Q m w w'.
Proof. intros H Hn (l & E & Hl & HF). exists l. split_and!; [done|lia|by eapply Forall_impl]. Qed.

Lemma env_sent e w : w_sent (env e w) = w_sent w.
Proof. unfold env. by destruct (pf e (w_host w) (w_csrs w)). Qed.

Lemma ack_loop_sent dev n : forall w, w_sent (ack_loop n dev ADF_PFVF_INT w).2 = w_sent w.
Proof.
  induction n as [|n IH]; intros w; [done|]. cbn [ack_loop csr_rd]. unfold csr_rd, usleep. case_if.
  - cbn [snd]. by rewrite !env_sent.
  - by rewrite IH, !env_sent.
Qed.

Section device.
Context (dev : adf_pfvf_dev_data) (HD : dev_ok dev).

Lemma send_any m w : let '(err, w') := adf_send_vf2pf_msg dev m w in
  wrote (fun raw => raw = raw_of m) 1 w w' /\ (err = 0 \/ err = - EINVAL \/ err = - EIO).
Proof.
  destruct HD as (Ho & _ & Hts & Hds & _ & _). unfold adf_send_vf2pf_msg. destruct (negb (Z.land (m_type m) _ =? _)).
  { split; [by apply wrote_refl|auto]. }
  destruct (negb (Z.land (m_data m) _ =? _)). { split; [by apply wrote_refl|auto]. }
  unfold adf_pfvf_gen4_send, adf_pfvf_msg_ack_timed_out. rewrite Hts, Hds. change (Z.lor ADF_PFVF_INT ADF_PFVF_MSGORIGIN_SYSTEM) with 3.
  fold (raw_of m). set (w1 := csr_wr _ _ _). pose proof (ack_loop_sent dev (Z.to_nat ADF_PFVF_MSG_ACK_MAX_RETRIES) w1) as HA.
  destruct (ack_loop _ _ _ w1) as [b w2]. cbn [snd] in HA. split; [|destruct b; auto]. exists [raw_of m].
  rewrite HA. subst w1. unfold csr_wr. rewrite Ho. cbn [w_sent].
  change (ADF_PFVF_GEN4_VF2PF_CSR_ADDR_OFFSET =? ADF_PFVF_GEN4_VF2PF_CSR_ADDR_OFFSET) with true. rewrite env_sent.
  split_and!; [done|cbn; lia|by repeat constructor].
Qed.

Lemma recv_any w : w_sent (adf_recv_pf2vf_msg dev w).2 = w_sent w.
Proof.
  destruct HD as (_ & Ho & _). unfold adf_recv_pf2vf_msg, adf_pfvf_gen4_recv, csr_rd, csr_wr. rewrite Ho.
  case_if; cbn [snd w_sent]; [|by rewrite env_sent].
  change (ADF_PFVF_GEN4_PF2VF_CSR_ADDR_OFFSET =? ADF_PFVF_GEN4_VF2PF_CSR_ADDR_OFFSET) with false. by rewrite !env_sent.
Qed.

Lemma req_any req n : forall w, let '(err, resp, w') := req_loop n dev req w in
  wrote (fun raw => raw = raw_of req) (S n) w w' /\ (err = 0 /\ m_type resp <> 0 \/ err = - EINVAL \/ err = - EIO).
Proof.
  induction n as [|n IH]; intros w; cbn [req_loop]; pose proof (send_any req w) as HA;
    destruct (adf_send_vf2pf_msg dev req w) as [err w1]; destruct HA as [HW HE].
  all: destruct (Z.eqb_spec err 0) as [->|Hne]; cbn [negb].
  all: try (split; [by eapply wrote_weaken; [..|exact HW]; [done|lia]|destruct HE; [done|auto]]).
  all: pose proof (recv_any (usleep ADF_PFVF_MSG_RESP_TIMEOUT w1)) as HRv;
    destruct (adf_recv_pf2vf_msg dev (usleep ADF_PFVF_MSG_RESP_TIMEOUT w1)) as [resp w2]; cbn [snd] in HRv;
    unfold usleep in HRv; rewrite env_sent in HRv.
  all: destruct (Z.eqb_spec (m_type resp) 0) as [Hz|Hnz]; cbn [negb].
  all: try (split; [eapply wrote_trans; [exact HW|by apply (wrote_refl _ 0)|lia]|auto]).
  specialize (IH w2). destruct (req_loop n dev req w2) as [[err resp'] w3]. destruct IH as [HI HE']. split; [|done].
  apply (wrote_trans _ 1 (S n) _ w w1 w3); [done| |lia]. apply (wrote_trans _ 0 (S n) _ w1 w2 w3); [by apply wrote_refl|done|lia].
Qed.

(** Requests for bytes of a message of this type *)
Definition asks (type raw : Z) : Prop :=
  Z.testbit raw 0 = true /\ exists i c, blk_fields raw = Some (type, i, c) /\ i < capacity type.

Definition blk_err (err : Z) : Prop := err = - EINVAL \/ err = - EIO \/ err = - EFAULT.

Context (type : Z) (Htype : 0 <= type <= 27).

Lemma field_range x p n : 0 <= n -> 0 <= field x p n < 2 ^ n.
Proof. intros Hn. unfold field. rewrite Z.land_ones by done. apply Z.mod_pos_bound. lia. Qed.

Lemma data_req_any i c w : 0 <= i < 256 -> c = 0 \/ c = 1 -> let '(err, b, w') := adf_vf2pf_blkmsg_data_req dev type i c w in
  wrote (asks type) 6 w w' /\ (err = 0 /\ i < capacity type /\ 0 <= b < 256 \/ blk_err err).
Proof.
  intros Hi Hc. destruct (build_spec type i c) as (m & Em & Ht & Hd & Hf); [done..|]. unfold adf_vf2pf_blkmsg_data_req, blk_err. rewrite Em.
  unfold PFVF_BLKMSG_HEADER_SIZE. rewrite Z.sub_add. destruct (Z.leb_spec (capacity type) i); [split; [by apply wrote_refl|auto]|].
  pose proof (req_any m (Z.to_nat ADF_PFVF_MSG_RESP_RETRIES) w) as HA. unfold adf_send_vf2pf_req.
  destruct (req_loop _ dev m w) as [[err resp] w1]. destruct HA as [HW HE].
  assert (wrote (asks type) 6 w w1) as HW'.
  { eapply wrote_weaken; [..|exact HW]; [|done]. intros x ->. destruct (Hf ltac:(lia)) as [H1 H2]. split; [done|]. by exists i, c. }
  destruct (Z.eqb_spec err 0) as [->|Hne]; cbn [negb]; [|split; [done|]; destruct HE as [[? _]|]; [done|]; tauto].
  destruct (blk_resp resp =? _); [split; [done|]; auto|]. split; [done|]. left. split; [done|]. split; [done|].
  unfold blk_data. pose proof (field_range (m_data resp) 2 8). lia.
Qed.

Lemma fetch_any i buffer w : 0 <= i -> let '(err, buffer', w') := fetch dev type i buffer w in
  wrote (asks type) 6 w w' /\
  ((err = 0 /\ u8 i < capacity type /\ exists b, 0 <= b < 256 /\ buffer' = buffer.[i <- b]) \/ blk_err err /\ buffer' = buffer).
Proof.
  intros Hi. pose proof (data_req_any (u8 i) 0 w) as HA. unfold fetch, adf_vf2pf_blkmsg_get_byte.
  destruct (adf_vf2pf_blkmsg_data_req dev type (u8 i) 0 w) as [[err b] w'].
  destruct HA as [HW [(-> & Hc & Hb)|HE]]; [apply Z.mod_pos_bound; lia|auto| |]; (split; [done|]).
  - left. cbn [Z.eqb]. eauto.
  - right. split; [done|]. destruct (Z.eqb_spec err 0) as [->|]; [|done]. unfold blk_err, EINVAL, EIO, EFAULT in HE. lia.
Qed.

(** Where a buffer may have changed; bytes stay bytes *)
Definition bytes (buffer : list Z) : Prop := forall j, 0 <= buffer.[j] < 256.
Definition changed_in (i n : Z) (buffer buffer' : list Z) : Prop :=
  length buffer' = length buffer /\ (forall j, 0 <= j -> ~ (i <= j < i + n) -> buffer'.[j] = buffer.[j]) /\ (bytes buffer -> bytes buffer').

Lemma bytes_set buffer i b : 0 <= b < 256 -> bytes buffer -> bytes (buffer.[i <- b]).
Proof.
  intros Hb HB j. destruct (decide (Z.to_nat j = Z.to_nat i)) as [E|E].
  - unfold arr_get, arr_set. rewrite E, nth_lookup. destruct (decide (Z.to_nat i < length buffer)%nat).
    + by rewrite list_lookup_insert_eq.
    + rewrite list_insert_ge, lookup_ge_None_2 by lia. cbn. lia.
  - unfold arr_get, arr_set. rewrite nth_lookup, list_lookup_insert_ne, <- nth_lookup by done. apply HB.
Qed.
Lemma changed_set buffer i b : 0 <= i -> 0 <= b < 256 -> changed_in i 1 buffer (buffer.[i <- b]).
Proof.
  intros Hi Hb. split; [apply length_arr_set|]. split; [|by apply bytes_set]. intros j Hj Hn. apply arr_get_set_ne; lia.
Qed.
Lemma changed_trans i1 n1 i2 n2 i n b1 b2 b3 : changed_in i1 n1 b1 b2 -> changed_in i2 n2 b2 b3 -> i <= i1 -> i1 + n1 <= i + n ->
  i <= i2 -> i2 + n2 <= i + n -> changed_in i n b1 b3.
Proof.
  intros (L1 & G1 & B1) (L2 & G2 & B2) ? ? ? ?. split; [congruence|]. split; [|auto]. intros j Hj Hn. rewrite G2, G1 by lia. done.
Qed.
Lemma changed_refl i n b : changed_in i n b b.
Proof. done. Qed.

Lemma payload_any n : forall i buffer w, 0 <= i <= capacity type -> let '(err, buffer', w') := payload_loop n dev type i buffer w in
  wrote (asks type) (6 * n) w w' /\ changed_in i (Z.of_nat n) buffer buffer' /\
  ((err = 0 /\ i + Z.of_nat n <= capacity type) \/ blk_err err).
Proof.
  assert (capacity type <= 128) as Hcap by (unfold capacity; repeat case_if; lia).
  induction n as [|n IH]; intros i buffer w Hi; cbn [payload_loop].
  { split_and!; [by apply wrote_refl|done|left; lia]. }
  pose proof (fetch_any i buffer w ltac:(lia)) as HA. destruct (fetch dev type i buffer w) as [[err b1] w1]. unfold u8 in HA.
  rewrite Z.mod_small in HA by lia. destruct HA as [HW [(-> & Hc & b & Hb & ->)|[HE ->]]].
  - cbn [negb Z.eqb]. rewrite u16_small by lia. specialize (IH (i + 1) (buffer.[i <- b]) w1 ltac:(lia)).
    destruct (payload_loop n dev type (i + 1) _ w1) as [[err b2] w2]. destruct IH as (HW2 & HG & HE). split_and!.
    + apply (wrote_trans _ 6 (6 * n) _ w w1 w2); [done..|lia].
    + eapply changed_trans; [apply (changed_set buffer i b); lia|exact HG|lia..].
    + destruct HE as [HE|]; [left; lia|by right].
  - assert (negb (err =? 0) = true) as ->.
    { unfold blk_err, EINVAL, EIO, EFAULT in HE. destruct (Z.eqb_spec err 0); [lia|done]. }
    split_and!; [by eapply wrote_weaken; [..|exact HW]; [done|lia]|done..|by right].
Qed.

Lemma blk_err_neq err : blk_err err -> (err =? 0) = false.
Proof. unfold blk_err, EINVAL, EIO, EFAULT. intros H. apply Z.eqb_neq. lia. Qed.

(** A message was received: its header, its length and its CRC are right. *)
Definition received (buffer : list Z) (n : Z) (w : world) : Prop :=
  buffer.[0] <> 0 /\ buffer.[1] <> 0 /\ n <= capacity type /\
  exists w0, adf_vf2pf_blkmsg_get_crc dev type n w0 = (0, adf_pfvf_calc_blkmsg_crc buffer n, w).

Definition blk_result (buffer : list Z) (n : Z) (w : world) (r : Z * list Z * Z * world) : Prop :=
  let '(err, buffer', n', w') := r in
  wrote (asks type) 1548 w w' /\ changed_in 0 n buffer buffer' /\
  ((err = 0 /\ 2 <= n /\ n' = Z.min n (2 + buffer'.[1]) /\ received buffer' n' w' /\ changed_in 0 n' buffer buffer') \/
   (blk_err err /\ n' = n)).

Lemma result_fail k err buffer buffer' n w w' : wrote (asks type) k w w' -> (k <= 1548)%nat -> changed_in 0 n buffer buffer' ->
  blk_err err -> blk_result buffer n w (err, buffer', n, w').
Proof. intros HW Hk HC HE. split_and!; [by eapply wrote_weaken; [..|exact HW]|done|by right]. Qed.

Lemma blkmsg_any buffer n w : 0 <= n <= len buffer -> n < 2 ^ 16 -> bytes buffer ->
  blk_result buffer n w (adf_send_vf2pf_blkmsg_req dev type buffer n w).
Proof.
  intros Hn Hn16 HB. assert (32 <= capacity type <= 128) as Hcap by (unfold capacity; repeat case_if; lia).
  unfold adf_send_vf2pf_blkmsg_req, ADF_VF2PF_MAX_LARGE_MESSAGE_TYPE, PFVF_BLKMSG_HEADER_SIZE, PFVF_BLKMSG_VERSION_BYTE, PFVF_BLKMSG_LEN_BYTE.
  rewrite (proj2 (Z.ltb_ge _ _)) by lia.
  destruct (Z.ltb_spec n 2); [apply (result_fail 0); [by apply wrote_refl|lia|done|by left]|].
  pose proof (fetch_any 0 buffer w ltac:(lia)) as HA. destruct (fetch dev type 0 buffer w) as [[err b1] w1].
  destruct HA as [HW1 [(-> & _ & x & Hx & ->)|[HE ->]]]; [cbn [negb Z.eqb]|rewrite (blk_err_neq _ HE); by apply (result_fail 6); [..|lia| |]].
  rewrite arr_get_set_eq by lia. pose proof (changed_set buffer 0 x ltac:(lia) Hx) as C1.
  assert (changed_in 0 n buffer (buffer.[0 <- x])) as C1' by (eapply changed_trans; [exact C1|apply (changed_refl 0 0)|lia..]).
  destruct (Z.eqb_spec x 0) as [->|Hx0]; [apply (result_fail 6); [done|lia|done|by do 2 right]|].
  pose proof (fetch_any 1 (buffer.[0 <- x]) w1 ltac:(lia)) as HA. destruct (fetch dev type 1 _ w1) as [[err b2] w2].
  destruct HA as [HW2 HA]. pose proof (wrote_trans _ 6 6 12 _ _ _ HW1 HW2 ltac:(lia)) as HW12.
  destruct HA as [(-> & _ & y & Hy & ->)|[HE ->]]; [cbn [negb Z.eqb]|rewrite (blk_err_neq _ HE); by apply (result_fail 12); [..|lia| |]].
  rewrite arr_get_set_eq by (rewrite length_arr_set; lia). pose proof (changed_set (buffer.[0 <- x]) 1 y ltac:(lia) Hy) as C2.
  assert (changed_in 0 2 buffer ((buffer.[0 <- x]).[1 <- y])) as C12 by (eapply changed_trans; [exact C1|exact C2|lia..]).
  assert (changed_in 0 n buffer ((buffer.[0 <- x]).[1 <- y])) as C12' by (eapply changed_trans; [exact C12|apply (changed_refl 0 0)|lia..]).
  destruct (Z.eqb_spec y 0) as [->|Hy0]; [apply (result_fail 12); [done|lia|done|by do 2 right]|].
  rewrite u16_small by lia. set (m := if n <? 2 + y then n else 2 + y). assert (m = Z.min n (2 + y)) as Em by (subst m; case_if; lia).
  clearbody m. set (b3 := (buffer.[0 <- x]).[1 <- y]) in *.
  pose proof (payload_any (Z.to_nat (m - 2)) 2 b3 w2 ltac:(lia)) as HA. destruct (payload_loop _ dev type 2 b3 w2) as [[err b4] w3].
  destruct HA as (HW3 & C3 & HE). rewrite Z2Nat.id in C3, HE by lia.
  pose proof (wrote_trans _ 12 (6 * Z.to_nat (m - 2)) 1542 _ _ _ HW12 HW3 ltac:(lia)) as HW123.
  assert (changed_in 0 m buffer b4) as C123 by (eapply changed_trans; [exact C12|exact C3|lia..]).
  assert (changed_in 0 n buffer b4) as C123' by (eapply changed_trans; [exact C123|apply (changed_refl 0 0)|lia..]).
  destruct HE as [[-> Hm]|HE]; [cbn [negb Z.eqb]|rewrite (blk_err_neq _ HE); by apply (result_fail 1542); [..|lia| |]].
  unfold u8. rewrite (Z.mod_small m) by lia. destruct (adf_vf2pf_blkmsg_get_crc dev type m w3) as [[err crc] w4] eqn:EC.
  pose proof EC as EC'. unfold adf_vf2pf_blkmsg_get_crc, u8 in EC'. rewrite Z.mod_small in EC' by lia.
  pose proof (data_req_any (m - 1) 1 w3 ltac:(lia) (or_intror eq_refl)) as HA. rewrite EC' in HA. destruct HA as [HW4 HE].
  pose proof (wrote_trans _ 1542 6 1548 _ _ _ HW123 HW4 ltac:(lia)) as HWA.
  destruct HE as [(-> & _ & _)|HE]; [cbn [negb Z.eqb]|rewrite (blk_err_neq _ HE); by apply (result_fail 1548); [..|lia| |]].
  destruct (Z.eqb_spec (adf_pfvf_calc_blkmsg_crc b4 m) crc) as [<-|Hne]; cbn [negb]; [|apply (result_fail 1548); [done|lia|done|by right; left]].
  destruct C3 as (_ & G3 & _). assert (b4.[0] = x /\ b4.[1] = y) as [G0 G1].
  { rewrite !G3 by lia. subst b3. rewrite arr_get_set_ne, !arr_get_set_eq by (rewrite ?length_arr_set; lia). done. }
  split_and!; [done|done|]. left. rewrite G1. split_and!; try done. unfold received. rewrite G0, G1. split_and!; [done..|lia|]. by exists w3.
Qed.
End device.

(** * Sessions *)

(** What the rest of the library can call, in any order *)
Inductive call := CallInit | CallShutdown | CallRestarting | CallVersion | CallRings | CallCapabilities | CallCheck.
Definition run_call (c : call) (s : vf) : Z * vf :=
  match c with
  | CallInit => adf_vf2pf_notify_init s
  | CallShutdown => (0, adf_vf2pf_notify_shutdown s)
  | CallRestarting => (0, adf_vf2pf_notify_restarting_complete s)
  | CallVersion => adf_vf2pf_check_compat_version s
  | CallRings => adf_vf2pf_get_ring_to_svc s
  | CallCapabilities => adf_vf2pf_get_capabilities s
  | CallCheck => adf_check_pf2vf_notification s
  end.
(** The error of the exchange that a call makes with the host, 0 when it makes none *)
Definition exchange_error (c : call) (s : vf) : Z :=
  let notify type := (adf_send_vf2pf_msg (v_dev s) (mk_msg 0 type) (v_world s)).1 in
  let ask type size := (adf_send_vf2pf_blkmsg_req (v_dev s) type (replicate (Z.to_nat size) 0) size (v_world s)).1.1.1 in
  match c with
  | CallInit => notify ADF_VF2PF_MSGTYPE_INIT
  | CallShutdown => if pfvf_initialized (v_dev s) =? 0 then 0 else notify ADF_VF2PF_MSGTYPE_SHUTDOWN
  | CallRestarting => if pfvf_initialized (v_dev s) =? 0 then 0 else notify ADF_VF2PF_MSGTYPE_RESTARTING_COMPLETE
  | CallVersion => (adf_send_vf2pf_req (v_dev s)
      (mk_msg (put_field ADF_PFVF_COMPAT_THIS_VERSION 0 8) ADF_VF2PF_MSGTYPE_COMPAT_VER_REQ) (v_world s)).1.1
  | CallRings => if compat_version (v_dev s) <? ADF_PFVF_COMPAT_RING_TO_SVC_MAP then 0
      else ask ADF_VF2PF_BLKMSG_REQ_RING_SVC_MAP sizeof_ring_to_svc_map_v1
  | CallCapabilities => if compat_version (v_dev s) <? ADF_PFVF_COMPAT_CAPABILITIES then 0
      else ask ADF_VF2PF_BLKMSG_REQ_CAP_SUMMARY sizeof_capabilities_v3
  | CallCheck => 0
  end.
Fixpoint run_calls (l : list call) (s : vf) : vf := match l with [] => s | c :: l => run_calls l (run_call c s).2 end.

Definition boot (addr id : Z) (w : world) : vf := mk_vf (adf_init_pfvf_dev_data addr id) VF2PF_MAYBE_AVAILABLE w.

(** The messages that a library sends *)
Definition allowed (raw : Z) : Prop :=
  (exists type, raw = raw_of (mk_msg 0 type) /\ (type = ADF_VF2PF_MSGTYPE_INIT \/ type = ADF_VF2PF_MSGTYPE_SHUTDOWN \/
     type = ADF_VF2PF_MSGTYPE_RESTARTING_COMPLETE)) \/
  raw = raw_of (mk_msg ADF_PFVF_COMPAT_THIS_VERSION ADF_VF2PF_MSGTYPE_COMPAT_VER_REQ) \/
  asks ADF_VF2PF_BLKMSG_REQ_CAP_SUMMARY raw \/ asks ADF_VF2PF_BLKMSG_REQ_RING_SVC_MAP raw.

Record dev_inv (d : adf_pfvf_dev_data) : Prop := {
  di_ok : dev_ok d;
  di_init : pfvf_initialized d = 0 \/ pfvf_initialized d = 1;
  di_version : 0 <= compat_version d < 256;
  di_rings : 0 <= ring_to_svc_map d < 2 ^ 16;
  di_caps : 0 <= capabilities d < 2 ^ 32 /\ 0 <= ext_dc_caps d < 2 ^ 32 /\ 0 <= frequency d < 2 ^ 32
}.
Record vf_inv (sent0 : list Z) (s : vf) : Prop := {
  vi_dev : dev_inv (v_dev s);
  vi_avail : vf2pf_available s = VF2PF_MAYBE_AVAILABLE \/ vf2pf_available s = VF2PF_NOT_AVAILABLE;
  vi_sent : exists l, w_sent (v_world s) = sent0 ++ l /\ Forall allowed l
}.

Lemma le_at_range buf n : bytes buf -> forall i, 0 <= le_at buf i n < 256 ^ Z.of_nat n.
Proof.
  intros HB. induction n as [|n IH]; intros i; [done|]. cbn [le_at]. specialize (IH (i + 1)). pose proof (HB i).
  rewrite Nat2Z.inj_succ, Z.pow_succ_r by lia. lia.
Qed.

Lemma vf_inv_wrote sent0 s n w' P : vf_inv sent0 s -> wrote P n (v_world s) w' ->
  (forall x, P x -> allowed x) -> vf_inv sent0 (set_world w' s).
Proof.
  intros [HD HA (l & El & HF)] (l2 & E2 & _ & HF2) HP. split; [done..|]. exists (l ++ l2). cbn. rewrite E2, El, app_assoc.
  split; [done|]. apply Forall_app. split; [done|]. by eapply Forall_impl.
Qed.
Lemma vf_inv_off sent0 s : vf_inv sent0 s -> vf_inv sent0 (adf_set_vf2pf_available VF2PF_NOT_AVAILABLE s).
Proof. intros [HD _ HS]. split; [done|by right|done]. Qed.
Lemma vf_inv_dev sent0 s f : vf_inv sent0 s -> dev_inv (f (v_dev s)) -> vf_inv sent0 (set_dev f s).
Proof. by intros [HD HA HS] HF. Qed.

Lemma notify_end_inv sent0 s type : vf_inv sent0 s -> type = ADF_VF2PF_MSGTYPE_SHUTDOWN \/ type = ADF_VF2PF_MSGTYPE_RESTARTING_COMPLETE ->
  vf_inv sent0 (notify_end type s).
Proof.
  intros HI Ht. unfold notify_end. destruct (negb (adf_vf2pf_available s)); [done|]. case_if; [|done].
  destruct (vi_dev _ _ HI) as [HD H1 H2 H3 H4]. pose proof (send_any (v_dev s) HD (mk_msg 0 type) (v_world s)) as HA.
  destruct (adf_send_vf2pf_msg (v_dev s) _ (v_world s)) as [err w']. destruct HA as [HW _].
  assert (vf_inv sent0 (set_world w' s)) as HI' by (eapply vf_inv_wrote; [done|exact HW|]; intros x ->; left; exists type; tauto).
  case_if; [by apply vf_inv_off|]. apply vf_inv_dev; [done|]. split; try done. by left.
Qed.

Lemma take_cap_inv sent0 size f n r : vf_inv sent0 r.2 -> (dev_inv (v_dev r.2) -> dev_inv (f (v_dev r.2))) -> vf_inv sent0 (take_cap size f n r).2.
Proof. intros HI HF. unfold take_cap. case_if; [|done]. cbn. apply vf_inv_dev; [done|]. apply HF, HI. Qed.

Lemma replicate_bytes n x : 0 <= x < 256 -> bytes (replicate n x).
Proof.
  intros Hx j. unfold arr_get. generalize (Z.to_nat j). intros k. destruct (nth_in_or_default k (replicate n x) 0) as [H| ->]; [|lia].
  apply list_elem_of_In, elem_of_replicate in H as [-> _]. lia.
Qed.
Lemma zeros_bytes n : bytes (replicate n 0).
Proof. apply replicate_bytes. lia. Qed.

(** What a question for a block message does *)
Lemma question_any sent0 s type size : vf_inv sent0 s -> type = 2 \/ type = 3 -> 0 <= size < 2 ^ 16 ->
  let '(err, buf, n, w) := adf_send_vf2pf_blkmsg_req (v_dev s) type (replicate (Z.to_nat size) 0) size (v_world s) in
  vf_inv sent0 (set_world w s) /\ bytes buf.
Proof.
  intros HI Ht Hs. pose proof (blkmsg_any (v_dev s) (di_ok _ (vi_dev _ _ HI)) type ltac:(lia) (replicate (Z.to_nat size) 0) size (v_world s)) as HA.
  rewrite length_replicate in HA. specialize (HA ltac:(lia) ltac:(lia) (zeros_bytes _)).
  destruct (adf_send_vf2pf_blkmsg_req _ _ _ _ _) as [[[err buf] n] w]. destruct HA as (HW & (_ & _ & HB) & _). split; [|by apply HB, zeros_bytes].
  eapply vf_inv_wrote; [done|exact HW|]. intros x Hx. unfold allowed. destruct Ht as [-> | ->]; tauto.
Qed.

Lemma run_call_inv sent0 c s : vf_inv sent0 s -> vf_inv sent0 (run_call c s).2.
Proof.
  intros HI. destruct (vi_dev _ _ HI) as [HD H1 H2 H3 H4].
  destruct c; cbn [run_call snd]; try (apply notify_end_inv; tauto).
  - unfold adf_vf2pf_notify_init. destruct (negb (adf_vf2pf_available s)); [done|].
    pose proof (send_any (v_dev s) HD (mk_msg 0 ADF_VF2PF_MSGTYPE_INIT) (v_world s)) as HA.
    destruct (adf_send_vf2pf_msg (v_dev s) _ (v_world s)) as [err w']. destruct HA as [HW _].
    assert (vf_inv sent0 (set_world w' s)) as HI' by (eapply vf_inv_wrote; [done|exact HW|]; intros x ->; left; eauto).
    case_if; [by apply vf_inv_off|]. apply vf_inv_dev; [done|]. split; try done. by right.
  - unfold adf_vf2pf_check_compat_version. destruct (negb (adf_vf2pf_available s)); [done|].
    pose proof (req_any (v_dev s) HD (mk_msg (put_field ADF_PFVF_COMPAT_THIS_VERSION 0 8) ADF_VF2PF_MSGTYPE_COMPAT_VER_REQ)
      (Z.to_nat ADF_PFVF_MSG_RESP_RETRIES) (v_world s)) as HA. unfold adf_send_vf2pf_req.
    destruct (req_loop _ (v_dev s) _ (v_world s)) as [[ret resp] w']. destruct HA as [HW _].
    assert (vf_inv sent0 (set_world w' s)) as HI' by (eapply vf_inv_wrote; [done|exact HW|]; intros x ->; by right; left).
    repeat case_if; try done; [by apply vf_inv_off|]. apply vf_inv_dev; [done|]. split; try done. cbn. apply field_range. lia.
  - unfold adf_vf2pf_get_ring_to_svc. destruct (negb (adf_vf2pf_available s)); [done|]. case_if; [done|].
    pose proof (question_any sent0 s 3 sizeof_ring_to_svc_map_v1 HI ltac:(by right)) as HA.
    destruct (adf_send_vf2pf_blkmsg_req _ _ _ _ _) as [[[err buf] n] w]. destruct HA as [HI' HB]; [unfold sizeof_ring_to_svc_map_v1; lia|].
    repeat case_if; try done; [by apply vf_inv_off|]. apply vf_inv_dev; [done|]. split; try done. apply (le_at_range buf 2 HB).
  - unfold adf_vf2pf_get_capabilities. destruct (negb (adf_vf2pf_available s)); [done|]. case_if; [done|].
    pose proof (question_any sent0 s 2 sizeof_capabilities_v3 HI ltac:(by left)) as HA.
    destruct (adf_send_vf2pf_blkmsg_req _ _ _ _ _) as [[[err buf] n] w]. destruct HA as [HI' HB]; [unfold sizeof_capabilities_v3; lia|].
    assert (forall i, 0 <= le_at buf i 4 < 2 ^ 32) as HR by (intros i; apply (le_at_range buf 4 HB)). case_if; [by apply vf_inv_off|].
    repeat (case_if || apply take_cap_inv); try done; intros [? ? ? ? (? & ? & ?)]; (split; [done..|]); (split; [|split]); done || apply HR.
  - unfold adf_check_pf2vf_notification. pose proof (recv_any (v_dev s) HD (v_world s)) as HA.
    destruct (adf_recv_pf2vf_msg (v_dev s) (v_world s)) as [msg w]. cbn in HA |- *. eapply (vf_inv_wrote _ _ 0 _ allowed); [done|by apply wrote_refl|done].
Qed.

Lemma run_calls_inv sent0 l : forall s, vf_inv sent0 s -> vf_inv sent0 (run_calls l s).
Proof. induction l as [|c l IH]; intros s HI; [done|]. apply IH. by apply run_call_inv. Qed.
End library.
Arguments world : clear implicits.
Arguments vf : clear implicits.

(** * A prompt host *)

(** It acknowledges and answers at once. *)
Definition prompt (answer : Z -> option Z) (e : event) (h : unit) (r : csrs) : unit * csrs :=
  if Z.testbit (vf2pf r) 0 then
    (tt, mk_csrs (Z.land (vf2pf r) (not32 ADF_PFVF_INT)) (default (pf2vf r) (answer (vf2pf r))))
  else (tt, r).

Lemma prompt_serves answer : serves (prompt answer) (fun _ => True) answer.
Proof.
  assert (forall x, Z.testbit (Z.land x (not32 ADF_PFVF_INT)) 0 = false) as HC by (intros x; rewrite Z.land_spec; apply andb_false_r).
  split.
  - intros e [] r _ Hr. exists tt. unfold prompt. by rewrite Hr.
  - intros w a _ Hb Ha. exists 0%nat. split_and!; [unfold ADF_PFVF_MSG_ACK_MAX_RETRIES; lia|lia|..].
    all: change (Nat.iter 1 ?f ?x) with (f x); unfold ack_round, usleep, env, prompt; rewrite Hb, Ha; cbn [w_host w_csrs w_sent vf2pf pf2vf default];
      rewrite !HC; cbn [w_host w_csrs w_sent vf2pf pf2vf]; rewrite ?HC; cbn [w_host w_csrs w_sent vf2pf pf2vf]; done || apply HC.
Qed.

(** The answers of a host that has the block messages [blk] *)
Definition blk_answer (blk : Z -> list Z) (raw : Z) : option Z :=
  '(t, i, c) ← blk_fields raw;
  Some (if c =? 0 then blk_reply ADF_PF2VF_BLKMSG_RESP_TYPE_DATA ((blk t).[i])
        else blk_reply ADF_PF2VF_BLKMSG_RESP_TYPE_CRC (adf_pfvf_calc_blkmsg_crc (blk t) (i + 1))).
Lemma blk_answer_has blk type : has_block (blk_answer blk) type (blk type).
Proof. intros raw i c Hf _. unfold blk_answer. by rewrite Hf. Qed.

(** The capabilities of version 3 *)
Definition demo_caps : list Z := [3; 12; 1; 0; 0; 0; 2; 1; 0; 0; 0; 0; 1; 0].
Definition demo_answer : Z -> option Z := blk_answer (fun _ => demo_caps).
Definition demo_host := prompt demo_answer.
Definition demo_dev : adf_pfvf_dev_data := (adf_init_pfvf_dev_data 4096 0) <| compat_version := 5 |>.
Definition demo_world : world unit := mk_world tt (mk_csrs 0 0) [].

(** The type of a response is not looked at: the host's message that it restarts is taken for
    a byte of the block message. *)
Lemma stray_message_is_data :
  (adf_vf2pf_blkmsg_data_req (prompt (fun _ => Some (Z.lor (Z.shiftl ADF_PF2VF_MSGTYPE_RESTARTING 2) 3))) demo_dev 2 0 0 demo_world).1 = (0, 0).
Proof. by vm_compute. Qed.

(** * The CRC, bit by bit *)

(** One bit, the highest one first, for the polynomial x^8 + x^7 + x^4 + x^2 + x + 1 *)
Definition crc8_bit (crc : Z) (bit : bool) : Z :=
  let shifted := Z.land (Z.shiftl crc 1) 255 in
  if xorb (Z.testbit crc 7) bit then Z.lxor shifted 151 else shifted.
Definition byte_bits (b : Z) : list bool := map (fun i => Z.testbit b i) [7; 6; 5; 4; 3; 2; 1; 0].
Definition crc8_serial (crc : Z) (bits : list bool) : Z := fold_left crc8_bit bits crc.

(** The checksum is linear. *)
Lemma crc8_bit_lxor c d x y : crc8_bit (Z.lxor c d) (xorb x y) = Z.lxor (crc8_bit c x) (crc8_bit d y).
Proof.
  unfold crc8_bit. rewrite Z.lxor_spec. set (cs := Z.land (Z.shiftl c 1) 255). set (ds := Z.land (Z.shiftl d 1) 255).
  assert (Z.land (Z.shiftl (Z.lxor c d) 1) 255 = Z.lxor cs ds) as ->.
  { subst cs ds. apply Z.bits_inj'. intros i Hi. rewrite Z.land_spec, Z.shiftl_lxor, !Z.lxor_spec, !Z.land_spec. btauto. }
  destruct (Z.testbit c 7), (Z.testbit d 7), x, y; cbn [xorb]; try done; apply Z.bits_inj'; intros i Hi; rewrite !Z.lxor_spec; btauto.
Qed.
Lemma crc8_serial_lxor bits : forall c d, crc8_serial (Z.lxor c d) bits =
  Z.lxor (crc8_serial c (map (fun _ => false) bits)) (crc8_serial d bits).
Proof.
  induction bits as [|x bits IH]; intros c d; [done|]. unfold crc8_serial in *. cbn [map fold_left]. rewrite <- IH.
  f_equal. rewrite <- crc8_bit_lxor. by destruct x.
Qed.

Lemma crc8_tables : forallb (fun i => (pfvf_crc8_table.[i] =? crc8_serial i (replicate 8 false)) && (crc8_serial i (byte_bits i) =? 0) &&
  bool_decide (list_find (fun z => z = pfvf_crc8_table.[i]) pfvf_crc8_table = Some (Z.to_nat i, pfvf_crc8_table.[i]))) (seqZ 0 256) = true.
Proof. by vm_compute. Qed.
Lemma crc8_table_spec i : 0 <= i < 256 -> pfvf_crc8_table.[i] = crc8_serial i (replicate 8 false) /\ crc8_serial i (byte_bits i) = 0 /\
  list_find (fun z => z = pfvf_crc8_table.[i]) pfvf_crc8_table = Some (Z.to_nat i, pfvf_crc8_table.[i]).
Proof.
  intros Hi. pose proof crc8_tables as HT. rewrite forallb_seqZ in HT. specialize (HT i ltac:(lia)).
  rewrite !andb_true_iff, !Z.eqb_eq, bool_decide_eq_true in HT. tauto.
Qed.

Lemma byte_lxor c b : 0 <= c < 256 -> 0 <= b < 256 -> Z.land (Z.lxor c b) 255 = Z.lxor c b.
Proof.
  intros Hc Hb. change 255 with (Z.ones 8). rewrite Z.land_ones by lia. apply Z.mod_small. apply bits_range; [lia|apply Z.lxor_nonneg; lia|].
  intros i Hi. by rewrite Z.lxor_spec, !(testbit_range _ 8) by lia.
Qed.
Lemma byte_lxor_range c b : 0 <= c < 256 -> 0 <= b < 256 -> 0 <= Z.lxor c b < 256.
Proof. intros Hc Hb. rewrite <- byte_lxor by done. change 255 with (Z.ones 8). rewrite Z.land_ones by lia. apply Z.mod_pos_bound. lia. Qed.

Lemma crc8_byte c b : 0 <= c < 256 -> 0 <= b < 256 -> pfvf_crc8_table.[Z.land (Z.lxor c b) 255] = crc8_serial c (byte_bits b).
Proof.
  intros Hc Hb. rewrite byte_lxor by done. destruct (crc8_table_spec (Z.lxor c b)) as (-> & _); [by apply byte_lxor_range|].
  destruct (crc8_table_spec b Hb) as (_ & E0 & _). transitivity (crc8_serial (Z.lxor (Z.lxor c b) b) (byte_bits b)).
  - by rewrite (crc8_serial_lxor (byte_bits b)), E0, Z.lxor_0_r.
  - by rewrite Z.lxor_assoc, Z.lxor_nilpotent, Z.lxor_0_r.
Qed.

Lemma crc8_serial_spec n : forall c buf, 0 <= c < 256 -> Forall (fun b => 0 <= b < 256) buf ->
  adf_pfvf_crc c buf n = crc8_serial c (concat (map byte_bits (take n buf))).
Proof.
  induction n as [|n IH]; intros c buf Hc HF; [done|]. destruct buf as [|b buf]; [done|]. inversion_clear HF.
  cbn [adf_pfvf_crc take map concat]. rewrite IH by (done || apply crc8_table_range). unfold crc8_serial. rewrite fold_left_app.
  f_equal. by apply crc8_byte.
Qed.

(** Different bytes give different checksums, and different checksums stay different. *)
Lemma crc8_step_inj c d x y : 0 <= c < 256 -> 0 <= d < 256 -> 0 <= x < 256 -> 0 <= y < 256 ->
  pfvf_crc8_table.[Z.land (Z.lxor c x) 255] = pfvf_crc8_table.[Z.land (Z.lxor d y) 255] -> Z.lxor c x = Z.lxor d y.
Proof.
  intros Hc Hd Hx Hy. rewrite !byte_lxor by done. pose proof (byte_lxor_range c x Hc Hx). pose proof (byte_lxor_range d y Hd Hy). intros E.
  destruct (crc8_table_spec (Z.lxor c x)) as (_ & _ & E1); [done|]. destruct (crc8_table_spec (Z.lxor d y)) as (_ & _ & E2); [done|].
  rewrite E in E1. rewrite E1 in E2. injection E2. lia.
Qed.
Lemma lxor_cancel_l c x y : Z.lxor c x = Z.lxor c y -> x = y.
Proof. intros E. by rewrite <- (Z.lxor_0_l x), <- (Z.lxor_nilpotent c), Z.lxor_assoc, E, <- Z.lxor_assoc, Z.lxor_nilpotent, Z.lxor_0_l. Qed.

Lemma crc8_inj n : forall c d buf, 0 <= c < 256 -> 0 <= d < 256 -> Forall (fun b => 0 <= b < 256) buf ->
  adf_pfvf_crc c buf n = adf_pfvf_crc d buf n -> c = d.
Proof.
  induction n as [|n IH]; intros c d buf Hc Hd HF E; [done|]. destruct buf as [|b buf]; [done|]. inversion_clear HF. cbn in E.
  apply IH in E; [|apply crc8_table_range..|done]. apply crc8_step_inj in E; try done. rewrite !(Z.lxor_comm _ b) in E.
  by apply lxor_cancel_l in E.
Qed.
Lemma crc8_detects n : forall c l1 x y l2, 0 <= c < 256 -> Forall (fun b => 0 <= b < 256) (l1 ++ x :: y :: l2) -> x <> y -> (length l1 < n)%nat ->
  adf_pfvf_crc c (l1 ++ x :: l2) n <> adf_pfvf_crc c (l1 ++ y :: l2) n.
Proof.
  induction n as [|n IH]; intros c l1 x y l2 Hc HF Hne Hn E; [lia|]. destruct l1 as [|b l1]; cbn in E, HF, Hn.
  - inversion_clear HF as [|? ? Hx HF']. inversion_clear HF' as [|? ? Hy HF]. apply crc8_inj in E; [|apply crc8_table_range..|done].
    apply crc8_step_inj in E; try done. by apply lxor_cancel_l in E.
  - inversion_clear HF. revert E. apply IH; [apply crc8_table_range|done..|lia].
Qed.

(** * Properties *)

(** C29. A host that has a block message and follows the protocol gets it across: the call
    succeeds, the buffer holds the message, or as much of it as fits, what is behind it is
    kept, and the length is that of what was received. *)
Theorem blkmsg_roundtrip {host} (pf : event -> host -> csrs -> host * csrs) idle answer (HS : serves pf idle answer)
    dev (HD : dev_ok dev) type blk (Ht : 0 <= type <= 27) (HB : has_block answer type blk)
    (Hbytes : Forall (fun b => 0 <= b < 256) blk) (Hcap : len blk <= capacity type)
    (Hlen : len blk = 2 + blk.[1]) (Hversion : blk.[0] <> 0) (Hsize : blk.[1] <> 0)
    buffer n (Hn : 2 <= n <= len buffer) (Hn16 : n < 2 ^ 16) w (HR : ready idle w) :
  let m := Z.min n (len blk) in
  exists w', adf_send_vf2pf_blkmsg_req pf dev type buffer n w = (0, take (Z.to_nat m) blk ++ drop (Z.to_nat m) buffer, m, w') /\
    ready idle w'.
Proof. by eapply blkmsg_served. Qed.

Lemma demo_caps_ok : Forall (fun b => 0 <= b < 256) demo_caps.
Proof. repeat (constructor; [lia|]). constructor. Qed.

Lemma blkmsg_roundtrip_witness : exists w',
  adf_send_vf2pf_blkmsg_req demo_host demo_dev 2 (replicate 20 7) 20 demo_world =
    (0, demo_caps ++ replicate 6 7, 14, w') /\ ready (fun _ => True) w'.
Proof.
  assert (dev_ok demo_dev) as HD by (by vm_compute). assert (ready (fun _ => True) demo_world) as HW by (split; [exact I|by vm_compute]).
  assert (len demo_caps <= capacity 2) as HC by (cbn; lia).
  assert (demo_caps.[0] <> 0 /\ demo_caps.[1] <> 0) as [H0 H1] by (split; by vm_compute).
  destruct (blkmsg_roundtrip demo_host (fun _ => True) demo_answer (prompt_serves demo_answer) demo_dev HD 2 demo_caps ltac:(lia)
    (blk_answer_has (fun _ => demo_caps) 2) demo_caps_ok HC eq_refl H0 H1
    (replicate 20 7) 20 ltac:(cbn; lia) ltac:(lia) demo_world HW) as (w' & E & HR).
  exists w'. split; [|exact HR]. etransitivity; [exact E|reflexivity].
Defined.

(** C30. Whatever the host does, the call ends: it sends at most 1548 messages, all of them
    requests for bytes of the block message asked for, and writes nothing outside the
    buffer.  When it reports success, the header is valid, the length is what the header
    tells cut to the buffer, no byte behind it has changed, and the last response was the
    CRC of what was received. *)
Theorem blkmsg_any_host {host} (pf : event -> host -> csrs -> host * csrs) dev (HD : dev_ok dev) type (Ht : 0 <= type <= 27)
    buffer n (Hn : 0 <= n <= len buffer) (Hn16 : n < 2 ^ 16) (HB : bytes buffer) w :
  let '(err, buffer', n', w') := adf_send_vf2pf_blkmsg_req pf dev type buffer n w in
  (exists l, w_sent w' = w_sent w ++ l /\ (length l <= 1548)%nat /\
     Forall (fun raw => exists i c, blk_fields raw = Some (type, i, c) /\ i < capacity type) l) /\
  length buffer' = length buffer /\ bytes buffer' /\ (forall j, n <= j -> buffer'.[j] = buffer.[j]) /\
  if err =? 0 then
    buffer'.[0] <> 0 /\ buffer'.[1] <> 0 /\ 2 <= n' <= capacity type /\ n' = Z.min n (2 + buffer'.[1]) /\
    (forall j, n' <= j -> buffer'.[j] = buffer.[j]) /\
    exists w0, adf_vf2pf_blkmsg_get_crc pf dev type n' w0 = (0, adf_pfvf_calc_blkmsg_crc buffer' n', w')
  else n' = n /\ (err = - EINVAL \/ err = - EIO \/ err = - EFAULT).
Proof.
  pose proof (blkmsg_any pf dev HD type Ht buffer n w Hn Hn16 HB) as HA.
  destruct (adf_send_vf2pf_blkmsg_req pf dev type buffer n w) as [[[err buffer'] n'] w'].
  destruct HA as ((l & El & Hl & HF) & (HL & HG & HBy) & HE). specialize (HBy HB). split_and!; try done.
  - exists l. split_and!; [done..|]. eapply Forall_impl; [exact HF|]. by intros x [_ ?].
  - intros j Hj. apply HG; lia.
  - destruct HE as [(-> & H2 & -> & (H0 & H1 & Hc & w0 & Hw) & (_ & HG' & _))|[HE ->]].
    + cbn [Z.eqb]. pose proof (HBy 1). split_and!; try done; try lia; [intros j Hj; apply HG'; lia|by exists w0].
    + by rewrite (blk_err_neq err HE).
Qed.

(** A host that answers every request with the byte 2 *)
Definition odd_host := prompt (fun _ => Some (blk_reply 0 2)).

Lemma blkmsg_any_host_witness :
  (adf_send_vf2pf_blkmsg_req odd_host demo_dev 2 (replicate 8 7) 8 demo_world).1 = (- EIO, [2; 2; 2; 2; 7; 7; 7; 7], 8) /\
  let '(err, buffer', n', w') := adf_send_vf2pf_blkmsg_req odd_host demo_dev 2 (replicate 8 7) 8 demo_world in
  length buffer' = 8%nat.
Proof.
  split; [by vm_compute|].
  assert (dev_ok demo_dev) as HD by (by vm_compute).
  pose proof (blkmsg_any_host odd_host demo_dev HD 2 ltac:(lia) (replicate 8 7) 8 ltac:(cbn; lia) ltac:(lia)
    (replicate_bytes 8 7 ltac:(lia)) demo_world) as H.
  destruct (adf_send_vf2pf_blkmsg_req odd_host demo_dev 2 (replicate 8 7) 8 demo_world) as [[[err buffer'] n'] w']. exact (proj1 (proj2 H)).
Defined.

(** The table computes the CRC-8 with the polynomial 0x97 bit by bit, and two messages that
    differ in one byte have different checksums. *)
Theorem blkmsg_crc8 buf n (Hbuf : Forall (fun b => 0 <= b < 256) buf) (Hn : 0 <= n <= len buf) :
  adf_pfvf_calc_blkmsg_crc buf n = crc8_serial ADF_CRC8_INIT_VALUE (concat (map byte_bits (take (Z.to_nat n) buf))) /\
  forall i x, 0 <= i < n -> 0 <= x < 256 -> x <> buf.[i] ->
    adf_pfvf_calc_blkmsg_crc (buf.[i <- x]) n <> adf_pfvf_calc_blkmsg_crc buf n.
Proof.
  unfold adf_pfvf_calc_blkmsg_crc. split; [apply crc8_serial_spec; [unfold ADF_CRC8_INIT_VALUE; lia|done]|].
  intros i x Hi Hx Hne. destruct (lookup_lt_is_Some_2 buf (Z.to_nat i)) as [y Hy]; [lia|].
  unfold arr_get in Hne. rewrite (nth_lookup_Some _ _ _ _ Hy) in Hne.
  assert (buf.[i <- x] = take (Z.to_nat i) buf ++ x :: drop (S (Z.to_nat i)) buf) as -> by (unfold arr_set; apply insert_take_drop; lia).
  pose proof (take_drop_middle buf _ _ Hy) as E. assert (length (take (Z.to_nat i) buf) = Z.to_nat i) as Hl by (rewrite length_take; lia).
  set (l1 := take _ buf) in *. set (l2 := drop _ buf) in *. clearbody l1 l2. subst buf.
  apply Forall_app in Hbuf as [H1 H2]. inversion_clear H2 as [|? ? Hy' H3].
  apply crc8_detects; [unfold ADF_CRC8_INIT_VALUE; lia| |done|lia]. apply Forall_app. split; [done|]. constructor; [done|]. by constructor.
Qed.

Lemma blkmsg_crc8_witness : adf_pfvf_calc_blkmsg_crc demo_caps 14 = 183 /\
  adf_pfvf_calc_blkmsg_crc demo_caps 14 = crc8_serial 255 (concat (map byte_bits demo_caps)).
Proof. split; [by vm_compute|]. exact (proj1 (blkmsg_crc8 demo_caps 14 demo_caps_ok ltac:(cbn; lia))). Defined.

Lemma le_at_ext a b n : forall i, (forall j, i <= j < i + Z.of_nat n -> a.[j] = b.[j]) -> le_at a i n = le_at b i n.
Proof.
  induction n as [|n IH]; intros i H; [done|]. cbn [le_at]. rewrite H by lia. rewrite IH; [done|]. intros j Hj. apply H. lia.
Qed.

(** Capabilities as a message tells them: a field is there when the version has it and the
    message is long enough. *)
Definition has_caps (blk : list Z) (v size : Z) : bool := (v <=? blk.[0]) && (size <=? len blk).

(** C32. From a host that has a message with its capabilities the library learns exactly what the
    version of the message and its length allow, and reports success exactly when the message
    is as long as its version asks for. *)
Theorem capabilities_learned {host} (pf : event -> host -> csrs -> host * csrs) idle answer (HS : serves pf idle answer)
    blk (HB : has_block answer 2 blk) (Hbytes : Forall (fun b => 0 <= b < 256) blk) (Hcap : len blk <= 32)
    (Hlen : len blk = 2 + blk.[1]) (Hversion : blk.[0] <> 0) (Hsize : blk.[1] <> 0)
    (s : vf host) (HD : dev_ok (v_dev s)) (HA : vf2pf_available s <> VF2PF_NOT_AVAILABLE)
    (HC : 2 <= compat_version (v_dev s)) (HR : ready idle (v_world s)) :
  let '(ret, s') := adf_vf2pf_get_capabilities pf s in
  let d := v_dev s in
  v_dev s' = d <| frequency := if has_caps blk 3 14 then le_at blk 10 4 else frequency d |>
               <| capabilities := if has_caps blk 2 10 then le_at blk 6 4 else capabilities d |>
               <| ext_dc_caps := if has_caps blk 1 6 then le_at blk 2 4 else ext_dc_caps d |> /\
  vf2pf_available s' = vf2pf_available s /\ ready idle (v_world s') /\
  ret = if (if blk.[0] =? 1 then 6 else if blk.[0] =? 2 then 10 else 14) <=? len blk then 0 else - EFAULT.
Proof.
  unfold adf_vf2pf_get_capabilities, adf_vf2pf_available. rewrite (proj2 (Z.eqb_neq _ _) HA). cbn [negb].
  unfold ADF_PFVF_COMPAT_CAPABILITIES. rewrite (proj2 (Z.ltb_ge _ _) HC).
  destruct (blkmsg_served pf idle answer HS (v_dev s) HD 2 blk HB ltac:(lia) Hbytes Hcap (replicate 14 0) 14 (v_world s) HR Hlen Hversion Hsize)
    as (w' & E & HR'); [rewrite length_replicate; lia|lia|].
  unfold ADF_VF2PF_BLKMSG_REQ_CAP_SUMMARY, sizeof_capabilities_v3, sizeof_capabilities_v2, sizeof_capabilities_v1, PFVF_BLKMSG_VERSION_BYTE.
  change (Z.to_nat 14) with 14%nat. rewrite E. cbn [negb Z.eqb]. set (m := Z.min 14 (len blk)) in *.
  assert (m = Z.min 14 (len blk)) as Em by done. clearbody m. pose proof (blk_byte blk Hbytes 1) as Hb1. set (buf := take _ blk ++ _).
  assert (forall i n, 0 <= i -> i + Z.of_nat n <= m -> le_at buf i n = le_at blk i n) as HG.
  { intros i n Hi Hn. apply le_at_ext. intros j Hj. subst buf. rewrite splice_get by lia. by rewrite (proj2 (Z.ltb_lt j m)) by lia. }
  assert (buf.[0] = blk.[0]) as -> by (subst buf; rewrite splice_get by lia; by rewrite (proj2 (Z.ltb_lt 0 m)) by lia).
  clearbody buf. pose proof (HG 10 4%nat ltac:(lia)) as G3. pose proof (HG 6 4%nat ltac:(lia)) as G2. pose proof (HG 2 4%nat ltac:(lia)) as G1.
  assert (0 <= blk.[0]) as Hb0 by (apply (blk_byte blk Hbytes)).
  assert (forall k, k <= 14 -> (k <=? m) = (k <=? len blk)) as Hm by (intros k Hk; zcases).
  unfold has_caps, take_cap. rewrite !Hm by lia.
  destruct (Z.eqb_spec (blk.[0]) 1) as [->|]; [|destruct (Z.eqb_spec (blk.[0]) 2) as [->|]]; cbn [orb Z.leb Z.compare Pos.compare Pos.compare_cont andb].
  3: rewrite (proj2 (Z.leb_le 1 _)), (proj2 (Z.leb_le 2 _)), (proj2 (Z.leb_le 3 _)) by lia; cbn [andb].
  all: destruct (Z.leb_spec 6 (len blk)), (Z.leb_spec 10 (len blk)), (Z.leb_spec 14 (len blk)); try lia; cbn [fst snd];
    rewrite ?G1, ?G2, ?G3 by lia; split_and!; try done; change (v_dev (set_world w' s)) with (v_dev s); by destruct (v_dev s).
Qed.

Definition demo_vf : vf unit := mk_vf demo_dev VF2PF_MAYBE_AVAILABLE demo_world.
Lemma capabilities_learned_witness : let '(ret, s') := adf_vf2pf_get_capabilities demo_host demo_vf in
  ext_dc_caps (v_dev s') = 1 /\ capabilities (v_dev s') = 258 /\ frequency (v_dev s') = 65536 /\ ret = 0.
Proof.
  assert (dev_ok demo_dev) as HD by (by vm_compute). assert (ready (fun _ => True) demo_world) as HW by (split; [exact I|by vm_compute]).
  assert (demo_caps.[0] <> 0 /\ demo_caps.[1] <> 0) as [H0 H1] by (split; by vm_compute).
  pose proof (capabilities_learned demo_host (fun _ => True) demo_answer (prompt_serves demo_answer) demo_caps
    (blk_answer_has (fun _ => demo_caps) 2) demo_caps_ok ltac:(cbn; lia) eq_refl H0 H1 demo_vf HD ltac:(done) ltac:(cbn; lia) HW) as H.
  destruct (adf_vf2pf_get_capabilities demo_host demo_vf) as [ret s']. destruct H as (Hd & _ & _ & Hr). rewrite Hd, Hr. by vm_compute.
Defined.

Lemma take_cap_available {host} size f n (r : Z * vf host) : vf2pf_available (take_cap size f n r).2 = vf2pf_available r.2.
Proof. unfold take_cap. by case_if. Qed.

(** What a call does to the flag: a failed exchange clears it, nothing else changes it. *)
Lemma call_available {host} (pf : event -> host -> csrs -> host * csrs) c s : vf2pf_available s <> VF2PF_NOT_AVAILABLE ->
  let '(ret, s') := run_call pf c s in
  if decide (exchange_error pf c s = 0) then vf2pf_available s' = vf2pf_available s
  else vf2pf_available s' = VF2PF_NOT_AVAILABLE /\ v_dev s' = v_dev s /\ (ret = 0 -> c = CallShutdown \/ c = CallRestarting).
Proof.
  intros HA. assert (negb (adf_vf2pf_available s) = false) as EA by (unfold adf_vf2pf_available; by rewrite (proj2 (Z.eqb_neq _ _) HA)).
  destruct c; cbn [run_call exchange_error]; unfold adf_vf2pf_notify_init, adf_vf2pf_notify_shutdown,
    adf_vf2pf_notify_restarting_complete, notify_end, adf_vf2pf_check_compat_version, adf_vf2pf_get_ring_to_svc,
    adf_vf2pf_get_capabilities, adf_check_pf2vf_notification; rewrite ?EA.
  - destruct (adf_send_vf2pf_msg _ _ _ _) as [err w]. cbn [fst]. by case_if; case_decide.
  - destruct (pfvf_initialized (v_dev s) =? 0); [done|]. cbn [negb]. destruct (adf_send_vf2pf_msg _ _ _ _) as [err w]. cbn [fst].
    case_if; case_decide; try done. auto.
  - destruct (pfvf_initialized (v_dev s) =? 0); [done|]. cbn [negb]. destruct (adf_send_vf2pf_msg _ _ _ _) as [err w]. cbn [fst].
    case_if; case_decide; try done. auto.
  - destruct (adf_send_vf2pf_req _ _ _ _) as [[err resp] w]. cbn [fst]. case_if; case_decide; try done. by repeat case_if.
  - case_if; [done|]. destruct (adf_send_vf2pf_blkmsg_req _ _ _ _ _ _) as [[[err buf] n] w]. cbn [fst]. case_if; case_decide; try done. by case_if.
  - case_if; [done|]. destruct (adf_send_vf2pf_blkmsg_req _ _ _ _ _ _) as [[[err buf] n] w]. cbn [fst]. case_if; case_decide; try done.
    match goal with |- context [take_cap sizeof_capabilities_v1 ?f ?m ?r] =>
      pose proof (take_cap_available sizeof_capabilities_v1 f m r) as HT; destruct (take_cap sizeof_capabilities_v1 f m r) end.
    cbn [snd] in HT. rewrite HT. repeat case_if; by rewrite ?take_cap_available.
  - by destruct (adf_recv_pf2vf_msg _ _ _) as [msg w].
Qed.

(** C31. Whatever the host answers and in whatever order the library makes its calls, the data of
    the device stays valid and only notifications, questions for the version, and questions
    for bytes of the two block messages the library knows are ever sent.  A call whose exchange
    with the host fails (a message is not acknowledged or a question not answered properly)
    marks the host as not available, changes no data of the device and, if it returns a
    status, returns an error; a call whose exchange succeeds, or that makes none, leaves the
    mark as it is, also when it returns -EFAULT for an answer that it cannot use.  Once the
    host is marked as not available it stays so: the calls that would send a message send
    none, change nothing and, if they return a status, return -EIO; the check for a
    notification, which does not look at the mark, still reads the register. *)
Theorem pfvf_session {host} (pf : event -> host -> csrs -> host * csrs) addr id (Haddr : addr <> 0) w l :
  let s := run_calls pf l (boot addr id w) in
  dev_inv (v_dev s) /\ (exists sent, w_sent (v_world s) = w_sent w ++ sent /\ Forall allowed sent) /\
  forall c, let '(ret, s') := run_call pf c s in
    if decide (vf2pf_available s = VF2PF_NOT_AVAILABLE) then
      vf2pf_available s' = VF2PF_NOT_AVAILABLE /\ v_dev s' = v_dev s /\ w_sent (v_world s') = w_sent (v_world s) /\
      (c <> CallCheck -> s' = s) /\
      (c = CallInit \/ c = CallVersion \/ c = CallRings \/ c = CallCapabilities -> ret = - EIO)
    else if decide (exchange_error pf c s = 0) then vf2pf_available s' = vf2pf_available s
    else vf2pf_available s' = VF2PF_NOT_AVAILABLE /\ v_dev s' = v_dev s /\
         (ret = 0 -> c = CallShutdown \/ c = CallRestarting).
Proof.
  assert (vf_inv (w_sent w) (boot addr id w)) as HI.
  { split; [|by left|exists []; by rewrite app_nil_r]. unfold boot, adf_init_pfvf_dev_data. rewrite (proj2 (Z.eqb_neq _ _) Haddr).
    split; try done. by left. }
  apply (run_calls_inv pf (w_sent w) l) in HI. destruct HI as [HD _ HS]. split_and!; [done..|]. intros c.
  case_decide as HA; [|by apply call_available].
  destruct c; cbn [run_call]; unfold adf_vf2pf_notify_init, adf_vf2pf_notify_shutdown, adf_vf2pf_notify_restarting_complete,
    notify_end, adf_vf2pf_check_compat_version, adf_vf2pf_get_ring_to_svc, adf_vf2pf_get_capabilities, adf_vf2pf_available;
    rewrite ?HA; cbn [Z.eqb VF2PF_NOT_AVAILABLE negb]; try (split_and!; [done..|intros; naive_solver]).
  unfold adf_check_pf2vf_notification.
  pose proof (recv_any pf (v_dev (run_calls pf l (boot addr id w))) (di_ok _ HD) (v_world (run_calls pf l (boot addr id w)))) as HR.
  destruct (adf_recv_pf2vf_msg _ _ _) as [msg w']. split_and!; [done..|]. naive_solver.
Qed.

(** A host that never answers *)
Definition mute (e : event) (h : unit) (r : csrs) : unit * csrs := (tt, r).
Lemma pfvf_session_witness :
  let s := run_calls mute [CallInit; CallVersion] (boot 4096 0 demo_world) in
  vf2pf_available s = VF2PF_NOT_AVAILABLE /\ w_sent (v_world s) = [15] /\ dev_inv (v_dev s).
Proof.
  split; [by vm_compute|]. split; [by vm_compute|]. exact (proj1 (pfvf_session mute 4096 0 ltac:(lia) demo_world [CallInit; CallVersion])).
Defined.
