(* ===== verification/Checksum.v ===== *)
(** The checksums of the compression service ([dc_crc_base.c], [dc_crc32.c],
    [dc_crc64.c], [dc_xxhash32.c]).

    A buffer is the list of its bytes.  The byte-wise CRCs with their tables are
    proved equal to the bit-serial shift registers that define them, over buffer
    lists of any shape, and to detect every burst error that is not longer than the
    register. *)

From S2P Require Import Prelude.

(** * CRC-32 and CRC-64 by table *)

Definition crc32_table_gzip_refl : list Z := [
  0x00000000; 0x77073096; 0xee0e612c; 0x990951ba; 0x076dc419; 0x706af48f; 0xe963a535; 0x9e6495a3;
  0x0edb8832; 0x79dcb8a4; 0xe0d5e91e; 0x97d2d988; 0x09b64c2b; 0x7eb17cbd; 0xe7b82d07; 0x90bf1d91;
  0x1db71064; 0x6ab020f2; 0xf3b97148; 0x84be41de; 0x1adad47d; 0x6ddde4eb; 0xf4d4b551; 0x83d385c7;
  0x136c9856; 0x646ba8c0; 0xfd62f97a; 0x8a65c9ec; 0x14015c4f; 0x63066cd9; 0xfa0f3d63; 0x8d080df5;
  0x3b6e20c8; 0x4c69105e; 0xd56041e4; 0xa2677172; 0x3c03e4d1; 0x4b04d447; 0xd20d85fd; 0xa50ab56b;
  0x35b5a8fa; 0x42b2986c; 0xdbbbc9d6; 0xacbcf940; 0x32d86ce3; 0x45df5c75; 0xdcd60dcf; 0xabd13d59;
  0x26d930ac; 0x51de003a; 0xc8d75180; 0xbfd06116; 0x21b4f4b5; 0x56b3c423; 0xcfba9599; 0xb8bda50f;
  0x2802b89e; 0x5f058808; 0xc60cd9b2; 0xb10be924; 0x2f6f7c87; 0x58684c11; 0xc1611dab; 0xb6662d3d;
  0x76dc4190; 0x01db7106; 0x98d220bc; 0xefd5102a; 0x71b18589; 0x06b6b51f; 0x9fbfe4a5; 0xe8b8d433;
  0x7807c9a2; 0x0f00f934; 0x9609a88e; 0xe10e9818; 0x7f6a0dbb; 0x086d3d2d; 0x91646c97; 0xe6635c01;
  0x6b6b51f4; 0x1c6c6162; 0x856530d8; 0xf262004e; 0x6c0695ed; 0x1b01a57b; 0x8208f4c1; 0xf50fc457;
  0x65b0d9c6; 0x12b7e950; 0x8bbeb8ea; 0xfcb9887c; 0x62dd1ddf; 0x15da2d49; 0x8cd37cf3; 0xfbd44c65;
  0x4db26158; 0x3ab551ce; 0xa3bc0074; 0xd4bb30e2; 0x4adfa541; 0x3dd895d7; 0xa4d1c46d; 0xd3d6f4fb;
  0x4369e96a; 0x346ed9fc; 0xad678846; 0xda60b8d0; 0x44042d73; 0x33031de5; 0xaa0a4c5f; 0xdd0d7cc9;
  0x5005713c; 0x270241aa; 0xbe0b1010; 0xc90c2086; 0x5768b525; 0x206f85b3; 0xb966d409; 0xce61e49f;
  0x5edef90e; 0x29d9c998; 0xb0d09822; 0xc7d7a8b4; 0x59b33d17; 0x2eb40d81; 0xb7bd5c3b; 0xc0ba6cad;
  0xedb88320; 0x9abfb3b6; 0x03b6e20c; 0x74b1d29a; 0xead54739; 0x9dd277af; 0x04db2615; 0x73dc1683;
  0xe3630b12; 0x94643b84; 0x0d6d6a3e; 0x7a6a5aa8; 0xe40ecf0b; 0x9309ff9d; 0x0a00ae27; 0x7d079eb1;
  0xf00f9344; 0x8708a3d2; 0x1e01f268; 0x6906c2fe; 0xf762575d; 0x806567cb; 0x196c3671; 0x6e6b06e7;
  0xfed41b76; 0x89d32be0; 0x10da7a5a; 0x67dd4acc; 0xf9b9df6f; 0x8ebeeff9; 0x17b7be43; 0x60b08ed5;
  0xd6d6a3e8; 0xa1d1937e; 0x38d8c2c4; 0x4fdff252; 0xd1bb67f1; 0xa6bc5767; 0x3fb506dd; 0x48b2364b;
  0xd80d2bda; 0xaf0a1b4c; 0x36034af6; 0x41047a60; 0xdf60efc3; 0xa867df55; 0x316e8eef; 0x4669be79;
  0xcb61b38c; 0xbc66831a; 0x256fd2a0; 0x5268e236; 0xcc0c7795; 0xbb0b4703; 0x220216b9; 0x5505262f;
  0xc5ba3bbe; 0xb2bd0b28; 0x2bb45a92; 0x5cb36a04; 0xc2d7ffa7; 0xb5d0cf31; 0x2cd99e8b; 0x5bdeae1d;
  0x9b64c2b0; 0xec63f226; 0x756aa39c; 0x026d930a; 0x9c0906a9; 0xeb0e363f; 0x72076785; 0x05005713;
  0x95bf4a82; 0xe2b87a14; 0x7bb12bae; 0x0cb61b38; 0x92d28e9b; 0xe5d5be0d; 0x7cdcefb7; 0x0bdbdf21;
  0x86d3d2d4; 0xf1d4e242; 0x68ddb3f8; 0x1fda836e; 0x81be16cd; 0xf6b9265b; 0x6fb077e1; 0x18b74777;
  0x88085ae6; 0xff0f6a70; 0x66063bca; 0x11010b5c; 0x8f659eff; 0xf862ae69; 0x616bffd3; 0x166ccf45;
  0xa00ae278; 0xd70dd2ee; 0x4e048354; 0x3903b3c2; 0xa7672661; 0xd06016f7; 0x4969474d; 0x3e6e77db;
  0xaed16a4a; 0xd9d65adc; 0x40df0b66; 0x37d83bf0; 0xa9bcae53; 0xdebb9ec5; 0x47b2cf7f; 0x30b5ffe9;
  0xbdbdf21c; 0xcabac28a; 0x53b39330; 0x24b4a3a6; 0xbad03605; 0xcdd70693; 0x54de5729; 0x23d967bf;
  0xb3667a2e; 0xc4614ab8; 0x5d681b02; 0x2a6f2b94; 0xb40bbe37; 0xc30c8ea1; 0x5a05df1b; 0x2d02ef8d].

Definition crc64_ecma_norm_table : list Z := [
  0x0000000000000000; 0x42f0e1eba9ea3693; 0x85e1c3d753d46d26; 0xc711223cfa3e5bb5;
  0x493366450e42ecdf; 0x0bc387aea7a8da4c; 0xccd2a5925d9681f9; 0x8e224479f47cb76a;
  0x9266cc8a1c85d9be; 0xd0962d61b56fef2d; 0x17870f5d4f51b498; 0x5577eeb6e6bb820b;
  0xdb55aacf12c73561; 0x99a54b24bb2d03f2; 0x5eb4691841135847; 0x1c4488f3e8f96ed4;
  0x663d78ff90e185ef; 0x24cd9914390bb37c; 0xe3dcbb28c335e8c9; 0xa12c5ac36adfde5a;
  0x2f0e1eba9ea36930; 0x6dfeff5137495fa3; 0xaaefdd6dcd770416; 0xe81f3c86649d3285;
  0xf45bb4758c645c51; 0xb6ab559e258e6ac2; 0x71ba77a2dfb03177; 0x334a9649765a07e4;
  0xbd68d2308226b08e; 0xff9833db2bcc861d; 0x388911e7d1f2dda8; 0x7a79f00c7818eb3b;
  0xcc7af1ff21c30bde; 0x8e8a101488293d4d; 0x499b3228721766f8; 0x0b6bd3c3dbfd506b;
  0x854997ba2f81e701; 0xc7b97651866bd192; 0x00a8546d7c558a27; 0x4258b586d5bfbcb4;
  0x5e1c3d753d46d260; 0x1cecdc9e94ace4f3; 0xdbfdfea26e92bf46; 0x990d1f49c77889d5;
  0x172f5b3033043ebf; 0x55dfbadb9aee082c; 0x92ce98e760d05399; 0xd03e790cc93a650a;
  0xaa478900b1228e31; 0xe8b768eb18c8b8a2; 0x2fa64ad7e2f6e317; 0x6d56ab3c4b1cd584;
  0xe374ef45bf6062ee; 0xa1840eae168a547d; 0x66952c92ecb40fc8; 0x2465cd79455e395b;
  0x3821458aada7578f; 0x7ad1a461044d611c; 0xbdc0865dfe733aa9; 0xff3067b657990c3a;
  0x711223cfa3e5bb50; 0x33e2c2240a0f8dc3; 0xf4f3e018f031d676; 0xb60301f359dbe0e5;
  0xda050215ea6c212f; 0x98f5e3fe438617bc; 0x5fe4c1c2b9b84c09; 0x1d14202910527a9a;
  0x93366450e42ecdf0; 0xd1c685bb4dc4fb63; 0x16d7a787b7faa0d6; 0x5427466c1e109645;
  0x4863ce9ff6e9f891; 0x0a932f745f03ce02; 0xcd820d48a53d95b7; 0x8f72eca30cd7a324;
  0x0150a8daf8ab144e; 0x43a04931514122dd; 0x84b16b0dab7f7968; 0xc6418ae602954ffb;
  0xbc387aea7a8da4c0; 0xfec89b01d3679253; 0x39d9b93d2959c9e6; 0x7b2958d680b3ff75;
  0xf50b1caf74cf481f; 0xb7fbfd44dd257e8c; 0x70eadf78271b2539; 0x321a3e938ef113aa;
  0x2e5eb66066087d7e; 0x6cae578bcfe24bed; 0xabbf75b735dc1058; 0xe94f945c9c3626cb;
  0x676dd025684a91a1; 0x259d31cec1a0a732; 0xe28c13f23b9efc87; 0xa07cf2199274ca14;
  0x167ff3eacbaf2af1; 0x548f120162451c62; 0x939e303d987b47d7; 0xd16ed1d631917144;
  0x5f4c95afc5edc62e; 0x1dbc74446c07f0bd; 0xdaad56789639ab08; 0x985db7933fd39d9b;
  0x84193f60d72af34f; 0xc6e9de8b7ec0c5dc; 0x01f8fcb784fe9e69; 0x43081d5c2d14a8fa;
  0xcd2a5925d9681f90; 0x8fdab8ce70822903; 0x48cb9af28abc72b6; 0x0a3b7b1923564425;
  0x70428b155b4eaf1e; 0x32b26afef2a4998d; 0xf5a348c2089ac238; 0xb753a929a170f4ab;
  0x3971ed50550c43c1; 0x7b810cbbfce67552; 0xbc902e8706d82ee7; 0xfe60cf6caf321874;
  0xe224479f47cb76a0; 0xa0d4a674ee214033; 0x67c58448141f1b86; 0x253565a3bdf52d15;
  0xab1721da49899a7f; 0xe9e7c031e063acec; 0x2ef6e20d1a5df759; 0x6c0603e6b3b7c1ca;
  0xf6fae5c07d3274cd; 0xb40a042bd4d8425e; 0x731b26172ee619eb; 0x31ebc7fc870c2f78;
  0xbfc9838573709812; 0xfd39626eda9aae81; 0x3a28405220a4f534; 0x78d8a1b9894ec3a7;
  0x649c294a61b7ad73; 0x266cc8a1c85d9be0; 0xe17dea9d3263c055; 0xa38d0b769b89f6c6;
  0x2daf4f0f6ff541ac; 0x6f5faee4c61f773f; 0xa84e8cd83c212c8a; 0xeabe6d3395cb1a19;
  0x90c79d3fedd3f122; 0xd2377cd44439c7b1; 0x15265ee8be079c04; 0x57d6bf0317edaa97;
  0xd9f4fb7ae3911dfd; 0x9b041a914a7b2b6e; 0x5c1538adb04570db; 0x1ee5d94619af4648;
  0x02a151b5f156289c; 0x4051b05e58bc1e0f; 0x87409262a28245ba; 0xc5b073890b687329;
  0x4b9237f0ff14c443; 0x0962d61b56fef2d0; 0xce73f427acc0a965; 0x8c8315cc052a9ff6;
  0x3a80143f5cf17f13; 0x7870f5d4f51b4980; 0xbf61d7e80f251235; 0xfd913603a6cf24a6;
  0x73b3727a52b393cc; 0x31439391fb59a55f; 0xf652b1ad0167feea; 0xb4a25046a88dc879;
  0xa8e6d8b54074a6ad; 0xea16395ee99e903e; 0x2d071b6213a0cb8b; 0x6ff7fa89ba4afd18;
  0xe1d5bef04e364a72; 0xa3255f1be7dc7ce1; 0x64347d271de22754; 0x26c49cccb40811c7;
  0x5cbd6cc0cc10fafc; 0x1e4d8d2b65facc6f; 0xd95caf179fc497da; 0x9bac4efc362ea149;
  0x158e0a85c2521623; 0x577eeb6e6bb820b0; 0x906fc95291867b05; 0xd29f28b9386c4d96;
  0xcedba04ad0952342; 0x8c2b41a1797f15d1; 0x4b3a639d83414e64; 0x09ca82762aab78f7;
  0x87e8c60fded7cf9d; 0xc51827e4773df90e; 0x020905d88d03a2bb; 0x40f9e43324e99428;
  0x2cffe7d5975e55e2; 0x6e0f063e3eb46371; 0xa91e2402c48a38c4; 0xebeec5e96d600e57;
  0x65cc8190991cb93d; 0x273c607b30f68fae; 0xe02d4247cac8d41b; 0xa2dda3ac6322e288;
  0xbe992b5f8bdb8c5c; 0xfc69cab42231bacf; 0x3b78e888d80fe17a; 0x7988096371e5d7e9;
  0xf7aa4d1a85996083; 0xb55aacf12c735610; 0x724b8ecdd64d0da5; 0x30bb6f267fa73b36;
  0x4ac29f2a07bfd00d; 0x08327ec1ae55e69e; 0xcf235cfd546bbd2b; 0x8dd3bd16fd818bb8;
  0x03f1f96f09fd3cd2; 0x41011884a0170a41; 0x86103ab85a2951f4; 0xc4e0db53f3c36767;
  0xd8a453a01b3a09b3; 0x9a54b24bb2d03f20; 0x5d45907748ee6495; 0x1fb5719ce1045206;
  0x919735e51578e56c; 0xd367d40ebc92d3ff; 0x1476f63246ac884a; 0x568617d9ef46bed9;
  0xe085162ab69d5e3c; 0xa275f7c11f7768af; 0x6564d5fde549331a; 0x279434164ca30589;
  0xa9b6706fb8dfb2e3; 0xeb46918411358470; 0x2c57b3b8eb0bdfc5; 0x6ea7525342e1e956;
  0x72e3daa0aa188782; 0x30133b4b03f2b111; 0xf7021977f9cceaa4; 0xb5f2f89c5026dc37;
  0x3bd0bce5a45a6b5d; 0x79205d0e0db05dce; 0xbe317f32f78e067b; 0xfcc19ed95e6430e8;
  0x86b86ed5267cdbd3; 0xc4488f3e8f96ed40; 0x0359ad0275a8b6f5; 0x41a94ce9dc428066;
  0xcf8b0890283e370c; 0x8d7be97b81d4019f; 0x4a6acb477bea5a2a; 0x089a2aacd2006cb9;
  0x14dea25f3af9026d; 0x562e43b4931334fe; 0x913f6188692d6f4b; 0xd3cf8063c0c759d8;
  0x5dedc41a34bbeeb2; 0x1f1d25f19d51d821; 0xd80c07cd676f8394; 0x9afce626ce85b507].

(** One round of the loops of [crc32_gzip_refl_base] and [crc64_ecma_norm_base] *)
Definition crc32_round (crc byte : Z) : Z :=
  Z.lxor (Z.shiftr crc 8) (crc32_table_gzip_refl.[Z.lxor (Z.land crc 0xFF) byte]).
Definition crc64_round (crc byte : Z) : Z :=
  Z.lxor (crc64_ecma_norm_table.[Z.land (Z.lxor (Z.shiftr crc 56) byte) 0xFF]) (u64 (Z.shiftl crc 8)).

Definition crc32_gzip_refl_base (seed : Z) (buf : list Z) (length : Z) : Z :=
  not32 (foldl crc32_round (not32 seed) (take (Z.to_nat length) buf)).
Definition crc64_ecma_norm_base (seed : Z) (buf : list Z) (length : Z) : Z :=
  foldl crc64_round seed (take (Z.to_nat length) buf).

(** * The checksum of a buffer list *)

(** [CpaFlatBuffer]; [pData] holds the bytes that the pointer leads to. *)
Record CpaFlatBuffer := mk_flat { dataLenInBytes : Z; pData : list Z }.

(** The loops of [dcCalculateCrc32] and [dcCalculateCrc64] over the flat buffers *)
Fixpoint crc_buffers (base : Z -> list Z -> Z -> Z) (pBuffers : list CpaFlatBuffer)
    (consumedBytes currentCrc : Z) : Z :=
  match pBuffers with
  | [] => currentCrc
  | pBuffer :: pBuffers =>
      let flatBufferLength := dataLenInBytes pBuffer in
      let '(computeLength, consumedBytes) :=
        if flatBufferLength <? consumedBytes then (flatBufferLength, consumedBytes - flatBufferLength)
        else (consumedBytes, 0) in
      crc_buffers base pBuffers consumedBytes (base currentCrc (pData pBuffer) computeLength)
  end.
Definition dcCalculateCrc32 (pBufferList : list CpaFlatBuffer) (consumedBytes seedChecksum : Z) : Z :=
  crc_buffers crc32_gzip_refl_base pBufferList consumedBytes seedChecksum.
Definition dcCalculateCrc64 (pBufferList : list CpaFlatBuffer) (consumedBytes seedChecksum : Z) : Z :=
  crc_buffers crc64_ecma_norm_base pBufferList consumedBytes seedChecksum.

(** * xxHash32 of a short input *)

Definition XXHASH_PRIME32_A : Z := 0x9E3779B1.
Definition XXHASH_PRIME32_B : Z := 0x85EBCA77.
Definition XXHASH_PRIME32_C : Z := 0xC2B2AE3D.
Definition XXHASH_PRIME32_D : Z := 0x27D4EB2F.
Definition XXHASH_PRIME32_E : Z := 0x165667B1.
Definition XXH32_STRIP_SIZE : Z := 16.
Definition ROTATE_LEFT_32 (n d : Z) : Z := Z.lor (u32 (Z.shiftl n d)) (Z.shiftr n (Z.land (- d) 31)).

Definition xxh32Avalanche (xxHash32 : Z) : Z :=
  let xxHash32 := Z.lxor xxHash32 (Z.shiftr xxHash32 15) in
  let xxHash32 := u32 (xxHash32 * XXHASH_PRIME32_B) in
  let xxHash32 := Z.lxor xxHash32 (Z.shiftr xxHash32 13) in
  let xxHash32 := u32 (xxHash32 * XXHASH_PRIME32_C) in
  Z.lxor xxHash32 (Z.shiftr xxHash32 16).

(** The bytes at [ptr] as a little-endian word *)
Definition read32 (a b c d : Z) : Z := a + 2 ^ 8 * b + 2 ^ 16 * c + 2 ^ 24 * d.

(** The two loops of [xxh32ConsumeRemaining]; [ptr] holds the remaining bytes. *)
Fixpoint xxh32_bytes (acc : Z) (ptr : list Z) : Z :=
  match ptr with
  | [] => acc
  | a :: ptr =>
      xxh32_bytes (u32 (ROTATE_LEFT_32 (u32 (acc + a * XXHASH_PRIME32_E)) 11 * XXHASH_PRIME32_A)) ptr
  end.
Fixpoint xxh32_words (acc : Z) (ptr : list Z) : Z :=
  match ptr with
  | a :: b :: c :: d :: ptr =>
      xxh32_words (u32 (ROTATE_LEFT_32 (u32 (acc + read32 a b c d * XXHASH_PRIME32_C)) 17 * XXHASH_PRIME32_D)) ptr
  | _ => xxh32_bytes acc ptr
  end.
Definition xxh32ConsumeRemaining (acc : Z) (ptr : list Z) (remainingBytes : Z) : Z :=
  xxh32Avalanche (xxh32_words acc (take (Z.to_nat remainingBytes) ptr)).

(** [calculateXxh32]: the status and [*result] *)
Definition calculateXxh32 (xxH32input : list Z) (dataLength seed : Z) : Z * Z :=
  if dataLength <? XXH32_STRIP_SIZE then
    let acc := u32 (u32 (seed + XXHASH_PRIME32_E) + dataLength) in
    (CPA_STATUS_SUCCESS, xxh32ConsumeRemaining acc xxH32input dataLength)
  else (CPA_STATUS_FAIL, 0).

(** [dcXxhash32Lz4HdrChecksum]: the status and [*checksum] *)
Definition dcXxhash32Lz4HdrChecksum (xxH32input : list Z) (dataLength : Z) : Z * Z :=
  if (dataLength <? 2) || (16 <=? dataLength) then (CPA_STATUS_INVALID_PARAM, 0)
  else
    let '(status, result) := calculateXxh32 xxH32input dataLength 0 in
    if negb (status =? CPA_STATUS_SUCCESS) then (CPA_STATUS_FAIL, 0)
    else (CPA_STATUS_SUCCESS, Z.land (u8 (Z.shiftr result 8)) 0xFF).

(** * Proofs *)

(** ** The shift registers *)

(** One step of the register of CRC-32, which shifts to the right, and of CRC-64,
    which shifts to the left *)
Definition POLY32 : Z := 0xEDB88320.
Definition POLY64 : Z := 0x42F0E1EBA9EA3693.
Definition shift32 (x : Z) : Z := Z.lxor (Z.shiftr x 1) (if Z.testbit x 0 then POLY32 else 0).
Definition shift64 (x : Z) : Z := Z.lxor (u64 (Z.shiftl x 1)) (if Z.testbit x 63 then POLY64 else 0).

(** A bit of the message enters at the end that is shifted out. *)
Definition crc32_bit (crc : Z) (b : bool) : Z := shift32 (Z.lxor crc (Z.b2z b)).
Definition crc64_bit (crc : Z) (b : bool) : Z := shift64 (Z.lxor crc (Z.shiftl (Z.b2z b) 63)).

(** The low [n] bits, lowest first and highest first *)
Fixpoint lsb_bits (n : nat) (v : Z) : list bool :=
  match n with O => [] | S n => Z.testbit v 0 :: lsb_bits n (Z.shiftr v 1) end.
Fixpoint msb_bits (n : nat) (v : Z) : list bool :=
  match n with O => [] | S n => Z.testbit v (Z.of_nat n) :: msb_bits n v end.

(** The checksums of a message, bit by bit *)
Definition crc32_serial (seed : Z) (bytes : list Z) : Z :=
  not32 (foldl crc32_bit (not32 seed) (concat (map (lsb_bits 8) bytes))).
Definition crc64_serial (seed : Z) (bytes : list Z) : Z :=
  foldl crc64_bit seed (concat (map (msb_bits 8) bytes)).

Lemma cond_lxor (b c : bool) p : Z.lxor (if b then p else 0) (if c then p else 0) = if xorb b c then p else 0.
Proof. destruct b, c; simpl; by rewrite ?Z.lxor_nilpotent, ?Z.lxor_0_r. Qed.

Lemma lxor_swap a b c d : Z.lxor (Z.lxor a b) (Z.lxor c d) = Z.lxor (Z.lxor a c) (Z.lxor b d).
Proof. apply Z.bits_inj'. intros n Hn. rewrite !Z.lxor_spec. btauto. Qed.

Lemma shift32_lxor x y : shift32 (Z.lxor x y) = Z.lxor (shift32 x) (shift32 y).
Proof. unfold shift32. by rewrite lxor_swap, cond_lxor, Z.shiftr_lxor, Z.lxor_spec. Qed.

Lemma iter_shift32_lxor n x y :
  Nat.iter n shift32 (Z.lxor x y) = Z.lxor (Nat.iter n shift32 x) (Nat.iter n shift32 y).
Proof. induction n as [|n IH]; [done|]. by rewrite !Nat.iter_succ, IH, shift32_lxor. Qed.

Lemma iter_shift32_shiftl n y : Nat.iter n shift32 (Z.shiftl y (Z.of_nat n)) = y.
Proof.
  revert y. induction n as [|n IH]; intros y; [apply Z.shiftl_0_r|]. rewrite Nat.iter_succ_r.
  assert (E : shift32 (Z.shiftl y (Z.of_nat (S n))) = Z.shiftl y (Z.of_nat n)); [|by rewrite E].
  unfold shift32. rewrite Z.shiftl_spec_low by lia. rewrite Z.lxor_0_r, Z.shiftr_shiftl_l by lia. f_equal. lia.
Qed.

Lemma split_low v n : 0 <= n -> v = Z.lxor (Z.land v (Z.ones n)) (Z.shiftl (Z.shiftr v n) n).
Proof.
  intros Hn. apply Z.bits_inj'. intros i Hi. rewrite Z.lxor_spec, Z.land_spec, Z.shiftl_spec by done.
  rewrite testbit_ones by lia. destruct (Z.ltb_spec i n).
  - rewrite (Z.testbit_neg_r _ (i - n)) by lia. btauto.
  - rewrite Z.shiftr_spec by lia. replace (i - n + n) with i by lia. btauto.
Qed.

(** A whole byte can enter at once. *)
Lemma crc32_bits_iter n crc v :
  0 <= v < 2 ^ Z.of_nat n -> foldl crc32_bit crc (lsb_bits n v) = Nat.iter n shift32 (Z.lxor crc v).
Proof.
  revert crc v. induction n as [|n IH]; intros crc v Hv.
  - assert (v = 0) as -> by lia. by rewrite Z.lxor_0_r.
  - cbn [lsb_bits foldl]. rewrite Nat.iter_succ_r, IH.
    2:{ rewrite Z.shiftr_div_pow2 by lia. rewrite Nat2Z.inj_succ, Z.pow_succ_r in Hv by lia. divmod v (2 ^ 1). nia. }
    f_equal. unfold crc32_bit. pose proof (split_low v 1 ltac:(lia)) as E.
    rewrite Z.land_ones, <- Z.bit0_mod in E by lia. rewrite E at 3.
    rewrite <- Z.lxor_assoc, (shift32_lxor (Z.lxor _ _)). f_equal. symmetry. exact (iter_shift32_shiftl 1 (Z.shiftr v 1)).
Qed.

Lemma crc32_table_spec i : 0 <= i < 256 -> crc32_table_gzip_refl.[i] = Nat.iter 8 shift32 i.
Proof.
  intros Hi. apply Z.eqb_eq.
  apply (proj1 (forallb_seqZ (fun i => crc32_table_gzip_refl.[i] =? Nat.iter 8 shift32 i) 0 256)); [|lia].
  vm_compute. reflexivity.
Qed.

Lemma lxor_range a b n : 0 <= n -> 0 <= a < 2 ^ n -> 0 <= b < 2 ^ n -> 0 <= Z.lxor a b < 2 ^ n.
Proof.
  intros Hn Ha Hb. apply bits_range; [done|apply Z.lxor_nonneg; lia|].
  intros i Hi. by rewrite Z.lxor_spec, !(testbit_range _ n) by lia.
Qed.

Lemma land_range a n : 0 <= n -> 0 <= Z.land a (Z.ones n) < 2 ^ n.
Proof. intros Hn. rewrite Z.land_ones by done. apply Z.mod_pos_bound. apply Z.pow_pos_nonneg; lia. Qed.

(** The table holds what eight steps do to the byte that is shifted out. *)
Lemma crc32_round_spec crc byte :
  0 <= byte < 256 -> crc32_round crc byte = foldl crc32_bit crc (lsb_bits 8 byte).
Proof.
  intros Hb. rewrite crc32_bits_iter by done. unfold crc32_round.
  pose proof (land_range crc 8 ltac:(lia)) as Hl. change (Z.ones 8) with 0xFF in Hl.
  rewrite crc32_table_spec by (apply (lxor_range _ _ 8); lia).
  pose proof (split_low crc 8 ltac:(lia)) as E. rewrite E at 3.
  pose proof (iter_shift32_shiftl 8 (Z.shiftr crc 8)) as E8. change (Z.of_nat 8) with 8 in E8.
  rewrite !iter_shift32_lxor, E8. change (Z.ones 8) with 0xFF. generalize (Nat.iter 8 shift32 byte) as x.
  generalize (Nat.iter 8 shift32 (Z.land crc 0xFF)) as y. generalize (Z.shiftr crc 8) as z. intros.
  rewrite (Z.lxor_comm y z), Z.lxor_assoc. done.
Qed.

Lemma crc32_serial_base seed buf n :
  Forall (fun b => 0 <= b < 256) buf ->
  crc32_gzip_refl_base seed buf n = crc32_serial seed (take (Z.to_nat n) buf).
Proof.
  intros H. unfold crc32_gzip_refl_base, crc32_serial. f_equal. generalize (not32 seed) as crc.
  apply (Forall_take _ (Z.to_nat n)) in H. induction H as [|b l Hb Hl IH]; intros crc; [done|].
  cbn [foldl map concat]. by rewrite foldl_app, IH, crc32_round_spec.
Qed.

Lemma u64_lxor a b : u64 (Z.lxor a b) = Z.lxor (u64 a) (u64 b).
Proof. apply Z.bits_inj'. intros i Hi. autorewrite with bits. btauto. Qed.

Lemma shift64_lxor x y : shift64 (Z.lxor x y) = Z.lxor (shift64 x) (shift64 y).
Proof. unfold shift64. by rewrite lxor_swap, cond_lxor, Z.shiftl_lxor, Z.lxor_spec, u64_lxor. Qed.

Lemma iter_shift64_lxor n x y :
  Nat.iter n shift64 (Z.lxor x y) = Z.lxor (Nat.iter n shift64 x) (Nat.iter n shift64 y).
Proof. induction n as [|n IH]; [done|]. by rewrite !Nat.iter_succ, IH, shift64_lxor. Qed.

(** As long as no bit is shifted out, the register only shifts. *)
Lemma shift64_low x : 0 <= x < 2 ^ 63 -> shift64 x = Z.shiftl x 1.
Proof.
  intros Hx. unfold shift64. rewrite (testbit_range x 63) by lia. rewrite Z.lxor_0_r. apply u64_small.
  rewrite Z.shiftl_mul_pow2 by lia. lia.
Qed.

Lemma iter_shift64_low n x :
  0 <= x < 2 ^ (64 - Z.of_nat n) -> (n <= 64)%nat -> Nat.iter n shift64 x = Z.shiftl x (Z.of_nat n).
Proof.
  induction n as [|n IH]; intros Hx Hn; [by rewrite Z.shiftl_0_r|].
  assert (Hp : 2 ^ (64 - Z.of_nat n) = 2 * 2 ^ (64 - Z.of_nat (S n))) by (rewrite <- Z.pow_succ_r by lia; f_equal; lia).
  rewrite Nat.iter_succ, IH by lia. rewrite shift64_low.
  - rewrite Z.shiftl_shiftl by lia. f_equal. lia.
  - rewrite Z.shiftl_mul_pow2 by lia. replace (2 ^ 63) with (2 ^ (64 - Z.of_nat (S n)) * 2 ^ Z.of_nat n); [nia|].
    rewrite <- Z.pow_add_r by lia. f_equal. lia.
Qed.

Lemma shiftl_range v n m : 0 <= n -> 0 <= m -> 0 <= v < 2 ^ n -> 0 <= Z.shiftl v m < 2 ^ (n + m).
Proof. intros Hn Hm Hv. rewrite Z.shiftl_mul_pow2, Z.pow_add_r by lia. pose proof (Z.pow_pos_nonneg 2 m). nia. Qed.

Lemma msb_bits_mod n v : msb_bits n (Z.land v (Z.ones (Z.of_nat n))) = msb_bits n v.
Proof.
  assert (H : forall k, (k <= n)%nat -> msb_bits k (Z.land v (Z.ones (Z.of_nat n))) = msb_bits k v); [|by apply H].
  induction k as [|k IH]; intros Hk; [done|]. cbn [msb_bits]. rewrite IH by lia. f_equal.
  rewrite Z.land_spec, testbit_ones by lia. destruct (Z.ltb_spec (Z.of_nat k) (Z.of_nat n)); [btauto|lia].
Qed.

Lemma testbit_b2z b i : 0 <= i -> Z.testbit (Z.b2z b) i = (i =? 0) && b.
Proof.
  intros Hi. destruct (Z.eqb_spec i 0) as [->|Hne]; [by destruct b|].
  apply (testbit_range _ 1); [destruct b; simpl; lia|lia].
Qed.

Lemma crc64_bits_iter n crc v :
  (n <= 64)%nat -> 0 <= v < 2 ^ Z.of_nat n ->
  foldl crc64_bit crc (msb_bits n v) = Nat.iter n shift64 (Z.lxor crc (Z.shiftl v (64 - Z.of_nat n))).
Proof.
  revert crc v. induction n as [|n IH]; intros crc v Hn Hv.
  - assert (v = 0) as -> by lia. by rewrite Z.shiftl_0_l, Z.lxor_0_r.
  - cbn [msb_bits foldl]. rewrite Nat.iter_succ_r, <- (msb_bits_mod n v).
    set (r := Z.land v (Z.ones (Z.of_nat n))). pose proof (land_range v (Z.of_nat n) ltac:(lia)) as Hr. fold r in Hr.
    rewrite IH by (lia || done). f_equal. unfold crc64_bit.
    assert (E : Z.shiftl v (64 - Z.of_nat (S n)) =
      Z.lxor (Z.shiftl (Z.b2z (Z.testbit v (Z.of_nat n))) 63) (Z.shiftl r (63 - Z.of_nat n))).
    { rewrite (split_low v (Z.of_nat n)) at 1 by lia. rewrite Z.shiftl_lxor, Z.lxor_comm. f_equal.
      - rewrite Z.shiftl_shiftl by lia. f_equal; [|lia].
        apply Z.bits_inj'. intros i Hi. rewrite Z.shiftr_spec, testbit_b2z by lia. destruct (Z.eqb_spec i 0) as [->|Hne]; [done|].
        by rewrite (testbit_range v (Z.of_nat (S n))) by lia.
      - f_equal. lia. }
    rewrite E, <- Z.lxor_assoc, (shift64_lxor (Z.lxor _ _)). f_equal.
    rewrite shift64_low, Z.shiftl_shiftl by (try lia; pose proof (shiftl_range r (Z.of_nat n) (63 - Z.of_nat n));
      replace (Z.of_nat n + (63 - Z.of_nat n)) with 63 in * by lia; lia).
    f_equal. lia.
Qed.

Lemma crc64_table_spec i : 0 <= i < 256 -> crc64_ecma_norm_table.[i] = Nat.iter 8 shift64 (Z.shiftl i 56).
Proof.
  intros Hi. apply Z.eqb_eq.
  apply (proj1 (forallb_seqZ (fun i => crc64_ecma_norm_table.[i] =? Nat.iter 8 shift64 (Z.shiftl i 56)) 0 256)); [|lia].
  vm_compute. reflexivity.
Qed.

Lemma crc64_round_spec crc byte :
  0 <= crc < 2 ^ 64 -> 0 <= byte < 256 -> crc64_round crc byte = foldl crc64_bit crc (msb_bits 8 byte).
Proof.
  intros Hc Hb. rewrite crc64_bits_iter by (lia || done). unfold crc64_round.
  assert (Ht : 0 <= Z.shiftr crc 56 < 2 ^ 8).
  { rewrite Z.shiftr_div_pow2 by lia. split; [apply Z.div_pos; lia|apply Z.div_lt_upper_bound; lia]. }
  pose proof (lxor_range _ byte 8 ltac:(lia) Ht Hb) as Hx.
  change 0xFF with (Z.ones 8). rewrite Z.land_ones, Z.mod_small, crc64_table_spec by lia.
  rewrite (split_low crc 56) at 3 by lia. rewrite (Z.lxor_comm (Z.land crc _)), Z.lxor_assoc, (Z.lxor_comm (Z.land crc _)), <- Z.lxor_assoc.
  rewrite (iter_shift64_lxor 8 (Z.lxor _ _)), Z.shiftl_lxor. f_equal.
  pose proof (land_range crc 56 ltac:(lia)). rewrite iter_shift64_low by (lia || done).
  apply Z.bits_inj'. intros j Hj. rewrite testbit_u64, !Z.shiftl_spec, Z.land_spec by lia. change (Z.of_nat 8) with 8.
  destruct (Z.ltb_spec (j - 8) 0); [rewrite !Z.testbit_neg_r by lia; btauto|]. rewrite testbit_ones by lia.
  destruct (Z.ltb_spec j 64), (Z.ltb_spec (j - 8) 56); (lia || btauto).
Qed.

Definition is_byte (b : Z) : Prop := 0 <= b < 256.

Lemma crc64_round_range crc byte : is_byte byte -> 0 <= crc64_round crc byte < 2 ^ 64.
Proof.
  intros Hb. unfold crc64_round. apply lxor_range; [lia| |apply u64_range].
  set (i := Z.land _ _). assert (Hi : 0 <= i < 256) by apply (land_range _ 8 ltac:(lia)).
  assert (T : forallb (fun i => (0 <=? crc64_ecma_norm_table.[i]) && (crc64_ecma_norm_table.[i] <? 2 ^ 64)) (seqZ 0 256) = true)
    by (vm_compute; reflexivity).
  rewrite forallb_seqZ in T. specialize (T i ltac:(lia)). breflect. lia.
Qed.

Lemma crc64_serial_base seed buf n :
  0 <= seed < 2 ^ 64 -> Forall is_byte buf ->
  crc64_ecma_norm_base seed buf n = crc64_serial seed (take (Z.to_nat n) buf).
Proof.
  intros Hs H. unfold crc64_ecma_norm_base, crc64_serial. apply (Forall_take _ (Z.to_nat n)) in H. revert seed Hs.
  induction H as [|b l Hb Hl IH]; intros crc Hc; [done|].
  cbn [foldl map concat]. rewrite foldl_app, <- crc64_round_spec by done. apply IH. by apply crc64_round_range.
Qed.

(** ** Continuing a checksum *)

Lemma not32_range x : 0 <= not32 x < 2 ^ 32.
Proof. apply u32_range. Qed.

Lemma not32_involutive x : 0 <= x < 2 ^ 32 -> not32 (not32 x) = x.
Proof.
  intros Hx. apply Z.bits_inj'. intros i Hi. unfold not32. rewrite testbit_u32, Z.lnot_spec, testbit_u32, Z.lnot_spec by lia.
  destruct (Z.ltb_spec i 32); [btauto|]. rewrite (testbit_range x 32) by lia. btauto.
Qed.

Lemma shiftr_range x n : 0 <= n -> 0 <= x < 2 ^ n -> 0 <= Z.shiftr x 1 < 2 ^ n.
Proof. intros Hn Hx. rewrite Z.shiftr_div_pow2 by lia. divmod x (2 ^ 1). lia. Qed.

Lemma shift32_range x : 0 <= x < 2 ^ 32 -> 0 <= shift32 x < 2 ^ 32.
Proof.
  intros Hx. unfold shift32. apply lxor_range; [lia|by apply shiftr_range|]. destruct (Z.testbit x 0); [|lia].
  unfold POLY32. lia.
Qed.

Lemma crc32_bit_range crc b : 0 <= crc < 2 ^ 32 -> 0 <= crc32_bit crc b < 2 ^ 32.
Proof. intros Hc. apply shift32_range, lxor_range; [lia|done|destruct b; simpl; lia]. Qed.

Lemma crc32_bits_range bits crc : 0 <= crc < 2 ^ 32 -> 0 <= foldl crc32_bit crc bits < 2 ^ 32.
Proof. revert crc. induction bits as [|b bits IH]; intros crc Hc; [done|]. apply IH. by apply crc32_bit_range. Qed.

Lemma crc32_serial_app seed a b : crc32_serial (crc32_serial seed a) b = crc32_serial seed (a ++ b).
Proof.
  unfold crc32_serial. rewrite not32_involutive by (apply crc32_bits_range, not32_range).
  by rewrite map_app, concat_app, foldl_app.
Qed.

Lemma crc64_serial_app seed a b : crc64_serial (crc64_serial seed a) b = crc64_serial seed (a ++ b).
Proof. unfold crc64_serial. by rewrite map_app, concat_app, foldl_app. Qed.

(** ** Buffer lists *)

(** The pointer leads to at least as many bytes as the buffer says. *)
Definition flat_ok (b : CpaFlatBuffer) : Prop :=
  0 <= dataLenInBytes b <= len (pData b) /\ Forall is_byte (pData b).
Definition buffers_bytes (l : list CpaFlatBuffer) : list Z :=
  concat (map (fun b => take (Z.to_nat (dataLenInBytes b)) (pData b)) l).

Lemma crc_buffers_spec (base : Z -> list Z -> Z -> Z) (serial : Z -> list Z -> Z) (ok : Z -> Prop) l n crc :
  (forall crc buf n, ok crc -> Forall is_byte buf -> base crc buf n = serial crc (take (Z.to_nat n) buf)) ->
  (forall crc bytes, ok crc -> Forall is_byte bytes -> ok (serial crc bytes)) ->
  (forall crc, ok crc -> serial crc [] = crc) ->
  (forall crc a b, serial (serial crc a) b = serial crc (a ++ b)) ->
  ok crc -> 0 <= n -> Forall flat_ok l ->
  crc_buffers base l n crc = serial crc (take (Z.to_nat n) (buffers_bytes l)).
Proof.
  intros Hbase Hok Hnil Happ Hc Hn Hl. revert n crc Hn Hc.
  induction Hl as [|b l [Hlen Hb] Hl IH]; intros n crc Hn Hc; [by rewrite firstn_nil, Hnil|].
  cbn [crc_buffers]. unfold buffers_bytes. cbn [map concat]. fold (buffers_bytes l).
  set (d := take (Z.to_nat (dataLenInBytes b)) (pData b)).
  assert (Hd : length d = Z.to_nat (dataLenInBytes b)) by (unfold d; rewrite length_take; lia).
  destruct (Z.ltb_spec (dataLenInBytes b) n).
  - rewrite Hbase, IH, Happ by first [done | lia | (apply Hok; [done|by apply Forall_take])]. f_equal.
    rewrite take_app, Hd. fold d. rewrite (take_ge d (Z.to_nat n)) by lia. f_equal. f_equal. lia.
  - rewrite Hbase, IH, Happ by first [done | lia | (apply Hok; [done|by apply Forall_take])]. f_equal.
    rewrite take_app, Hd. unfold d. rewrite take_take. replace (Z.to_nat n `min` Z.to_nat (dataLenInBytes b))%nat with (Z.to_nat n) by lia.
    f_equal. f_equal. lia.
Qed.

(** ** Burst errors *)

(** The top bit of the polynomial is set, so the bit that was shifted out can be read
    off the register: no step loses information. *)
Lemma shift32_inj x y : 0 <= x < 2 ^ 32 -> 0 <= y < 2 ^ 32 -> shift32 x = shift32 y -> x = y.
Proof.
  intros Hx Hy E.
  assert (T : forall z, 0 <= z < 2 ^ 32 -> Z.testbit (shift32 z) 31 = Z.testbit z 0).
  { intros z Hz. unfold shift32. rewrite Z.lxor_spec, Z.shiftr_spec by lia. rewrite (testbit_range z 32) by lia.
    by destruct (Z.testbit z 0). }
  pose proof (T x Hx) as Tx. pose proof (T y Hy) as Ty. rewrite E, Ty in Tx.
  apply Z.bits_inj'. intros i Hi. destruct (decide (i = 0)) as [->|Hne]; [done|].
  assert (B : Z.testbit (shift32 x) (i - 1) = Z.testbit (shift32 y) (i - 1)) by by rewrite E.
  unfold shift32 in B. rewrite !Z.lxor_spec, !Z.shiftr_spec, Tx in B by lia. replace (i - 1 + 1) with i in B by lia.
  by destruct (Z.testbit x i), (Z.testbit y i), (Z.testbit _ (i - 1)).
Qed.

Lemma lxor_cancel a b c : Z.lxor a c = Z.lxor b c -> a = b.
Proof.
  intros E. apply Z.bits_inj'. intros i Hi. assert (B : Z.testbit (Z.lxor a c) i = Z.testbit (Z.lxor b c) i) by by rewrite E.
  rewrite !Z.lxor_spec in B. by destruct (Z.testbit a i), (Z.testbit b i), (Z.testbit c i).
Qed.

Lemma crc32_bits_inj bits x y :
  0 <= x < 2 ^ 32 -> 0 <= y < 2 ^ 32 -> foldl crc32_bit x bits = foldl crc32_bit y bits -> x = y.
Proof.
  revert x y. induction bits as [|b bits IH]; intros x y Hx Hy E; [done|].
  apply IH in E; [|by apply crc32_bit_range..]. unfold crc32_bit in E.
  assert (Hb : 0 <= Z.b2z b < 2 ^ 32) by (destruct b; simpl; lia).
  apply shift32_inj in E; [|by apply lxor_range..]. by apply lxor_cancel in E.
Qed.

Lemma iter_shift32_inj n x y :
  0 <= x < 2 ^ 32 -> 0 <= y < 2 ^ 32 -> Nat.iter n shift32 x = Nat.iter n shift32 y -> x = y.
Proof.
  revert x y. induction n as [|n IH]; intros x y Hx Hy E; [done|]. rewrite !Nat.iter_succ_r in E.
  apply IH in E; [|by apply shift32_range..]. by apply shift32_inj.
Qed.

(** The bytes as one number, the first of them lowest *)
Fixpoint le_value (l : list Z) : Z := match l with [] => 0 | b :: l => b + 2 ^ 8 * le_value l end.

Lemma le_value_range l : Forall is_byte l -> 0 <= le_value l < 2 ^ (8 * len l).
Proof.
  induction 1 as [|b l Hb Hl IH]; [done|]. cbn [le_value length]. unfold is_byte in Hb.
  replace (8 * Z.of_nat (S (length l))) with (8 + 8 * len l) by lia. rewrite Z.pow_add_r by lia. lia.
Qed.

Lemma le_value_inj l1 l2 :
  Forall is_byte l1 -> Forall is_byte l2 -> length l1 = length l2 -> le_value l1 = le_value l2 -> l1 = l2.
Proof.
  intros H1. revert l2. induction H1 as [|b l1 Hb Hl IH]; intros [|c l2] H2 E V; try done.
  apply Forall_cons in H2 as [Hc H2]. cbn [length le_value] in E, V. unfold is_byte in *. assert (b = c) as -> by lia.
  f_equal. apply IH; [done|lia|lia].
Qed.

Lemma lsb_bits_app n m v w :
  0 <= v < 2 ^ Z.of_nat n -> lsb_bits (n + m) (v + 2 ^ Z.of_nat n * w) = lsb_bits n v ++ lsb_bits m w.
Proof.
  revert v. induction n as [|n IH]; intros v Hv.
  - change (2 ^ Z.of_nat 0) with 1 in *. cbn [Nat.add lsb_bits app]. f_equal. lia.
  - rewrite Nat2Z.inj_succ, Z.pow_succ_r in * by lia. cbn [lsb_bits Nat.add app]. f_equal.
    + rewrite !Z.bit0_odd. rewrite <- Z.mul_assoc, Z.odd_add_mul_2. done.
    + rewrite !Z.shiftr_div_pow2 by lia. rewrite <- IH.
      * f_equal. rewrite <- Z.mul_assoc, (Z.mul_comm 2), Z.pow_1_r, Z.div_add by lia. done.
      * rewrite Z.pow_1_r. divmod v 2. lia.
Qed.

Lemma lsb_bits_bytes l : Forall is_byte l -> lsb_bits (8 * length l) (le_value l) = concat (map (lsb_bits 8) l).
Proof.
  induction 1 as [|b l Hb Hl IH]; [done|]. cbn [le_value map concat length]. rewrite <- IH.
  replace (8 * S (length l))%nat with (8 + 8 * length l)%nat by lia. apply (lsb_bits_app 8). exact Hb.
Qed.

Lemma crc32_bytes_iter crc l :
  Forall is_byte l -> foldl crc32_bit crc (concat (map (lsb_bits 8) l)) = Nat.iter (8 * length l) shift32 (Z.lxor crc (le_value l)).
Proof.
  intros H. rewrite <- lsb_bits_bytes by done. apply crc32_bits_iter.
  pose proof (le_value_range l H). replace (Z.of_nat (8 * length l)) with (8 * len l) by lia. done.
Qed.

Lemma crc64_base_range seed bytes :
  0 <= seed < 2 ^ 64 -> Forall is_byte bytes -> 0 <= foldl crc64_round seed bytes < 2 ^ 64.
Proof.
  intros Hs H. revert seed Hs. induction H as [|b l Hb Hl IH]; intros crc Hc; [done|]. cbn [foldl]. apply IH. by apply crc64_round_range.
Qed.

(** * Properties *)

(** The table-driven checksums of a buffer list are the bit-serial CRC-32 and CRC-64
    of the bytes that were consumed, in the order of the buffers, however the bytes are
    split into buffers; when fewer bytes were consumed than the buffers hold, only those
    count. *)
Theorem crc_buffer_list l n seed32 seed64 :
  0 <= n -> Forall flat_ok l -> 0 <= seed32 < 2 ^ 32 -> 0 <= seed64 < 2 ^ 64 ->
  dcCalculateCrc32 l n seed32 = crc32_serial seed32 (take (Z.to_nat n) (buffers_bytes l)) /\
  dcCalculateCrc64 l n seed64 = crc64_serial seed64 (take (Z.to_nat n) (buffers_bytes l)).
Proof.
  intros Hn Hl H32 H64. split.
  - apply (crc_buffers_spec _ _ (fun c => 0 <= c < 2 ^ 32)); try done.
    + intros. by apply crc32_serial_base.
    + intros. apply not32_range.
    + intros crc Hc. by apply not32_involutive.
    + apply crc32_serial_app.
  - apply (crc_buffers_spec _ _ (fun c => 0 <= c < 2 ^ 64)); try done.
    + intros. by apply crc64_serial_base.
    + intros crc bytes Hc Hb. rewrite <- (firstn_all bytes), <- (Nat2Z.id (length bytes)), <- crc64_serial_base by done.
      unfold crc64_ecma_norm_base. rewrite Nat2Z.id, firstn_all. by apply crc64_base_range.
    + apply crc64_serial_app.
Qed.

Lemma crc_buffer_list_witness :
  dcCalculateCrc32 [mk_flat 4 [49; 50; 51; 52]; mk_flat 5 [53; 54; 55; 56; 57]] 9 0 = 0xCBF43926 /\
  crc32_serial 0 [49; 50; 51; 52; 53; 54; 55; 56; 57] = 0xCBF43926.
Proof.
  assert (W : Forall flat_ok [mk_flat 4 [49; 50; 51; 52]; mk_flat 5 [53; 54; 55; 56; 57]])
    by (repeat constructor; simpl; unfold is_byte; lia).
  destruct (crc_buffer_list _ 9 0 0 ltac:(lia) W ltac:(lia) ltac:(lia)) as [E0 _]. rewrite E0. split; vm_compute; reflexivity.
Defined.

(** CRC-32 detects every burst error of at most 32 bits: two buffers that differ
    only within four consecutive bytes have different checksums. *)
Theorem crc32_detects_burst seed p q m1 m2 :
  Forall is_byte p -> Forall is_byte q -> Forall is_byte m1 -> Forall is_byte m2 ->
  length m1 = length m2 -> (length m1 <= 4)%nat -> m1 <> m2 ->
  crc32_gzip_refl_base seed (p ++ m1 ++ q) (len (p ++ m1 ++ q)) <>
  crc32_gzip_refl_base seed (p ++ m2 ++ q) (len (p ++ m2 ++ q)).
Proof.
  intros Hp Hq H1 H2 Hl H4 Hne E0. apply Hne, le_value_inj; try done.
  rewrite !crc32_serial_base, !Nat2Z.id, !firstn_all in E0 by (repeat apply Forall_app_2; done).
  unfold crc32_serial in E0. rewrite !map_app, !concat_app, !foldl_app in E0.
  set (s := foldl crc32_bit (not32 seed) (concat (map (lsb_bits 8) p))) in E0.
  assert (Hs : 0 <= s < 2 ^ 32) by (apply crc32_bits_range, not32_range). clearbody s.
  apply (f_equal not32) in E0. rewrite !not32_involutive in E0 by (repeat apply crc32_bits_range; done).
  apply crc32_bits_inj in E0; [|by apply crc32_bits_range..].
  rewrite !crc32_bytes_iter, <- Hl in E0 by done.
  assert (R : forall m, Forall is_byte m -> length m = length m1 -> 0 <= le_value m < 2 ^ 32).
  { intros m Hm Em. pose proof (le_value_range m Hm). pose proof (Z.pow_le_mono_r 2 (8 * len m) 32 ltac:(lia) ltac:(lia)). lia. }
  apply iter_shift32_inj in E0; [|apply lxor_range; [lia|done|by apply R]..].
  rewrite !(Z.lxor_comm s) in E0. by apply lxor_cancel in E0.
Qed.

Lemma crc32_detects_burst_witness :
  crc32_gzip_refl_base 0 [1; 2; 3] 3 <> crc32_gzip_refl_base 0 [1; 9; 3] 3.
Proof.
  assert (B : forall b, 0 <= b < 256 -> Forall is_byte [b]) by (intros b Hb; by apply Forall_singleton).
  apply (crc32_detects_burst 0 [1] [3] [2] [9]); [apply B; lia..|reflexivity|simpl; lia|discriminate].
Defined.
