(* ===== verification/DcFormat.v ===== *)
(** Headers and footers of compressed streams ([dc_header_footer.c],
    [dc_header_footer_lz4.c], [dc_ns_header_footer.c]): gzip (RFC 1952), zlib (RFC 1950)
    and LZ4 frames.

    A destination buffer is a [CpaFlatBuffer] of [Checksum].  The calls are modelled with
    the parameter checks compiled in ([ICP_PARAM_CHECK]); [null] says whether one of the
    pointers they check is [NULL].  Readers of the three formats, written from their
    specifications, get back what the calls put into the buffer. *)

From S2P Require Import Prelude Checksum.

(** * Data *)

(** [CpaDcCompType], [CpaDcChecksum], [CpaDcSessionDir] *)
Inductive CpaDcCompType := CPA_DC_DEFLATE | CPA_DC_LZ4 | CPA_DC_LZ4S.
Inductive CpaDcChecksum := CPA_DC_NONE | CPA_DC_CRC32 | CPA_DC_ADLER32 | CPA_DC_CRC32_ADLER32 | CPA_DC_XXHASH32.
Inductive CpaDcSessionDir := CPA_DC_DIR_COMPRESS | CPA_DC_DIR_DECOMPRESS | CPA_DC_DIR_COMBINED.
#[global] Instance CpaDcCompType_dec : EqDecision CpaDcCompType.
Proof. solve_decision. Defined.
#[global] Instance CpaDcChecksum_dec : EqDecision CpaDcChecksum.
Proof. solve_decision. Defined.
#[global] Instance CpaDcSessionDir_dec : EqDecision CpaDcSessionDir.
Proof. solve_decision. Defined.

Definition CPA_DC_L1 : Z := 1.
Definition CPA_DC_L12 : Z := 12.
Definition CPA_DC_LZ4_MAX_BLOCK_SIZE_64K : Z := 0.
Definition CPA_DC_LZ4_MAX_BLOCK_SIZE_4M : Z := 3.

(** The fields of [dc_session_desc_t] that are read here *)
Record dc_session_desc := mk_dc_session {
  compType : CpaDcCompType; checksumType : CpaDcChecksum; sessDirection : CpaDcSessionDir;
  compLevel : Z; lz4BlockMaxSize : Z; lz4BlockIndependence : Z; cumulativeConsumedBytes : Z
}.

(** The fields of [CpaDcNsSetupData] that are read here *)
Record CpaDcNsSetupData := mk_ns_setup {
  ns_compType : CpaDcCompType; ns_checksum : CpaDcChecksum; ns_compLevel : Z;
  ns_lz4BlockMaxSize : Z; ns_lz4BlockIndependence : Z
}.

(** [CpaDcRqResults] *)
Record CpaDcRqResults := mk_results { produced : Z; checksum : Z }.
#[global] Instance eta_results : Eta CpaDcRqResults := fun r => mk_results (produced r) (checksum r).

Definition DC_ZLIB_HEADER_SIZE : Z := 2.
Definition DC_GZIP_HEADER_SIZE : Z := 10.
Definition DC_ZLIB_FOOTER_SIZE : Z := 4.
Definition DC_GZIP_FOOTER_SIZE : Z := 8.
Definition DC_GZIP_ID1 : Z := 0x1f.
Definition DC_GZIP_ID2 : Z := 0x8b.
Definition DC_GZIP_FILESYSTYPE : Z := 0x03.
Definition DC_ZLIB_WINDOWSIZE_OFFSET : Z := 4.
Definition DC_ZLIB_FLEVEL_OFFSET : Z := 6.
Definition DC_ZLIB_HEADER_OFFSET : Z := 31.
Definition DC_ZLIB_CM_DEFLATE : Z := 8.
Definition DC_32K_WINDOW_SIZE : Z := 7.
Definition DC_GZIP_FAST_COMP : Z := 4.
Definition DC_GZIP_MAX_COMP : Z := 2.
Definition DC_LZ4_HEADER_SIZE : Z := 7.
Definition DC_LZ4_FOOTER_SIZE : Z := 8.
Definition DC_LZ4_FH_ID : Z := 0x184D2204.
Definition DC_LZ4_FH_FLG_VERSION : Z := 0x1.
Definition DC_LZ4_FH_MAX_BLK_SIZE_ENUM_MIN : Z := 4.
Definition DC_LZ4_FF_END_MARK : Z := 0x0.

(** * Writing *)

(** The bytes [bs] at the start of the buffer *)
Definition put_bytes (b : CpaFlatBuffer) (bs : list Z) : CpaFlatBuffer :=
  mk_flat (dataLenInBytes b) (bs ++ drop (length bs) (pData b)).

(** The bytes of a word, lowest first and highest first *)
Definition le32 (v : Z) : list Z :=
  [u8 v; u8 (Z.shiftr v 8); u8 (Z.shiftr v (2 * 8)); u8 (Z.shiftr v (3 * 8))].
Definition be32 (v : Z) : list Z :=
  [u8 (Z.shiftr v (3 * 8)); u8 (Z.shiftr v (2 * 8)); u8 (Z.shiftr v 8); u8 v].

(** The level that a zlib header tells *)
Definition zlib_level (level : Z) : Z :=
  if level =? CPA_DC_L1 then 0 else if level =? 2 then 1 else if level =? 3 then 2 else 3.

(** [lz4_hdr_flag_byte] and the byte after it, as the compiler lays out the bit fields *)
Definition lz4_flag_byte (dict_id cnt_cksum cnt_size blk_cksum blk_indep version : Z) : Z :=
  Z.lor (Z.land dict_id 1) (Z.lor (Z.shiftl (Z.land cnt_cksum 1) 2) (Z.lor (Z.shiftl (Z.land cnt_size 1) 3)
    (Z.lor (Z.shiftl (Z.land blk_cksum 1) 4) (Z.lor (Z.shiftl (Z.land blk_indep 1) 5) (Z.shiftl (Z.land version 3) 6))))).
Definition lz4_bd_byte (blk_maxsize : Z) : Z := Z.shiftl (Z.land blk_maxsize 7) 4.

(** [dc_lz4_generate_header]: the status, the buffer and what is written to [*count] *)
Definition dc_lz4_generate_header (null : bool) (dest_buff : CpaFlatBuffer) (max_block_size block_indep : Z)
    : Z * CpaFlatBuffer * option Z :=
  if (block_indep <? 0) || (2 <=? block_indep) then (CPA_STATUS_INVALID_PARAM, dest_buff, None)
  else if null then (CPA_STATUS_INVALID_PARAM, dest_buff, None)
  else if (max_block_size <? CPA_DC_LZ4_MAX_BLOCK_SIZE_64K) || (CPA_DC_LZ4_MAX_BLOCK_SIZE_4M + 1 <=? max_block_size)
  then (CPA_STATUS_INVALID_PARAM, dest_buff, None)
  else if dataLenInBytes dest_buff <? DC_LZ4_HEADER_SIZE then (CPA_STATUS_INVALID_PARAM, dest_buff, None)
  else
    let flag := lz4_flag_byte 0 1 0 0 block_indep DC_LZ4_FH_FLG_VERSION in
    let bd := lz4_bd_byte (max_block_size + DC_LZ4_FH_MAX_BLK_SIZE_ENUM_MIN) in
    let '(status, hdr_cksum) := dcXxhash32Lz4HdrChecksum [flag; bd] 2 in
    if negb (status =? CPA_STATUS_SUCCESS)
    then (CPA_STATUS_FAIL, put_bytes dest_buff (le32 DC_LZ4_FH_ID ++ [flag; bd; 0]), None)
    else (CPA_STATUS_SUCCESS, put_bytes dest_buff (le32 DC_LZ4_FH_ID ++ [flag; bd; hdr_cksum]), Some DC_LZ4_HEADER_SIZE).

(** [dc_lz4_generate_footer] *)
Definition dc_lz4_generate_footer (null : bool) (dest_buff : CpaFlatBuffer) (pRes : CpaDcRqResults)
    : Z * CpaFlatBuffer :=
  if null then (CPA_STATUS_INVALID_PARAM, dest_buff)
  else if dataLenInBytes dest_buff <? DC_LZ4_FOOTER_SIZE then (CPA_STATUS_INVALID_PARAM, dest_buff)
  else (CPA_STATUS_SUCCESS, put_bytes dest_buff (le32 DC_LZ4_FF_END_MARK ++ le32 (checksum pRes))).

(** * With a session *)

Definition cpaDcGenerateHeader (null : bool) (pSessionDesc : dc_session_desc) (pDestBuff : CpaFlatBuffer)
    : Z * CpaFlatBuffer * option Z :=
  if null then (CPA_STATUS_INVALID_PARAM, pDestBuff, None)
  else if decide (sessDirection pSessionDesc = CPA_DC_DIR_DECOMPRESS) then (CPA_STATUS_INVALID_PARAM, pDestBuff, None)
  else
    match compType pSessionDesc with
    | CPA_DC_DEFLATE =>
        match checksumType pSessionDesc with
        | CPA_DC_CRC32 =>
            if dataLenInBytes pDestBuff <? DC_GZIP_HEADER_SIZE then (CPA_STATUS_INVALID_PARAM, pDestBuff, None)
            else
              (CPA_STATUS_SUCCESS,
               put_bytes pDestBuff [DC_GZIP_ID1; DC_GZIP_ID2; 0x08; 0x00; 0x00; 0x00; 0x00; 0x00;
                 if compLevel pSessionDesc =? CPA_DC_L1 then DC_GZIP_FAST_COMP else DC_GZIP_MAX_COMP;
                 DC_GZIP_FILESYSTYPE],
               Some DC_GZIP_HEADER_SIZE)
        | CPA_DC_ADLER32 =>
            if dataLenInBytes pDestBuff <? DC_ZLIB_HEADER_SIZE then (CPA_STATUS_INVALID_PARAM, pDestBuff, None)
            else
              let header := u16 (Z.shiftl (DC_ZLIB_CM_DEFLATE + Z.shiftl DC_32K_WINDOW_SIZE DC_ZLIB_WINDOWSIZE_OFFSET) 8) in
              let header := u16 (Z.lor header (Z.shiftl (zlib_level (compLevel pSessionDesc)) DC_ZLIB_FLEVEL_OFFSET)) in
              let header := u16 (header + (DC_ZLIB_HEADER_OFFSET - header mod DC_ZLIB_HEADER_OFFSET)) in
              (CPA_STATUS_SUCCESS, put_bytes pDestBuff [u8 (Z.shiftr header 8); u8 header], Some DC_ZLIB_HEADER_SIZE)
        | _ => (CPA_STATUS_SUCCESS, pDestBuff, Some 0)
        end
    | CPA_DC_LZ4 => dc_lz4_generate_header false pDestBuff (lz4BlockMaxSize pSessionDesc) (lz4BlockIndependence pSessionDesc)
    | _ => (CPA_STATUS_SUCCESS, pDestBuff, Some 0)
    end.

Definition cpaDcGenerateFooter (null : bool) (pSessionDesc : dc_session_desc) (pDestBuff : CpaFlatBuffer)
    (pRes : CpaDcRqResults) : Z * CpaFlatBuffer * CpaDcRqResults :=
  if null then (CPA_STATUS_INVALID_PARAM, pDestBuff, pRes)
  else if decide (sessDirection pSessionDesc = CPA_DC_DIR_DECOMPRESS) then (CPA_STATUS_INVALID_PARAM, pDestBuff, pRes)
  else
    match compType pSessionDesc with
    | CPA_DC_DEFLATE =>
        match checksumType pSessionDesc with
        | CPA_DC_CRC32 =>
            if dataLenInBytes pDestBuff <? DC_GZIP_FOOTER_SIZE then (CPA_STATUS_INVALID_PARAM, pDestBuff, pRes)
            else
              (CPA_STATUS_SUCCESS,
               put_bytes pDestBuff (le32 (checksum pRes) ++ le32 (cumulativeConsumedBytes pSessionDesc)),
               pRes <| produced := u32 (produced pRes + DC_GZIP_FOOTER_SIZE) |>)
        | CPA_DC_ADLER32 =>
            if dataLenInBytes pDestBuff <? DC_ZLIB_FOOTER_SIZE then (CPA_STATUS_INVALID_PARAM, pDestBuff, pRes)
            else
              (CPA_STATUS_SUCCESS, put_bytes pDestBuff (be32 (checksum pRes)),
               pRes <| produced := u32 (produced pRes + DC_ZLIB_FOOTER_SIZE) |>)
        | _ => (CPA_STATUS_SUCCESS, pDestBuff, pRes)
        end
    | CPA_DC_LZ4 =>
        let '(ret, pDestBuff) := dc_lz4_generate_footer false pDestBuff pRes in
        if negb (ret =? CPA_STATUS_SUCCESS) then (ret, pDestBuff, pRes)
        else (CPA_STATUS_SUCCESS, pDestBuff, pRes <| produced := u32 (produced pRes + DC_LZ4_FOOTER_SIZE) |>)
    | _ => (CPA_STATUS_SUCCESS, pDestBuff, pRes)
    end.

(** * Without a session *)

(** The checks of the algorithm and the checksum, which both calls make *)
Definition ns_type_ok (pSetupData : CpaDcNsSetupData) : bool :=
  match ns_compType pSetupData, ns_checksum pSetupData with
  | CPA_DC_DEFLATE, CPA_DC_CRC32 | CPA_DC_DEFLATE, CPA_DC_ADLER32 | CPA_DC_LZ4, CPA_DC_XXHASH32 => true
  | _, _ => false
  end.

Definition cpaDcNsGenerateHeader (null : bool) (pSetupData : CpaDcNsSetupData) (pDestBuff : CpaFlatBuffer)
    : Z * CpaFlatBuffer * option Z :=
  let invalid := (CPA_STATUS_INVALID_PARAM, pDestBuff, None) in
  if null then invalid
  else if negb (ns_type_ok pSetupData) then invalid
  else if (ns_compLevel pSetupData <? CPA_DC_L1) || (CPA_DC_L12 <? ns_compLevel pSetupData) then invalid
  else
    match ns_checksum pSetupData with
    | CPA_DC_CRC32 =>
        if dataLenInBytes pDestBuff <? DC_GZIP_HEADER_SIZE then invalid
        else
          (CPA_STATUS_SUCCESS,
           put_bytes pDestBuff [DC_GZIP_ID1; DC_GZIP_ID2; 0x08; 0; 0; 0; 0; 0;
             if ns_compLevel pSetupData =? CPA_DC_L1 then DC_GZIP_FAST_COMP else DC_GZIP_MAX_COMP;
             DC_GZIP_FILESYSTYPE],
           Some DC_GZIP_HEADER_SIZE)
    | CPA_DC_ADLER32 =>
        if dataLenInBytes pDestBuff <? DC_ZLIB_HEADER_SIZE then invalid
        else
          let compCmf := u8 (DC_ZLIB_CM_DEFLATE + Z.shiftl DC_32K_WINDOW_SIZE DC_ZLIB_WINDOWSIZE_OFFSET) in
          let compFlags := u8 (Z.shiftl (zlib_level (ns_compLevel pSetupData)) DC_ZLIB_FLEVEL_OFFSET) in
          let compFlags := u8 (Z.lor compFlags
            (DC_ZLIB_HEADER_OFFSET - (Z.shiftl compCmf 8 + compFlags) mod DC_ZLIB_HEADER_OFFSET)) in
          (CPA_STATUS_SUCCESS, put_bytes pDestBuff [compCmf; compFlags], Some DC_ZLIB_HEADER_SIZE)
    | CPA_DC_XXHASH32 =>
        if dataLenInBytes pDestBuff <? DC_LZ4_HEADER_SIZE then invalid
        else dc_lz4_generate_header false pDestBuff (ns_lz4BlockMaxSize pSetupData) (ns_lz4BlockIndependence pSetupData)
    | _ => invalid
    end.

Definition ns_footer_size (c : CpaDcChecksum) : option Z :=
  match c with
  | CPA_DC_CRC32 => Some DC_GZIP_FOOTER_SIZE
  | CPA_DC_ADLER32 => Some DC_ZLIB_FOOTER_SIZE
  | CPA_DC_XXHASH32 => Some DC_LZ4_FOOTER_SIZE
  | _ => None
  end.

Definition cpaDcNsGenerateFooter (null : bool) (pSetupData : CpaDcNsSetupData) (totalLength : Z)
    (pDestBuff : CpaFlatBuffer) (pResults : CpaDcRqResults) : Z * CpaFlatBuffer * CpaDcRqResults :=
  let invalid := (CPA_STATUS_INVALID_PARAM, pDestBuff, pResults) in
  if null then invalid
  else if negb (ns_type_ok pSetupData) then invalid
  else
    match ns_footer_size (ns_checksum pSetupData) with
    | None => invalid
    | Some footerSize =>
        if dataLenInBytes pDestBuff <? footerSize then invalid
        else if 2 ^ 32 - 1 - produced pResults <? footerSize then invalid
        else
          let pResults' := pResults <| produced := u32 (produced pResults + footerSize) |> in
          match ns_checksum pSetupData with
          | CPA_DC_CRC32 =>
              (CPA_STATUS_SUCCESS, put_bytes pDestBuff (le32 (checksum pResults) ++ le32 totalLength), pResults')
          | CPA_DC_ADLER32 => (CPA_STATUS_SUCCESS, put_bytes pDestBuff (be32 (checksum pResults)), pResults')
          | _ =>
              let '(ret, pDestBuff) := dc_lz4_generate_footer false pDestBuff pResults in
              if negb (ret =? CPA_STATUS_SUCCESS) then (ret, pDestBuff, pResults)
              else (CPA_STATUS_SUCCESS, pDestBuff, pResults')
          end
    end.

(** * Readers of the formats *)

(** What a header tells: for gzip the extra flags and the system (RFC 1952), for zlib the
    window size and the level (RFC 1950), for an LZ4 frame the independence of the blocks,
    whether there is a content checksum, and the code of the maximum block size *)
Inductive stream_header :=
| GzipHeader (xfl os : Z)
| ZlibHeader (cinfo flevel : Z)
| Lz4Header (indep cnt_cksum maxsize : Z)
| NoHeader.
#[global] Instance stream_header_dec : EqDecision stream_header.
Proof. solve_decision. Defined.

Definition read_gzip_header (l : list Z) : option stream_header :=
  match l with
  | [id1; id2; cm; flg; m0; m1; m2; m3; xfl; os] =>
      if (id1 =? 31) && (id2 =? 139) && (cm =? 8) && (flg =? 0) then Some (GzipHeader xfl os) else None
  | _ => None
  end.
Definition read_zlib_header (l : list Z) : option stream_header :=
  match l with
  | [cmf; flg] =>
      if ((256 * cmf + flg) mod 31 =? 0) && (cmf mod 16 =? 8) && (cmf / 16 <=? 7) && negb (Z.testbit flg 5)
      then Some (ZlibHeader (cmf / 16) (flg / 64)) else None
  | _ => None
  end.
Definition read_lz4_header (l : list Z) : option stream_header :=
  match l with
  | [m0; m1; m2; m3; flg; bd; hc] =>
      if (le_value [m0; m1; m2; m3] =? 407708164) && (flg / 64 =? 1) && negb (Z.testbit flg 1) && negb (Z.testbit flg 0) &&
         negb (Z.testbit flg 3) && negb (Z.testbit flg 4) && (bd mod 16 =? 0) && negb (Z.testbit bd 7) &&
         (hc =? Z.shiftr (calculateXxh32 [flg; bd] 2 0).2 8 mod 256)
      then Some (Lz4Header (flg / 32 mod 2) (flg / 4 mod 2) (bd / 16)) else None
  | _ => None
  end.

(** What a footer tells: the checksum and, in gzip, the length of the data *)
Definition read_gzip_footer (l : list Z) : option (Z * Z) :=
  if decide (length l = 8%nat) then Some (le_value (take 4 l), le_value (drop 4 l)) else None.
Definition read_zlib_footer (l : list Z) : option Z :=
  if decide (length l = 4%nat) then Some (le_value (rev l)) else None.
Definition read_lz4_footer (l : list Z) : option Z :=
  if decide (length l = 8%nat /\ le_value (take 4 l) = 0) then Some (le_value (drop 4 l)) else None.

(** * Proofs *)

Lemma le32_value v : le_value (le32 v) = v mod 2 ^ 32.
Proof.
  unfold le32, u8. cbn [le_value]. rewrite !Z.shiftr_div_pow2 by lia. change (2 * 8) with 16. change (3 * 8) with 24.
  replace (v / 2 ^ 16) with (v / 2 ^ 8 / 2 ^ 8) by (rewrite Z.div_div by lia; done).
  replace (v / 2 ^ 24) with (v / 2 ^ 8 / 2 ^ 8 / 2 ^ 8) by (rewrite !Z.div_div by lia; done).
  rewrite (Z.mod_eq v (2 ^ 32)) by lia.
  replace (v / 2 ^ 32) with (v / 2 ^ 8 / 2 ^ 8 / 2 ^ 8 / 2 ^ 8) by (rewrite !Z.div_div by lia; done).
  rewrite !Z.mod_eq by lia. lia.
Qed.

Lemma be32_le32 v : rev (be32 v) = le32 v.
Proof. done. Qed.

Lemma put_bytes_take b bs n : n = length bs -> take n (pData (put_bytes b bs)) = bs.
Proof. intros ->. unfold put_bytes. cbn [pData]. by rewrite take_app_length. Qed.

Lemma put_bytes_drop b bs n : n = length bs -> drop n (pData (put_bytes b bs)) = drop n (pData b).
Proof. intros ->. unfold put_bytes. cbn [pData]. by rewrite drop_app_length. Qed.

Lemma zlib_level_cases l : zlib_level l = 0 \/ zlib_level l = 1 \/ zlib_level l = 2 \/ zlib_level l = 3.
Proof. unfold zlib_level. repeat case_match; auto. Qed.

(** The header that [dc_lz4_generate_header] writes *)
Lemma lz4_header_spec b m i :
  0 <= m <= 3 -> 0 <= i <= 1 -> DC_LZ4_HEADER_SIZE <= dataLenInBytes b ->
  exists h, dc_lz4_generate_header false b m i = (CPA_STATUS_SUCCESS, put_bytes b h, Some DC_LZ4_HEADER_SIZE) /\
    length h = 7%nat /\ read_lz4_header h = Some (Lz4Header i 1 (m + 4)).
Proof.
  intros Hm Hi Hb. assert (M : m = 0 \/ m = 1 \/ m = 2 \/ m = 3) by lia. assert (I : i = 0 \/ i = 1) by lia.
  unfold dc_lz4_generate_header. rewrite (proj2 (Z.ltb_ge _ _) Hb).
  set (flag := lz4_flag_byte 0 1 0 0 i DC_LZ4_FH_FLG_VERSION). set (bd := lz4_bd_byte (m + DC_LZ4_FH_MAX_BLK_SIZE_ENUM_MIN)).
  exists (le32 DC_LZ4_FH_ID ++ [flag; bd; (dcXxhash32Lz4HdrChecksum [flag; bd] 2).2]).
  assert (K : (dcXxhash32Lz4HdrChecksum [flag; bd] 2).1 = CPA_STATUS_SUCCESS) by reflexivity.
  destruct (dcXxhash32Lz4HdrChecksum [flag; bd] 2) as [st ck] eqn:E. cbn [fst snd] in *. subst st.
  split; [by destruct I as [->| ->], M as [->|[->|[->| ->]]]|]. split; [done|].
  apply (f_equal snd) in E. cbn [snd] in E. subst ck.
  destruct I as [->| ->], M as [->|[->|[->| ->]]]; vm_compute; reflexivity.
Qed.

(** The most common header of an LZ4 file *)
Lemma lz4_known_header :
  pData (dc_lz4_generate_header false (mk_flat 7 (replicate 7 0)) 0 1).1.2 = [0x04; 0x22; 0x4D; 0x18; 0x64; 0x40; 0xA7].
Proof. vm_compute. reflexivity. Qed.

(** The zlib header, in the two ways it is computed *)
Definition zlib_header (l : Z) : list Z :=
  let header := u16 (Z.lor 0x7800 (Z.shiftl l 6)) in
  let header := u16 (header + (31 - header mod 31)) in [u8 (Z.shiftr header 8); u8 header].

Lemma zlib_header_spec l : l = 0 \/ l = 1 \/ l = 2 \/ l = 3 ->
  read_zlib_header (zlib_header l) = Some (ZlibHeader 7 l) /\
  zlib_header l = (let flags := u8 (Z.shiftl l 6) in
    [u8 (8 + Z.shiftl 7 4); u8 (Z.lor flags (31 - (Z.shiftl (u8 (8 + Z.shiftl 7 4)) 8 + flags) mod 31))]).
Proof. intros [->|[->|[->| ->]]]; split; vm_compute; reflexivity. Qed.

(** * Properties *)

(** What the header of a session should tell *)
Definition session_header (s : dc_session_desc) : stream_header :=
  match compType s, checksumType s with
  | CPA_DC_DEFLATE, CPA_DC_CRC32 => GzipHeader (if compLevel s =? CPA_DC_L1 then 4 else 2) 3
  | CPA_DC_DEFLATE, CPA_DC_ADLER32 => ZlibHeader 7 (zlib_level (compLevel s))
  | CPA_DC_LZ4, _ => Lz4Header (lz4BlockIndependence s) 1 (lz4BlockMaxSize s + 4)
  | _, _ => NoHeader
  end.
Definition read_header (h : stream_header) (l : list Z) : option stream_header :=
  match h with
  | GzipHeader _ _ => read_gzip_header l
  | ZlibHeader _ _ => read_zlib_header l
  | Lz4Header _ _ _ => read_lz4_header l
  | NoHeader => if decide (l = []) then Some NoHeader else None
  end.

(** The setup data of the calls without a session that match a session *)
Definition ns_setup (s : dc_session_desc) : CpaDcNsSetupData :=
  mk_ns_setup (compType s) (checksumType s) (compLevel s) (lz4BlockMaxSize s) (lz4BlockIndependence s).

Record session_ok (s : dc_session_desc) : Prop := {
  so_dir : sessDirection s <> CPA_DC_DIR_DECOMPRESS;
  so_level : CPA_DC_L1 <= compLevel s <= CPA_DC_L12;
  so_block : 0 <= lz4BlockMaxSize s <= 3;
  so_indep : 0 <= lz4BlockIndependence s <= 1
}.

Lemma put_header b bs h n :
  n = len bs -> n <= dataLenInBytes b -> read_header h bs = Some h ->
  exists n', Some n = Some n' /\ 0 <= n' <= dataLenInBytes b /\
    drop (Z.to_nat n') (pData (put_bytes b bs)) = drop (Z.to_nat n') (pData b) /\
    read_header h (take (Z.to_nat n') (pData (put_bytes b bs))) = Some h.
Proof.
  intros -> Hn Hr. exists (len bs). rewrite Nat2Z.id, put_bytes_drop, put_bytes_take by done. split_and!; try done; lia.
Qed.

(** C28. The header that is generated for a compression session, in a buffer of at least ten
    bytes, is one of its format that tells what the session says: a reader of gzip, zlib or
    LZ4 gets back what that format says of the level, or the block size and the block
    independence, that the session was set up with; the count is the length of the header (0 when the session's format has
    none, as for deflate without a checksum), and the rest of the buffer is untouched.  The
    call without a session gives the same result for the same parameters when these are
    deflate with CRC32 or Adler-32 or LZ4 with XXH32, and refuses them otherwise, also where
    the session's header is the empty one. *)
Theorem dc_header_roundtrip s b :
  session_ok s -> DC_GZIP_HEADER_SIZE <= dataLenInBytes b -> dataLenInBytes b <= len (pData b) ->
  let '(status, b', count) := cpaDcGenerateHeader false s b in
  status = CPA_STATUS_SUCCESS /\
  (exists n, count = Some n /\ 0 <= n <= dataLenInBytes b /\
    drop (Z.to_nat n) (pData b') = drop (Z.to_nat n) (pData b) /\
    read_header (session_header s) (take (Z.to_nat n) (pData b')) = Some (session_header s)) /\
  cpaDcNsGenerateHeader false (ns_setup s) b =
    match compType s, checksumType s with
    | CPA_DC_DEFLATE, CPA_DC_CRC32 | CPA_DC_DEFLATE, CPA_DC_ADLER32 | CPA_DC_LZ4, CPA_DC_XXHASH32 => (status, b', count)
    | _, _ => (CPA_STATUS_INVALID_PARAM, b, None)
    end.
Proof.
  intros [D L B I] Hb Hd. change DC_GZIP_HEADER_SIZE with 10 in Hb.
  assert (Hl : ((compLevel s <? CPA_DC_L1) || (CPA_DC_L12 <? compLevel s)) = false)
    by (apply orb_false_iff; split; apply Z.ltb_ge; lia).
  unfold cpaDcGenerateHeader, cpaDcNsGenerateHeader. rewrite decide_False by done.
  cbn [ns_setup ns_compLevel ns_checksum ns_compType ns_lz4BlockMaxSize ns_lz4BlockIndependence]. rewrite Hl.
  rewrite !(proj2 (Z.ltb_ge _ _)) by (unfold DC_GZIP_HEADER_SIZE, DC_ZLIB_HEADER_SIZE, DC_LZ4_HEADER_SIZE; lia).
  unfold session_header, ns_type_ok, ns_setup. cbn [ns_compType ns_checksum].
  assert (Nil : exists n, Some 0 = Some n /\ 0 <= n <= dataLenInBytes b /\ drop (Z.to_nat n) (pData b) = drop (Z.to_nat n) (pData b) /\
    read_header NoHeader (take (Z.to_nat n) (pData b)) = Some NoHeader) by (exists 0; split_and!; try done; lia).
  destruct (lz4_header_spec b (lz4BlockMaxSize s) (lz4BlockIndependence s) B I) as (h & E & Hlen & Hh);
    [unfold DC_LZ4_HEADER_SIZE; lia|]. rewrite E.
  destruct (compType s); [destruct (checksumType s)|..].
  - by split.
  - split; [done|]. split; [|done]. apply put_header; [done|done|]. by destruct (compLevel s =? CPA_DC_L1).
  - split; [done|]. destruct (zlib_header_spec (zlib_level (compLevel s)) (zlib_level_cases _)) as [Hz Ez].
    split; [apply put_header; [done|unfold DC_ZLIB_HEADER_SIZE; lia|exact Hz]|].
    cbv zeta. f_equal. f_equal. f_equal. symmetry. exact Ez.
  - by split.
  - by split.
  - split; [done|]. split; [apply put_header; [rewrite Hlen; done|unfold DC_LZ4_HEADER_SIZE; lia|exact Hh]|].
    by destruct (checksumType s).
  - split; [done|]. split; [exact Nil|]. by destruct (checksumType s).
Qed.

Definition zlib_session : dc_session_desc := mk_dc_session CPA_DC_DEFLATE CPA_DC_ADLER32 CPA_DC_DIR_COMPRESS 1 0 1 0.
Definition gzip_session : dc_session_desc := mk_dc_session CPA_DC_DEFLATE CPA_DC_CRC32 CPA_DC_DIR_COMPRESS 1 0 1 (2 ^ 32 + 5).

Lemma zlib_session_ok : session_ok zlib_session.
Proof. split; [discriminate|simpl; unfold CPA_DC_L1, CPA_DC_L12; lia|simpl; lia|simpl; lia]. Qed.
Lemma gzip_session_ok : session_ok gzip_session.
Proof. split; [discriminate|simpl; unfold CPA_DC_L1, CPA_DC_L12; lia|simpl; lia|simpl; lia]. Qed.

Lemma dc_header_roundtrip_witness :
  let '(status, b', count) := cpaDcGenerateHeader false zlib_session (mk_flat 12 (replicate 12 0)) in
  status = CPA_STATUS_SUCCESS /\ count = Some 2 /\ take 2 (pData b') = [0x78; 0x01].
Proof.
  pose proof (dc_header_roundtrip zlib_session (mk_flat 12 (replicate 12 0)) zlib_session_ok) as H. cbn [dataLenInBytes pData] in H.
  specialize (H ltac:(unfold DC_GZIP_HEADER_SIZE; lia) ltac:(rewrite length_replicate; lia)).
  assert (E : cpaDcGenerateHeader false zlib_session (mk_flat 12 (replicate 12 0)) =
    (CPA_STATUS_SUCCESS, mk_flat 12 ([0x78; 0x01] ++ replicate 10 0), Some 2)) by (vm_compute; reflexivity).
  rewrite E in H |- *. destruct H as (H & _). split; [exact H|]. split; reflexivity.
Defined.

(** The footer of a session, if there is one: the checksum and, for gzip, the length *)
Definition read_footer (s : dc_session_desc) (l : list Z) : option (Z * option Z) :=
  match compType s, checksumType s with
  | CPA_DC_DEFLATE, CPA_DC_CRC32 => (fun '(c, n) => (c, Some n)) <$> read_gzip_footer l
  | CPA_DC_DEFLATE, CPA_DC_ADLER32 => (fun c => (c, None)) <$> read_zlib_footer l
  | CPA_DC_LZ4, _ => (fun c => (c, None)) <$> read_lz4_footer l
  | _, _ => None
  end.
Definition footer_size (s : dc_session_desc) : Z :=
  match compType s, checksumType s with
  | CPA_DC_DEFLATE, CPA_DC_CRC32 | CPA_DC_LZ4, _ => 8
  | CPA_DC_DEFLATE, CPA_DC_ADLER32 => 4
  | _, _ => 0
  end.

Lemma put_footer b bs n (P : list Z -> Prop) :
  n = length bs -> P bs ->
  P (take n (pData (put_bytes b bs))) /\ drop n (pData (put_bytes b bs)) = drop n (pData b).
Proof. intros -> H. by rewrite put_bytes_take, put_bytes_drop by done. Qed.

Lemma gzip_footer_read c n : read_gzip_footer (le32 c ++ le32 n) = Some (c mod 2 ^ 32, n mod 2 ^ 32).
Proof.
  unfold read_gzip_footer. rewrite decide_True by done.
  change (take 4 (le32 c ++ le32 n)) with (le32 c). change (drop 4 (le32 c ++ le32 n)) with (le32 n). by rewrite !le32_value.
Qed.
Lemma zlib_footer_read c : read_zlib_footer (be32 c) = Some (c mod 2 ^ 32).
Proof. unfold read_zlib_footer. rewrite decide_True by done. by rewrite be32_le32, le32_value. Qed.
Lemma lz4_footer_read c : read_lz4_footer (le32 DC_LZ4_FF_END_MARK ++ le32 c) = Some (c mod 2 ^ 32).
Proof.
  unfold read_lz4_footer. rewrite decide_True by (split; reflexivity).
  change (drop 4 (le32 DC_LZ4_FF_END_MARK ++ le32 c)) with (le32 c). by rewrite le32_value.
Qed.

(** The footer that is generated holds the checksum of the results and, for gzip, the
    length of the data modulo [2 ^ 32]: a reader gets them back.  The number of bytes
    produced grows by the length of the footer, the rest of the buffer is untouched, and
    the call without a session does the same. *)
Theorem dc_footer_roundtrip s b r :
  session_ok s -> 8 <= dataLenInBytes b -> 0 <= checksum r < 2 ^ 32 -> 0 <= produced r < 2 ^ 32 - 8 ->
  let '(status, b', r') := cpaDcGenerateFooter false s b r in
  let n := Z.to_nat (footer_size s) in
  status = CPA_STATUS_SUCCESS /\ checksum r' = checksum r /\ produced r' = produced r + footer_size s /\
  drop n (pData b') = drop n (pData b) /\
  (footer_size s <> 0 -> read_footer s (take n (pData b')) =
    Some (checksum r, match checksumType s, compType s with
                      | CPA_DC_CRC32, CPA_DC_DEFLATE => Some (cumulativeConsumedBytes s mod 2 ^ 32) | _, _ => None end)) /\
  (ns_type_ok (ns_setup s) = true ->
   cpaDcNsGenerateFooter false (ns_setup s) (cumulativeConsumedBytes s) b r = (status, b', r')).
Proof.
  intros [D _ _ _] Hb Hc Hp. unfold cpaDcGenerateFooter, cpaDcNsGenerateFooter, dc_lz4_generate_footer. rewrite decide_False by done.
  rewrite !(proj2 (Z.ltb_ge (dataLenInBytes b) _)) by (unfold DC_GZIP_FOOTER_SIZE, DC_ZLIB_FOOTER_SIZE, DC_LZ4_FOOTER_SIZE; lia).
  unfold ns_type_ok, ns_setup, footer_size, read_footer. cbn [ns_compType ns_checksum negb].
  pose proof (Z.mod_small (checksum r) (2 ^ 32) Hc) as Ec.
  assert (Ep : forall k, 0 <= k <= 8 -> u32 (produced r + k) = produced r + k) by (intros k Hk; apply u32_small; lia).
  assert (Eo : forall k, 0 <= k <= 8 -> (2 ^ 32 - 1 - produced r <? k) = false) by (intros k Hk; apply Z.ltb_ge; lia).
  destruct (compType s); [destruct (checksumType s)|..].
  - by rewrite Z.add_0_r.
  - cbn [ns_footer_size]. rewrite !(proj2 (Z.ltb_ge (dataLenInBytes b) _)), Eo by (unfold DC_GZIP_FOOTER_SIZE; lia).
    destruct (put_footer b (le32 (checksum r) ++ le32 (cumulativeConsumedBytes s)) 8 (fun l =>
      ((fun '(c, n) => (c, Some n)) <$> read_gzip_footer l) = Some (checksum r, Some (cumulativeConsumedBytes s mod 2 ^ 32))))
      as [P1 P2]; [done|by rewrite gzip_footer_read, Ec|].
    split_and!; try done. cbn [produced upd]. apply Ep. lia.
  - cbn [ns_footer_size]. rewrite !(proj2 (Z.ltb_ge (dataLenInBytes b) _)), Eo by (unfold DC_ZLIB_FOOTER_SIZE; lia).
    destruct (put_footer b (be32 (checksum r)) 4 (fun l =>
      ((fun c => (c, None)) <$> read_zlib_footer l) = Some (checksum r, @None Z))) as [P1 P2]; [done|by rewrite zlib_footer_read, Ec|].
    split_and!; try done. cbn [produced upd]. apply Ep. lia.
  - by rewrite Z.add_0_r.
  - by rewrite Z.add_0_r.
  - cbn [negb Z.eqb CPA_STATUS_SUCCESS].
    destruct (put_footer b (le32 DC_LZ4_FF_END_MARK ++ le32 (checksum r)) 8 (fun l =>
      ((fun c => (c, None)) <$> read_lz4_footer l) = Some (checksum r, @None Z))) as [P1 P2]; [done|by rewrite lz4_footer_read, Ec|].
    split_and!; try done; [cbn [produced upd]; apply Ep; lia|intros _; by destruct (checksumType s)|].
    destruct (checksumType s); try done. cbn [ns_footer_size].
    by rewrite !(proj2 (Z.ltb_ge (dataLenInBytes b) _)), Eo by (unfold DC_LZ4_FOOTER_SIZE; lia).
  - rewrite Z.add_0_r. split_and!; try done.
Qed.

Lemma dc_footer_roundtrip_witness :
  let '(status, b', r') := cpaDcGenerateFooter false gzip_session (mk_flat 8 (replicate 8 0)) (mk_results 100 0x01020304) in
  produced r' = 108 /\ pData b' = [4; 3; 2; 1; 5; 0; 0; 0].
Proof.
  pose proof (dc_footer_roundtrip gzip_session (mk_flat 8 (replicate 8 0)) (mk_results 100 0x01020304) gzip_session_ok) as H.
  cbn [dataLenInBytes checksum produced] in H. specialize (H ltac:(lia) ltac:(lia) ltac:(lia)).
  assert (E : (cpaDcGenerateFooter false gzip_session (mk_flat 8 (replicate 8 0)) (mk_results 100 0x01020304)).1.2 =
    mk_flat 8 [4; 3; 2; 1; 5; 0; 0; 0]) by (vm_compute; reflexivity).
  destruct (cpaDcGenerateFooter _ _ _ _) as [[st b'] r']. cbn [fst snd] in E. destruct H as (_ & _ & Hp & _).
  split; [exact Hp|]. rewrite E. reflexivity.
Defined.
