(* ===== verification/MemPool.v ===== *)
(** * Memory pools

    The pools of equally sized blocks from which the services take their request
    cookies: [utils/lac_mem_pools.c], the stack of free blocks in
    [utils/lac_lock_free_stack.h], and the allocation wrappers of [include/lac_mem.h].

    This file has the calls as a single thread makes them: creation with the clean-up of a
    creation that fails half way, taking and returning an entry, enabling and disabling,
    destruction.  [PoolSys] has the same code step by step, for threads that interleave.

    A pool header and a block are records in two memories, [hdrs] and [blks], indexed by
    their addresses; [os_mem] and [contig] are the allocations that are live.  What the
    allocators return is an oracle, a list of addresses with 0 for a failure; the
    translation to I/O addresses is the parameter [qaeVirtToPhysNUMA]. *)

From S2P Require Import Prelude.

(** * Data *)

(** [pointer_t]; [lock_free_stack_t] is one of them. *)
Record pointer_t := mk_pointer { ctr : Z; ptr : Z }.

(** [lac_mem_blk_t] *)
Record lac_mem_blk := mk_blk {
  pNext : Z; physDataPtr : Z; pMemAllocPtr : Z; isInUse : bool; pPoolID : Z; opaque : Z
}.
#[global] Instance eta_blk : Eta lac_mem_blk := fun r =>
  mk_blk (pNext r) (physDataPtr r) (pMemAllocPtr r) (isInUse r) (pPoolID r) (opaque r).
Definition zero_blk : lac_mem_blk := mk_blk 0 0 0 false 0 0.

(** Its size: five words and a [CpaBoolean] that is padded to a word *)
Definition sizeof_lac_mem_blk : Z := 48.

(** [lac_mem_pool_hdr_t]; [trackBlks] is the address of the array with its contents, and
    [None] for NULL. *)
Record lac_mem_pool_hdr := mk_hdr {
  stack : pointer_t; poolName : list Z; numElementsInPool : Z; blkSizeInBytes : Z;
  blkAlignmentInBytes : Z; trackBlks : option (Z * list Z); availBlks : Z; active : bool; sync : Z
}.
#[global] Instance eta_hdr : Eta lac_mem_pool_hdr := fun r =>
  mk_hdr (stack r) (poolName r) (numElementsInPool r) (blkSizeInBytes r)
    (blkAlignmentInBytes r) (trackBlks r) (availBlks r) (active r) (sync r).
Definition sizeof_lac_mem_pool_hdr : Z := 80.

Definition LAC_MEM_POOLS_NUM_SUPPORTED : Z := 32000.
Definition LAC_MEM_POOLS_NAME_SIZE : Z := 16.
Definition ICP_ADF_INVALID_SEND_SEQ : Z := 2 ^ 64 - 1.

(** The blocks, by address *)
Abbreviation blocks := (gmap Z lac_mem_blk).
Definition blk (m : blocks) (a : Z) : lac_mem_blk := default zero_blk (m !! a).
Definition set_link (m : blocks) (a p : Z) : blocks := <[a := (blk m a) <| pNext := p |>]> m.
Definition set_isInUse (m : blocks) (a : Z) (b : bool) : blocks := <[a := (blk m a) <| isInUse := b |>]> m.

(** * The stack of free blocks, for one thread

    Alone, the compare and swap of the loops succeeds at the first try. *)

Definition init_stack : pointer_t := mk_pointer 0 0.

Definition pop (stack : pointer_t) (m : blocks) : Z * pointer_t :=
  let next := ptr stack in
  if next =? 0 then (next, stack)
  else (next, mk_pointer (u64 (ctr stack + 1)) (pNext (blk m next))).

Definition push (stack : pointer_t) (m : blocks) (val : Z) : pointer_t * blocks :=
  (mk_pointer (u64 (ctr stack + 1)) val, set_link m val (ptr stack)).

Definition top (stack : pointer_t) : Z := ptr stack.

(** * The state *)

Record pools := mk_pools {
  lac_mem_pools : list Z;              (** the table of headers *)
  hdrs : gmap Z lac_mem_pool_hdr;      (** the headers, by address *)
  blks : blocks;                       (** the blocks, by address *)
  os_mem : gmap Z Z;                   (** live memory of the process, with its sizes *)
  contig : gmap Z Z;                   (** live memory for the device, with its sizes *)
  os_env : list Z;                     (** what [osalMemAlloc] will return *)
  contig_env : list Z                  (** what [qaeMemAllocNUMA] will return *)
}.
#[global] Instance eta_pools : Eta pools := fun r =>
  mk_pools (lac_mem_pools r) (hdrs r) (blks r) (os_mem r) (contig r) (os_env r) (contig_env r).

Definition zero_hdr : lac_mem_pool_hdr := mk_hdr init_stack [] 0 0 0 None 0 false 0.
Definition hdr (st : pools) (p : Z) : lac_mem_pool_hdr := default zero_hdr (hdrs st !! p).
Definition set_hdr (st : pools) (p : Z) (h : lac_mem_pool_hdr) : pools := st <| hdrs := <[p := h]> (hdrs st) |>.

(** [LacMem_OsMemAlloc] and [LacMem_OsMemFree]: the address, 0 for a failure *)
Definition LacMem_OsMemAlloc (sizeBytes : Z) (st : pools) : Z * pools :=
  match os_env st with
  | [] => (0, st)
  | a :: l =>
      let st := st <| os_env := l |> in
      if a =? 0 then (0, st) else (a, st <| os_mem := <[a := u32 sizeBytes]> (os_mem st) |>)
  end.
Definition LacMem_OsMemFree (a : Z) (st : pools) : pools :=
  if a =? 0 then st else st <| os_mem := base.delete a (os_mem st) |>.

(** [LacMem_OsContigAlignMemAlloc] and [LacMem_OsContigAlignMemFree] *)
Definition LacMem_OsContigAlignMemAlloc (sizeBytes alignmentBytes : Z) (st : pools) : Z * pools :=
  if negb (Z.land alignmentBytes (u32 (alignmentBytes - 1)) =? 0) then (0, st)
  else
    match contig_env st with
    | [] => (0, st)
    | a :: l =>
        let st := st <| contig_env := l |> in
        if a =? 0 then (0, st) else (a, st <| contig := <[a := sizeBytes]> (contig st) |>)
    end.
Definition LacMem_OsContigAlignMemFree (a : Z) (st : pools) : pools :=
  if a =? 0 then st else st <| contig := base.delete a (contig st) |>.

(** * Creation *)

(** [LAC_DECLARE_HIGHEST_BIT_OF]: the number of the highest bit that is set *)
Definition highest_bit_of (size : Z) : Z := if size =? 0 then 32 else Z.log2 size.

Definition Lac_MemPoolGetElementRealSize (blkSizeInBytes blkAlignmentInBytes : Z) : Z :=
  let addSize :=
    if sizeof_lac_mem_blk <=? blkAlignmentInBytes then blkAlignmentInBytes
    else Z.shiftl 1 (highest_bit_of sizeof_lac_mem_blk + 1) in
  u32 (blkSizeInBytes + addSize).

(** The searches of the table, for a free entry and for a pool: [None] at its end *)
Fixpoint pool_search (l : list Z) (target poolSearch : Z) : option Z :=
  match l with
  | [] => None
  | x :: l => if x =? target then Some poolSearch else pool_search l target (poolSearch + 1)
  end.

(** The loop of [Lac_MemPoolCleanUpInternal] over the blocks on the stack *)
Fixpoint cleanup_stack (fuel : nat) (pPoolID pCurrentBlk : Z) (st : pools) : pools :=
  match fuel with
  | O => st
  | S fuel =>
      if pCurrentBlk =? 0 then st
      else
        let pFreePtr := pMemAllocPtr (blk (blks st) pCurrentBlk) in
        let h := hdr st pPoolID in
        let '(pCurrentBlk, s) := pop (stack h) (blks st) in
        let st := set_hdr st pPoolID (h <| stack := s |>) in
        cleanup_stack fuel pPoolID pCurrentBlk (LacMem_OsContigAlignMemFree pFreePtr st)
  end.

(** and over the blocks that are tracked *)
Fixpoint cleanup_track (n : nat) (track : list Z) (count : Z) (st : pools) : pools :=
  match n with
  | O => st
  | S n =>
      let pFreePtr := pMemAllocPtr (blk (blks st) (track.[count])) in
      cleanup_track n track (count + 1) (LacMem_OsContigAlignMemFree pFreePtr st)
  end.

Definition Lac_MemPoolCleanUpInternal (pPoolID : Z) (st : pools) : pools :=
  let h := hdr st pPoolID in
  let st :=
    match trackBlks h with
    | None =>
        let '(pCurrentBlk, s) := pop (stack h) (blks st) in
        cleanup_stack (S (size (blks st))) pPoolID pCurrentBlk (set_hdr st pPoolID (h <| stack := s |>))
    | Some (a, track) =>
        LacMem_OsMemFree a (cleanup_track (Z.to_nat (numElementsInPool h)) track 0 st)
    end in
  LacMem_OsMemFree pPoolID st.

Section create.
Variable qaeVirtToPhysNUMA : Z -> Z.

(** One turn of the loop of [Lac_MemPoolCreate]: the block at [counter] *)
Definition create_block (p counter blkSizeInBytes blkAlignmentInBytes : Z) (st : pools) : bool * pools :=
  let realSize := Lac_MemPoolGetElementRealSize blkSizeInBytes blkAlignmentInBytes in
  let addSize := u32 (realSize - blkSizeInBytes) in
  let '(pMemBlk, st) := LacMem_OsContigAlignMemAlloc realSize blkAlignmentInBytes st in
  if pMemBlk =? 0 then (false, st)
  else
    let physAddr := qaeVirtToPhysNUMA (pMemBlk + addSize) in
    let pMemBlkCurrent := pMemBlk + addSize - sizeof_lac_mem_blk in
    let m := <[pMemBlkCurrent := mk_blk 0 physAddr pMemBlk false p (opaque (blk (blks st) pMemBlkCurrent))]> (blks st) in
    let h := hdr st p in
    let '(s, m) := push (stack h) m pMemBlkCurrent in
    let h := h <| stack := s |> in
    let h := h <| trackBlks := option_map (fun t => (t.1, t.2.[counter <- pMemBlkCurrent])) (trackBlks h) |> in
    let h := h <| availBlks := u64 (availBlks h + 1) |> in
    let h := h <| numElementsInPool := u32 (counter + 1) |> in
    (true, set_hdr (st <| blks := m |>) p h).

Fixpoint create_loop (n : nat) (p counter blkSizeInBytes blkAlignmentInBytes : Z) (st : pools) : bool * pools :=
  match n with
  | O => (true, st)
  | S n =>
      let '(ok, st) := create_block p counter blkSizeInBytes blkAlignmentInBytes st in
      if ok then create_loop n p (counter + 1) blkSizeInBytes blkAlignmentInBytes st else (false, st)
  end.

(** The status, what is written to [*pPoolID], and the new state; [null] says that
    [pPoolID] is NULL, and a name of [None] is a NULL pointer. *)
Definition Lac_MemPoolCreate (null : bool) (name : option (list Z))
    (numElements blkSize blkAlignment : Z) (trackMemory : bool) (st : pools) : Z * option Z * pools :=
  if null then (CPA_STATUS_INVALID_PARAM, None, st)
  else
    match pool_search (lac_mem_pools st) 0 0 with
    | None => (CPA_STATUS_FAIL, None, st)
    | Some poolSearch =>
        let '(p, st) := LacMem_OsMemAlloc sizeof_lac_mem_pool_hdr st in
        let table := lac_mem_pools st in
        let st := st <| lac_mem_pools := table.[poolSearch <- p] |> in
        if p =? 0 then (CPA_STATUS_RESOURCE, None, st)
        else
          let st := set_hdr st p zero_hdr in
          let unset st := st <| lac_mem_pools := (lac_mem_pools st).[poolSearch <- 0] |> in
          match name with
          | None => (CPA_STATUS_INVALID_PARAM, None, unset (LacMem_OsMemFree p st))
          | Some name =>
              let h := zero_hdr <| poolName := take (Z.to_nat (LAC_MEM_POOLS_NAME_SIZE - 1)) name |> in
              let '(a, st) := if trackMemory then LacMem_OsMemAlloc (8 * numElements) st else (0, st) in
              if trackMemory && (a =? 0) then (CPA_STATUS_RESOURCE, None, unset (LacMem_OsMemFree p (set_hdr st p h)))
              else
                let h := h <| trackBlks :=
                  if trackMemory then Some (a, replicate (Z.to_nat (u32 (8 * numElements) / 8)) 0) else None |> in
                let h := h <| availBlks := 0 |> in
                let h := h <| stack := init_stack |> in
                let '(ok, st) := create_loop (Z.to_nat numElements) p 0 blkSize blkAlignment (set_hdr st p h) in
                if negb ok then (CPA_STATUS_RESOURCE, None, unset (Lac_MemPoolCleanUpInternal p st))
                else
                  let h := hdr st p in
                  let h := h <| blkSizeInBytes := blkSize |> in
                  let h := h <| blkAlignmentInBytes := blkAlignment |> in
                  let h := h <| active := true |> in
                  let h := h <| sync := 1 |> in
                  (CPA_STATUS_SUCCESS, Some p, set_hdr st p h)
          end
    end.
End create.

(** * Use *)

Definition Lac_MemPoolEnable (pPoolID : Z) (st : pools) : pools :=
  if pPoolID =? 0 then st
  else set_hdr st pPoolID ((hdr st pPoolID) <| active := true |> <| sync := 1 |>).
Definition Lac_MemPoolDisable (pPoolID : Z) (st : pools) : pools :=
  if pPoolID =? 0 then st else set_hdr st pPoolID ((hdr st pPoolID) <| active := false |>).

(** [osalAtomicDecAndTest] on the 64-bit counter [sync] *)
Definition Lac_MemPoolTestAndGet (pPoolID : Z) (st : pools) : bool * pools :=
  let v := u64 (sync (hdr st pPoolID) - 1) in
  (v =? 0, set_hdr st pPoolID ((hdr st pPoolID) <| sync := v |>)).

(** The address of an entry that is returned: NULL, [CPA_STATUS_RETRY] as a pointer, or
    the memory behind the block *)
Definition RETRY_PTR : Z := u64 CPA_STATUS_RETRY.
Definition Lac_MemPoolEntryAlloc (pPoolID : Z) (st : pools) : Z * pools :=
  let h := hdr st pPoolID in
  if negb (active h) then (0, st)
  else
    let '(pMemBlkCurrent, s) := pop (stack h) (blks st) in
    let h := h <| stack := s |> in
    if pMemBlkCurrent =? 0 then (RETRY_PTR, set_hdr st pPoolID h)
    else
      let h := h <| availBlks := u64 (availBlks h - 1) |> in
      (pMemBlkCurrent + sizeof_lac_mem_blk,
       (set_hdr st pPoolID h) <| blks := set_isInUse (blks st) pMemBlkCurrent true |>).

Definition Lac_MemPoolEntryFree (pEntry : Z) (st : pools) : pools :=
  let pMemBlk := pEntry - sizeof_lac_mem_blk in
  let m := set_isInUse (blks st) pMemBlk false in
  let p := pPoolID (blk m pMemBlk) in
  let h := hdr st p in
  let '(s, m) := push (stack h) m pMemBlk in
  let h := h <| stack := s |> in
  let h := h <| availBlks := u64 (availBlks h + 1) |> in
  set_hdr (st <| blks := m |>) p h.

Definition Lac_MemPoolAvailableEntries (pPoolID : Z) (st : pools) : Z :=
  if pPoolID =? 0 then 0 else u32 (availBlks (hdr st pPoolID)).

Definition Lac_MemPoolDestroy (poolID : Z) (st : pools) : pools :=
  if poolID =? 0 then st
  else
    match pool_search (lac_mem_pools st) poolID 0 with
    | None => st
    | Some poolSearch =>
        Lac_MemPoolCleanUpInternal poolID (st <| lac_mem_pools := (lac_mem_pools st).[poolSearch <- 0] |>)
    end.

(** [Lac_MemPoolInitDcCookies]: the sequence number of every tracked block is marked *)
Fixpoint init_cookies (n : nat) (track : list Z) (count : Z) (m : blocks) : blocks :=
  match n with
  | O => m
  | S n =>
      let pCurrentBlk := track.[count] in
      init_cookies n track (count + 1) (<[pCurrentBlk := (blk m pCurrentBlk) <| opaque := ICP_ADF_INVALID_SEND_SEQ |>]> m)
  end.
Definition Lac_MemPoolInitDcCookies (pPoolID : Z) (st : pools) : Z * pools :=
  if pPoolID =? 0 then (CPA_STATUS_FAIL, st)
  else
    match trackBlks (hdr st pPoolID) with
    | None => (CPA_STATUS_SUCCESS, st)
    | Some (_, track) =>
        (CPA_STATUS_SUCCESS,
         st <| blks := init_cookies (Z.to_nat (numElementsInPool (hdr st pPoolID))) track 0 (blks st) |>)
    end.

(** * Lemmas on the stack *)

(** The blocks that the links lead through from [p] on *)
Fixpoint chain (m : blocks) (p : Z) (l : list Z) : Prop :=
  match l with
  | [] => p = 0
  | x :: l => p = x /\ x <> 0 /\ is_Some (m !! x) /\ chain m (pNext (blk m x)) l
  end.

Lemma blk_insert_eq m a b : blk (<[a := b]> m) a = b.
Proof. unfold blk. by rewrite lookup_insert_eq. Qed.
Lemma blk_insert_ne m a b x : x <> a -> blk (<[a := b]> m) x = blk m x.
Proof. intros. unfold blk. by rewrite lookup_insert_ne. Qed.
Lemma insert_is_Some (m : blocks) a b x : is_Some (m !! x) -> is_Some (<[a := b]> m !! x).
Proof. intros. by apply lookup_insert_is_Some'; right. Qed.
Lemma hdr_set_eq st p h : hdr (set_hdr st p h) p = h.
Proof. unfold hdr, set_hdr. cbn. by rewrite lookup_insert_eq. Qed.
#[export] Hint Rewrite blk_insert_eq hdr_set_eq : qatrw.

Lemma chain_ptr m p l : chain m p l -> p = 0 <-> l = [].
Proof. destruct l as [|x l]; cbn; [tauto|]. intros (-> & ? & _). split; [lia|done]. Qed.

Lemma chain_0 m p l : chain m p l -> 0 ∉ l.
Proof.
  revert p. induction l as [|x l IH]; intros p; cbn; [set_solver|].
  intros (_ & ? & _ & H). apply IH in H. set_solver.
Qed.
Lemma chain_dom m p l x : chain m p l -> x ∈ l -> is_Some (m !! x).
Proof.
  revert p. induction l as [|y l IH]; intros p; cbn; [set_solver|].
  intros (_ & _ & ? & H) [->|Hx]%elem_of_cons; [done|]. by eapply IH.
Qed.

(** A change of a block that is not on the chain, or that keeps its link, keeps the chain. *)
Lemma chain_insert m p l a b :
  chain m p l -> (a ∈ l -> pNext b = pNext (blk m a)) -> chain (<[a := b]> m) p l.
Proof.
  revert p. induction l as [|y l IH]; intros p; cbn; [done|].
  intros (? & ? & ? & H) Ha. split_and!; [done..|by apply insert_is_Some|].
  destruct (decide (y = a)) as [->|].
  - rewrite blk_insert_eq, Ha by set_solver. apply IH; [done|]. intros. apply Ha. set_solver.
  - rewrite blk_insert_ne by done. apply IH; [done|]. intros. apply Ha. set_solver.
Qed.

Lemma chain_push m p l b :
  chain m p l -> b ∉ l -> b <> 0 -> chain (set_link m b p) b (b :: l).
Proof.
  intros H Hb H0. cbn. split_and!; [done..|unfold set_link; rewrite lookup_insert_eq; eauto|].
  unfold set_link. rewrite blk_insert_eq. cbn. by apply chain_insert.
Qed.

Lemma chain_size m p l : chain m p l -> NoDup l -> (length l <= size m)%nat.
Proof.
  intros H Hl. rewrite <- size_dom.
  rewrite <- (size_list_to_set (C := gset Z) l) by done. apply subseteq_size.
  intros x Hx%elem_of_list_to_set. apply elem_of_dom. by eapply chain_dom.
Qed.

(** * Clean-up *)

(** What is left when the memory at the addresses of [l] is freed *)
Definition forget (l : list Z) (m : gmap Z Z) : gmap Z Z := base.filter (fun kv => kv.1 ∉ l) m.

Lemma forget_lookup l m k : forget l m !! k = if decide (k ∈ l) then None else m !! k.
Proof.
  unfold forget. rewrite map_lookup_filter. destruct (m !! k) eqn:E; cbn; [|by destruct (decide _)].
  rewrite option_guard_decide. cbn. by destruct (decide (k ∉ l)), (decide (k ∈ l)).
Qed.
Lemma forget_nil m : forget [] m = m.
Proof. apply map_eq. intros k. rewrite forget_lookup. by rewrite decide_False by set_solver. Qed.
Lemma forget_delete a l m : forget l (base.delete a m) = forget (a :: l) m.
Proof.
  apply map_eq. intros k. rewrite !forget_lookup. destruct (decide (k = a)) as [->|].
  - rewrite lookup_delete_eq. rewrite (decide_True (P := a ∈ a :: l)) by set_solver. by destruct (decide _).
  - rewrite lookup_delete_ne by done.
    destruct (decide (k ∈ l)), (decide (k ∈ a :: l)); set_solver.
Qed.
Lemma forget_perm l l' m : (forall k, k ∈ l <-> k ∈ l') -> forget l m = forget l' m.
Proof.
  intros H. apply map_eq. intros k. rewrite !forget_lookup.
  destruct (decide (k ∈ l)), (decide (k ∈ l')); firstorder.
Qed.
Lemma forget_fresh l m : (forall k, k ∈ l -> m !! k = None) -> forget l m = m.
Proof. intros H. apply map_eq. intros k. rewrite forget_lookup. destruct (decide _); [by rewrite H|done]. Qed.

(** The state outside the headers, blocks and oracles, after the memory in [l] is freed *)
Record freed (l : list Z) (st st' : pools) : Prop := {
  freed_contig : contig st' = forget l (contig st);
  freed_os : os_mem st' = os_mem st;
  freed_table : lac_mem_pools st' = lac_mem_pools st;
  freed_blks : blks st' = blks st
}.

Lemma freed_cons a l st st1 st' :
  a <> 0 -> contig st1 = contig st -> os_mem st1 = os_mem st -> lac_mem_pools st1 = lac_mem_pools st ->
  blks st1 = blks st -> freed l (LacMem_OsContigAlignMemFree a st1) st' -> freed (a :: l) st st'.
Proof.
  intros Ha H1 H2 H3 H4 [F1 F2 F3 F4]. revert F1 F2 F3 F4. unfold LacMem_OsContigAlignMemFree.
  rewrite (proj2 (Z.eqb_neq a 0)) by done. cbn. intros F1 F2 F3 F4. rewrite forget_delete in F1.
  split; congruence.
Qed.

Abbreviation chunk m := (fun b => pMemAllocPtr (blk m b)).

Lemma cleanup_stack_spec fuel p l : forall cur st,
  chain (blks st) cur l -> (forall l', l = cur :: l' -> chain (blks st) (ptr (stack (hdr st p))) l') ->
  Forall (fun b => chunk (blks st) b <> 0) l -> (length l < fuel)%nat ->
  freed (map (chunk (blks st)) l) st (cleanup_stack fuel p cur st).
Proof.
  revert l. induction fuel as [|fuel IH]; intros l cur st Hc Hl Hz Hf; [lia|]. cbn [cleanup_stack].
  destruct l as [|x l]; cbn in Hc.
  - subst cur. cbn. split; [by rewrite forget_nil|done..].
  - destruct Hc as (-> & Hx & _ & Hn). specialize (Hl l eq_refl).
    rewrite (proj2 (Z.eqb_neq x 0)) by done. apply Forall_cons in Hz as [Hz1 Hz].
    destruct (pop (stack (hdr st p)) (blks st)) as [cur s] eqn:E. cbn [map].
    set (st1 := set_hdr st p _).
    eapply (freed_cons _ _ st st1); [done..|].
    set (st2 := LacMem_OsContigAlignMemFree _ st1).
    assert (blks st2 = blks st /\ stack (hdr st2 p) = s) as [B S].
    { subst st2. unfold LacMem_OsContigAlignMemFree. case_if; subst st1; cbn; [lia|].
      split; [done|]. unfold hdr. cbn. by rewrite lookup_insert_eq. }
    rewrite <- B. unfold pop in E. apply IH; rewrite ?B, ?S; [|..|done|cbn in Hf; lia].
    + case_if; by simplify_eq.
    + intros l' ->. cbn in Hl. destruct Hl as (Hp & Hx' & _ & Hl). case_if; [lia|]. by simplify_eq.
Qed.

Lemma cleanup_track_spec n : forall track count st l,
  0 <= count -> l = take n (drop (Z.to_nat count) track) -> length l = n ->
  Forall (fun b => chunk (blks st) b <> 0) l ->
  freed (map (chunk (blks st)) l) st (cleanup_track n track count st) /\
  hdrs (cleanup_track n track count st) = hdrs st.
Proof.
  induction n as [|n IH]; intros track count st l H0 Hl Hn Hz; cbn [cleanup_track].
  { destruct l; [|done]. split; [|done]. split; [by rewrite forget_nil|done..]. }
  destruct (drop (Z.to_nat count) track) as [|x l0] eqn:E; [by subst l|]. cbn in Hl. subst l.
  assert (track.[count] = x) as ->.
  { unfold arr_get. apply nth_lookup_Some. rewrite <- (Nat.add_0_r (Z.to_nat count)).
    by rewrite <- lookup_drop, E. }
  apply Forall_cons in Hz as [Hz1 Hz]. cbn [map].
  assert (forall a st, blks (LacMem_OsContigAlignMemFree a st) = blks st /\
    hdrs (LacMem_OsContigAlignMemFree a st) = hdrs st) as B.
  { intros a st1. unfold LacMem_OsContigAlignMemFree. by case_if. }
  destruct (B (chunk (blks st) x) st) as [B1 B2].
  edestruct (IH track (count + 1) (LacMem_OsContigAlignMemFree (chunk (blks st) x) st) (take n l0)) as [F1 F2].
  - lia.
  - f_equal. rewrite Z2Nat.inj_add, <- drop_drop, E by lia. done.
  - cbn in Hn. lia.
  - by rewrite B1.
  - rewrite B1 in F1. split; [by eapply freed_cons|congruence].
Qed.

(** What a pool is made of: the blocks [bs] of which [free] are on the stack, its
    bookkeeping, and its live memory *)
Record pool_at (st : pools) (p : Z) (bs free : list Z) : Prop := {
  pa_chain : chain (blks st) (ptr (stack (hdr st p))) free;
  pa_nodup : NoDup bs;
  pa_free : exists rest, bs ≡ₚ free ++ rest;
  pa_chunk : Forall (fun b => chunk (blks st) b <> 0) bs;
  pa_num : numElementsInPool (hdr st p) = len bs;
  pa_track : forall a t, trackBlks (hdr st p) = Some (a, t) -> a <> 0 /\ take (length bs) t = reverse bs /\ a <> p;
  pa_addr : p <> 0
}.

(** The blocks that a clean-up gives back, and its allocations of process memory *)
Definition cleaned (h : lac_mem_pool_hdr) (bs free : list Z) : list Z :=
  match trackBlks h with None => free | Some _ => bs end.
Definition os_parts (p : Z) (h : lac_mem_pool_hdr) : list Z :=
  match trackBlks h with None => [p] | Some (a, _) => [p; a] end.

Lemma cleanup_spec st p bs free :
  pool_at st p bs free ->
  let st' := Lac_MemPoolCleanUpInternal p st in
  contig st' = forget (map (chunk (blks st)) (cleaned (hdr st p) bs free)) (contig st) /\
  os_mem st' = forget (os_parts p (hdr st p)) (os_mem st) /\
  lac_mem_pools st' = lac_mem_pools st.
Proof.
  intros [Hc Hnd [rest Hf] Hz Hn Ht Hp]. cbn zeta. unfold Lac_MemPoolCleanUpInternal, cleaned, os_parts.
  assert (forall a st', a <> 0 -> LacMem_OsMemFree a st' = st' <| os_mem := base.delete a (os_mem st') |>) as FR.
  { intros a st' Ha. unfold LacMem_OsMemFree. by rewrite (proj2 (Z.eqb_neq a 0)). }
  destruct (trackBlks (hdr st p)) as [[a t]|] eqn:E.
  - destruct (Ht a t eq_refl) as (Ha & Htk & _).
    edestruct (cleanup_track_spec (Z.to_nat (numElementsInPool (hdr st p))) t 0 st (reverse bs)) as [[F1 F2 F3 F4] _];
      [lia|by rewrite Hn, Nat2Z.id|rewrite Hn, Nat2Z.id; by rewrite length_reverse|by apply Forall_reverse|].
    rewrite !FR by done. cbn. rewrite F1, F2, F3. split_and!;
      [|rewrite <- (forget_nil (base.delete _ _)), !forget_delete; apply forget_perm; set_solver|done].
    apply forget_perm. intros k. rewrite !list_elem_of_fmap. by setoid_rewrite elem_of_reverse.
  - destruct (pop (stack (hdr st p)) (blks st)) as [cur s] eqn:EP.
    set (st1 := set_hdr st p _).
    assert (NoDup free) by (rewrite Hf in Hnd; by apply NoDup_app in Hnd as (? & _)).
    pose proof (cleanup_stack_spec (S (size (blks st))) p free cur st1) as [F1 F2 F3 F4].
    + unfold pop in EP. by case_if; simplify_eq.
    + intros l' ->. subst st1. rewrite hdr_set_eq. cbn in Hc |- *. destruct Hc as (? & ? & _ & Hc).
      unfold pop in EP. case_if; by simplify_eq.
    + rewrite Hf in Hz. by apply Forall_app in Hz as [? _].
    + apply Nat.lt_succ_r. by eapply chain_size.
    + rewrite !FR by done. revert F1 F2 F3 F4. generalize (cleanup_stack (S (size (blks st))) p cur st1).
      intros st2 F1 F2 F3 F4. cbn. rewrite F1, F2, F3. split_and!; [done|by rewrite <- forget_delete, forget_nil|done].
Qed.

(** * Creation *)

(** The room before the data of a block, and where the block's record is put *)
Definition add_size (al : Z) : Z := if sizeof_lac_mem_blk <=? al then al else 64.
Definition block_of (al c : Z) : Z := c + add_size al - sizeof_lac_mem_blk.

Lemma real_size sz al : Lac_MemPoolGetElementRealSize sz al = u32 (sz + add_size al).
Proof. reflexivity. Qed.
Lemma add_size_range al : 0 <= al < 2 ^ 32 -> sizeof_lac_mem_blk <= add_size al < 2 ^ 32.
Proof. intros. unfold add_size, sizeof_lac_mem_blk. case_if; unfold sizeof_lac_mem_blk in *; lia. Qed.
Lemma real_minus_size sz al :
  0 <= al < 2 ^ 32 -> u32 (Lac_MemPoolGetElementRealSize sz al - sz) = add_size al.
Proof.
  intros H%add_size_range. rewrite real_size. unfold u32. rewrite Zminus_mod_idemp_l.
  replace (sz + add_size al - sz) with (add_size al) by lia. apply Z.mod_small.
  unfold sizeof_lac_mem_blk in H. lia.
Qed.

(** What the allocators promise: an address other than 0 is one of no live memory *)
Record fresh_contig (st : pools) : Prop := {
  fc_free : forall c, c ∈ contig_env st -> c <> 0 -> 0 < c /\ contig st !! c = None;
  fc_once : forall i j c, contig_env st !! i = Some c -> contig_env st !! j = Some c -> c <> 0 -> i = j
}.
Record fresh_env (st : pools) : Prop := {
  fe_contig : fresh_contig st;
  fe_os : forall a, a ∈ os_env st -> a <> 0 -> os_mem st !! a = None /\ a ∉ lac_mem_pools st;
  fe_os_once : forall i j a, os_env st !! i = Some a -> os_env st !! j = Some a -> a <> 0 -> i = j
}.

Section building.
Context (v2p : Z -> Z) (p sz al : Z).
Hypothesis al_range : 0 <= al < 2 ^ 32.
Abbreviation real := (Lac_MemPoolGetElementRealSize sz al).

(** A state in which the blocks in the memory [cs], the latest first, have been added to
    the pool with header [h0] in [st0] *)
Record building (st0 : pools) (h0 : lac_mem_pool_hdr) (cs : list Z) (st : pools) : Prop := {
  bd_contig : forall k, contig st !! k = if decide (k ∈ cs) then Some real else contig st0 !! k;
  bd_os : os_mem st = os_mem st0;
  bd_table : lac_mem_pools st = lac_mem_pools st0;
  bd_nodup : NoDup cs;
  bd_fresh : Forall (fun c => 0 < c /\ contig st0 !! c = None) cs;
  bd_chain : chain (blks st) (ptr (stack (hdr st p))) (map (block_of al) cs);
  bd_blk : Forall (fun c => let b := blk (blks st) (block_of al c) in
             pMemAllocPtr b = c /\ physDataPtr b = v2p (c + add_size al) /\ pPoolID b = p /\ isInUse b = false) cs;
  bd_other : forall b, b ∉ map (block_of al) cs -> blks st !! b = blks st0 !! b;
  bd_num : numElementsInPool (hdr st p) = len cs;
  bd_avail : availBlks (hdr st p) = len cs;
  bd_ctr : ctr (stack (hdr st p)) = len cs;
  bd_track : trackBlks (hdr st p) =
    option_map (fun t => (t.1, reverse (map (block_of al) cs) ++ drop (length cs) t.2)) (trackBlks h0)
}.

Lemma block_of_inj c c' : block_of al c = block_of al c' -> c = c'.
Proof. unfold block_of. lia. Qed.
Lemma block_of_elem c cs : block_of al c ∈ map (block_of al) cs <-> c ∈ cs.
Proof.
  rewrite list_elem_of_fmap. split; [by intros (x & ->%block_of_inj & ?)|]. by exists c.
Qed.

Lemma create_block_step st0 h0 cs st ok st' :
  building st0 h0 cs st -> len cs + 1 < 2 ^ 32 ->
  (forall t, trackBlks h0 = Some t -> len cs < len (t.2)) ->
  (forall c l, contig_env st = c :: l -> c <> 0 -> 0 < c /\ contig st0 !! c = None /\ c ∉ cs) ->
  create_block v2p p (len cs) sz al st = (ok, st') ->
  if ok then exists c, contig_env st = c :: contig_env st' /\ building st0 h0 (c :: cs) st'
  else building st0 h0 cs st'.
Proof.
  intros B Hn Ht He. unfold create_block, LacMem_OsContigAlignMemAlloc.
  case_if; [cbn; intros; by simplify_eq|].
  destruct (contig_env st) as [|c l] eqn:EV; [cbn; intros; by simplify_eq|].
  destruct (Z.eqb_spec c 0) as [->|Hc0].
  { cbn. intros; simplify_eq. destruct B. by split. }
  specialize (He c l eq_refl Hc0) as (Hc & Hf & Hin). rewrite (proj2 (Z.eqb_neq c 0)) by done.
  rewrite real_minus_size by done. cbn [push]. intros [= <- <-]. exists c. split; [done|].
  pose proof (add_size_range al al_range) as HA. unfold sizeof_lac_mem_blk in HA.
  fold (block_of al c). set (b := block_of al c).
  assert (b ∉ map (block_of al) cs) as Hb by (subst b; by rewrite block_of_elem).
  assert (b <> 0) as Hb0 by (subst b; unfold block_of, sizeof_lac_mem_blk; lia).
  destruct B. unfold push. cbn zeta. cbn iota beta.
  repeat match goal with
  | |- context [hdr ?s p] => lazymatch s with st => fail | _ => change (hdr s p) with (hdr st p) end
  end.
  match goal with |- building _ _ _ (set_hdr ?s ?q ?h) => set (sb := s); set (hb := h) end.
  assert (hdr (set_hdr sb p hb) p = hb) as EH by apply hdr_set_eq.
  split; rewrite ?EH.
  - intros k. subst sb. cbn. destruct (decide (k = c)) as [->|].
    + rewrite lookup_insert_eq. by rewrite decide_True by set_solver.
    + rewrite lookup_insert_ne, bd_contig0 by done.
      destruct (decide (k ∈ cs)), (decide (k ∈ c :: cs)); set_solver.
  - done.
  - done.
  - by apply NoDup_cons.
  - by apply Forall_cons.
  - subst hb sb. cbn [stack ptr set_hdr blks map upd]. apply chain_push; [|done..].
    apply chain_insert; [done|]. by intros ?.
  - subst sb. cbn. apply Forall_cons. split.
    + unfold set_link. fold b. rewrite !blk_insert_eq. cbn. done.
    + eapply Forall_impl; [apply Forall_and; split; [exact bd_blk0|apply Forall_forall; intros x Hx; exact Hx]|].
      cbn. intros x [H Hx]. unfold set_link.
      assert (block_of al x <> b) by (intros ->%block_of_inj; done). by rewrite !blk_insert_ne.
  - intros b'. cbn [map]. fold b. intros [? ?]%not_elem_of_cons. subst sb. cbn. unfold set_link.
    rewrite !lookup_insert_ne by done. by apply bd_other0.
  - subst hb. cbn. rewrite u32_small by lia. lia.
  - subst hb. cbn -[Z.of_nat]. rewrite bd_avail0, u64_small; lia.
  - subst hb. cbn -[Z.of_nat]. rewrite bd_ctr0, u64_small; lia.
  - subst hb. cbn [trackBlks upd map length]. rewrite bd_track0. destruct (trackBlks h0) as [[a t]|] eqn:ET; [|done].
    specialize (Ht _ eq_refl). cbn [fst snd option_map] in Ht |- *. f_equal. f_equal. unfold arr_set. rewrite Nat2Z.id.
    rewrite reverse_cons. destruct (drop (length cs) t) as [|x t'] eqn:ED.
    { apply (f_equal length) in ED. rewrite length_drop in ED. cbn in ED. lia. }
    replace (length cs) with (length (reverse (map (block_of al) cs)) + 0)%nat at 1
      by (rewrite length_reverse, length_map; lia).
    rewrite insert_app_r. cbn. rewrite <- app_assoc. cbn. f_equal. fold b. f_equal.
    replace (S (length cs)) with (length cs + 1)%nat by lia. by rewrite <- drop_drop, ED.
Qed.
Lemma create_loop_spec st0 h0 n : forall cs st ok st',
  building st0 h0 cs st -> len cs + Z.of_nat n < 2 ^ 32 ->
  (forall t, trackBlks h0 = Some t -> len cs + Z.of_nat n <= len (t.2)) ->
  fresh_contig st0 -> contig_env st0 = reverse cs ++ contig_env st ->
  create_loop v2p n p (len cs) sz al st = (ok, st') ->
  exists cs', building st0 h0 cs' st' /\ (exists l, contig_env st0 = reverse cs' ++ l) /\
    (length cs' <= length cs + n)%nat /\
    (ok = true -> length cs' = (length cs + n)%nat).
Proof.
  induction n as [|n IH]; intros cs st ok st' B Hn Ht F He; cbn [create_loop].
  { intros; simplify_eq. exists cs. split_and!; [done|by eexists|lia..]. }
  destruct (create_block _ _ _ _ _ st) as [ok1 st1] eqn:E.
  eapply create_block_step in E; [|done|lia|intros t Et; specialize (Ht t Et); lia|].
  - destruct ok1; [|intros; simplify_eq; exists cs; split_and!; [done|by eexists|lia|done]].
    destruct E as (c & Ec & B1). replace (len cs + 1) with (len (c :: cs)) by (cbn; lia).
    intros (cs' & B' & Hev & Hle & Hl)%IH; [..|cbn; lia| |done|].
    + exists cs'. cbn in Hle, Hl. split_and!; [done|done|lia|]. intros Ho. specialize (Hl Ho). lia.
    + done.
    + intros t Et. specialize (Ht t Et). cbn. lia.
    + rewrite He, Ec, reverse_cons, <- app_assoc. done.
  - intros c l Ec Hc0. destruct F as [F1 F2].
    destruct (F1 c) as [? ?]; [rewrite He, Ec; set_solver|done|]. split_and!; [done..|].
    intros Hin%elem_of_reverse. apply list_elem_of_lookup in Hin as [i Hi].
    assert (i < length (reverse cs))%nat by by eapply lookup_lt_Some.
    assert (i = length (reverse cs)); [|lia]. apply (F2 i _ c); [..|done].
    + rewrite He, lookup_app_l by done. done.
    + rewrite He, Ec, lookup_app_r, Nat.sub_diag by lia. done.
Qed.

Lemma building_pool_at st0 h0 cs st :
  building st0 h0 cs st -> p <> 0 ->
  (forall t, trackBlks h0 = Some t -> t.1 <> 0 /\ t.1 <> p /\ len cs <= len (t.2)) ->
  pool_at st p (map (block_of al) cs) (map (block_of al) cs).
Proof.
  intros [] Hp Ht. split; try done.
  - apply NoDup_fmap_2_strong; [|done]. by intros ? ? _ _ ->%block_of_inj.
  - exists []. by rewrite app_nil_r.
  - apply Forall_fmap. eapply Forall_impl; [apply Forall_and; split; [exact bd_blk0|exact bd_fresh0]|].
    cbn. intros c [(-> & _) [? _]]. lia.
  - by rewrite length_map.
  - intros a t. rewrite bd_track0. destruct (trackBlks h0) as [[a0 t0]|]; [|done]. cbn [option_map fst snd].
    intros [= <- <-]. destruct (Ht _ eq_refl) as (? & ? & _). split_and!; [done| |done].
    rewrite take_app_length'; [done|]. by rewrite length_reverse, !length_map.
Qed.

Lemma building_chunks st0 h0 cs st :
  building st0 h0 cs st -> map (chunk (blks st)) (map (block_of al) cs) = cs.
Proof.
  intros []. rewrite map_map. clear -bd_blk0. induction bd_blk0 as [|c l (H & _) _ IH]; cbn; [done|]. by f_equal.
Qed.

Lemma building_forget st0 h0 cs st : building st0 h0 cs st -> forget cs (contig st) = contig st0.
Proof.
  intros []. apply map_eq. intros k. rewrite forget_lookup, bd_contig0. destruct (decide (k ∈ cs)) as [Hk|]; [|done].
  rewrite Forall_forall in bd_fresh0. by destruct (bd_fresh0 k Hk) as [_ ->].
Qed.
End building.

Lemma pool_search_Some l t : forall i j, pool_search l t i = Some j ->
  exists k, j = i + Z.of_nat k /\ l !! k = Some t /\ forall k', (k' < k)%nat -> l !! k' <> Some t.
Proof.
  induction l as [|x l IH]; intros i j; cbn; [done|]. destruct (Z.eqb_spec x t) as [->|Hne].
  - intros [= ->]. exists 0%nat. split_and!; [lia|done|lia].
  - intros (k & -> & Hk & Hf)%IH. exists (S k). split_and!; [lia|done|].
    intros [|k'] ?; cbn; [congruence|]. apply Hf. lia.
Qed.
Lemma pool_search_None l t : forall i, pool_search l t i = None <-> t ∉ l.
Proof.
  induction l as [|x l IH]; intros i; cbn; [set_solver|]. destruct (Z.eqb_spec x t) as [->|Hne]; [set_solver|].
  rewrite IH. set_solver.
Qed.

(** What a creation that succeeds has made: the pool [p] of the blocks in the memory [cs] *)
(** Whether the blocks are tracked *)
Definition tracked (h : lac_mem_pool_hdr) : bool := match trackBlks h with Some _ => true | None => false end.

Record created (v2p : Z -> Z) (st : pools) (n sz al : Z) (trackMemory : bool) (p : Z) (cs : list Z) (st' : pools) : Prop := {
  cr_p : p <> 0;
  cr_p_fresh : p ∉ lac_mem_pools st;
  cr_table : exists slot, pool_search (lac_mem_pools st) 0 0 = Some slot /\
               lac_mem_pools st' = (lac_mem_pools st).[slot <- p];
  cr_len : len cs = n;
  cr_env : exists l, contig_env st = reverse cs ++ l;
  cr_contig : forall k, contig st' !! k =
    if decide (k ∈ cs) then Some (Lac_MemPoolGetElementRealSize sz al) else contig st !! k;
  cr_forget : forget cs (contig st') = contig st;
  cr_nodup : NoDup cs;
  cr_fresh : Forall (fun c => 0 < c /\ contig st !! c = None) cs;
  cr_pool : pool_at st' p (map (block_of al) cs) (map (block_of al) cs);
  cr_chunks : map (chunk (blks st')) (map (block_of al) cs) = cs;
  cr_blk : Forall (fun c => let b := blk (blks st') (block_of al c) in
             pMemAllocPtr b = c /\ physDataPtr b = v2p (c + add_size al) /\ pPoolID b = p /\ isInUse b = false) cs;
  cr_other : forall b, b ∉ map (block_of al) cs -> blks st' !! b = blks st !! b;
  cr_avail : availBlks (hdr st' p) = n;
  cr_ctr : ctr (stack (hdr st' p)) = n;
  cr_active : active (hdr st' p) = true;
  cr_sync : sync (hdr st' p) = 1;
  cr_size : blkSizeInBytes (hdr st' p) = sz /\ blkAlignmentInBytes (hdr st' p) = al;
  cr_tracked : tracked (hdr st' p) = trackMemory;
  cr_os : forget (os_parts p (hdr st' p)) (os_mem st') = os_mem st
}.

Definition same_memory (st st' : pools) : Prop :=
  lac_mem_pools st' = lac_mem_pools st /\ contig st' = contig st /\ os_mem st' = os_mem st.

Lemma table_restore (l : list Z) slot p : pool_search l 0 0 = Some slot -> (l.[slot <- p]).[slot <- 0] = l.
Proof.
  intros (k & -> & Hk & _)%pool_search_Some. unfold arr_set.
  rewrite list_insert_insert_eq. by apply list_insert_id; rewrite Z.add_0_l, Nat2Z.id.
Qed.

Section create_spec.
Context (v2p : Z -> Z) (n sz al : Z) (trackMemory : bool).
Hypothesis n_range : 0 <= n < 2 ^ 32.
Hypothesis al_range : 0 <= al < 2 ^ 32.
Hypothesis track_range : trackMemory = true -> 8 * n < 2 ^ 32.

(** The loop from a fresh header [h0] with an empty stack *)
Lemma create_tail st0 h0 p ok st1 :
  fresh_contig st0 -> hdrs st0 !! p = Some h0 -> p <> 0 ->
  stack h0 = init_stack -> numElementsInPool h0 = 0 -> availBlks h0 = 0 ->
  (forall t, trackBlks h0 = Some t -> t.1 <> 0 /\ t.1 <> p /\ n <= len (t.2)) ->
  create_loop v2p (Z.to_nat n) p 0 sz al st0 = (ok, st1) ->
  exists cs, building v2p p sz al st0 h0 cs st1 /\ (ok = true -> len cs = n) /\
    (exists l, contig_env st0 = reverse cs ++ l) /\
    pool_at st1 p (map (block_of al) cs) (map (block_of al) cs) /\
    option_map fst (trackBlks (hdr st1 p)) = option_map fst (trackBlks h0).
Proof.
  intros F Hh Hp Hs Hnum Hav Ht E.
  assert (hdr st0 p = h0) as EH by (unfold hdr; by rewrite Hh).
  assert (building v2p p sz al st0 h0 [] st0) as B0.
  { split; rewrite ?EH, ?Hs, ?Hnum, ?Hav; try apply NoDup_nil_2; try apply Forall_nil_2; try done.
    by destruct (trackBlks h0) as [[a t]|]. }
  eapply (create_loop_spec v2p p sz al al_range st0 h0 (Z.to_nat n) []) in E as (cs & B & Hev & Hle & Hl); [|done|cbn; lia| |done|done].
  2:{ intros t Et. destruct (Ht t Et) as (_ & _ & ?). cbn. lia. }
  assert (forall t, trackBlks h0 = Some t -> t.1 <> 0 /\ t.1 <> p /\ len cs <= len (t.2)) as Ht'.
  { intros t Et. destruct (Ht t Et) as (? & ? & ?). cbn in Hle. split_and!; [done..|lia]. }
  exists cs. split_and!; [done| |done|by eapply building_pool_at|].
  - intros Ho. rewrite Hl by done. cbn. lia.
  - rewrite (bd_track _ _ _ _ _ _ _ _ B). by destruct (trackBlks h0) as [[a t]|].
Qed.

Lemma os_alloc_spec size st a st' :
  LacMem_OsMemAlloc size st = (a, st') ->
  exists l, (st' = st <| os_env := l |> /\ a = 0) \/
    (a <> 0 /\ os_env st = a :: l /\ st' = (st <| os_env := l |>) <| os_mem := <[a := u32 size]> (os_mem st) |>).
Proof.
  unfold LacMem_OsMemAlloc. destruct (os_env st) as [|x l] eqn:E.
  - intros [= <- <-]. exists []. left. split; [|done]. destruct st. cbn in *. by subst.
  - destruct (Z.eqb_spec x 0); intros [= <- <-]; exists l; [by left|by right].
Qed.

Lemma fresh_os_head st a l :
  fresh_env st -> os_env st = a :: l -> a <> 0 ->
  (a ∉ lac_mem_pools st) /\ os_mem st !! a = None /\
  forall x, x ∈ l -> x <> 0 -> x <> a /\ os_mem st !! x = None.
Proof.
  intros [_ F3 F4] E. rewrite E in F3, F4. intros Ha. destruct (F3 a) as [? ?]; [set_solver|done|].
  split_and!; [done..|]. intros x Hx Hx0. split; [|apply F3; [set_solver|done]]. intros ->.
  apply list_elem_of_lookup in Hx as [i Hi]. by specialize (F4 0%nat (S i) a eq_refl Hi Hx0).
Qed.

(** What is left to do for the header [h], which the process memory [os] has been
    allocated for *)
Lemma create_rest st st0 h p slot ok st1 :
  fresh_env st -> contig st0 = contig st -> contig_env st0 = contig_env st -> blks st0 = blks st ->
  pool_search (lac_mem_pools st) 0 0 = Some slot -> lac_mem_pools st0 = (lac_mem_pools st).[slot <- p] ->
  hdrs st0 !! p = Some h -> p <> 0 -> p ∉ lac_mem_pools st ->
  stack h = init_stack -> numElementsInPool h = 0 -> availBlks h = 0 -> tracked h = trackMemory ->
  (forall t, trackBlks h = Some t -> t.1 <> 0 /\ t.1 <> p /\ n <= len (t.2)) ->
  forget (os_parts p h) (os_mem st0) = os_mem st ->
  create_loop v2p (Z.to_nat n) p 0 sz al st0 = (ok, st1) ->
  if ok then exists cs, created v2p st n sz al trackMemory p cs
    (set_hdr st1 p ((hdr st1 p) <| blkSizeInBytes := sz |> <| blkAlignmentInBytes := al |> <| active := true |> <| sync := 1 |>))
  else same_memory st ((Lac_MemPoolCleanUpInternal p st1) <| lac_mem_pools :=
         (lac_mem_pools (Lac_MemPoolCleanUpInternal p st1)).[slot <- 0] |>).
Proof.
  intros F HC HCE HB Hslot Htab Hh Hp Hpt Hs Hnum Hav Htm Ht Hos E.
  assert (fresh_contig st0) as F0.
  { destruct F as [[F1 F2] _ _]. split; rewrite HCE; [by rewrite HC|done]. }
  destruct (create_tail st0 h p ok st1) as (cs & B & Hl & Hev & PA & Htr); [done..|].
  assert (forall h', option_map fst (trackBlks h') = option_map fst (trackBlks h) -> os_parts p h' = os_parts p h) as OP.
  { intros h'. unfold os_parts. destruct (trackBlks h') as [[??]|], (trackBlks h) as [[??]|]; cbn; congruence. }
  destruct ok.
  - exists cs. set (st2 := set_hdr _ _ _). assert (hdr st2 p = (hdr st1 p) <| blkSizeInBytes := sz |>
      <| blkAlignmentInBytes := al |> <| active := true |> <| sync := 1 |>) as EH by apply hdr_set_eq.
    pose proof (building_chunks _ _ _ _ _ _ _ _ B) as BC. pose proof (building_forget _ _ _ _ _ _ _ _ B) as BF.
    destruct B, PA. split; rewrite ?EH; try done; try (by cbn; rewrite <- Hl); try (by rewrite <- HC).
    + exists slot. split; [done|]. cbn. congruence.
    + by rewrite <- HCE.
    + by split; rewrite ?EH.
    + intros b Hb. rewrite <- HB. by apply bd_other0.
    + rewrite <- Htm. unfold tracked. cbn. rewrite bd_track0. by destruct (trackBlks h).
    + rewrite OP by done. cbn. by rewrite bd_os0.
  - destruct (cleanup_spec st1 p _ _ PA) as (C1 & C2 & C3).
    assert (cleaned (hdr st1 p) (map (block_of al) cs) (map (block_of al) cs) = map (block_of al) cs) as EC.
    { unfold cleaned. by destruct (trackBlks (hdr st1 p)). }
    rewrite EC, (building_chunks _ _ _ _ _ _ _ _ B), (building_forget _ _ _ _ _ _ _ _ B) in C1.
    rewrite OP, (bd_os _ _ _ _ _ _ _ _ B), Hos in C2 by done. rewrite (bd_table _ _ _ _ _ _ _ _ B), Htab in C3.
    split_and!; cbn; [rewrite C3; by apply table_restore|congruence|done].
Qed.
Lemma os_free_ne a st : a <> 0 -> LacMem_OsMemFree a st = st <| os_mem := base.delete a (os_mem st) |>.
Proof. intros. unfold LacMem_OsMemFree. by rewrite (proj2 (Z.eqb_neq a 0)). Qed.

Lemma create_spec null name st ret id st' :
  fresh_env st -> Lac_MemPoolCreate v2p null name n sz al trackMemory st = (ret, id, st') ->
  (ret <> CPA_STATUS_SUCCESS /\ id = None /\ same_memory st st') \/
  (ret = CPA_STATUS_SUCCESS /\ exists p cs, id = Some p /\ created v2p st n sz al trackMemory p cs st').
Proof.
  intros F. unfold Lac_MemPoolCreate. destruct null; [intros [= <- <- <-]; by left|].
  destruct (pool_search (lac_mem_pools st) 0 0) as [slot|] eqn:Hs; [|intros [= <- <- <-]; by left].
  pose proof (table_restore _ _ 0 Hs) as R0. pose proof (fun q => table_restore _ _ q Hs) as RP.
  destruct (LacMem_OsMemAlloc _ st) as [p st1] eqn:EA.
  apply os_alloc_spec in EA as [l [[-> ->]|(Hp & El & ->)]].
  { cbn. intros [= <- <- <-]. left. split_and!; [done..|]. split_and!; [|done..]. cbn.
    rewrite <- R0 at 2. unfold arr_set. by rewrite list_insert_insert_eq. }
  destruct (fresh_os_head st p l F El Hp) as (Hpt & Hpo & Hne).
  rewrite (proj2 (Z.eqb_neq p 0)) by done.
  destruct name as [name|].
  2:{ rewrite os_free_ne by done. intros [= <- <- <-]. left. split_and!; [done..|].
      split_and!; cbn; [by rewrite RP|done|by apply delete_insert_id]. }
  destruct trackMemory eqn:ET.
  - destruct (LacMem_OsMemAlloc (8 * n) _) as [a st2] eqn:EA. cbn [andb].
    apply os_alloc_spec in EA as [l2 [[-> ->]|(Ha & El2 & ->)]].
    { cbn [Z.eqb]. rewrite os_free_ne by done. intros [= <- <- <-]. left. split_and!; [done..|].
      split_and!; cbn; [by rewrite RP|done|by apply delete_insert_id]. }
    cbn in El2. subst l. destruct (Hne a) as [Hap Hao]; [set_solver|done|].
    rewrite (proj2 (Z.eqb_neq a 0)) by done.
    destruct (create_loop _ _ _ _ _ _ _) as [ok st3] eqn:EL.
    eapply (create_rest st _ _ p slot) in EL;
      [|exact F|reflexivity|reflexivity|reflexivity|exact Hs|reflexivity|exact (lookup_insert_eq _ _ _)
       |exact Hp|exact Hpt|reflexivity|reflexivity|reflexivity|by rewrite ET| |]; cycle 1.
    { intros t [= <-]. cbn. split_and!; [done..|]. rewrite length_replicate. specialize (track_range eq_refl).
      rewrite u32_small by lia. rewrite Z.mul_comm, Z.div_mul by lia. lia. }
    { cbn. rewrite <- !forget_delete, forget_nil. apply map_eq. intros k.
      destruct (decide (k = a)) as [->|]; [by rewrite lookup_delete_eq|]. rewrite lookup_delete_ne by done.
      destruct (decide (k = p)) as [->|]; [by rewrite lookup_delete_eq|]. rewrite lookup_delete_ne by done.
      by rewrite !lookup_insert_ne. }
    destruct ok; cbn [negb]; intros [= <- <- <-]; [right|by left].
    split; [done|]. rewrite ET in EL. destruct EL as [cs C]. by exists p, cs.
  - cbn [andb]. destruct (create_loop _ _ _ _ _ _ _) as [ok st3] eqn:EL.
    eapply (create_rest st _ _ p slot) in EL;
      [|exact F|reflexivity|reflexivity|reflexivity|exact Hs|reflexivity|exact (lookup_insert_eq _ _ _)
       |exact Hp|exact Hpt|reflexivity|reflexivity|reflexivity|by rewrite ET| |]; cycle 1.
    { done. }
    { cbn. rewrite <- !forget_delete, forget_nil. by apply delete_insert_id. }
    destruct ok; cbn [negb]; intros [= <- <- <-]; [right|by left].
    split; [done|]. rewrite ET in EL. destruct EL as [cs C]. by exists p, cs.
Qed.
End create_spec.

(** * A pool after its creation *)

(** What the memory driver promises of the memory for the device, of which [real] bytes
    are asked for at a time: it lies apart from other memory, is contiguous for the
    device, and is aligned for it *)
Record contig_law (v2p : Z -> Z) (real al : Z) (st : pools) : Prop := {
  cl_apart : forall i j c c', contig_env st !! i = Some c -> contig_env st !! j = Some c' -> i <> j ->
    c <> 0 -> c' <> 0 -> c + real <= c' \/ c' + real <= c;
  cl_linear : forall c k, c ∈ contig_env st -> c <> 0 -> 0 <= k < real -> v2p (c + k) = v2p c + k;
  cl_aligned : forall c, c ∈ contig_env st -> c <> 0 -> v2p c mod al = 0
}.

(** Entries taken one after the other *)
Fixpoint drain (k : nat) (p : Z) (st : pools) : list Z * pools :=
  match k with
  | O => ([], st)
  | S k =>
      let '(e, st) := Lac_MemPoolEntryAlloc p st in
      let '(es, st) := drain k p st in (e :: es, st)
  end.

(** An entry of [sz] bytes: it lies in live memory behind its block, and the device sees
    it at the address in the block, which is aligned *)
Definition entry_ok (v2p : Z -> Z) (sz al : Z) (st st' : pools) (e : Z) : Prop :=
  exists c size, contig st' !! c = Some size /\ contig st !! c = None /\
    c <= e - sizeof_lac_mem_blk /\ e + sz <= c + size /\
    physDataPtr (blk (blks st') (e - sizeof_lac_mem_blk)) = v2p e /\ v2p e mod al = 0.

Lemma drain_spec p free : forall st,
  chain (blks st) (ptr (stack (hdr st p))) free -> NoDup free -> active (hdr st p) = true ->
  let '(es, st') := drain (length free) p st in
  es = map (fun b => b + sizeof_lac_mem_blk) free /\ (Lac_MemPoolEntryAlloc p st').1 = RETRY_PTR.
Proof.
  induction free as [|b free IH]; intros st Hc Hnd Ha; cbn [length drain map].
  { cbn in Hc. split; [done|]. unfold Lac_MemPoolEntryAlloc, pop. by rewrite Ha, Hc. }
  cbn in Hc. destruct Hc as (Hb & H0 & Hs & Hc). apply NoDup_cons in Hnd as [Hin Hnd].
  unfold Lac_MemPoolEntryAlloc at 1. unfold pop. rewrite Ha, Hb. cbn [negb].
  do 2 (rewrite (proj2 (Z.eqb_neq b 0)) by done; cbv beta iota zeta).
  match goal with |- context [drain _ p ?s] => set (st1 := s) end.
  specialize (IH st1). destruct (drain (length free) p st1) as [es st'].
  destruct IH as [-> ?]; [|done| |done].
  - subst st1. unfold hdr. cbn. rewrite lookup_insert_eq. cbn. by apply chain_insert.
  - subst st1. unfold hdr. cbn. rewrite lookup_insert_eq. done.
Qed.

Lemma add_size_multiple k : 0 <= k < 32 -> add_size (2 ^ k) mod 2 ^ k = 0.
Proof.
  intros Hk. unfold add_size, sizeof_lac_mem_blk. case_if; [by apply Z_mod_same_full|].
  assert (k < 6). { apply (Z.pow_lt_mono_r_iff 2); lia. }
  assert (k = 0 \/ k = 1 \/ k = 2 \/ k = 3 \/ k = 4 \/ k = 5) as HK by lia.
  by destruct HK as [->|[->|[->|[->|[->| ->]]]]].
Qed.

Lemma created_entry v2p st n sz k tm p cs st' c :
  created v2p st n sz (2 ^ k) tm p cs st' -> 0 <= k < 32 -> 0 <= sz -> sz + add_size (2 ^ k) < 2 ^ 32 -> 0 < sz ->
  contig_law v2p (sz + add_size (2 ^ k)) (2 ^ k) st -> c ∈ cs ->
  entry_ok v2p sz (2 ^ k) st st' (c + add_size (2 ^ k)).
Proof.
  intros [] Hk Hsz Hfit Hsz0 [L1 L2 L3] Hc.
  assert (0 <= 2 ^ k < 2 ^ 32) as HA by (split; [lia|apply Z.pow_lt_mono_r; lia]).
  pose proof (add_size_range _ HA) as HB. unfold sizeof_lac_mem_blk in HB.
  destruct cr_env0 as [l El]. assert (c ∈ contig_env st) as Hce.
  { rewrite El. apply elem_of_app. left. by apply elem_of_reverse. }
  rewrite Forall_forall in cr_fresh0. destruct (cr_fresh0 c Hc) as [Hc0 Hcn].
  rewrite Forall_forall in cr_blk0. destruct (cr_blk0 c Hc) as (_ & Hph & _).
  exists c, (Lac_MemPoolGetElementRealSize sz (2 ^ k)). rewrite cr_contig0, decide_True by done.
  rewrite real_size, u32_small by (unfold sizeof_lac_mem_blk in HB; lia). split_and!; [done..|unfold sizeof_lac_mem_blk; lia|lia| |].
  - by replace (c + add_size (2 ^ k) - sizeof_lac_mem_blk) with (block_of (2 ^ k) c) by (unfold block_of; lia).
  - rewrite L2 by (done || lia). rewrite Z.add_mod, (L3 c), add_size_multiple by (done || lia). done.
Qed.

(** C25. A creation that fails gives back all it has allocated and leaves the table of pools
    as it was.  One that succeeds has made a pool from which exactly the [n] entries asked
    for can be taken, after which [CPA_STATUS_RETRY] is returned: each lies in memory of its
    own behind its block, of the size asked for, and the device sees it at the aligned
    address that the block records. *)
Theorem pool_create (v2p : Z -> Z) (st : pools) (null : bool) (name : option (list Z)) (n sz k : Z) (trackMemory : bool)
    (Hn : 0 <= n < 2 ^ 32) (Hk : 0 <= k < 32) (Hsz : 0 < sz) (Hfit : sz + add_size (2 ^ k) < 2 ^ 32)
    (Htrack : trackMemory = true -> 8 * n < 2 ^ 32)
    (Hfresh : fresh_env st) (Hlaw : contig_law v2p (sz + add_size (2 ^ k)) (2 ^ k) st) :
  let '(ret, id, st') := Lac_MemPoolCreate v2p null name n sz (2 ^ k) trackMemory st in
  (ret <> CPA_STATUS_SUCCESS /\ id = None /\ same_memory st st') \/
  (ret = CPA_STATUS_SUCCESS /\ exists p es, id = Some p /\ len es = n /\
     p ∈ lac_mem_pools st' /\ Lac_MemPoolAvailableEntries p st' = n /\
     Forall (entry_ok v2p sz (2 ^ k) st st') es /\
     (forall i j e e', es !! i = Some e -> es !! j = Some e' -> i <> j -> e + sz <= e' \/ e' + sz <= e) /\
     let '(es', st'') := drain (Z.to_nat n) p st' in es' = es /\ (Lac_MemPoolEntryAlloc p st'').1 = RETRY_PTR).
Proof.
  destruct (Lac_MemPoolCreate _ _ _ _ _ _ _ st) as [[ret id] st'] eqn:E.
  assert (0 <= 2 ^ k < 2 ^ 32) as HA by (split; [lia|apply Z.pow_lt_mono_r; lia]).
  eapply create_spec in E; [|done..]. destruct E as [?|(-> & p & cs & -> & C)]; [by left|]. right. split; [done|].
  exists p, (map (fun c => c + add_size (2 ^ k)) cs).
  assert (length cs = Z.to_nat n) as Hl by (pose proof (cr_len _ _ _ _ _ _ _ _ _ C); lia).
  split_and!; [done|by rewrite length_map, <- (cr_len _ _ _ _ _ _ _ _ _ C)|..].
  - destruct (cr_table _ _ _ _ _ _ _ _ _ C) as (slot & (i & -> & Hi & _)%pool_search_Some & ->).
    unfold arr_set. rewrite Z.add_0_l, Nat2Z.id. apply list_elem_of_lookup. exists i.
    apply list_lookup_insert_eq. by eapply lookup_lt_Some.
  - unfold Lac_MemPoolAvailableEntries. rewrite (proj2 (Z.eqb_neq p 0)) by apply (cr_p _ _ _ _ _ _ _ _ _ C).
    rewrite (cr_avail _ _ _ _ _ _ _ _ _ C). by apply u32_small.
  - apply Forall_fmap, Forall_forall. intros c Hc. eapply created_entry; try done. lia.
  - intros i j e e'. rewrite !list_lookup_fmap. intros (c & Hc & ->)%fmap_Some (c' & Hc' & ->)%fmap_Some Hij.
    destruct (cr_env _ _ _ _ _ _ _ _ _ C) as [l El]. destruct Hlaw as [L1 _ _].
    pose proof (cr_fresh _ _ _ _ _ _ _ _ _ C) as Hf. rewrite Forall_forall in Hf.
    assert (forall i c, cs !! i = Some c -> 0 < c /\ contig_env st !! (length cs - S i)%nat = Some c /\ (i < length cs)%nat) as G.
    { intros i0 c0 H0. pose proof (lookup_lt_Some _ _ _ H0). split_and!; [|..|done].
      - apply (Hf c0). by eapply list_elem_of_lookup_2.
      - rewrite El, lookup_app_l, reverse_lookup by (rewrite ?length_reverse; lia). rewrite <- H0. f_equal. lia. }
    destruct (G _ _ Hc) as (? & Gc & ?), (G _ _ Hc') as (? & Gc' & ?).
    pose proof (add_size_range _ HA) as HB. unfold sizeof_lac_mem_blk in HB.
    destruct (L1 _ _ c c' Gc Gc'); lia.
  - pose proof (drain_spec p (map (block_of (2 ^ k)) cs) st') as D. rewrite length_map, Hl in D.
    destruct (drain _ p st') as [es st'']. destruct D as [-> ?].
    + apply (cr_pool _ _ _ _ _ _ _ _ _ C).
    + apply (cr_pool _ _ _ _ _ _ _ _ _ C).
    + apply (cr_active _ _ _ _ _ _ _ _ _ C).
    + split; [|done]. rewrite map_map. apply map_ext. intros c. unfold block_of. lia.
Qed.

(** A process with an empty table and memory from 4 KB on *)
Definition pool_boot : pools :=
  mk_pools (replicate 4 0) ∅ ∅ ∅ ∅ [1000; 2000; 3000; 5000] [4096; 8192; 12288].
Lemma pool_boot_fresh : fresh_env pool_boot.
Proof.
  split; [split|..].
  - intros c Hc _. cbn in Hc. split; [set_solver by lia|apply lookup_empty].
  - intros i j c Hi Hj _. eapply (NoDup_lookup [4096; 8192; 12288]); [|exact Hi|exact Hj].
    by apply (bool_decide_unpack _).
  - intros a Ha _. cbn in Ha. split; [apply lookup_empty|]. cbn. set_solver by lia.
  - intros i j c Hi Hj _. eapply (NoDup_lookup [1000; 2000; 3000; 5000]); [|exact Hi|exact Hj].
    by apply (bool_decide_unpack _).
Qed.
Lemma pool_create_witness :
  let '(ret, id, st') := Lac_MemPoolCreate (fun a => a) false (Some [97]) 2 100 (2 ^ 6) true pool_boot in
  (ret <> CPA_STATUS_SUCCESS /\ id = None /\ same_memory pool_boot st') \/
  (ret = CPA_STATUS_SUCCESS /\ exists p es, id = Some p /\ len es = 2 /\
     p ∈ lac_mem_pools st' /\ Lac_MemPoolAvailableEntries p st' = 2 /\
     Forall (entry_ok (fun a => a) 100 (2 ^ 6) pool_boot st') es /\
     (forall i j e e', es !! i = Some e -> es !! j = Some e' -> i <> j -> e + 100 <= e' \/ e' + 100 <= e) /\
     let '(es', st'') := drain (Z.to_nat 2) p st' in es' = es /\ (Lac_MemPoolEntryAlloc p st'').1 = RETRY_PTR).
Proof.
  apply (pool_create (fun a => a) pool_boot false (Some [97]) 2 100 6 true); try done; try lia.
  - exact pool_boot_fresh.
  - split.
    + intros i j c c' Hi Hj Hij. change (100 + add_size (2 ^ 6)) with 164. cbn in Hi, Hj.
      destruct i as [|[|[|i]]], j as [|[|[|j]]]; cbn in Hi, Hj; simplify_eq; lia.
    + done.
    + intros c Hc _. cbn in Hc. set_solver.
Defined.
