(* ===== verification/PoolSys.v ===== *)
(** * Memory pools under concurrency

    [Lac_MemPoolEntryAlloc] and [Lac_MemPoolEntryFree] step by step, for any number of
    threads that interleave on one pool.  Every access to memory that another thread can
    see is a step of its own.  The 128-bit load of the top of the stack is not atomic in
    C, so its halves are loaded one by one, in either order; the compare and swap is one
    step.  Accesses are sequentially consistent.

    A run of the system has a trace of events: calls, returns, and between them the step
    at which the operation takes effect.  The theorems show that every trace is one of an
    atomic pool, that no block is ever in two hands, that some operation takes effect
    within a bounded number of steps, and that creation and destruction around any run
    balance. *)

From S2P Require Import Prelude MemPool.

(** * Threads *)

(** The half of the top of the stack that has been loaded *)
Inductive half := HalfCtr (c : Z) | HalfPtr (p : Z).

(** Where a thread is in the code, with its local variables *)
Inductive thread :=
| Idle
| AllocStart                                  (** [Lac_MemPoolEntryAlloc] at the test of [active] *)
| PopStart                                    (** [pop] at the head of its loop *)
| PopHalf (x : half)
| PopLoaded (old_top : pointer_t)
| PopReady (old_top new_top : pointer_t)      (** [pop] at its compare and swap *)
| AllocCount (b : Z)                          (** [b] is popped, [availBlks] not changed *)
| AllocMark (b : Z)                           (** [isInUse] not changed *)
| AllocDone (b : Z)                           (** the return of the entry of [b] *)
| AllocFail (r : Z)                           (** the return of NULL or [CPA_STATUS_RETRY] *)
| FreeMark (b : Z)                            (** [Lac_MemPoolEntryFree] before [isInUse] changes *)
| PushStart (b : Z)                           (** [push] at the head of its loop *)
| PushHalf (b : Z) (x : half)
| PushLoaded (b : Z) (old_top : pointer_t)
| PushReady (b : Z) (old_top new_top : pointer_t)
| FreeCount                                   (** pushed, [availBlks] not changed *)
| FreeDone.

(** Calls with their arguments, effects and returns with their results *)
Inductive event :=
| CallAlloc | CallFree (pEntry : Z)
| LinActive (a : bool) | LinPop (b : Z) | LinEmpty | LinPush (b : Z)
| RetAlloc (r : Z) | RetFree.

#[global] Instance pointer_eq_dec : EqDecision pointer_t.
Proof. solve_decision. Defined.

(** [__sync_bool_compare_and_swap] on the top of the stack *)
Definition cas (h : lac_mem_pool_hdr) (old new : pointer_t) : bool * lac_mem_pool_hdr :=
  if decide (stack h = old) then (true, h <| stack := new |>) else (false, h).

(** [empty p] is the effect of loading a top that is NULL *)
Definition empty (p : Z) : option event := if p =? 0 then Some LinEmpty else None.

(** One step of a thread in the pool [p]: [None] is an access to memory that is no block
    of the pool; [first] says that the counter is loaded before the pointer. *)
Definition thread_step (p : Z) (first : bool) (h : lac_mem_pool_hdr) (m : blocks) (t : thread)
    : option (thread * lac_mem_pool_hdr * blocks * option event) :=
  match t with
  | Idle => Some (Idle, h, m, None)
  | AllocStart =>
      if active h then Some (PopStart, h, m, Some (LinActive true))
      else Some (AllocFail 0, h, m, Some (LinActive false))
  | PopStart =>
      if first then Some (PopHalf (HalfCtr (ctr (stack h))), h, m, None)
      else Some (PopHalf (HalfPtr (ptr (stack h))), h, m, empty (ptr (stack h)))
  | PopHalf (HalfCtr c) => Some (PopLoaded (mk_pointer c (ptr (stack h))), h, m, empty (ptr (stack h)))
  | PopHalf (HalfPtr q) => Some (PopLoaded (mk_pointer (ctr (stack h)) q), h, m, None)
  | PopLoaded old =>
      if ptr old =? 0 then Some (AllocFail RETRY_PTR, h, m, None)
      else match m !! ptr old with
           | None => None
           | Some b => Some (PopReady old (mk_pointer (u64 (ctr old + 1)) (pNext b)), h, m, None)
           end
  | PopReady old new =>
      let '(ok, h) := cas h old new in
      if ok then Some (AllocCount (ptr old), h, m, Some (LinPop (ptr old))) else Some (PopStart, h, m, None)
  | AllocCount b => Some (AllocMark b, h <| availBlks := u64 (availBlks h - 1) |>, m, None)
  | AllocMark b => Some (AllocDone b, h, set_isInUse m b true, None)
  | AllocDone b => Some (Idle, h, m, Some (RetAlloc (b + sizeof_lac_mem_blk)))
  | AllocFail r => Some (Idle, h, m, Some (RetAlloc r))
  | FreeMark b =>
      match m !! b with
      | None => None
      | Some x => if pPoolID x =? p then Some (PushStart b, h, set_isInUse m b false, None) else None
      end
  | PushStart b =>
      if first then Some (PushHalf b (HalfCtr (ctr (stack h))), h, m, None)
      else Some (PushHalf b (HalfPtr (ptr (stack h))), h, m, None)
  | PushHalf b (HalfCtr c) => Some (PushLoaded b (mk_pointer c (ptr (stack h))), h, m, None)
  | PushHalf b (HalfPtr q) => Some (PushLoaded b (mk_pointer (ctr (stack h)) q), h, m, None)
  | PushLoaded b old => Some (PushReady b old (mk_pointer (u64 (ctr old + 1)) b), h, set_link m b (ptr old), None)
  | PushReady b old new =>
      let '(ok, h) := cas h old new in
      if ok then Some (FreeCount, h, m, Some (LinPush b)) else Some (PushStart b, h, m, None)
  | FreeCount => Some (FreeDone, h <| availBlks := u64 (availBlks h + 1) |>, m, None)
  | FreeDone => Some (Idle, h, m, Some RetFree)
  end.

(** * The system *)

(** A pool, its blocks, the threads, and the blocks whose entries clients hold *)
Record sys := mk_sys {
  s_pid : Z; s_hdr : lac_mem_pool_hdr; s_blks : blocks; s_threads : list thread; s_owned : list Z
}.

Inductive label := LThread (i : nat) (e : option event) | LActive (a : bool).

(** A client that returns from an allocation holds the entry. *)
Definition gained (t : thread) : list Z := match t with AllocDone b => [b] | _ => [] end.

Inductive sys_step (s : sys) : label -> sys -> Prop :=
| step_alloc i l1 l2 :
    s_threads s = l1 ++ Idle :: l2 -> i = length l1 ->
    sys_step s (LThread i (Some CallAlloc)) (mk_sys (s_pid s) (s_hdr s) (s_blks s) (l1 ++ AllocStart :: l2) (s_owned s))
| step_free i l1 l2 b o1 o2 :
    s_threads s = l1 ++ Idle :: l2 -> i = length l1 -> s_owned s = o1 ++ b :: o2 ->
    sys_step s (LThread i (Some (CallFree (b + sizeof_lac_mem_blk))))
      (mk_sys (s_pid s) (s_hdr s) (s_blks s) (l1 ++ FreeMark b :: l2) (o1 ++ o2))
| step_run i first l1 t l2 t' h' m' e :
    s_threads s = l1 ++ t :: l2 -> i = length l1 -> t <> Idle ->
    thread_step (s_pid s) first (s_hdr s) (s_blks s) t = Some (t', h', m', e) ->
    sys_step s (LThread i e) (mk_sys (s_pid s) h' m' (l1 ++ t' :: l2) (gained t ++ s_owned s))
| step_enable :
    sys_step s (LActive true) (mk_sys (s_pid s) (s_hdr s) <| active := true |> <| sync := 1 |> (s_blks s) (s_threads s) (s_owned s))
| step_disable :
    sys_step s (LActive false) (mk_sys (s_pid s) (s_hdr s) <| active := false |> (s_blks s) (s_threads s) (s_owned s)).

(** Runs with their traces *)
Inductive run (s : sys) : list label -> sys -> Prop :=
| run_nil : run s [] s
| run_snoc tr l s1 s2 : run s tr s1 -> sys_step s1 l s2 -> run s (tr ++ [l]) s2.

(** * The atomic pool

    What the calls promise: an allocation takes the block at the top of a stack of free
    blocks, in one step between its call and its return, and returns its entry; a free puts
    its block on top, in one step. *)

(** How far the operation of a thread is *)
Inductive pend := PIdle | PAlloc | PPop | PRes (r : Z) | PFree (b : Z) | PFreed.

Record apool := mk_apool { a_free : list Z; a_active : bool; a_owned : list Z; a_pend : list pend }.
#[global] Instance eta_apool : Eta apool := fun r => mk_apool (a_free r) (a_active r) (a_owned r) (a_pend r).

#[global] Instance event_eq_dec : EqDecision event.
Proof. solve_decision. Defined.

Definition set_pend (a : apool) (i : nat) (q : pend) : apool := a <| a_pend := <[i := q]> (a_pend a) |>.

Definition atomic_event (a : apool) (i : nat) (q : pend) (e : event) : option apool :=
  match q, e with
  | PIdle, CallAlloc => Some (set_pend a i PAlloc)
  | PIdle, CallFree x =>
      let b := x - sizeof_lac_mem_blk in
      if decide (b ∈ a_owned a)
      then Some (set_pend (a <| a_owned := base.filter (fun y => y <> b) (a_owned a) |>) i (PFree b)) else None
  | PAlloc, LinActive v =>
      if decide (v = a_active a) then Some (set_pend a i (if v then PPop else PRes 0)) else None
  | PPop, LinPop b =>
      match a_free a with
      | x :: l => if x =? b then Some (set_pend (a <| a_free := l |>) i (PRes (b + sizeof_lac_mem_blk))) else None
      | [] => None
      end
  | PPop, LinEmpty => match a_free a with [] => Some (set_pend a i (PRes RETRY_PTR)) | _ => None end
  | PRes r, RetAlloc r' =>
      if r =? r' then
        let a := set_pend a i PIdle in
        Some (if (r =? 0) || (r =? RETRY_PTR) then a else a <| a_owned := (r - sizeof_lac_mem_blk) :: a_owned a |>)
      else None
  | PFree b, LinPush b' => if b =? b' then Some (set_pend (a <| a_free := b :: a_free a |>) i PFreed) else None
  | PFreed, RetFree => Some (set_pend a i PIdle)
  | _, _ => None
  end.

Definition atomic_step (a : apool) (l : label) : option apool :=
  match l with
  | LActive v => Some (a <| a_active := v |>)
  | LThread i None => Some a
  | LThread i (Some e) => match a_pend a !! i with Some q => atomic_event a i q e | None => None end
  end.

Fixpoint atomic_run (a : apool) (tr : list label) : option apool :=
  match tr with
  | [] => Some a
  | l :: tr => match atomic_step a l with Some a => atomic_run a tr | None => None end
  end.

Lemma atomic_run_snoc tr l a : atomic_run a (tr ++ [l]) = (atomic_run a tr ≫= fun a => atomic_step a l).
Proof. revert a. induction tr as [|x tr IH]; intros a; cbn; [by destruct (atomic_step a l)|]. by destruct (atomic_step a x). Qed.

Lemma filter_ne_split (o1 o2 : list Z) b :
  NoDup (o1 ++ b :: o2) -> base.filter (fun y => y <> b) (o1 ++ b :: o2) = o1 ++ o2.
Proof.
  intros ND.
  assert (forall l : list Z, b ∉ l -> base.filter (fun y => y <> b) l = l) as F.
  { intros l Hl. induction l as [|x l IH]; [done|]. rewrite filter_cons_True by set_solver. by rewrite IH by set_solver. }
  apply NoDup_app in ND as (_ & H1 & [H2 _]%NoDup_cons).
  rewrite filter_app, filter_cons_False by tauto. rewrite !F; [done|done|]. intros Hin. by apply (H1 b Hin), list_elem_of_here.
Qed.

(** * The invariant *)

(** The block in the hand of a thread *)
Definition hand (t : thread) : list Z :=
  match t with
  | AllocCount b | AllocMark b | AllocDone b | FreeMark b | PushStart b | PushHalf b _ | PushLoaded b _
  | PushReady b _ _ => [b]
  | _ => []
  end.

(** What a thread still has to do to [availBlks] *)
Definition owes (t : thread) : Z := match t with AllocCount _ => -1 | FreeCount => 1 | _ => 0 end.

Definition pend_of (t : thread) : pend :=
  match t with
  | Idle => PIdle
  | AllocStart => PAlloc
  | PopStart | PopHalf (HalfCtr _) | PopReady _ _ => PPop
  | PopHalf (HalfPtr q) => if q =? 0 then PRes RETRY_PTR else PPop
  | PopLoaded old => if ptr old =? 0 then PRes RETRY_PTR else PPop
  | AllocCount b | AllocMark b | AllocDone b => PRes (b + sizeof_lac_mem_blk)
  | AllocFail r => PRes r
  | FreeMark b | PushStart b | PushHalf b _ | PushLoaded b _ | PushReady b _ _ => PFree b
  | FreeCount | FreeDone => PFreed
  end.

Section invariant.
Context (p : Z) (B : list Z).

(** What a thread has loaded is no newer than the top, and right if the top is still it. *)
Definition thread_ok (s : pointer_t) (m : blocks) (t : thread) : Prop :=
  match t with
  | PopHalf (HalfCtr c) | PushHalf _ (HalfCtr c) => c <= ctr s
  | PopHalf (HalfPtr q) => q = 0 \/ q ∈ B
  | PopLoaded old => ctr old <= ctr s /\ (ptr old = 0 \/ ptr old ∈ B)
  | PopReady old new =>
      ctr old <= ctr s /\ ptr old <> 0 /\ (old = s -> new = mk_pointer (u64 (ctr s + 1)) (pNext (blk m (ptr s))))
  | PushLoaded _ old => ctr old <= ctr s
  | PushReady b old new => ctr old <= ctr s /\ pNext (blk m b) = ptr old /\ new = mk_pointer (u64 (ctr old + 1)) b
  | AllocFail r => r = 0 \/ r = RETRY_PTR
  | _ => True
  end.

(** The system with [free] on its stack, after at most [n] changes of the top *)
Record sys_inv (n : Z) (free : list Z) (s : sys) : Prop := {
  si_pid : s_pid s = p;
  si_chain : chain (s_blks s) (ptr (stack (s_hdr s))) free;
  si_perm : B ≡ₚ free ++ s_owned s ++ concat (map hand (s_threads s));
  si_ctr : 0 <= ctr (stack (s_hdr s)) <= n;
  si_threads : Forall (thread_ok (stack (s_hdr s)) (s_blks s)) (s_threads s);
  si_avail : availBlks (s_hdr s) = u64 (len free - foldr Z.add 0 (map owes (s_threads s)));
  si_blks : Forall (fun b => exists x, s_blks s !! b = Some x /\ pPoolID x = p) B
}.

Hypothesis B_nodup : NoDup B.
Hypothesis B_range : Forall (fun b => 0 < b < 2 ^ 57) B.

Lemma inv_elem n free s b :
  sys_inv n free s -> b ∈ free ++ s_owned s ++ concat (map hand (s_threads s)) -> b ∈ B.
Proof. intros [] Hb. by rewrite si_perm0. Qed.

Lemma inv_top n free s :
  sys_inv n free s -> ptr (stack (s_hdr s)) = 0 \/ exists l, free = ptr (stack (s_hdr s)) :: l.
Proof. intros []. destruct free as [|x l]; cbn in si_chain0; [by left|]. right. exists l. by destruct si_chain0 as (-> & _). Qed.

(** A thread keeps what it has loaded when the top grows or stays, and the links outside
    the hand of the thread that runs do not change. *)
Lemma thread_ok_frame s s' m m' (H : list Z) t :
  (s' = s \/ ctr s < ctr s') -> (forall x, x ∉ H -> pNext (blk m' x) = pNext (blk m x)) ->
  (ptr s <> 0 -> ptr s ∉ H) -> (forall x, x ∈ hand t -> x ∉ H) -> thread_ok s m t -> thread_ok s' m' t.
Proof.
  intros Hs Hm Htop Hh. destruct t; cbn; try done; try (destruct x; cbn; try done); try (destruct Hs as [->|]; lia).
  - intros [? ?]. split; [|done]. destruct Hs as [->|]; lia.
  - intros (? & ? & Hn). split_and!; [destruct Hs as [->|]; lia|done|]. intros ->. destruct Hs as [->|]; [|lia].
    rewrite Hn by done. by rewrite Hm by auto.
  - intros (? & ? & ?). split_and!; [destruct Hs as [->|]; lia| |done]. rewrite Hm; [done|]. apply Hh. set_solver.
Qed.

Lemma perm_hands (l1 l2 : list thread) t (X : list Z) :
  X ++ concat (map hand (l1 ++ t :: l2)) ≡ₚ (X ++ hand t) ++ concat (map hand (l1 ++ l2)).
Proof.
  rewrite !map_app, !concat_app. cbn.
  rewrite (Permutation_app_swap_app (concat (map hand l1)) (hand t)). by rewrite <- !app_assoc.
Qed.

Lemma owes_split l1 t l2 :
  foldr Z.add 0 (map owes (l1 ++ t :: l2)) = owes t + foldr Z.add 0 (map owes (l1 ++ l2)).
Proof. induction l1 as [|x l1 IH]; cbn; [done|]. rewrite IH. lia. Qed.

(** The invariant after a thread has gone from [t] to [t'] *)
Lemma inv_local n n' free free' s l1 t t' l2 h' m' owned' :
  sys_inv n free s -> s_threads s = l1 ++ t :: l2 ->
  chain m' (ptr (stack h')) free' ->
  free' ++ owned' ++ hand t' ≡ₚ free ++ s_owned s ++ hand t ->
  0 <= ctr (stack h') <= n' ->
  (stack h' = stack (s_hdr s) \/ ctr (stack (s_hdr s)) < ctr (stack h')) ->
  (forall x, x ∉ hand t -> pNext (blk m' x) = pNext (blk (s_blks s) x)) ->
  thread_ok (stack h') m' t' ->
  availBlks h' = u64 (availBlks (s_hdr s) + (len free' - len free) - owes t' + owes t) ->
  (forall b x, s_blks s !! b = Some x -> exists x', m' !! b = Some x' /\ pPoolID x' = pPoolID x) ->
  sys_inv n' free' (mk_sys (s_pid s) h' m' (l1 ++ t' :: l2) owned').
Proof.
  intros I Ht Hc Hp Hctr Hs Hm Hok Hav Hb. pose proof (inv_top _ _ _ I) as Htop. destruct I.
  rewrite Ht in *. rewrite app_assoc, perm_hands in si_perm0.
  assert (NoDup (((free ++ s_owned s) ++ hand t) ++ concat (map hand (l1 ++ l2)))) as ND by by rewrite <- si_perm0.
  split; cbn; try done.
  - rewrite app_assoc, perm_hands, <- (app_assoc free'), Hp. by rewrite (app_assoc free).
  - assert (forall t2, t2 ∈ l1 ++ l2 -> thread_ok (stack (s_hdr s)) (s_blks s) t2 -> thread_ok (stack h') m' t2) as FR.
    { intros t2 Hin. apply (thread_ok_frame _ _ _ _ (hand t)); [done|done| |].
      - intros H0 H1. destruct Htop as [?|[l ->]]; [done|]. rewrite <- !app_assoc in ND.
        cbn in ND. apply NoDup_cons in ND as [ND _]. apply ND. set_solver.
      - intros x H1 H2. apply NoDup_app in ND as (_ & ND & _). apply (ND x); [set_solver|].
        apply list_elem_of_In, in_concat. exists (hand t2). split; [|by apply list_elem_of_In].
        apply list_elem_of_In. by apply list_elem_of_fmap_2. }
    apply Forall_app in si_threads0 as [F1 F2]. apply Forall_cons in F2 as [_ F2].
    apply Forall_app. split; [|apply Forall_cons; split; [done|]]; rewrite Forall_forall in *; intros t2 Hin;
      apply FR; auto; set_solver.
  - rewrite Hav, si_avail0, !owes_split. unfold u64.
    replace (len free' - (owes t' + foldr Z.add 0 (map owes (l1 ++ l2)))) with
      (len free - (owes t + foldr Z.add 0 (map owes (l1 ++ l2))) + (len free' - len free - owes t' + owes t)) by lia.
    rewrite <- (Zplus_mod_idemp_l (len free - _)). f_equal. lia.
  - eapply Forall_impl; [exact si_blks0|]. cbn. intros b (x & Hx & <-). by eapply Hb.
Qed.
(** The atomic pool that a state stands for *)
Definition abs (free : list Z) (s : sys) : apool :=
  mk_apool free (active (s_hdr s)) (s_owned s) (map pend_of (s_threads s)).

Lemma pend_at l1 t l2 : map pend_of (l1 ++ t :: l2) !! length l1 = Some (pend_of t).
Proof. rewrite map_app, lookup_app_r, length_map, Nat.sub_diag by (rewrite length_map; lia). done. Qed.
Lemma pend_set l1 t t' l2 : <[length l1 := pend_of t']> (map pend_of (l1 ++ t :: l2)) = map pend_of (l1 ++ t' :: l2).
Proof.
  rewrite !map_app. cbn. rewrite <- (length_map pend_of l1) at 1. rewrite <- (Nat.add_0_r (length _)).
  by rewrite insert_app_r.
Qed.
Lemma pend_same l1 t t' l2 : pend_of t' = pend_of t -> map pend_of (l1 ++ t' :: l2) = map pend_of (l1 ++ t :: l2).
Proof. intros E. rewrite !map_app. cbn. by rewrite E. Qed.

Lemma inv_thread n free s l1 t l2 :
  sys_inv n free s -> s_threads s = l1 ++ t :: l2 -> thread_ok (stack (s_hdr s)) (s_blks s) t.
Proof. intros [] E. rewrite E in si_threads0. by apply Forall_app in si_threads0 as [_ [? _]%Forall_cons]. Qed.
Lemma inv_hand n free s l1 t l2 b :
  sys_inv n free s -> s_threads s = l1 ++ t :: l2 -> hand t = [b] ->
  b ∈ B /\ (b ∉ free) /\ 0 < b < 2 ^ 57 /\ exists x, s_blks s !! b = Some x /\ pPoolID x = p.
Proof.
  intros I E Hb. assert (b ∈ B) as Hin.
  { eapply inv_elem; [done|]. rewrite E, map_app, concat_app. cbn. rewrite Hb. set_solver. }
  destruct I. rewrite Forall_forall in B_range, si_blks0. split_and!; [done| |by apply B_range..|by apply si_blks0].
  intros Hf. rewrite E, map_app, concat_app in si_perm0. cbn in si_perm0. rewrite Hb in si_perm0.
  assert (NoDup (free ++ s_owned s ++ concat (map hand l1) ++ [b] ++ concat (map hand l2))) as ND by by rewrite <- si_perm0.
  apply NoDup_app in ND as (_ & ND & _). apply (ND b); [done|set_solver].
Qed.

(** A step that changes no more than the thread and the flag [active] *)
Lemma inv_silent n free s l1 t t' l2 h' :
  sys_inv n free s -> s_threads s = l1 ++ t :: l2 -> stack h' = stack (s_hdr s) -> availBlks h' = availBlks (s_hdr s) ->
  hand t' = hand t -> owes t' = owes t -> thread_ok (stack (s_hdr s)) (s_blks s) t' ->
  sys_inv (n + 1) free (mk_sys (s_pid s) h' (s_blks s) (l1 ++ t' :: l2) (s_owned s)).
Proof.
  intros I E Hs Ha Hh Ho Hok. eapply inv_local; [done|done| | | | | | | |]; rewrite ?Hs, ?Hh, ?Ha; try done.
  - apply I.
  - pose proof (si_ctr _ _ _ I). lia.
  - by left.
  - rewrite Ho, (si_avail _ _ _ I). replace (_ + _ - _ + _) with (u64 (len free - foldr Z.add 0 (map owes (s_threads s)))) by lia.
    symmetry. apply u64_small, u64_range.
  - intros b x Hx. by exists x.
Qed.
(** A step with label [l] keeps the invariant and is one of the atomic pool. *)
Definition simulates (n : Z) (free : list Z) (s : sys) (l : label) (s' : sys) : Prop :=
  exists free', sys_inv (n + 1) free' s' /\ atomic_step (abs free s) l = Some (abs free' s').

Section step.
Context (n : Z) (free : list Z) (s : sys) (l1 l2 : list thread).
Hypothesis I : sys_inv n free s.
Hypothesis n_small : n + 1 < 2 ^ 64.
Abbreviation next h' m' t' owned' := (mk_sys (s_pid s) h' m' (l1 ++ t' :: l2) owned').

Lemma sim_silent t t' :
  s_threads s = l1 ++ t :: l2 -> hand t' = hand t -> owes t' = owes t -> pend_of t' = pend_of t ->
  thread_ok (stack (s_hdr s)) (s_blks s) t' ->
  simulates n free s (LThread (length l1) None) (next (s_hdr s) (s_blks s) t' (s_owned s)).
Proof.
  intros E Hh Ho Hp Hok. exists free. split; [by eapply inv_silent|]. unfold abs. cbn.
  by rewrite E, (pend_same l1 t t').
Qed.

Lemma sim_event t t' e h' :
  s_threads s = l1 ++ t :: l2 -> stack h' = stack (s_hdr s) -> availBlks h' = availBlks (s_hdr s) ->
  active h' = active (s_hdr s) -> hand t' = hand t -> owes t' = owes t ->
  thread_ok (stack (s_hdr s)) (s_blks s) t' ->
  atomic_event (abs free s) (length l1) (pend_of t) e = Some (set_pend (abs free s) (length l1) (pend_of t')) ->
  simulates n free s (LThread (length l1) (Some e)) (next h' (s_blks s) t' (s_owned s)).
Proof.
  intros E Hs Ha Hact Hh Ho Hok Hat. exists free. split; [by eapply inv_silent|]. cbn [atomic_step abs a_pend].
  rewrite E, pend_at, Hat. unfold set_pend, abs. cbn. by rewrite E, pend_set, Hact.
Qed.

Lemma top_elem : ptr (stack (s_hdr s)) = 0 \/ ptr (stack (s_hdr s)) ∈ B.
Proof.
  destruct (inv_top _ _ _ I) as [?|[l E]]; [by left|right]. eapply inv_elem; [exact I|]. rewrite E at 1. set_solver.
Qed.

Lemma top_free : ptr (stack (s_hdr s)) = 0 -> free = [].
Proof. intros E. by apply (chain_ptr (s_blks s) (ptr (stack (s_hdr s)))); [apply I|]. Qed.

(** Loading the pointer of the top in [pop] *)
Lemma sim_load t t' :
  s_threads s = l1 ++ t :: l2 -> hand t' = hand t -> owes t' = owes t -> pend_of t = PPop ->
  pend_of t' = (if ptr (stack (s_hdr s)) =? 0 then PRes RETRY_PTR else PPop) ->
  thread_ok (stack (s_hdr s)) (s_blks s) t' ->
  simulates n free s (LThread (length l1) (empty (ptr (stack (s_hdr s))))) (next (s_hdr s) (s_blks s) t' (s_owned s)).
Proof.
  intros E Hh Ho Hp Hp' Hok. unfold empty. destruct (Z.eqb_spec (ptr (stack (s_hdr s))) 0) as [E0|].
  - eapply (sim_event t); try done. rewrite Hp, Hp'. cbn. by rewrite (top_free E0).
  - apply (sim_silent t); try done. congruence.
Qed.

Lemma cas_case h old new ok h' : cas h old new = (ok, h') ->
  (ok = true /\ stack h = old /\ h' = h <| stack := new |>) \/ (ok = false /\ h' = h).
Proof. unfold cas. destruct (decide _); intros [= <- <-]; auto. Qed.

Lemma sim_pop_cas old new h' :
  s_threads s = l1 ++ PopReady old new :: l2 -> stack (s_hdr s) = old -> h' = (s_hdr s) <| stack := new |> ->
  simulates n free s (LThread (length l1) (Some (LinPop (ptr old)))) (next h' (s_blks s) (AllocCount (ptr old)) (s_owned s)).
Proof.
  intros E Ho ->. pose proof (inv_thread _ _ _ _ _ _ I E) as (_ & Hz & Hn). specialize (Hn (eq_sym Ho)). subst old.
  destruct (inv_top _ _ _ I) as [?|[l El]]; [done|]. pose proof (si_chain _ _ _ I) as Hc. rewrite El in Hc.
  destruct Hc as (_ & _ & _ & Hc). pose proof (si_ctr _ _ _ I) as Hctr.
  assert (u64 (ctr (stack (s_hdr s)) + 1) = ctr (stack (s_hdr s)) + 1) as Eu by (apply u64_small; lia).
  exists l. split.
  - eapply (inv_local n (n + 1) free l); [exact I|exact E|..]; cbn -[Z.of_nat].
    + by rewrite Hn.
    + rewrite El, app_nil_r, (app_assoc l), <- Permutation_cons_append. done.
    + rewrite Hn. cbn. lia.
    + right. rewrite Hn. cbn. lia.
    + done.
    + done.
    + rewrite El. cbn [length]. replace (_ + _ - _ + _) with (availBlks (s_hdr s)) by lia.
      rewrite (si_avail _ _ _ I). symmetry. apply u64_small, u64_range.
    + intros b x Hx. by exists x.
  - cbn [atomic_step abs a_pend]. rewrite E, pend_at. cbn [pend_of atomic_event abs a_free]. rewrite El at 1.
    rewrite Z.eqb_refl. unfold set_pend, abs. cbn.
    by rewrite E, <- (pend_set l1 (PopReady (stack (s_hdr s)) new) (AllocCount (ptr (stack (s_hdr s)))) l2).
Qed.

Lemma sim_push_cas b old new h' :
  s_threads s = l1 ++ PushReady b old new :: l2 -> stack (s_hdr s) = old -> h' = (s_hdr s) <| stack := new |> ->
  simulates n free s (LThread (length l1) (Some (LinPush b))) (next h' (s_blks s) FreeCount (s_owned s)).
Proof.
  intros E Ho ->. pose proof (inv_thread _ _ _ _ _ _ I E) as (_ & Hl & ->). subst old.
  destruct (inv_hand _ _ _ _ _ _ b I E eq_refl) as (_ & Hf & Hb & x & Hx & _).
  pose proof (si_ctr _ _ _ I) as Hctr.
  assert (u64 (ctr (stack (s_hdr s)) + 1) = ctr (stack (s_hdr s)) + 1) as Eu by (apply u64_small; lia).
  exists (b :: free). split.
  - eapply (inv_local n (n + 1) free (b :: free)); [exact I|exact E|..]; cbn -[Z.of_nat].
    + split_and!; [done|lia|by exists x|]. rewrite Hl. apply I.
    + rewrite app_nil_r. rewrite (app_assoc free), <- Permutation_cons_append. done.
    + lia.
    + right. lia.
    + done.
    + done.
    + rewrite (si_avail _ _ _ I). replace (_ + _ - _ + _) with
        (u64 (len free - foldr Z.add 0 (map owes (s_threads s)))) by lia. symmetry. apply u64_small, u64_range.
    + intros b' x' Hx'. by exists x'.
  - cbn [atomic_step abs a_pend]. rewrite E, pend_at. cbn [pend_of atomic_event abs a_free].
    rewrite Z.eqb_refl. unfold set_pend, abs. cbn. rewrite E. do 2 f_equal.
    apply (pend_set l1 (PushReady b _ _) FreeCount l2).
Qed.

(** A silent step that may change [availBlks] and the block in the hand of the thread *)
Lemma sim_local t t' h' m' :
  s_threads s = l1 ++ t :: l2 -> hand t' = hand t -> pend_of t' = pend_of t ->
  stack h' = stack (s_hdr s) -> active h' = active (s_hdr s) ->
  availBlks h' = u64 (availBlks (s_hdr s) - owes t' + owes t) ->
  (m' = s_blks s \/ exists b y, hand t = [b] /\ m' = <[b := y]> (s_blks s) /\ pPoolID y = pPoolID (blk (s_blks s) b)) ->
  thread_ok (stack (s_hdr s)) m' t' ->
  simulates n free s (LThread (length l1) None) (next h' m' t' (s_owned s)).
Proof.
  intros E Hh Hp Hs Hact Hav Hm Hok. exists free. split.
  - eapply (inv_local n (n + 1) free free); [exact I|exact E|..]; rewrite ?Hs, ?Hh; try done.
    + destruct Hm as [->|(b & y & Hb & -> & _)]; [apply I|]. apply chain_insert; [apply I|].
      intros Hin. by destruct (inv_hand _ _ _ _ _ _ b I E Hb) as (_ & ? & _).
    + pose proof (si_ctr _ _ _ I). lia.
    + by left.
    + intros x Hx. destruct Hm as [->|(b & y & Hb & -> & _)]; [done|]. rewrite Hb in Hx.
      by rewrite blk_insert_ne by set_solver.
    + rewrite Hav. f_equal. lia.
    + intros b0 x Hx. destruct Hm as [->|(b & y & Hb & -> & Hy)]; [by exists x|].
      destruct (decide (b0 = b)) as [->|]; [|exists x; by rewrite lookup_insert_ne].
      exists y. rewrite lookup_insert_eq. split; [done|]. rewrite Hy. unfold blk. by rewrite Hx.
  - unfold abs. cbn. by rewrite E, (pend_same l1 t t'), Hact.
Qed.

(** The return of an entry *)
Lemma sim_done b :
  s_threads s = l1 ++ AllocDone b :: l2 ->
  simulates n free s (LThread (length l1) (Some (RetAlloc (b + sizeof_lac_mem_blk))))
    (next (s_hdr s) (s_blks s) Idle ([b] ++ s_owned s)).
Proof.
  intros E. destruct (inv_hand _ _ _ _ _ _ b I E eq_refl) as (_ & _ & Hb & _). exists free. split.
  - eapply (inv_local n (n + 1) free free); [exact I|exact E|..]; cbn -[Z.of_nat]; try done.
    + apply I.
    + rewrite app_nil_r. by rewrite <- Permutation_cons_append.
    + pose proof (si_ctr _ _ _ I). lia.
    + by left.
    + replace (_ + _ - _ + _) with (availBlks (s_hdr s)) by lia. rewrite (si_avail _ _ _ I). symmetry. apply u64_small, u64_range.
    + intros b' x Hx. by exists x.
  - cbn [atomic_step abs a_pend]. rewrite E, pend_at. cbn [pend_of atomic_event]. rewrite Z.eqb_refl.
    assert ((b + sizeof_lac_mem_blk =? 0) || (b + sizeof_lac_mem_blk =? RETRY_PTR) = false) as ->.
    { unfold sizeof_lac_mem_blk. change RETRY_PTR with (2 ^ 64 - 2).
      apply orb_false_iff. split; apply Z.eqb_neq; lia. }
    unfold abs, set_pend. cbn. rewrite E. f_equal. replace (b + _ - _) with b by lia. f_equal.
    apply (pend_set l1 (AllocDone b) Idle l2).
Qed.

Lemma sim_run first t t' h' m' e :
  s_threads s = l1 ++ t :: l2 -> t <> Idle ->
  thread_step (s_pid s) first (s_hdr s) (s_blks s) t = Some (t', h', m', e) ->
  simulates n free s (LThread (length l1) e) (next h' m' t' (gained t ++ s_owned s)).
Proof.
  intros E Hi. pose proof (inv_thread _ _ _ _ _ _ I E) as Hok. pose proof top_elem as Htop.
  destruct t; cbn [thread_step gained app] in *; try done.
  - destruct (active (s_hdr s)) eqn:EA; intros [= <- <- <- <-]; eapply (sim_event AllocStart); try done; cbn; rewrite ?EA; by auto.
  - destruct first; intros [= <- <- <- <-]; [apply (sim_silent PopStart)|apply (sim_load PopStart)]; try done; cbn; lia.
  - destruct x as [c|q]; intros [= <- <- <- <-]; [apply (sim_load (PopHalf (HalfCtr c)))|apply (sim_silent (PopHalf (HalfPtr q)))];
      try done; cbn; (split; [lia|done]).
  - destruct (Z.eqb_spec (ptr old_top) 0) as [E0|E0].
    { intros [= <- <- <- <-]. apply (sim_silent (PopLoaded old_top)); try done; cbn; [by rewrite E0|by right]. }
    destruct (s_blks s !! ptr old_top) as [x|] eqn:Ex; [|done]. intros [= <- <- <- <-].
    apply (sim_silent (PopLoaded old_top)); try done; cbn; [by rewrite (proj2 (Z.eqb_neq _ _) E0)|].
    destruct Hok as [? _]. split_and!; [done..|]. intros ->. unfold blk. by rewrite Ex.
  - destruct (cas _ _ _) as [ok h1] eqn:EC. apply cas_case in EC as [(-> & ? & ?)|(-> & ->)]; intros [= <- <- <- <-].
    + by eapply sim_pop_cas.
    + by apply (sim_silent (PopReady old_top new_top)).
  - intros [= <- <- <- <-]. apply (sim_local (AllocCount b)); try done; [|by left]. cbn. f_equal. lia.
  - intros [= <- <- <- <-]. apply (sim_local (AllocMark b)); try done; cbn.
    + rewrite Z.sub_0_r, Z.add_0_r. rewrite (si_avail _ _ _ I). symmetry. apply u64_small, u64_range.
    + right. by exists b, ((blk (s_blks s) b) <| isInUse := true |>).
  - intros [= <- <- <- <-]. by apply sim_done.
  - intros [= <- <- <- <-]. eapply (sim_event (AllocFail r)); try done. cbn. rewrite Z.eqb_refl.
    by destruct Hok as [-> | ->].
  - destruct (s_blks s !! b) as [x|] eqn:Ex; [|done]. case_if; [|done]. intros [= <- <- <- <-].
    apply (sim_local (FreeMark b)); try done; cbn.
    + rewrite Z.sub_0_r, Z.add_0_r. rewrite (si_avail _ _ _ I). symmetry. apply u64_small, u64_range.
    + right. by exists b, ((blk (s_blks s) b) <| isInUse := false |>).
  - destruct first; intros [= <- <- <- <-]; apply (sim_silent (PushStart b)); try done; cbn; lia.
  - destruct x as [c|q]; intros [= <- <- <- <-]; [apply (sim_silent (PushHalf b (HalfCtr c)))|apply (sim_silent (PushHalf b (HalfPtr q)))];
      try done; cbn; lia.
  - intros [= <- <- <- <-]. apply (sim_local (PushLoaded b old_top)); try done; cbn.
    + rewrite Z.sub_0_r, Z.add_0_r. rewrite (si_avail _ _ _ I). symmetry. apply u64_small, u64_range.
    + right. by exists b, ((blk (s_blks s) b) <| pNext := ptr old_top |>).
    + unfold set_link. by rewrite blk_insert_eq.
  - destruct (cas _ _ _) as [ok h1] eqn:EC. apply cas_case in EC as [(-> & ? & ?)|(-> & ->)]; intros [= <- <- <- <-].
    + by eapply sim_push_cas.
    + by apply (sim_silent (PushReady b old_top new_top)).
  - intros [= <- <- <- <-]. apply (sim_local FreeCount); try done; [|by left]. cbn. f_equal. lia.
  - intros [= <- <- <- <-]. by eapply (sim_event FreeDone).
Qed.

(** No step accesses memory outside the pool. *)
Lemma no_fault first t :
  s_threads s = l1 ++ t :: l2 -> is_Some (thread_step (s_pid s) first (s_hdr s) (s_blks s) t).
Proof.
  intros E. pose proof (inv_thread _ _ _ _ _ _ I E) as Hok.
  destruct t; cbn [thread_step]; try (by eexists); try (by destruct x; eexists); try (by case_if; eexists);
    try (by destruct (cas _ _ _) as [[] ?]; eexists).
  - case_if; [by eexists|]. cbn in Hok. destruct Hok as [_ [?|Hin]]; [done|].
    pose proof (si_blks _ _ _ I) as Hb. rewrite Forall_forall in Hb. destruct (Hb _ Hin) as (x & -> & _). by eexists.
  - destruct (inv_hand _ _ _ _ _ _ b I E eq_refl) as (_ & _ & _ & x & -> & ->).
    rewrite (si_pid _ _ _ I), Z.eqb_refl. by eexists.
Qed.
End step.

Lemma sim_call_free n free s l1 l2 b o1 o2 :
  sys_inv n free s -> s_threads s = l1 ++ Idle :: l2 -> s_owned s = o1 ++ b :: o2 ->
  simulates n free s (LThread (length l1) (Some (CallFree (b + sizeof_lac_mem_blk))))
    (mk_sys (s_pid s) (s_hdr s) (s_blks s) (l1 ++ FreeMark b :: l2) (o1 ++ o2)).
Proof.
  intros I E Eo. exists free. split.
  - eapply (inv_local n (n + 1) free free); [exact I|exact E|..]; cbn -[Z.of_nat]; try done.
    + apply I.
    + rewrite Eo, app_nil_r. apply Permutation_app_head. rewrite <- Permutation_cons_append. apply Permutation_middle.
    + pose proof (si_ctr _ _ _ I). lia.
    + by left.
    + replace (_ + _ - _ + _) with (availBlks (s_hdr s)) by lia. rewrite (si_avail _ _ _ I). symmetry. apply u64_small, u64_range.
    + intros b' x Hx. by exists x.
  - cbn [atomic_step abs a_pend]. rewrite E, pend_at. cbn [pend_of atomic_event abs a_owned].
    replace (b + _ - _) with b by lia. rewrite decide_True by (rewrite Eo; set_solver).
    rewrite Eo, filter_ne_split.
    + unfold set_pend, abs. cbn. rewrite E. do 2 f_equal. apply (pend_set l1 Idle (FreeMark b) l2).
    + pose proof (si_perm _ _ _ I) as HP. assert (NoDup (free ++ s_owned s ++ concat (map hand (s_threads s)))) as ND by by rewrite <- HP.
      rewrite Eo in ND. by apply NoDup_app in ND as (_ & _ & [? _]%NoDup_app).
Qed.

Lemma sim_step n free s l s' : sys_inv n free s -> n + 1 < 2 ^ 64 -> sys_step s l s' -> simulates n free s l s'.
Proof.
  intros I Hn. destruct 1 as [i l1 l2 E ->|i l1 l2 b o1 o2 E -> Eo|i first l1 t l2 t' h' m' e E -> Ht Hs| |].
  - by eapply (sim_event n free s l1 l2 I Idle).
  - by eapply sim_call_free.
  - by eapply sim_run.
  - exists free. split; [|done]. destruct I. split; cbn; try done. lia.
  - exists free. split; [|done]. destruct I. split; cbn; try done. lia.
Qed.

Lemma sim_trace s tr s' : run s tr s' -> forall n free, sys_inv n free s -> n + len tr < 2 ^ 64 ->
  exists free', sys_inv (n + len tr) free' s' /\ atomic_run (abs free s) tr = Some (abs free' s').
Proof.
  induction 1 as [|tr l s1 s2 HR IH HS]; intros n free I Hn.
  - exists free. cbn. by rewrite Z.add_0_r.
  - rewrite length_app in *. cbn [length] in *. destruct (IH n free I) as (f1 & I1 & A1); [lia|].
    destruct (sim_step _ _ _ _ _ I1 ltac:(lia) HS) as (f2 & I2 & A2). exists f2.
    replace (n + Z.of_nat (length tr + 1)) with (n + len tr + 1) by lia. split; [done|].
    by rewrite atomic_run_snoc, A1.
Qed.
End invariant.

(** * Running the system *)

(** A command for the scheduler, and the step that it stands for *)
Inductive command := CmdAlloc (i : nat) | CmdFree (i : nat) (b : Z) | CmdRun (i : nat) (first : bool) | CmdActive (a : bool).

Fixpoint remove_one (b : Z) (l : list Z) : option (list Z) :=
  match l with
  | [] => None
  | x :: l => if x =? b then Some l else option_map (cons x) (remove_one b l)
  end.

Definition exec_step (s : sys) (c : command) : option (label * sys) :=
  match c with
  | CmdAlloc i =>
      match s_threads s !! i with
      | Some Idle => Some (LThread i (Some CallAlloc),
          mk_sys (s_pid s) (s_hdr s) (s_blks s) (take i (s_threads s) ++ AllocStart :: drop (S i) (s_threads s)) (s_owned s))
      | _ => None
      end
  | CmdFree i b =>
      match s_threads s !! i, remove_one b (s_owned s) with
      | Some Idle, Some o => Some (LThread i (Some (CallFree (b + sizeof_lac_mem_blk))),
          mk_sys (s_pid s) (s_hdr s) (s_blks s) (take i (s_threads s) ++ FreeMark b :: drop (S i) (s_threads s)) o)
      | _, _ => None
      end
  | CmdRun i first =>
      match s_threads s !! i with
      | Some Idle | None => None
      | Some t =>
          match thread_step (s_pid s) first (s_hdr s) (s_blks s) t with
          | Some (t', h', m', e) => Some (LThread i e,
              mk_sys (s_pid s) h' m' (take i (s_threads s) ++ t' :: drop (S i) (s_threads s)) (gained t ++ s_owned s))
          | None => None
          end
      end
  | CmdActive true =>
      Some (LActive true, mk_sys (s_pid s) (s_hdr s) <| active := true |> <| sync := 1 |> (s_blks s) (s_threads s) (s_owned s))
  | CmdActive false =>
      Some (LActive false, mk_sys (s_pid s) (s_hdr s) <| active := false |> (s_blks s) (s_threads s) (s_owned s))
  end.

Fixpoint exec (s : sys) (cs : list command) : option (list label * sys) :=
  match cs with
  | [] => Some ([], s)
  | c :: cs =>
      match exec_step s c with
      | Some (l, s1) => option_map (fun r => (l :: r.1, r.2)) (exec s1 cs)
      | None => None
      end
  end.

Lemma remove_one_split b l o : remove_one b l = Some o -> exists o1 o2, l = o1 ++ b :: o2 /\ o = o1 ++ o2.
Proof.
  revert o. induction l as [|x l IH]; intros o; cbn; [done|]. destruct (Z.eqb_spec x b) as [->|].
  - intros [= <-]. by exists [], l.
  - intros (o' & E & ->)%fmap_Some. destruct (IH o' E) as (o1 & o2 & -> & ->). by exists (x :: o1), o2.
Qed.

Lemma exec_step_sound s c l s' : exec_step s c = Some (l, s') -> sys_step s l s'.
Proof.
  assert (forall i t, s_threads s !! i = Some t ->
    s_threads s = take i (s_threads s) ++ t :: drop (S i) (s_threads s) /\ i = length (take i (s_threads s))) as SP.
  { intros i t Ht. split; [symmetry; by apply take_drop_middle|].
    rewrite length_take_le; [done|]. apply lookup_lt_Some in Ht. lia. }
  destruct c as [i|i b|i first|[]]; cbn [exec_step]; [| | |intros [= <- <-]; constructor..].
  - destruct (s_threads s !! i) as [[]|] eqn:E; try done. intros [= <- <-]. destruct (SP _ _ E). by apply step_alloc.
  - destruct (s_threads s !! i) as [[]|] eqn:E; try done. destruct (remove_one b _) as [o|] eqn:ER; [|done].
    intros [= <- <-]. destruct (SP _ _ E), (remove_one_split _ _ _ ER) as (o1 & o2 & ? & ->). by apply step_free.
  - destruct (s_threads s !! i) as [t|] eqn:E; [|done]. destruct (SP _ _ E) as [S1 S2].
    intros H. assert (t <> Idle) by by intros ->.
    destruct (thread_step _ _ _ _ t) as [[[[t' h'] m'] e]|] eqn:ET; [|by destruct t].
    assert (l = LThread i e /\ s' = mk_sys (s_pid s) h' m' (take i (s_threads s) ++ t' :: drop (S i) (s_threads s)) (gained t ++ s_owned s)) as [-> ->].
    { destruct t; try done; by simplify_eq. }
    by apply (step_run s i first _ t).
Qed.

Lemma run_app s tr1 s1 tr2 s2 : run s tr1 s1 -> run s1 tr2 s2 -> run s (tr1 ++ tr2) s2.
Proof. intros H1 H2. induction H2; [by rewrite app_nil_r|]. rewrite app_assoc. by eapply run_snoc. Qed.

Lemma exec_run s cs tr s' : exec s cs = Some (tr, s') -> run s tr s'.
Proof.
  revert s tr. induction cs as [|c cs IH]; intros s tr; cbn; [intros [= <- <-]; constructor|].
  destruct (exec_step s c) as [[l s1]|] eqn:E; [|done]. intros ([tr1 s2] & E1 & [= -> ->])%fmap_Some.
  apply (run_app s [l] s1); [|by apply IH]. apply (run_snoc s [] l s); [constructor|by apply exec_step_sound in E].
Qed.

(** * Linearizability *)

(** No operation is running: the blocks [B] of the pool are [free] or held by clients. *)
Record quiet (p : Z) (B free : list Z) (s : sys) : Prop := {
  q_pid : s_pid s = p;
  q_chain : chain (s_blks s) (ptr (stack (s_hdr s))) free;
  q_perm : B ≡ₚ free ++ s_owned s;
  q_nodup : NoDup B;
  q_range : Forall (fun b => 0 < b < 2 ^ 57) B;
  q_threads : Forall (eq Idle) (s_threads s);
  q_ctr : 0 <= ctr (stack (s_hdr s));
  q_avail : availBlks (s_hdr s) = u64 (len free);
  q_blks : Forall (fun b => exists x, s_blks s !! b = Some x /\ pPoolID x = p) B
}.

Lemma idle_threads l : Forall (eq Idle) l -> concat (map hand l) = [] /\ foldr Z.add 0 (map owes l) = 0.
Proof. induction 1 as [|t l <- _ [IH1 IH2]]; cbn; [done|]. by rewrite IH1, IH2. Qed.

Lemma quiet_inv p B free s : quiet p B free s -> sys_inv p B (ctr (stack (s_hdr s))) free s.
Proof.
  intros []. destruct (idle_threads _ q_threads0) as [EH EO]. split; rewrite ?EH, ?EO, ?app_nil_r, ?Z.sub_0_r; try done; try lia.
  eapply Forall_impl; [exact q_threads0|]. by intros t <-.
Qed.
Lemma inv_quiet p B n free s :
  sys_inv p B n free s -> NoDup B -> Forall (fun b => 0 < b < 2 ^ 57) B -> Forall (eq Idle) (s_threads s) -> quiet p B free s.
Proof.
  intros [] HN HR HT. destruct (idle_threads _ HT) as [EH EO]. rewrite ?EH, ?EO, ?app_nil_r, ?Z.sub_0_r in *.
  split; try done. lia.
Qed.

(** C3. However the calls of any number of threads interleave, the pool behaves as one whose
    allocations and frees are atomic: every trace is one of the atomic pool, in which an
    allocation takes the block on top of a stack, or finds it empty, at one moment between
    its call and its return.  At every moment each block is free, held by one client or in the
    hand of one thread, and in one place only; [availBlks] is off by exactly the
    operations that have yet to count; and no thread touches memory outside the pool. *)
Theorem pool_linearizable (p : Z) (B free : list Z) (s s' : sys) (tr : list label)
    (Hq : quiet p B free s) (Hrun : run s tr s') (Hlen : ctr (stack (s_hdr s)) + len tr < 2 ^ 64) :
  exists free', atomic_run (abs free s) tr = Some (abs free' s') /\
    chain (s_blks s') (ptr (stack (s_hdr s'))) free' /\
    NoDup (free' ++ s_owned s' ++ concat (map hand (s_threads s'))) /\
    free' ++ s_owned s' ++ concat (map hand (s_threads s')) ≡ₚ B /\
    availBlks (s_hdr s') = u64 (len free' - foldr Z.add 0 (map owes (s_threads s'))) /\
    forall i t first, s_threads s' !! i = Some t ->
      is_Some (thread_step (s_pid s') first (s_hdr s') (s_blks s') t).
Proof.
  pose proof (q_nodup _ _ _ _ Hq). pose proof (q_range _ _ _ _ Hq).
  destruct (sim_trace p B ltac:(done) ltac:(done) s tr s' Hrun _ free (quiet_inv _ _ _ _ Hq) Hlen) as (f & I & A).
  exists f. pose proof (si_perm _ _ _ _ _ I) as HP. split_and!; [done|apply I|by rewrite <- HP|done|apply I|].
  intros i t first Ht. eapply (no_fault p B ltac:(done) ltac:(done) _ f s' _ _ I).
  symmetry. by eapply take_drop_middle.
Qed.

(** A pool of two blocks, two threads *)
Definition pool_two : pools := (Lac_MemPoolCreate (fun a => a) false (Some [97]) 2 100 (2 ^ 6) false pool_boot).2.
Definition sys_of (p : Z) (k : nat) (st : pools) : sys := mk_sys p (hdr st p) (blks st) (replicate k Idle) [].
Definition sys_two : sys := sys_of 1000 2 pool_two.

(** Both threads load the top; the second takes the block, so that the compare and swap of
    the first fails and it takes the other one. *)
Definition race : list command :=
  [CmdAlloc 0; CmdAlloc 1; CmdRun 0 true; CmdRun 1 true; CmdRun 0 true; CmdRun 1 false; CmdRun 0 true; CmdRun 1 true;
   CmdRun 0 true; CmdRun 1 true; CmdRun 1 true; CmdRun 0 true; CmdRun 0 true; CmdRun 0 false; CmdRun 0 true; CmdRun 0 true].
Lemma sys_two_quiet : quiet 1000 [8208; 4112] [8208; 4112] sys_two.
Proof.
  assert (Forall (fun b => exists x, s_blks sys_two !! b = Some x /\ pPoolID x = 1000) [8208; 4112]) as HB.
  { repeat constructor; eexists; split; vm_compute; reflexivity. }
  split; [vm_compute; reflexivity| |vm_compute; reflexivity|by apply (bool_decide_unpack _)|repeat constructor; lia
    |repeat constructor|vm_compute; congruence|vm_compute; reflexivity|exact HB].
  vm_compute. repeat split; first [congruence|eexists; reflexivity].
Qed.
Lemma race_length : match exec sys_two race with Some (tr, _) => length tr = 16%nat | None => False end.
Proof. vm_compute. reflexivity. Qed.
Lemma pool_linearizable_witness :
  match exec sys_two race with
  | Some (tr, s') =>
      exists free', atomic_run (abs [8208; 4112] sys_two) tr = Some (abs free' s') /\
      chain (s_blks s') (ptr (stack (s_hdr s'))) free' /\
      NoDup (free' ++ s_owned s' ++ concat (map hand (s_threads s'))) /\
      free' ++ s_owned s' ++ concat (map hand (s_threads s')) ≡ₚ [8208; 4112] /\
      availBlks (s_hdr s') = u64 (len free' - foldr Z.add 0 (map owes (s_threads s'))) /\
      forall i t first, s_threads s' !! i = Some t ->
        is_Some (thread_step (s_pid s') first (s_hdr s') (s_blks s') t)
  | None => False
  end.
Proof.
  pose proof race_length as HL. destruct (exec sys_two race) as [[tr s']|] eqn:E; [|exact HL].
  apply (pool_linearizable 1000 [8208; 4112] [8208; 4112] sys_two s' tr sys_two_quiet).
  - apply (exec_run sys_two race tr s' E).
  - rewrite HL. vm_compute. reflexivity.
Defined.

(** * Lock freedom *)

(** The steps at which an operation takes effect *)
Definition effect (l : label) : bool :=
  match l with
  | LThread _ (Some (LinPop _ | LinPush _ | LinEmpty | LinActive false)) => true
  | _ => false
  end.
Definition of_thread (l : label) : bool := match l with LThread _ _ => true | LActive _ => false end.

(** How many steps a thread can take at most before an operation, its own or another one,
    takes effect, when the top of the stack is [s] *)
Definition fuel (s : pointer_t) (t : thread) : Z :=
  match t with
  | Idle => 5
  | AllocStart => 4
  | PopStart => 3
  | PopHalf (HalfCtr c) => if c =? ctr s then 2 else if ptr s =? 0 then 8 else 6
  | PopHalf (HalfPtr q) => if q =? 0 then 8 else if q =? ptr s then 2 else 6
  | PopLoaded old => if ptr old =? 0 then 7 else if decide (old = s) then 1 else 5
  | PopReady old _ => if decide (old = s) then 0 else 4
  | AllocCount _ => 8
  | AllocMark _ => 7
  | AllocDone _ | AllocFail _ => 6
  | FreeMark _ => 4
  | PushStart _ => 3
  | PushHalf _ (HalfCtr c) => if c =? ctr s then 2 else 6
  | PushHalf _ (HalfPtr q) => if q =? ptr s then 2 else 6
  | PushLoaded _ old => if decide (old = s) then 1 else 5
  | PushReady _ old _ => if decide (old = s) then 0 else 4
  | FreeCount => 7
  | FreeDone => 6
  end.

Lemma fuel_range s t : 0 <= fuel s t <= 8.
Proof. destruct t; cbn; try lia; try (destruct x); repeat (first [case_decide|case_if]); lia. Qed.

Lemma fuel_step p first h m t t' h' m' e i :
  t <> Idle -> thread_step p first h m t = Some (t', h', m', e) -> effect (LThread i e) = false ->
  stack h' = stack h /\ fuel (stack h) t' < fuel (stack h) t.
Proof.
  intros Hi. destruct (stack h) as [c0 p0] eqn:ES.
  destruct t; try (match goal with x : half |- _ => destruct x end); cbn; rewrite ?ES; unfold empty, cas; cbn; try done.
  all: repeat (first [case_decide|case_match|case_if]); intros ?; simplify_eq; cbn; try done; intros _;
    (split; [done|]); subst; cbn in *; simplify_eq; cbn in *; breflect;
    repeat (first [case_decide|case_if]); subst; cbn in *; simplify_eq; try lia; try congruence.
Qed.

Definition total (s : sys) : Z := foldr Z.add 0 (map (fuel (stack (s_hdr s))) (s_threads s)).

Lemma total_step s l s' :
  sys_step s l s' -> effect l = false -> total s' + Z.b2z (of_thread l) <= total s /\ length (s_threads s') = length (s_threads s).
Proof.
  assert (forall (f : thread -> Z) l1 t l2, foldr Z.add 0 (map f (l1 ++ t :: l2)) = f t + foldr Z.add 0 (map f (l1 ++ l2))) as SP.
  { intros f l1 t l2. induction l1 as [|x l1 IH]; cbn; [done|]. rewrite IH. lia. }
  unfold total. destruct 1 as [i l1 l2 E ->|i l1 l2 b o1 o2 E -> Eo|i first l1 t l2 t' h' m' e E -> Ht Hs| |];
    cbn [s_hdr s_threads of_thread Z.b2z]; intros He; rewrite ?E, ?length_app; cbn [length]; (split; [|lia]); rewrite ?SP.
  - cbn. lia.
  - cbn. lia.
  - destruct (fuel_step _ _ _ _ _ _ _ _ _ _ Ht Hs He) as [-> ?]. lia.
  - cbn. lia.
  - cbn. lia.
Qed.

Lemma run_total s tr s' :
  run s tr s' -> Forall (fun l => effect l = false) tr -> total s' + len (base.filter of_thread tr) <= total s.
Proof.
  induction 1 as [|tr l s1 s2 HR IH HS]; intros HF; [cbn; lia|].
  apply Forall_app in HF as [HF [Hl _]%Forall_cons]. specialize (IH HF). destruct (total_step _ _ _ HS Hl) as [? _].
  rewrite filter_app, length_app. destruct (of_thread l) eqn:E; cbn [Z.b2z] in *.
  - rewrite filter_cons_True by (cbn; by rewrite E). cbn. lia.
  - rewrite filter_cons_False by (rewrite E; by intros []). cbn. lia.
Qed.

Lemma total_range s : 0 <= total s <= 8 * len (s_threads s).
Proof.
  unfold total. induction (s_threads s) as [|t l IH]; cbn -[Z.mul]; [lia|].
  pose proof (fuel_range (stack (s_hdr s)) t). lia.
Qed.

(** C23. The pool is lock free: in any run, among any 8 steps per thread and one more there is one
    at which an allocation or a free takes effect, whatever the scheduler does and whichever
    threads it stops.  A compare and swap that fails fails because another operation has
    taken effect. *)
Theorem pool_lock_free (s s' : sys) (tr : list label)
    (Hrun : run s tr s') (Hlong : 8 * len (s_threads s) < len (base.filter of_thread tr)) :
  exists l, l ∈ tr /\ effect l = true.
Proof.
  destruct (decide (Exists (fun l => effect l = true) tr)) as [(l & ? & ?)%Exists_exists|H].
  - by exists l.
  - exfalso. apply not_Exists_Forall in H; [|apply _].
    assert (Forall (fun l => effect l = false) tr) as HF.
    { eapply Forall_impl; [exact H|]. cbn. intros l. by destruct (effect l). }
    pose proof (run_total _ _ _ Hrun HF). pose proof (total_range s). pose proof (total_range s'). lia.
Qed.
Lemma long_race_length :
  match exec sys_two (race ++ [CmdRun 0 true]) with
  | Some (tr, _) => len (base.filter of_thread tr) = 17 | None => False end.
Proof. vm_compute. reflexivity. Qed.
Lemma pool_lock_free_witness :
  match exec sys_two (race ++ [CmdRun 0 true]) with
  | Some (tr, _) => exists l, l ∈ tr /\ effect l = true | None => False end.
Proof.
  pose proof long_race_length as HL. destruct (exec sys_two (race ++ [CmdRun 0 true])) as [[tr s']|] eqn:E; [|exact HL].
  apply (pool_lock_free sys_two s' tr).
  - apply (exec_run sys_two (race ++ [CmdRun 0 true]) tr s' E).
  - rewrite HL. vm_compute. reflexivity.
Defined.

(** * From creation to destruction *)

(** The state of the process with the pool as the system has left it *)
Definition put_sys (st : pools) (s : sys) : pools := (set_hdr st (s_pid s) (s_hdr s)) <| blks := s_blks s |>.

(** What no step changes *)
Record static (s s' : sys) : Prop := {
  st_pid : s_pid s' = s_pid s;
  st_chunk : forall b, pMemAllocPtr (blk (s_blks s') b) = pMemAllocPtr (blk (s_blks s) b);
  st_track : trackBlks (s_hdr s') = trackBlks (s_hdr s);
  st_num : numElementsInPool (s_hdr s') = numElementsInPool (s_hdr s)
}.

Lemma thread_static p first h m t t' h' m' e :
  thread_step p first h m t = Some (t', h', m', e) ->
  (forall b, pMemAllocPtr (blk m' b) = pMemAllocPtr (blk m b)) /\
  trackBlks h' = trackBlks h /\ numElementsInPool h' = numElementsInPool h.
Proof.
  assert (forall b y, pMemAllocPtr y = pMemAllocPtr (blk m b) ->
    forall b', pMemAllocPtr (blk (<[b := y]> m) b') = pMemAllocPtr (blk m b')) as INS.
  { intros b y Hy b'. destruct (decide (b' = b)) as [->|]; [by rewrite blk_insert_eq|by rewrite blk_insert_ne]. }
  destruct t; try (match goal with x : half |- _ => destruct x end); cbn; unfold cas, set_isInUse, set_link;
    repeat (first [case_decide|case_match|case_if]); intros ?; simplify_eq; split_and!; try done; by apply INS.
Qed.

Lemma run_static s tr s' : run s tr s' -> static s s'.
Proof.
  induction 1 as [|tr l s1 s2 HR IH HS]; [done|].
  assert (static s1 s2) as S2.
  { destruct HS as [|i l1 l2 b o1 o2 E -> Eo|i first l1 t l2 t' h' m' e E -> Ht Hs| |]; try done.
    destruct (thread_static _ _ _ _ _ _ _ _ _ Hs) as (? & ? & ?). done. }
  destruct IH, S2. split; [congruence| |congruence|congruence]. intros b. congruence.
Qed.

Lemma search_inserted (l : list Z) slot p :
  pool_search l 0 0 = Some slot -> p ∉ l -> pool_search (l.[slot <- p]) p 0 = Some slot.
Proof.
  intros (k & -> & Hk & _)%pool_search_Some Hp. unfold arr_set. rewrite Z.add_0_l, Nat2Z.id.
  assert (k < length l)%nat as Hlt by by eapply lookup_lt_Some.
  destruct (pool_search (<[k := p]> l) p 0) as [j|] eqn:E.
  - apply pool_search_Some in E as (i & -> & Hi & _). destruct (decide (i = k)) as [->|]; [done|].
    rewrite list_lookup_insert_ne in Hi by done. destruct Hp. by eapply list_elem_of_lookup_2.
  - apply pool_search_None in E. destruct E. apply list_elem_of_lookup. exists k. by apply list_lookup_insert_eq.
Qed.

Lemma created_quiet v2p st n sz al tm p cs st1 k :
  created v2p st n sz al tm p cs st1 -> 0 <= n < 2 ^ 32 -> 0 <= al < 2 ^ 32 ->
  (forall c, c ∈ contig_env st -> c + 2 ^ 32 < 2 ^ 57) ->
  quiet p (map (block_of al) cs) (map (block_of al) cs) (sys_of p k st1).
Proof.
  intros C Hn Hal Haddr. pose proof (add_size_range al Hal) as HA. unfold sizeof_lac_mem_blk in HA.
  destruct C. destruct cr_pool, cr_env as [l El]. split; cbn; try done.
  - by rewrite app_nil_r.
  - apply Forall_fmap, Forall_forall. intros c Hc. cbn. rewrite Forall_forall in cr_fresh.
    destruct (cr_fresh c Hc). specialize (Haddr c). unfold block_of, sizeof_lac_mem_blk.
    assert (c + 2 ^ 32 < 2 ^ 57) by (apply Haddr; rewrite El; apply elem_of_app; left; by apply elem_of_reverse). lia.
  - by apply Forall_replicate.
  - lia.
  - rewrite cr_avail, length_map, cr_len. symmetry. apply u64_small. lia.
  - apply Forall_fmap, Forall_forall. intros c Hc. cbn.
    destruct (chain_dom _ _ _ (block_of al c) pa_chain) as [x Hx]; [by apply list_elem_of_fmap_2|].
    exists x. split; [done|]. rewrite Forall_forall in cr_blk. destruct (cr_blk c Hc) as (_ & _ & Hp & _).
    revert Hp. unfold blk. by rewrite Hx.
Qed.

(** The memory of the blocks whose entries are still held, which an untracked pool leaks *)
Definition leaked (trackMemory : bool) (s : sys) : list Z :=
  if trackMemory then [] else map (chunk (s_blks s)) (s_owned s).

Lemma destroy_clean v2p st n sz al tm p cs st1 s' free :
  created v2p st n sz al tm p cs st1 -> quiet p (map (block_of al) cs) free s' ->
  (forall b, pMemAllocPtr (blk (s_blks s') b) = pMemAllocPtr (blk (blks st1) b)) ->
  trackBlks (s_hdr s') = trackBlks (hdr st1 p) -> numElementsInPool (s_hdr s') = numElementsInPool (hdr st1 p) ->
  let st2 := Lac_MemPoolCleanUpInternal p ((put_sys st1 s') <| lac_mem_pools := lac_mem_pools st |>) in
  lac_mem_pools st2 = lac_mem_pools st /\ os_mem st2 = os_mem st /\
  forall c, contig st2 !! c =
    if decide (c ∈ leaked tm s') then Some (Lac_MemPoolGetElementRealSize sz al) else contig st !! c.
Proof.
  intros C Q S2 S3 S4. cbn zeta. set (st3 := _ <| lac_mem_pools := _ |>).
  assert (hdr st3 p = s_hdr s') as EH.
  { subst st3. unfold hdr, put_sys. cbn. rewrite (q_pid _ _ _ _ Q). by rewrite lookup_insert_eq. }
  assert (map (chunk (s_blks s')) (map (block_of al) cs) = cs) as EC.
  { rewrite <- (cr_chunks _ _ _ _ _ _ _ _ _ C) at 2. apply map_ext. intros b. apply S2. }
  assert (pool_at st3 p (map (block_of al) cs) free) as PA.
  { pose proof (cr_pool _ _ _ _ _ _ _ _ _ C) as [P1 P2 P3 P4 P5 P6 P7]. split; rewrite ?EH, ?S3, ?S4; try done.
    - apply Q.
    - exists (s_owned s'). apply Q.
    - eapply Forall_impl; [exact P4|]. intros b. cbn. by rewrite S2. }
  destruct (cleanup_spec st3 p _ _ PA) as (D1 & D2 & D3). rewrite EH in D1, D2.
  change (blks st3) with (s_blks s') in D1. change (contig st3) with (contig st1) in D1. split_and!; [done|..].
  - rewrite D2, <- (cr_os _ _ _ _ _ _ _ _ _ C). unfold os_parts. by rewrite S3.
  - intros c. rewrite D1, forget_lookup, (cr_contig _ _ _ _ _ _ _ _ _ C).
    pose proof (cr_tracked _ _ _ _ _ _ _ _ _ C) as HT. unfold tracked in HT. rewrite <- S3 in HT.
    pose proof (cr_fresh _ _ _ _ _ _ _ _ _ C) as HF. rewrite Forall_forall in HF.
    unfold cleaned, leaked. destruct (trackBlks (s_hdr s')) as [t|]; subst tm.
    + rewrite EC, (decide_False (P := c ∈ [])) by set_solver.
      destruct (decide (c ∈ cs)) as [Hc|]; [|done]. by destruct (HF c Hc) as [_ ->].
    + assert (cs ≡ₚ map (chunk (s_blks s')) free ++ map (chunk (s_blks s')) (s_owned s')) as HP.
      { rewrite <- EC at 1. rewrite <- map_app. apply Permutation_map. apply Q. }
      pose proof (cr_nodup _ _ _ _ _ _ _ _ _ C) as ND. rewrite HP in ND. apply NoDup_app in ND as (_ & ND & _).
      assert (c ∈ cs <-> c ∈ map (chunk (s_blks s')) free \/ c ∈ map (chunk (s_blks s')) (s_owned s')) as HC
        by by rewrite HP, elem_of_app.
      specialize (ND c). repeat case_decide; try done; try tauto. destruct (HF c) as [_ ->]; [tauto|done].
Qed.

(** C24. A pool that is created, used by any number of threads in any interleaving until no
    call is running, and destroyed leaves the table of pools and the memory of the process as
    they were, and gives all memory for the device back except that of the entries which
    clients still hold, and this only when the pool does not track its blocks. *)
Theorem pool_lifecycle (v2p : Z -> Z) (st st1 : pools) (name : list Z) (n sz al p : Z) (trackMemory : bool)
    (k : nat) (tr : list label) (s' : sys)
    (Hn : 0 <= n < 2 ^ 32) (Hal : 0 <= al < 2 ^ 32) (Htrack : trackMemory = true -> 8 * n < 2 ^ 32)
    (Hfresh : fresh_env st) (Haddr : forall c, c ∈ contig_env st -> c + 2 ^ 32 < 2 ^ 57)
    (Hcreate : Lac_MemPoolCreate v2p false (Some name) n sz al trackMemory st = (CPA_STATUS_SUCCESS, Some p, st1))
    (Hrun : run (sys_of p k st1) tr s') (Hlen : n + len tr < 2 ^ 64) (Hidle : Forall (eq Idle) (s_threads s')) :
  let st2 := Lac_MemPoolDestroy p (put_sys st1 s') in
  lac_mem_pools st2 = lac_mem_pools st /\ os_mem st2 = os_mem st /\
  forall c, contig st2 !! c =
    if decide (c ∈ leaked trackMemory s') then Some (Lac_MemPoolGetElementRealSize sz al) else contig st !! c.
Proof.
  eapply create_spec in Hcreate as [(? & _)|(_ & p' & cs & [= <-] & C)]; [done| |done..].
  pose proof (created_quiet _ _ _ _ _ _ _ _ _ k C Hn Hal Haddr) as Q.
  set (B := map (block_of al) cs) in *.
  destruct (sim_trace p B (q_nodup _ _ _ _ Q) (q_range _ _ _ _ Q) _ _ _ Hrun _ B (quiet_inv _ _ _ _ Q)) as (free & I & _).
  { cbn. by rewrite (cr_ctr _ _ _ _ _ _ _ _ _ C). }
  apply inv_quiet in I; [|apply Q|apply Q|done]. destruct (run_static _ _ _ Hrun) as [S1 S2 S3 S4]. cbn in S1, S2, S3, S4.
  destruct (cr_table _ _ _ _ _ _ _ _ _ C) as (slot & Hslot & Htab).
  cbn zeta. unfold Lac_MemPoolDestroy. rewrite (proj2 (Z.eqb_neq p 0)) by apply (cr_p _ _ _ _ _ _ _ _ _ C).
  change (lac_mem_pools (put_sys st1 s')) with (lac_mem_pools st1).
  rewrite Htab, (search_inserted _ _ _ Hslot (cr_p_fresh _ _ _ _ _ _ _ _ _ C)).
  rewrite (table_restore _ _ p Hslot).
  destruct (destroy_clean v2p st n sz al trackMemory p cs st1 s' free) as (D1 & D2 & D3); [done..|].
  done.
Qed.

(** One thread takes an entry and keeps it. *)
Definition solo_alloc (i : nat) : list command := CmdAlloc i :: replicate 8 (CmdRun i true).
Lemma solo_end :
  match exec sys_two (solo_alloc 0) with
  | Some (tr, s') => length tr = 9%nat /\ s_threads s' = [Idle; Idle] | None => False end.
Proof. vm_compute. split; reflexivity. Qed.
Lemma pool_lifecycle_witness :
  match exec sys_two (solo_alloc 0) with
  | Some (tr, s') =>
      let st2 := Lac_MemPoolDestroy 1000 (put_sys pool_two s') in
      lac_mem_pools st2 = lac_mem_pools pool_boot /\ os_mem st2 = os_mem pool_boot /\
      forall c, contig st2 !! c =
        if decide (c ∈ leaked false s') then Some (Lac_MemPoolGetElementRealSize 100 64) else contig pool_boot !! c
  | None => False
  end.
Proof.
  pose proof solo_end as HE. destruct (exec sys_two (solo_alloc 0)) as [[tr s']|] eqn:E; [|exact HE].
  destruct HE as [HL HT].
  apply (pool_lifecycle (fun a => a) pool_boot pool_two [97] 2 100 64 1000 false 2 tr s').
  - lia.
  - lia.
  - discriminate.
  - exact pool_boot_fresh.
  - intros c Hc. cbn in Hc. rewrite !elem_of_cons, elem_of_nil in Hc. lia.
  - vm_compute. reflexivity.
  - apply (exec_run sys_two (solo_alloc 0) tr s' E).
  - rewrite HL. vm_compute. reflexivity.
  - rewrite HT. repeat constructor.
Defined.

(** A thread that is alone does what the calls of [MemPool] do. *)
Lemma solo_alloc_is_alloc p st b :
  active (hdr st p) = true -> ptr (stack (hdr st p)) <> 0 -> blks st !! ptr (stack (hdr st p)) = Some b ->
  exists tr s', exec (sys_of p 1 st) (solo_alloc 0) = Some (tr, s') /\
    put_sys st s' = (Lac_MemPoolEntryAlloc p st).2 /\
    s_owned s' = [(Lac_MemPoolEntryAlloc p st).1 - sizeof_lac_mem_blk].
Proof.
  intros Ha Hp Hb. unfold Lac_MemPoolEntryAlloc, pop, sys_of, solo_alloc. rewrite Ha.
  rewrite (proj2 (Z.eqb_neq _ _) Hp). cbn [negb replicate exec exec_step s_threads lookup list_lookup].
  cbn. rewrite Ha. cbn. rewrite (proj2 (Z.eqb_neq _ _) Hp). cbn.
  rewrite Hb. cbn. unfold cas. cbn. rewrite decide_True by (by destruct (stack (hdr st p))). cbn.
  eexists _, _. split; [reflexivity|].
  unfold put_sys, set_hdr. cbn. unfold blk. rewrite Hb, Ha. split; [reflexivity|]. f_equal. lia.
Qed.

(** [availBlks] is counted after the push and after the pop: when a block that has been
    pushed but not counted is taken and counted, [Lac_MemPoolAvailableEntries] of a pool of
    two entries returns 2 ^ 32 - 1. *)
Lemma available_entries_underflow :
  match exec sys_two (solo_alloc 0 ++ solo_alloc 0 ++ CmdFree 0 8208 :: replicate 5 (CmdRun 0 true) ++
          CmdAlloc 1 :: replicate 6 (CmdRun 1 true)) with
  | Some (_, s') => Lac_MemPoolAvailableEntries 1000 (put_sys pool_two s') = 2 ^ 32 - 1
  | None => False
  end.
Proof. vm_compute. reflexivity. Qed.
