(* ===== verification/Buffers.v ===== *)
(** * Buffer lists

    The checks of a client's buffer lists, their translation to the descriptors that the
    device reads, and access by an offset into the list ([utils/lac_buffer_desc.c],
    [crypto/sym/lac_sym_alg_chain.c]); the sizes of the memory for the descriptors and of
    destination buffers ([compression/dc_buffers.c], [crypto/sym/lac_sym_api.c]).

    A flat buffer is an address and a length.  The descriptors are written to memory that
    the client gives; a write is its address, width and value, and the writes of a call are
    kept in order.  The translation to physical addresses is the parameter [v2p]. *)

From S2P Require Import Prelude.

(** * Data *)

Record flat_buffer := mk_buf { buf_len : Z; buf_data : Z }.
Record CpaBufferList := mk_list { numBuffers : Z; pBuffers : list flat_buffer; pPrivateMetaData : Z }.

Definition ICP_DESCRIPTOR_ALIGNMENT_BYTES : Z := 8.
Definition sizeof_icp_buffer_list_desc : Z := 16.
Definition sizeof_icp_flat_buffer_desc : Z := 16.
Definition INVALID_PHYSICAL_ADDRESS : Z := 0.

(** The offsets of the fields of [icp_buffer_list_desc_t] and [icp_flat_buffer_desc_t] *)
Definition off_numBuffers : Z := 8.
Definition off_phyBuffers : Z := 16.
Definition off_dataLen : Z := 0.
Definition off_phyBuffer : Z := 8.

Inductive lac_buff_write_op := WRITE_NORMAL | WRITE_AND_GET_SIZE | WRITE_AND_ALLOW_ZERO_BUFFER.
#[global] Instance write_op_dec : EqDecision lac_buff_write_op.
Proof. solve_decision. Defined.

Definition LAC_ALIGN_POW2_ROUNDUP (num align : Z) : Z := Z.land (u64 (num + align - 1)) (not64 (align - 1)).
Definition LAC_ADDRESS_ALIGNED (address alignment : Z) : bool :=
  Z.land address (Z.shiftl 1 alignment - 1) =? 0.
Definition LAC_NO_ALIGNMENT_SHIFT : Z := 0.

(** [SalMem_virt2PhysExternal]: the client's function if there is one *)
Definition SalMem_virt2PhysExternal (virt2PhysClient : option (Z -> Z)) (qaeVirtToPhysNUMA : Z -> Z) (pVirtAddr : Z) : Z :=
  match virt2PhysClient with Some f => f pVirtAddr | None => qaeVirtToPhysNUMA pVirtAddr end.

(** * Descriptors *)

Record write := mk_write { w_addr : Z; w_size : Z; w_val : Z }.

Section descriptors.
Variable v2p : Z -> Z.

(** The loop over the flat buffers, with the descriptor of the next one at [desc] *)
Fixpoint write_flats (op : lac_buff_write_op) (isPhysicalAddress : bool) (desc : Z) (bufs : list flat_buffer)
    (log : list write) (total : Z) : Z * list write * Z :=
  match bufs with
  | [] => (CPA_STATUS_SUCCESS, log, total)
  | b :: bufs =>
      let log := log ++ [mk_write (desc + off_dataLen) 4 (buf_len b)] in
      let total := if decide (op = WRITE_AND_GET_SIZE) then u64 (total + buf_len b) else total in
      if isPhysicalAddress then
        write_flats op isPhysicalAddress (desc + sizeof_icp_flat_buffer_desc) bufs
          (log ++ [mk_write (desc + off_phyBuffer) 8 (buf_data b)]) total
      else
        let phyBuffer := v2p (buf_data b) in
        let log := log ++ [mk_write (desc + off_phyBuffer) 8 phyBuffer] in
        if negb (bool_decide (op = WRITE_AND_ALLOW_ZERO_BUFFER)) && (phyBuffer =? INVALID_PHYSICAL_ADDRESS)
        then (CPA_STATUS_FAIL, log, total)
        else write_flats op isPhysicalAddress (desc + sizeof_icp_flat_buffer_desc) bufs log total
  end.

(** The status, what is written to [*pBufListAlignedPhyAddr] and [*totalDataLenInBytes],
    and the writes to the metadata *)
Definition LacBuffDesc_CommonBufferListDescWrite (bl : CpaBufferList) (isPhysicalAddress : bool)
    (operationType : lac_buff_write_op) : Z * option Z * Z * list write :=
  let bufListDescPhyAddr := v2p (pPrivateMetaData bl) in
  if bufListDescPhyAddr =? INVALID_PHYSICAL_ADDRESS then (CPA_STATUS_FAIL, None, 0, [])
  else
    let bufListAlignedPhyAddr := LAC_ALIGN_POW2_ROUNDUP bufListDescPhyAddr ICP_DESCRIPTOR_ALIGNMENT_BYTES in
    let pBufferListDesc := pPrivateMetaData bl + (bufListAlignedPhyAddr - bufListDescPhyAddr) in
    let pCurrFlatBufDesc := pBufferListDesc + off_phyBuffers in
    let log := [mk_write (pBufferListDesc + off_numBuffers) 4 (numBuffers bl)] in
    let log :=
      if negb (bool_decide (operationType = WRITE_AND_GET_SIZE)) && (numBuffers bl =? 0)
      then log ++ [mk_write (pBufferListDesc + off_numBuffers) 4 1;
                   mk_write (pCurrFlatBufDesc + off_dataLen) 4 0; mk_write (pCurrFlatBufDesc + off_phyBuffer) 8 0]
      else log in
    let '(status, log, total) :=
      write_flats operationType isPhysicalAddress pCurrFlatBufDesc (take (Z.to_nat (numBuffers bl)) (pBuffers bl)) log 0 in
    (status, if status =? CPA_STATUS_SUCCESS then Some bufListAlignedPhyAddr else None, total, log).

Definition LacBuffDesc_BufferListDescWriteAndAllowZeroBuffer (bl : CpaBufferList) (isPhysicalAddress : bool) :=
  LacBuffDesc_CommonBufferListDescWrite bl isPhysicalAddress WRITE_AND_ALLOW_ZERO_BUFFER.
Definition LacBuffDesc_BufferListDescWrite (bl : CpaBufferList) (isPhysicalAddress : bool) :=
  LacBuffDesc_CommonBufferListDescWrite bl isPhysicalAddress WRITE_NORMAL.
Definition LacBuffDesc_BufferListDescWriteAndGetSize (bl : CpaBufferList) (isPhysicalAddress : bool) :=
  LacBuffDesc_CommonBufferListDescWrite bl isPhysicalAddress WRITE_AND_GET_SIZE.
End descriptors.

(** [cpaCyBufferListGetMetaSize] and [cpaDcBufferListGetMetaSize] on a valid instance *)
Definition cpaCyBufferListGetMetaSize (numBuffers : Z) : Z * Z :=
  let numBuffers := if numBuffers =? 0 then 1 else numBuffers in
  (CPA_STATUS_SUCCESS,
   u32 (sizeof_icp_buffer_list_desc + sizeof_icp_flat_buffer_desc * numBuffers + ICP_DESCRIPTOR_ALIGNMENT_BYTES)).
Definition cpaDcBufferListGetMetaSize (numBuffers : Z) : Z * Z :=
  if numBuffers =? 0 then (CPA_STATUS_INVALID_PARAM, 0)
  else
    (CPA_STATUS_SUCCESS,
     u32 (sizeof_icp_buffer_list_desc + sizeof_icp_flat_buffer_desc * u32 (numBuffers + 1) + ICP_DESCRIPTOR_ALIGNMENT_BYTES)).

(** * Checks *)

(** The status and the new value of [*pPktSize] *)
Definition LacBuffDesc_FlatBufferVerify (b : flat_buffer) (pktSize alignmentShiftExpected : Z) : Z * Z :=
  if buf_data b =? 0 then (CPA_STATUS_INVALID_PARAM, pktSize)
  else if buf_len b =? 0 then (CPA_STATUS_INVALID_PARAM, pktSize)
  else if negb (alignmentShiftExpected =? LAC_NO_ALIGNMENT_SHIFT) &&
          negb (LAC_ADDRESS_ALIGNED (buf_data b) alignmentShiftExpected) then (CPA_STATUS_INVALID_PARAM, pktSize)
  else (CPA_STATUS_SUCCESS, u64 (pktSize + buf_len b)).

Definition LacBuffDesc_FlatBufferVerifyNull (b : flat_buffer) (pktSize alignmentShiftExpected : Z) : Z * Z :=
  if negb (buf_len b =? 0) && (buf_data b =? 0) then (CPA_STATUS_INVALID_PARAM, pktSize)
  else if negb (alignmentShiftExpected =? LAC_NO_ALIGNMENT_SHIFT) &&
          negb (LAC_ADDRESS_ALIGNED (buf_data b) alignmentShiftExpected) then (CPA_STATUS_INVALID_PARAM, pktSize)
  else (CPA_STATUS_SUCCESS, u64 (pktSize + buf_len b)).

Fixpoint verify_loop (check : flat_buffer -> Z -> Z -> Z * Z) (bufs : list flat_buffer) (pktSize shift : Z) : Z * Z :=
  match bufs with
  | [] => (CPA_STATUS_SUCCESS, pktSize)
  | b :: bufs =>
      let '(status, pktSize) := check b pktSize shift in
      if status =? CPA_STATUS_SUCCESS then verify_loop check bufs pktSize shift else (status, pktSize)
  end.

(** [null] says whether the list or one of its pointers is NULL. *)
Definition LacBuffDesc_BufferListVerify (null : bool) (bl : CpaBufferList) (pktSize shift : Z) : Z * Z :=
  if null then (CPA_STATUS_INVALID_PARAM, pktSize)
  else if numBuffers bl =? 0 then (CPA_STATUS_INVALID_PARAM, pktSize)
  else verify_loop LacBuffDesc_FlatBufferVerify (take (Z.to_nat (numBuffers bl)) (pBuffers bl)) 0 shift.
Definition LacBuffDesc_BufferListVerifyNull (null : bool) (bl : CpaBufferList) (pktSize shift : Z) : Z * Z :=
  if null then (CPA_STATUS_INVALID_PARAM, pktSize)
  else if numBuffers bl =? 0 then (CPA_STATUS_INVALID_PARAM, pktSize)
  else verify_loop LacBuffDesc_FlatBufferVerifyNull (take (Z.to_nat (numBuffers bl)) (pBuffers bl)) 0 shift.

Fixpoint size_loop (bufs : list flat_buffer) (pktSize : Z) : Z :=
  match bufs with [] => pktSize | b :: bufs => size_loop bufs (u64 (pktSize + buf_len b)) end.
Definition LacBuffDesc_BufferListTotalSizeGet (bl : CpaBufferList) : Z :=
  size_loop (take (Z.to_nat (numBuffers bl)) (pBuffers bl)) 0.

(** * Access by offset *)

(** The memory of the client, by address *)
Abbreviation memory := (Z -> Z).
Definition osalMemSet (m : memory) (a n : Z) : memory := fun x => if (a <=? x) && (x <? a + n) then 0 else m x.

(** [LacBuffDesc_BufferListZeroFromOffset]: [None] when it runs past the last buffer *)
Fixpoint zero_loop (bufs : list flat_buffer) (offset sizeLeftToZero : Z) (m : memory) : option memory :=
  if sizeLeftToZero =? 0 then Some m
  else
    match bufs with
    | [] => None
    | b :: bufs =>
        if buf_len b <=? offset then zero_loop bufs (u32 (offset - buf_len b)) sizeLeftToZero m
        else
          let zeroLen :=
            if buf_len b <=? sizeLeftToZero then u32 (buf_len b - offset)
            else if buf_len b <=? u32 (sizeLeftToZero + offset) then u32 (buf_len b - offset)
            else sizeLeftToZero in
          zero_loop bufs 0 (u32 (sizeLeftToZero - zeroLen)) (osalMemSet m (buf_data b + offset) zeroLen)
    end.
Definition LacBuffDesc_BufferListZeroFromOffset (bl : CpaBufferList) (offset lenToZero : Z) (m : memory) : option memory :=
  zero_loop (pBuffers bl) offset lenToZero m.

(** [LacSymAlgChain_PtrFromOffsetGet]: the status and what is written to [*ppDataPtr] *)
Fixpoint ptr_loop (bufs : list flat_buffer) (packetOffset currentOffset : Z) : Z * option Z :=
  match bufs with
  | [] => (CPA_STATUS_FAIL, None)
  | b :: bufs =>
      if (currentOffset <=? packetOffset) && (packetOffset <? u32 (currentOffset + buf_len b))
      then (CPA_STATUS_SUCCESS, Some (buf_data b + u32 (packetOffset - currentOffset)))
      else ptr_loop bufs packetOffset (u32 (currentOffset + buf_len b))
  end.
Definition LacSymAlgChain_PtrFromOffsetGet (bl : CpaBufferList) (packetOffset : Z) : Z * option Z :=
  ptr_loop (take (Z.to_nat (numBuffers bl)) (pBuffers bl)) packetOffset 0.

(** * Sizes of destination buffers *)

Inductive CpaDcHuffType := CPA_DC_HT_STATIC | CPA_DC_HT_PRECOMP | CPA_DC_HT_FULL_DYNAMIC.

(** The fields of the instance that are read here *)
Record dc_instance := mk_instance { isGen4 : bool; isGen4_2 : bool }.

Definition CPA_DC_CEIL_DIV (x y : Z) : Z := u64 (x + y - 1) / y.
Definition DC_DEST_BUFF_EXTRA_DEFLATE_GEN2 : Z := 55.
Definition DC_DEST_BUFF_EXTRA_DEFLATE_GEN4_STATIC : Z := 1029.
Definition DC_DEST_BUFF_EXTRA_DEFLATE_GEN4_DYN : Z := 512.
Definition DC_DEST_BUFF_EXTRA_LZ4_GEN4 : Z := 1024.
Definition DC_DEST_BUFF_EXTRA_LZ4S_GEN4 : Z := 1024.
Definition DC_DEST_BUFF_MIN_EXTRA_BYTES (x : Z) : Z := if x <? 8 then 8 - x else 0.
Definition DC_BUF_MAX_SIZE : Z := 0xFFFFFFFF.

(** The status and what is written to [*outputSize] *)
Definition dcDeflateBoundGen2 (inputSize : Z) : Z * option Z :=
  let outBufferSize := u64 (CPA_DC_CEIL_DIV (u64 (9 * inputSize)) 8 + DC_DEST_BUFF_EXTRA_DEFLATE_GEN2 +
                            DC_DEST_BUFF_MIN_EXTRA_BYTES inputSize) in
  if DC_BUF_MAX_SIZE <? outBufferSize then (CPA_STATUS_SUCCESS, Some DC_BUF_MAX_SIZE)
  else (CPA_STATUS_SUCCESS, Some (u32 outBufferSize)).

(** The common end of the other bounds: a size of more than 32 bits is refused. *)
Definition bound_result (outputSizeLong : Z) : Z * option Z :=
  if negb (Z.land outputSizeLong 0xffffffff00000000 =? 0) then (CPA_STATUS_INVALID_PARAM, None)
  else (CPA_STATUS_SUCCESS, Some (u32 outputSizeLong)).

Definition dcDeflateBoundGen4 (pService : dc_instance) (huffType : CpaDcHuffType) (inputSize : Z) : Z * option Z :=
  match huffType with
  | CPA_DC_HT_STATIC =>
      bound_result (u64 (CPA_DC_CEIL_DIV (u64 (9 * inputSize)) 8 + DC_DEST_BUFF_EXTRA_DEFLATE_GEN4_STATIC))
  | CPA_DC_HT_FULL_DYNAMIC =>
      let outputSizeLong := u64 (DC_DEST_BUFF_EXTRA_DEFLATE_GEN4_DYN + CPA_DC_CEIL_DIV (u64 (9 * inputSize)) 8) in
      let block := if isGen4_2 pService then 4 * 1024 else 16 * 1024 in
      bound_result (u64 (outputSizeLong + u64 (8 * inputSize * 155) / 7 / block))
  | CPA_DC_HT_PRECOMP => (CPA_STATUS_INVALID_PARAM, None)
  end.

(** [null] says whether a pointer is NULL or the handle no compression instance. *)
Definition cpaDcDeflateCompressBound (null : bool) (pService : dc_instance) (huffType : CpaDcHuffType) (inputSize : Z)
    : Z * option Z :=
  if null then (CPA_STATUS_INVALID_PARAM, None)
  else if inputSize =? 0 then (CPA_STATUS_INVALID_PARAM, None)
  else
    match huffType with
    | CPA_DC_HT_PRECOMP => (CPA_STATUS_INVALID_PARAM, None)
    | _ => if isGen4 pService then dcDeflateBoundGen4 pService huffType inputSize else dcDeflateBoundGen2 inputSize
    end.

Definition dcLZ4BoundGen4 (inputSize : Z) : Z * option Z :=
  let outputSizeLong := u64 (inputSize + DC_DEST_BUFF_EXTRA_LZ4_GEN4) in
  bound_result (u64 (outputSizeLong + u64 (CPA_DC_CEIL_DIV inputSize 1520 * 13))).
Definition dcLZ4SBoundGen4 (inputSize : Z) : Z * option Z :=
  let outputSizeLong := u64 (inputSize + DC_DEST_BUFF_EXTRA_LZ4S_GEN4) in
  bound_result (u64 (outputSizeLong + CPA_DC_CEIL_DIV inputSize 18)).

Definition cpaDcLZ4CompressBound (null : bool) (pService : dc_instance) (inputSize : Z) : Z * option Z :=
  if null then (CPA_STATUS_INVALID_PARAM, None)
  else if inputSize =? 0 then (CPA_STATUS_INVALID_PARAM, None)
  else if isGen4 pService then dcLZ4BoundGen4 inputSize else (CPA_STATUS_UNSUPPORTED, None).
Definition cpaDcLZ4SCompressBound (null : bool) (pService : dc_instance) (inputSize : Z) : Z * option Z :=
  if null then (CPA_STATUS_INVALID_PARAM, None)
  else if inputSize =? 0 then (CPA_STATUS_INVALID_PARAM, None)
  else if isGen4 pService then dcLZ4SBoundGen4 inputSize else (CPA_STATUS_UNSUPPORTED, None).

(** * Lemmas *)

(** The addresses of the bytes of a buffer list, in order *)
Definition buf_addrs (b : flat_buffer) : list Z := seqZ (buf_data b) (buf_len b).
Definition addrs (bufs : list flat_buffer) : list Z := concat (map buf_addrs bufs).
Definition total_len (bufs : list flat_buffer) : Z := foldr (fun b n => buf_len b + n) 0 bufs.
Definition buf_ok (b : flat_buffer) : Prop := 0 <= buf_len b < 2 ^ 32.

Lemma addrs_length bufs : Forall buf_ok bufs -> len (addrs bufs) = total_len bufs.
Proof.
  induction 1 as [|b bufs Hb _ IH]; [done|]. change (addrs (b :: bufs)) with (buf_addrs b ++ addrs bufs).
  change (total_len (b :: bufs)) with (buf_len b + total_len bufs).
  rewrite length_app, <- IH. unfold buf_addrs. rewrite length_seqZ. unfold buf_ok in Hb. lia.
Qed.
Lemma total_len_nonneg bufs : Forall buf_ok bufs -> 0 <= total_len bufs.
Proof. intros H. rewrite <- addrs_length by done. lia. Qed.
Lemma total_len_bound bufs : Forall buf_ok bufs -> total_len bufs <= 2 ^ 32 * len bufs.
Proof.
  induction 1 as [|b bufs Hb _ IH]; [done|]. change (total_len (b :: bufs)) with (buf_len b + total_len bufs).
  unfold buf_ok in Hb. cbn [length]. lia.
Qed.
Lemma addrs_cons b bufs : addrs (b :: bufs) = buf_addrs b ++ addrs bufs.
Proof. done. Qed.

(** [zeroed m l]: the bytes at the addresses [l] are zero, the others as in [m]. *)
Definition zeroed (m : memory) (l : list Z) : memory := fun x => if decide (x ∈ l) then 0 else m x.

Lemma zeroed_app m l1 l2 x : zeroed (zeroed m l1) l2 x = zeroed m (l1 ++ l2) x.
Proof. unfold zeroed. repeat case_decide; set_solver. Qed.
Lemma memset_zeroed m a n x : osalMemSet m a n x = zeroed m (seqZ a n) x.
Proof.
  unfold osalMemSet, zeroed. destruct (decide (x ∈ seqZ a n)) as [H|H]; rewrite elem_of_seqZ in H;
    destruct (Z.leb_spec a x), (Z.ltb_spec x (a + n)); cbn; try done; lia.
Qed.

Lemma seqZ_take_drop a n o k :
  0 <= o -> 0 <= k -> o + k <= n -> take (Z.to_nat k) (drop (Z.to_nat o) (seqZ a n)) = seqZ (a + o) k.
Proof.
  intros Ho Hk Hn. replace n with (o + (k + (n - o - k))) by lia.
  rewrite seqZ_app by lia. rewrite drop_app_length' by (rewrite length_seqZ; lia).
  rewrite seqZ_app by lia. rewrite take_app_length' by (rewrite length_seqZ; lia). done.
Qed.

Lemma zero_len_min len offset size :
  0 <= offset < len -> 0 < size -> size + offset < 2 ^ 32 -> len < 2 ^ 32 ->
  (if len <=? size then u32 (len - offset) else if len <=? u32 (size + offset) then u32 (len - offset) else size) =
  Z.min (len - offset) size.
Proof. intros. rewrite !u32_small by lia. zcases. Qed.

Lemma zero_loop_spec bufs : forall offset size m,
  Forall buf_ok bufs -> 0 <= offset -> 0 <= size -> offset + size < 2 ^ 32 -> offset + size <= total_len bufs ->
  exists m', zero_loop bufs offset size m = Some m' /\
    forall x, m' x = zeroed m (take (Z.to_nat size) (drop (Z.to_nat offset) (addrs bufs))) x.
Proof.
  induction bufs as [|b bufs IH]; intros offset size m Hok Ho Hs Hlt Hle; cbn [zero_loop].
  { cbn in Hle. assert (size = 0) as -> by lia. exists m. split; [done|]. intros x. unfold zeroed.
    by rewrite decide_False by set_solver. }
  apply Forall_cons in Hok as [Hb Hok]. pose proof (total_len_nonneg _ Hok). unfold buf_ok in Hb.
  change (total_len (b :: bufs)) with (buf_len b + total_len bufs) in Hle. rewrite addrs_cons.
  destruct (Z.eqb_spec size 0) as [->|Hz].
  { exists m. split; [done|]. intros x. unfold zeroed. by rewrite decide_False by set_solver. }
  destruct (Z.leb_spec (buf_len b) offset) as [Hge|Hlt'].
  - rewrite u32_small by lia. destruct (IH (offset - buf_len b) size m) as (m' & E & Hm); [done|lia..|].
    exists m'. split; [done|]. intros x. rewrite Hm. f_equal. f_equal.
    rewrite drop_app_ge by (unfold buf_addrs; rewrite length_seqZ; lia). f_equal.
    unfold buf_addrs. rewrite length_seqZ. lia.
  - rewrite zero_len_min by lia. set (k := Z.min _ _).
    rewrite (u32_small (size - k)) by (subst k; lia).
    destruct (IH 0 (size - k) (osalMemSet m (buf_data b + offset) k)) as (m' & E & Hm); [done|subst k; lia..|].
    exists m'. split; [done|]. intros x. rewrite Hm. cbn [drop Z.to_nat].
    transitivity (zeroed (zeroed m (seqZ (buf_data b + offset) k)) (take (Z.to_nat (size - k)) (addrs bufs)) x).
    { unfold zeroed at 1 2. by rewrite memset_zeroed. }
    rewrite zeroed_app. f_equal. rewrite drop_app_le by (unfold buf_addrs; rewrite length_seqZ; lia).
    rewrite <- (seqZ_take_drop (buf_data b) (buf_len b)) by (subst k; lia). fold (buf_addrs b).
    assert (length (drop (Z.to_nat offset) (buf_addrs b)) = Z.to_nat (buf_len b - offset)) as HL
      by (unfold buf_addrs; rewrite length_drop, length_seqZ; lia).
    rewrite take_app, HL. f_equal.
    + destruct (Z.min_spec (buf_len b - offset) size) as [[? E1]|[? E1]]; fold k in E1; rewrite E1; [|done].
      rewrite !take_ge by lia. done.
    + f_equal. subst k. lia.
Qed.

Lemma ptr_loop_spec bufs : forall o cur,
  Forall buf_ok bufs -> 0 <= cur -> cur <= o -> o < 2 ^ 32 -> cur + total_len bufs < 2 ^ 32 ->
  ptr_loop bufs o cur =
    match addrs bufs !! Z.to_nat (o - cur) with
    | Some a => (CPA_STATUS_SUCCESS, Some a) | None => (CPA_STATUS_FAIL, None) end.
Proof.
  induction bufs as [|b bufs IH]; intros o cur Hok Hc Hco Ho Ht; cbn [ptr_loop]; [done|].
  apply Forall_cons in Hok as [Hb Hok]. pose proof (total_len_nonneg _ Hok). unfold buf_ok in Hb.
  change (total_len (b :: bufs)) with (buf_len b + total_len bufs) in Ht.
  rewrite addrs_cons, !u32_small by lia. rewrite (proj2 (Z.leb_le cur o)) by lia.
  assert (length (buf_addrs b) = Z.to_nat (buf_len b)) as HL by (unfold buf_addrs; by rewrite length_seqZ).
  destruct (Z.ltb_spec o (cur + buf_len b)); cbn [andb].
  - rewrite lookup_app_l by lia. unfold buf_addrs. rewrite lookup_seqZ_lt by lia.
    by rewrite Z2Nat.id by lia.
  - rewrite IH by (done || lia). rewrite lookup_app_r by lia. rewrite HL.
    by replace (Z.to_nat (o - (cur + buf_len b))) with (Z.to_nat (o - cur) - Z.to_nat (buf_len b))%nat by lia.
Qed.

(** A buffer list behaves as the one buffer that its flat buffers make up: the pointer for
    an offset is that of the byte at this offset, and an error past the end; zeroing from an
    offset clears exactly the bytes at these offsets and no other byte of memory. *)
Theorem buffer_list_offsets (bl : CpaBufferList) (m : memory) (offset lenToZero : Z)
    (Hlen : numBuffers bl = len (pBuffers bl)) (Hbufs : Forall buf_ok (pBuffers bl))
    (Htotal : total_len (pBuffers bl) < 2 ^ 32) (Hoff : 0 <= offset < 2 ^ 32) (Hz : 0 <= lenToZero) :
  LacSymAlgChain_PtrFromOffsetGet bl offset =
    (match addrs (pBuffers bl) !! Z.to_nat offset with
     | Some a => (CPA_STATUS_SUCCESS, Some a) | None => (CPA_STATUS_FAIL, None) end) /\
  (offset + lenToZero <= total_len (pBuffers bl) ->
   exists m', LacBuffDesc_BufferListZeroFromOffset bl offset lenToZero m = Some m' /\
     forall x, m' x = zeroed m (take (Z.to_nat lenToZero) (drop (Z.to_nat offset) (addrs (pBuffers bl)))) x).
Proof.
  split.
  - unfold LacSymAlgChain_PtrFromOffsetGet. rewrite Hlen, Nat2Z.id, take_ge by lia.
    rewrite ptr_loop_spec by (done || lia). by rewrite Z.sub_0_r.
  - intros Hle. apply zero_loop_spec; done || lia.
Qed.
Definition two_buffers : CpaBufferList := mk_list 2 [mk_buf 4 100; mk_buf 6 300] 50.
Lemma buffer_list_offsets_witness :
  LacSymAlgChain_PtrFromOffsetGet two_buffers 5 = (CPA_STATUS_SUCCESS, Some 301) /\
  exists m', LacBuffDesc_BufferListZeroFromOffset two_buffers 3 4 (fun x => x) = Some m' /\
    m' 102 = 102 /\ m' 103 = 0 /\ m' 302 = 0 /\ m' 303 = 303.
Proof.
  assert (Forall buf_ok (pBuffers two_buffers)) as HB by (repeat constructor; cbn; lia).
  assert (total_len (pBuffers two_buffers) < 2 ^ 32) as HT by (vm_compute; reflexivity).
  destruct (buffer_list_offsets two_buffers (fun x => x) 5 0 eq_refl HB HT ltac:(lia) ltac:(lia)) as [H1 _].
  destruct (buffer_list_offsets two_buffers (fun x => x) 3 4 eq_refl HB HT ltac:(lia) ltac:(lia)) as [_ H2].
  split; [rewrite H1; vm_compute; reflexivity|].
  destruct H2 as (m' & E & Hm); [vm_compute; congruence|].
  exists m'. split; [exact E|]. rewrite !Hm. split_and!; vm_compute; reflexivity.
Defined.

(** * What the device reads *)

(** The value at an address after the writes of [log] *)
Definition peek (log : list write) (a : Z) : option Z :=
  foldl (fun v w => if w_addr w =? a then Some (w_val w) else v) None log.

(** The descriptor of the flat buffer [i] of the list descriptor at [d] *)
Definition view (log : list write) (d i : Z) : option (Z * Z) :=
  let f := d + off_phyBuffers + sizeof_icp_flat_buffer_desc * i in
  match peek log (f + off_dataLen), peek log (f + off_phyBuffer) with
  | Some l, Some p => Some (l, p)
  | _, _ => None
  end.

Lemma peek_app_other log ws a : (forall w, w ∈ ws -> w_addr w <> a) -> peek (log ++ ws) a = peek log a.
Proof.
  unfold peek. rewrite foldl_app. generalize (foldl (fun v w => if w_addr w =? a then Some (w_val w) else v) None log) as v.
  induction ws as [|w ws IH]; intros v Hw; cbn; [done|]. rewrite (proj2 (Z.eqb_neq _ _)) by (apply Hw; set_solver).
  apply IH. set_solver.
Qed.

Section view.
Variable v2p : Z -> Z.

Definition phys_of (isPhysicalAddress : bool) (b : flat_buffer) : Z :=
  if isPhysicalAddress then buf_data b else v2p (buf_data b).

(** The writes for the flat buffers, with the first descriptor at [desc] *)
Fixpoint flat_writes (isPhysicalAddress : bool) (desc : Z) (bufs : list flat_buffer) : list write :=
  match bufs with
  | [] => []
  | b :: bufs =>
      mk_write (desc + off_dataLen) 4 (buf_len b) :: mk_write (desc + off_phyBuffer) 8 (phys_of isPhysicalAddress b) ::
      flat_writes isPhysicalAddress (desc + sizeof_icp_flat_buffer_desc) bufs
  end.

(** Whether every buffer can be translated, where this is asked for *)
Definition translatable (op : lac_buff_write_op) (isPhysicalAddress : bool) (bufs : list flat_buffer) : Prop :=
  isPhysicalAddress = true \/ op = WRITE_AND_ALLOW_ZERO_BUFFER \/ Forall (fun b => v2p (buf_data b) <> 0) bufs.

Lemma write_flats_spec op ph bufs : forall desc log total st log' total',
  write_flats v2p op ph desc bufs log total = (st, log', total') ->
  exists k, log' = log ++ take k (flat_writes ph desc bufs) /\
    (st = CPA_STATUS_SUCCESS <-> translatable op ph bufs) /\
    (st = CPA_STATUS_SUCCESS -> (length (flat_writes ph desc bufs) <= k)%nat /\
       (op = WRITE_AND_GET_SIZE -> 0 <= total -> Forall buf_ok bufs -> total + total_len bufs < 2 ^ 64 ->
        total' = total + total_len bufs)).
Proof.
  unfold translatable. induction bufs as [|b bufs IH]; intros desc log total st log' total'; cbn [write_flats flat_writes].
  { intros [= <- <- <-]. exists 0%nat. rewrite app_nil_r. split_and!; [done| |].
    - split; [intros _; right; right; constructor|done].
    - intros _. split; [done|]. cbn. intros. lia. }
  set (total1 := if decide _ then _ else total).
  assert ((op = WRITE_AND_GET_SIZE -> 0 <= total1 -> Forall buf_ok bufs -> total1 + total_len bufs < 2 ^ 64 ->
      total' = total1 + total_len bufs) ->
    op = WRITE_AND_GET_SIZE -> 0 <= total -> Forall buf_ok (b :: bufs) -> total + total_len (b :: bufs) < 2 ^ 64 ->
    total' = total + total_len (b :: bufs)) as TOT.
  { intros HT Hop Ht [Hb Hbs]%Forall_cons Hlt. change (total_len (b :: bufs)) with (buf_len b + total_len bufs) in *.
    pose proof (total_len_nonneg _ Hbs). unfold buf_ok in Hb. assert (total1 = total + buf_len b) as E1.
    { subst total1. rewrite decide_True by done. apply u64_small. lia. }
    rewrite HT by (done || lia). lia. }
  destruct ph.
  - intros (k & -> & Hst & Hs)%IH. exists (S (S k)). cbn [take]. rewrite <- !app_assoc. split_and!; [done| |].
    + rewrite Hst. split; intros _; by left.
    + intros E. destruct (Hs E) as [? HT]. split; [cbn; lia|]. by apply TOT.
  - destruct (negb (bool_decide (op = WRITE_AND_ALLOW_ZERO_BUFFER)) && (v2p (buf_data b) =? INVALID_PHYSICAL_ADDRESS)) eqn:E.
    + intros [= <- <- <-]. apply andb_true_iff in E as [E1%negb_true_iff E2%Z.eqb_eq]. apply bool_decide_eq_false in E1.
      exists 2%nat. cbn [take]. rewrite <- app_assoc. split_and!; [by rewrite take_0| |done].
      split; [done|]. intros [?|[?|[? _]%Forall_cons]]; done.
    + intros (k & -> & Hst & Hs)%IH. exists (S (S k)). cbn [take]. rewrite <- !app_assoc. split_and!; [done| |].
      * rewrite Hst. apply andb_false_iff in E. split.
        -- intros [?|[?|H]]; [done|tauto|]. destruct E as [E%negb_false_iff%bool_decide_eq_true|E%Z.eqb_neq]; [tauto|].
           right. right. by apply Forall_cons.
        -- intros [?|[?|[? ?]%Forall_cons]]; tauto.
      * intros E1. destruct (Hs E1) as [? HT]. split; [cbn; lia|]. by apply TOT.
Qed.
Lemma flat_writes_range ph bufs : forall desc w, w ∈ flat_writes ph desc bufs ->
  desc <= w_addr w /\ w_addr w + w_size w <= desc + 16 * len bufs.
Proof.
  unfold off_dataLen, off_phyBuffer.
  induction bufs as [|b bufs IH]; intros desc w; cbn [flat_writes length]; [set_solver|].
  unfold off_dataLen, off_phyBuffer, sizeof_icp_flat_buffer_desc. intros [->|[->|Hw]%elem_of_cons]%elem_of_cons; [cbn; lia..|].
  apply IH in Hw. lia.
Qed.

Lemma nil_writes ph bufs desc : len bufs = 0 -> flat_writes ph desc bufs = [].
Proof. by destruct bufs. Qed.

Lemma peek_flat ph bufs : forall desc log i b, bufs !! i = Some b ->
  peek (log ++ flat_writes ph desc bufs) (desc + 16 * Z.of_nat i + off_dataLen) = Some (buf_len b) /\
  peek (log ++ flat_writes ph desc bufs) (desc + 16 * Z.of_nat i + off_phyBuffer) = Some (phys_of ph b).
Proof.
  induction bufs as [|b0 bufs IH]; intros desc log i b Hi; [done|]. cbn [flat_writes].
  set (w1 := mk_write _ _ (buf_len b0)). set (w2 := mk_write _ _ (phys_of ph b0)).
  replace (log ++ w1 :: w2 :: flat_writes ph (desc + sizeof_icp_flat_buffer_desc) bufs)
    with ((log ++ [w1; w2]) ++ flat_writes ph (desc + sizeof_icp_flat_buffer_desc) bufs) by (by rewrite <- app_assoc).
  destruct i as [|i].
  - injection Hi as ->. assert (forall a, a < desc + 16 ->
      forall w, w ∈ flat_writes ph (desc + sizeof_icp_flat_buffer_desc) bufs -> w_addr w <> a) as Ho.
    { intros a Ha w Hw%flat_writes_range. unfold sizeof_icp_flat_buffer_desc in Hw. lia. }
    unfold off_dataLen, off_phyBuffer in *. subst w1 w2.
    split; rewrite peek_app_other by (apply Ho; lia); unfold peek; rewrite foldl_app; cbn; zcases.
  - specialize (IH (desc + sizeof_icp_flat_buffer_desc) (log ++ [w1; w2]) i b Hi).
    unfold sizeof_icp_flat_buffer_desc in *.
    by replace (desc + 16 * Z.of_nat (S i)) with (desc + 16 + 16 * Z.of_nat i) by lia.
Qed.

Lemma roundup_spec x : 0 <= x < 2 ^ 64 - 8 ->
  let a := LAC_ALIGN_POW2_ROUNDUP x ICP_DESCRIPTOR_ALIGNMENT_BYTES in a mod 8 = 0 /\ 0 <= a - x < 8.
Proof.
  intros Hx. cbn zeta. unfold LAC_ALIGN_POW2_ROUNDUP, ICP_DESCRIPTOR_ALIGNMENT_BYTES. rewrite u64_small by lia.
  replace (x + 8 - 1) with (x + 7) by lia.
  assert (Z.land (x + 7) (not64 (8 - 1)) = x + 7 - (x + 7) mod 8) as ->.
  { transitivity (Z.shiftl (Z.shiftr (x + 7) 3) 3).
    - apply Z.bits_inj'. intros i Hi. change (not64 (8 - 1)) with (Z.shiftl (Z.ones 61) 3).
      assert (64 <= i -> Z.testbit (x + 7) i = false) as Hh by (intros; apply (testbit_range _ 64); lia).
      rewrite Z.land_spec, !Z.shiftl_spec by lia. destruct (Z.ltb_spec i 3).
      + rewrite !(Z.testbit_neg_r _ (i - 3)) by lia. btauto.
      + rewrite Z.shiftr_spec by lia. rewrite testbit_ones by lia. replace (i - 3 + 3) with i by lia.
        destruct (Z.ltb_spec (i - 3) 61); [btauto|]. rewrite Hh by lia. btauto.
    - rewrite Z.shiftl_mul_pow2, Z.shiftr_div_pow2 by lia. change (2 ^ 3) with 8. divmod (x + 7) 8. lia. }
  divmod (x + 7) 8. split; [|lia]. rewrite Zminus_mod_idemp_r, Z.sub_diag. done.
Qed.
End view.

(** The number of descriptors that the device is told: at least one unless the size is asked for *)
Definition told (op : lac_buff_write_op) (n : Z) : Z :=
  if negb (bool_decide (op = WRITE_AND_GET_SIZE)) && (n =? 0) then 1 else n.

(** The writes before those for the flat buffers *)
Definition head_writes (op : lac_buff_write_op) (n d : Z) : list write :=
  let log := [mk_write (d + off_numBuffers) 4 n] in
  if negb (bool_decide (op = WRITE_AND_GET_SIZE)) && (n =? 0)
  then log ++ [mk_write (d + off_numBuffers) 4 1;
               mk_write (d + off_phyBuffers + off_dataLen) 4 0; mk_write (d + off_phyBuffers + off_phyBuffer) 8 0]
  else log.

Lemma head_writes_spec op n d :
  (forall w, w ∈ head_writes op n d -> d + 8 <= w_addr w /\ w_addr w + w_size w <= d + 32) /\
  peek (head_writes op n d) (d + off_numBuffers) = Some (told op n) /\
  (told op n = 1 -> n = 0 -> view (head_writes op n d) d 0 = Some (0, 0)).
Proof.
  unfold head_writes, told. unfold off_numBuffers, off_phyBuffers, off_dataLen, off_phyBuffer.
  destruct (negb _ && _) eqn:E; split_and!.
  - intros w. cbn. rewrite !elem_of_cons, elem_of_nil. intros [->|[->|[->|[->|[]]]]]; cbn; lia.
  - unfold peek. cbn. zcases.
  - intros _ _. unfold view, peek, off_phyBuffers, off_dataLen, off_phyBuffer, sizeof_icp_flat_buffer_desc. cbn.
    zcases.
  - intros w. rewrite elem_of_cons, elem_of_nil. intros [->|[]]; cbn; lia.
  - unfold peek. cbn. zcases.
  - intros ? ->. done.
Qed.

Lemma meta_size n : 0 <= n < 2 ^ 28 - 3 -> (cpaCyBufferListGetMetaSize n).2 = 24 + 16 * Z.max 1 n.
Proof.
  intros Hn. unfold cpaCyBufferListGetMetaSize, sizeof_icp_buffer_list_desc, sizeof_icp_flat_buffer_desc, ICP_DESCRIPTOR_ALIGNMENT_BYTES.
  cbn [snd]. rewrite u32_small; zcases.
Qed.

(** C33. The descriptors written for a buffer list tell the device exactly the client's flat
    buffers: lengths and physical addresses in order, at an address aligned to 8 bytes; an
    empty list is told as one empty buffer.  All writes stay inside the metadata when it has the
    size that the API asks for.  The call fails exactly when the metadata or a buffer that has
    to be translated has no physical address. *)
Theorem descriptors_tell_buffers (v2p : Z -> Z) (bl : CpaBufferList) (isPhysicalAddress : bool) (op : lac_buff_write_op)
    (Hlen : numBuffers bl = len (pBuffers bl)) (Hnum : numBuffers bl < 2 ^ 28 - 3)
    (Hbufs : Forall buf_ok (pBuffers bl)) (Hphys : 0 <= v2p (pPrivateMetaData bl) < 2 ^ 64 - 8) :
  let '(status, aligned, total, log) := LacBuffDesc_CommonBufferListDescWrite v2p bl isPhysicalAddress op in
  (status = CPA_STATUS_SUCCESS <->
     v2p (pPrivateMetaData bl) <> 0 /\ translatable v2p op isPhysicalAddress (pBuffers bl)) /\
  (forall w, w ∈ log -> pPrivateMetaData bl <= w_addr w /\
     w_addr w + w_size w <= pPrivateMetaData bl + (cpaCyBufferListGetMetaSize (numBuffers bl)).2) /\
  (status = CPA_STATUS_SUCCESS -> exists a, aligned = Some a /\ a mod 8 = 0 /\ 0 <= a - v2p (pPrivateMetaData bl) < 8 /\
     let d := pPrivateMetaData bl + (a - v2p (pPrivateMetaData bl)) in
     peek log (d + off_numBuffers) = Some (told op (numBuffers bl)) /\
     (forall i b, pBuffers bl !! i = Some b -> view log d (Z.of_nat i) = Some (buf_len b, phys_of v2p isPhysicalAddress b)) /\
     (told op (numBuffers bl) = 1 -> numBuffers bl = 0 -> view log d 0 = Some (0, 0)) /\
     (op = WRITE_AND_GET_SIZE -> total = total_len (pBuffers bl))).
Proof.
  unfold LacBuffDesc_CommonBufferListDescWrite, INVALID_PHYSICAL_ADDRESS.
  destruct (Z.eqb_spec (v2p (pPrivateMetaData bl)) 0) as [E0|E0].
  { split_and!; [split; [done|tauto]|set_solver|done]. }
  rewrite Hlen, Nat2Z.id, take_ge by lia.
  pose proof (roundup_spec _ Hphys) as RU. cbn zeta in RU.
  set (a := LAC_ALIGN_POW2_ROUNDUP _ _) in *. destruct RU as [Ha1 Ha2].
  set (d := pPrivateMetaData bl + (a - _)). destruct (write_flats _ _ _ _ _ _ _) as [[st log] total] eqn:EW.
  apply write_flats_spec in EW as (k & -> & Hst & Hs).
  change (if negb _ && _ then _ else _) with (head_writes op (len (pBuffers bl)) d).
  destruct (head_writes_spec op (len (pBuffers bl)) d) as (HW1 & HW2 & HW3).
  set (fw := flat_writes v2p isPhysicalAddress (d + off_phyBuffers) (pBuffers bl)) in *.
  assert (forall w, w ∈ fw -> d + 16 <= w_addr w /\ w_addr w + w_size w <= d + 16 + 16 * len (pBuffers bl)) as FR.
  { intros w Hw%flat_writes_range. unfold off_phyBuffers in Hw. lia. }
  rewrite meta_size by lia. split_and!.
  - rewrite Hst. tauto.
  - intros w [Hw|Hw]%elem_of_app; [apply HW1 in Hw; subst d; lia|].
    apply elem_of_take in Hw as (i & Hw%list_elem_of_lookup_2%FR & _). subst d. lia.
  - intros ->. destruct (Hs eq_refl) as [Hk HT]. rewrite take_ge by done. exists a. fold d.
    split_and!; [done|done|lia|lia| | | |].
    + rewrite peek_app_other; [done|]. intros w Hw%FR. unfold off_numBuffers. lia.
    + intros i b Hi. unfold view, sizeof_icp_flat_buffer_desc.
      destruct (peek_flat v2p isPhysicalAddress (pBuffers bl) (d + off_phyBuffers) (head_writes op (len (pBuffers bl)) d) i b Hi) as [E1 E2].
      fold fw in E1, E2. by rewrite E1, E2.
    + intros H1 H2. assert (fw = []) as -> by (subst fw; by apply nil_writes).
      rewrite app_nil_r. by apply HW3.
    + intros Hop. rewrite HT; try done. pose proof (total_len_bound _ Hbufs). lia.
Qed.
Lemma descriptors_tell_buffers_witness :
  let '(status, aligned, total, log) :=
    LacBuffDesc_BufferListDescWriteAndGetSize (fun a => a + 4096) two_buffers false in
  status = CPA_STATUS_SUCCESS /\ aligned = Some 4152 /\ total = 10 /\
  peek log (56 + off_numBuffers) = Some 2 /\ view log 56 1 = Some (6, 4396) /\
  forall w, w ∈ log -> 50 <= w_addr w /\ w_addr w + w_size w <= 50 + 56.
Proof.
  pose proof (descriptors_tell_buffers (fun a => a + 4096) two_buffers false WRITE_AND_GET_SIZE eq_refl eq_refl
    ltac:(repeat constructor; cbn; lia) ltac:(cbn; lia)) as H.
  unfold LacBuffDesc_BufferListDescWriteAndGetSize.
  destruct (LacBuffDesc_CommonBufferListDescWrite _ two_buffers false WRITE_AND_GET_SIZE) as [[[st al] tot] log] eqn:E.
  destruct H as (H1 & H2 & H3). vm_compute in E. injection E as <- <- <- <-.
  split_and!; try (vm_compute; reflexivity). exact H2.
Defined.

(** The metadata of the compression service is at least as large. *)
Lemma dc_meta_size n : 0 < n < 2 ^ 28 - 3 -> (cpaCyBufferListGetMetaSize n).2 <= (cpaDcBufferListGetMetaSize n).2.
Proof.
  intros Hn. rewrite meta_size by lia. unfold cpaDcBufferListGetMetaSize. rewrite (proj2 (Z.eqb_neq n 0)) by lia.
  unfold sizeof_icp_buffer_list_desc, sizeof_icp_flat_buffer_desc, ICP_DESCRIPTOR_ALIGNMENT_BYTES.
  cbn [snd]. rewrite (u32_small (n + 1)) by lia. rewrite u32_small; lia.
Qed.

(** * Sizes *)

Lemma bound_result_spec x : 0 <= x < 2 ^ 64 ->
  bound_result x = if x <? 2 ^ 32 then (CPA_STATUS_SUCCESS, Some x) else (CPA_STATUS_INVALID_PARAM, None).
Proof.
  intros Hx. unfold bound_result. change 0xffffffff00000000 with (Z.shiftl (Z.ones 32) 32).
  assert (Z.land x (Z.shiftl (Z.ones 32) 32) = Z.shiftl (Z.shiftr x 32) 32) as ->.
  { apply Z.bits_inj'. intros i Hi. rewrite Z.land_spec, !Z.shiftl_spec by lia. destruct (Z.ltb_spec i 32).
    - rewrite !(Z.testbit_neg_r _ (i - 32)) by lia. btauto.
    - rewrite Z.shiftr_spec, testbit_ones by lia. replace (i - 32 + 32) with i by lia.
      destruct (Z.ltb_spec (i - 32) 32); [btauto|]. rewrite (testbit_range x 64 i) by lia. btauto. }
  rewrite Z.shiftl_mul_pow2, Z.shiftr_div_pow2 by lia. divmod x (2 ^ 32).
  destruct (Z.ltb_spec x (2 ^ 32)).
  - rewrite (Z.div_small x) by lia. cbn. by rewrite u32_small by lia.
  - assert (0 < x / 2 ^ 32) by (apply Z.div_str_pos; lia). rewrite (proj2 (Z.eqb_neq _ 0)) by lia. done.
Qed.

Definition ceil_div (x y : Z) : Z := (x + (y - 1)) / y.
Lemma ceil_div_spec x y : 0 <= x < 2 ^ 40 -> 0 < y < 2 ^ 20 -> CPA_DC_CEIL_DIV x y = ceil_div x y /\ 0 <= y * ceil_div x y - x < y.
Proof.
  intros Hx Hy. unfold CPA_DC_CEIL_DIV, ceil_div. rewrite u64_small by lia. replace (x + y - 1) with (x + (y - 1)) by lia.
  divmod (x + (y - 1)) y. split; [done|lia].
Qed.

(** C34. The sizes for destination buffers follow their formulas for every input size: no
    intermediate result wraps around, a size of more than 32 bits is refused, except on devices
    of generation 2, where it is cut to 2 ^ 32 - 1; and each size that is not cut exceeds the
    input. *)
Theorem compress_bounds (svc : dc_instance) (n : Z) (Hn : 0 < n < 2 ^ 32) :
  let fits x := if x <? 2 ^ 32 then (CPA_STATUS_SUCCESS, Some x) else (CPA_STATUS_INVALID_PARAM, None) in
  let static := ceil_div (9 * n) 8 + 1029 in
  let block := if isGen4_2 svc then 4096 else 16384 in
  let dynamic := ceil_div (9 * n) 8 + 512 + 8 * n * 155 / 7 / block in
  let gen2 := ceil_div (9 * n) 8 + 55 + (if n <? 8 then 8 - n else 0) in
  let lz4 := n + 1024 + ceil_div n 1520 * 13 in
  let lz4s := n + 1024 + ceil_div n 18 in
  (cpaDcDeflateCompressBound false svc CPA_DC_HT_STATIC n =
     if isGen4 svc then fits static else (CPA_STATUS_SUCCESS, Some (Z.min gen2 (2 ^ 32 - 1)))) /\
  (cpaDcDeflateCompressBound false svc CPA_DC_HT_FULL_DYNAMIC n =
     if isGen4 svc then fits dynamic else (CPA_STATUS_SUCCESS, Some (Z.min gen2 (2 ^ 32 - 1)))) /\
  (cpaDcLZ4CompressBound false svc n = if isGen4 svc then fits lz4 else (CPA_STATUS_UNSUPPORTED, None)) /\
  (cpaDcLZ4SCompressBound false svc n = if isGen4 svc then fits lz4s else (CPA_STATUS_UNSUPPORTED, None)) /\
  n < static /\ n < dynamic /\ 64 <= gen2 /\ n < gen2 /\ n < lz4 /\ n < lz4s.
Proof.
  cbn zeta. destruct (ceil_div_spec (9 * n) 8) as [E8 H8]; [lia..|].
  destruct (ceil_div_spec n 1520) as [E15 H15]; [lia..|]. destruct (ceil_div_spec n 18) as [E18 H18]; [lia..|].
  set (block := if isGen4_2 svc then 4096 else 16384). assert (0 < block) as Hb by (subst block; case_if; lia).
  assert (0 <= 8 * n * 155 / 7 / block <= 8 * n * 155 / 7) as Hd.
  { assert (0 <= 8 * n * 155 / 7) by (apply Z.div_pos; lia). split; [by apply Z.div_pos|]. apply Z.div_le_upper_bound; nia. }
  assert (8 * n * 155 / 7 <= 8 * n * 155) by (apply Z.div_le_upper_bound; lia).
  unfold cpaDcDeflateCompressBound, cpaDcLZ4CompressBound, cpaDcLZ4SCompressBound. rewrite (proj2 (Z.eqb_neq n 0)) by lia.
  unfold dcDeflateBoundGen4, dcDeflateBoundGen2, dcLZ4BoundGen4, dcLZ4SBoundGen4, DC_DEST_BUFF_EXTRA_DEFLATE_GEN2,
    DC_DEST_BUFF_EXTRA_DEFLATE_GEN4_STATIC, DC_DEST_BUFF_EXTRA_DEFLATE_GEN4_DYN, DC_DEST_BUFF_EXTRA_LZ4_GEN4,
    DC_DEST_BUFF_EXTRA_LZ4S_GEN4, DC_DEST_BUFF_MIN_EXTRA_BYTES, DC_BUF_MAX_SIZE.
  rewrite !(u64_small (9 * n)), !(u64_small (8 * n * 155)), E8, E15, E18 by lia.
  change (if isGen4_2 svc then 4 * 1024 else 16 * 1024) with block.
  assert (0 <= (if n <? 8 then 8 - n else 0) <= 8) as HM by (case_if; lia).
  set (min8 := if n <? 8 then _ else _) in *. assert (8 <= n + min8) by (subst min8; case_if; lia).
  set (dyn := 8 * n * 155 / 7 / block) in *.
  rewrite (u64_small (512 + _)), (u64_small (n + 1024)), (u64_small (ceil_div n 1520 * 13)) by lia.
  rewrite !u64_small by lia. rewrite !bound_result_spec by lia.
  split_and!; try lia; destruct (isGen4 svc); try done.
  - destruct (Z.ltb_spec 0xFFFFFFFF (ceil_div (9 * n) 8 + 55 + min8)); do 2 f_equal; [lia|]. rewrite u32_small; lia.
  - by replace (512 + ceil_div (9 * n) 8 + dyn) with (ceil_div (9 * n) 8 + 512 + dyn) by lia.
  - destruct (Z.ltb_spec 0xFFFFFFFF (ceil_div (9 * n) 8 + 55 + min8)); do 2 f_equal; [lia|]. rewrite u32_small; lia.
Qed.
Lemma compress_bounds_witness :
  cpaDcDeflateCompressBound false (mk_instance true true) CPA_DC_HT_STATIC 1000 = (CPA_STATUS_SUCCESS, Some 2154) /\
  cpaDcDeflateCompressBound false (mk_instance true true) CPA_DC_HT_STATIC (2 ^ 32 - 1) = (CPA_STATUS_INVALID_PARAM, None).
Proof.
  destruct (compress_bounds (mk_instance true true) 1000 ltac:(lia)) as [H1 _].
  destruct (compress_bounds (mk_instance true true) (2 ^ 32 - 1) ltac:(lia)) as [H2 _].
  split; [rewrite H1|rewrite H2]; vm_compute; reflexivity.
Defined.
