(* ===== verification/DcSession.v ===== *)
(** * Compression sessions

    Setting up, updating, resetting and removing a session of the compression service
    ([compression/dc_session.c], with the device data of [ctrl/sal_compression.c] and the
    bit fields of [firmware/include]).  A session holds two templates of request messages,
    one for each direction; a template tells the device the format, the search depth and
    where the state of the session is.

    Enumerations that a client fills in are integers here, since a client can put any value
    there; the constants of [DcFormat] and [Buffers] stand for their values.  A lock is one
    of four states, and locking one that is not free has no result ([None]).  [v2p] is the
    translation to physical addresses. *)

From S2P Require Import Prelude Checksum DcFormat Buffers.

(** * Data *)

Definition comp_type_value (t : CpaDcCompType) : Z :=
  match t with CPA_DC_DEFLATE => 3 | CPA_DC_LZ4 => 4 | CPA_DC_LZ4S => 5 end.
Coercion comp_type_value : CpaDcCompType >-> Z.
Definition checksum_value (c : CpaDcChecksum) : Z :=
  match c with CPA_DC_NONE => 0 | CPA_DC_CRC32 => 1 | CPA_DC_ADLER32 => 2 | CPA_DC_CRC32_ADLER32 => 3 | CPA_DC_XXHASH32 => 4 end.
Coercion checksum_value : CpaDcChecksum >-> Z.
Definition session_dir_value (d : CpaDcSessionDir) : Z :=
  match d with CPA_DC_DIR_COMPRESS => 0 | CPA_DC_DIR_DECOMPRESS => 1 | CPA_DC_DIR_COMBINED => 2 end.
Coercion session_dir_value : CpaDcSessionDir >-> Z.
Definition huff_type_value (h : CpaDcHuffType) : Z :=
  match h with CPA_DC_HT_STATIC => 0 | CPA_DC_HT_PRECOMP => 1 | CPA_DC_HT_FULL_DYNAMIC => 2 end.
Coercion huff_type_value : CpaDcHuffType >-> Z.

Definition CPA_FALSE : Z := 0.
Definition CPA_TRUE : Z := 1.
Definition CPA_DC_STATEFUL : Z := 0.
Definition CPA_DC_STATELESS : Z := 1.
Definition CPA_DC_ASB_DISABLED : Z := 0.
Definition CPA_DC_ASB_STATIC_DYNAMIC : Z := 1.
Definition CPA_DC_ASB_UNCOMP_STATIC_DYNAMIC_WITH_STORED_HDRS : Z := 2.
Definition CPA_DC_ASB_UNCOMP_STATIC_DYNAMIC_WITH_NO_HDRS : Z := 3.
Definition CPA_DC_ASB_ENABLED : Z := 4.
Definition CPA_DC_MIN_3_BYTE_MATCH : Z := 0.
Definition CPA_DC_MIN_4_BYTE_MATCH : Z := 1.

(** No code reads the window size. *)
Record CpaDcSessionSetupData := mk_setup {
  su_compLevel : Z; su_compType : Z; su_huffType : Z; su_autoSelectBestHuffmanTree : Z; su_sessDirection : Z;
  su_sessState : Z; su_windowSize : Z; su_minMatch : Z; su_lz4BlockMaxSize : Z; su_lz4BlockChecksum : Z; su_lz4BlockIndependence : Z;
  su_checksum : Z; su_accumulateXXHash : Z
}.
#[global] Instance eta_setup : Eta CpaDcSessionSetupData := fun r =>
  mk_setup (su_compLevel r) (su_compType r) (su_huffType r) (su_autoSelectBestHuffmanTree r) (su_sessDirection r)
    (su_sessState r) (su_windowSize r) (su_minMatch r) (su_lz4BlockMaxSize r) (su_lz4BlockChecksum r) (su_lz4BlockIndependence r)
    (su_checksum r) (su_accumulateXXHash r).

Record CpaDcSessionUpdateData := mk_update { up_compLevel : Z; up_huffType : Z; up_enableDmm : Z }.

Inductive service_state := ServiceRunning | ServiceRestarting | ServiceStopped.
Inductive lock_state := LockNone | LockFree | LockHeld | LockDestroyed.
Inductive dc_request_dir_t := DC_COMPRESSION_REQUEST | DC_DECOMPRESSION_REQUEST.
Inductive dc_request_type_t := DC_REQUEST_FIRST | DC_REQUEST_SUBSEQUENT.
(** [pCompressionCb]: the client's function, or [LacSync_GenWakeupSyncCaller] *)
Inductive CpaDcCallbackFn := CbNull | CbSync | CbClient.

#[global] Instance lock_dec : EqDecision lock_state.
Proof. solve_decision. Defined.
#[global] Instance dir_dec : EqDecision dc_request_dir_t.
Proof. solve_decision. Defined.
#[global] Instance type_dec : EqDecision dc_request_type_t.
Proof. solve_decision. Defined.
#[global] Instance cb_dec : EqDecision CpaDcCallbackFn.
Proof. solve_decision. Defined.
Notation "x == y" := (bool_decide (x = y)) (at level 70) : qat_scope.

(** [sal_compression_device_data_t] *)
Record device_data := mk_device {
  minOutputBuffSize : Z; minOutputBuffSizeDynamic : Z; useDevRam : Z; oddByteDecompInterim : bool;
  oddByteDecompNobFinal : bool; translatorOverflow : bool; enableDmm : bool; inflateContextSize : Z;
  highestHwCompressionDepth : Z; windowSizeMask : Z; uniqueCompressionLevels : list bool; numCompressionLevels : Z;
  lz4DecompContextSize : Z
}.
#[global] Instance eta_device : Eta device_data := fun r =>
  mk_device (minOutputBuffSize r) (minOutputBuffSizeDynamic r) (useDevRam r) (oddByteDecompInterim r)
    (oddByteDecompNobFinal r) (translatorOverflow r) (enableDmm r) (inflateContextSize r) (highestHwCompressionDepth r)
    (windowSizeMask r) (uniqueCompressionLevels r) (numCompressionLevels r) (lz4DecompContextSize r).

(** [sal_compression_service_t], with the fields of [generic_service_info] *)
Record sal_compression_service := mk_service {
  svc_state : service_state; svc_compression : bool; virt2PhysClient : bool; isGen4 : bool; dcExtendedFeatures : Z;
  integrityCrcCheck : bool; capabilitiesMask : Z; comp_device_data : device_data;
  numInterBuffs : Z; minInterBuffSizeInBytes : Z; pInterBuffPtrsArray : Z; pInterBuffPtrsArrayPhyAddr : Z
}.
#[global] Instance eta_service : Eta sal_compression_service := fun r =>
  mk_service (svc_state r) (svc_compression r) (virt2PhysClient r) (isGen4 r) (dcExtendedFeatures r)
    (integrityCrcCheck r) (capabilitiesMask r) (comp_device_data r) (numInterBuffs r) (minInterBuffSizeInBytes r)
    (pInterBuffPtrsArray r) (pInterBuffPtrsArrayPhyAddr r).

(** [icp_qat_fw_comp_req_t].  Longwords 16 and 17 are a union: the initial checksums, or the
    address of the CRC data in 64 bits. *)
Record comp_req := mk_req {
  hdr_flags : Z; service_type : Z; service_cmd_id : Z; comn_req_flags : Z; serv_specif_flags : Z;
  extended_serv_specif_flags : Z; cfg_lower : Z; cfg_upper : Z; opaque_data : Z; src_data_addr : Z; dest_data_addr : Z;
  comp_len : Z; out_buffer_sz : Z; initial_crc32 : Z; initial_adler : Z; req_par_flags : Z; inter_buff_ptr : Z;
  ram_bank_flags : Z; comp_cfg_offset : Z; next_curr_id : Z; comp_state_addr : Z; ram_banks_addr : Z; xlt_next_curr_id : Z
}.
#[global] Instance eta_req : Eta comp_req := fun r =>
  mk_req (hdr_flags r) (service_type r) (service_cmd_id r) (comn_req_flags r) (serv_specif_flags r)
    (extended_serv_specif_flags r) (cfg_lower r) (cfg_upper r) (opaque_data r) (src_data_addr r) (dest_data_addr r)
    (comp_len r) (out_buffer_sz r) (initial_crc32 r) (initial_adler r) (req_par_flags r) (inter_buff_ptr r)
    (ram_bank_flags r) (comp_cfg_offset r) (next_curr_id r) (comp_state_addr r) (ram_banks_addr r) (xlt_next_curr_id r).
Definition zero_req : comp_req := mk_req 0 0 0 0 0 0 0 0 0 0 0 0 0 0 0 0 0 0 0 0 0 0 0.

(** [dc_session_desc_t] *)
Record dc_session_desc_t := mk_session {
  stateRegistersComp : list Z; stateRegistersDecomp : list Z; reqCacheComp : comp_req; reqCacheDecomp : comp_req;
  requestType : dc_request_type_t; previousRequestType : dc_request_type_t; huffType : Z; compType : Z; checksumType : Z;
  autoSelectBestHuffmanTree : Z; sessDirection : Z; sessState : Z; compLevel : Z; lz4BlockMaxSize : Z; minMatch : Z;
  pCompressionCb : CpaDcCallbackFn; pendingStatelessCbCount : Z; pendingStatefulCbCount : Z; pendingDpStatelessCbCount : Z;
  sessionLock : lock_state; isDcDp : bool; minContextSize : Z; pContextBuffer : option CpaBufferList;
  cumulativeConsumedBytes : Z; isSopForCompressionProcessed : bool; isSopForDecompressionProcessed : bool;
  updateLock : lock_state; cnvErrorInjection : Z; accumulateXXHash : Z; lz4BlockChecksum : Z; lz4BlockIndependence : Z
}.
#[global] Instance eta_session : Eta dc_session_desc_t := fun r =>
  mk_session (stateRegistersComp r) (stateRegistersDecomp r) (reqCacheComp r) (reqCacheDecomp r) (requestType r)
    (previousRequestType r) (huffType r) (compType r) (checksumType r) (autoSelectBestHuffmanTree r) (sessDirection r)
    (sessState r) (compLevel r) (lz4BlockMaxSize r) (minMatch r) (pCompressionCb r) (pendingStatelessCbCount r)
    (pendingStatefulCbCount r) (pendingDpStatelessCbCount r) (sessionLock r) (isDcDp r) (minContextSize r)
    (pContextBuffer r) (cumulativeConsumedBytes r) (isSopForCompressionProcessed r) (isSopForDecompressionProcessed r)
    (updateLock r) (cnvErrorInjection r) (accumulateXXHash r) (lz4BlockChecksum r) (lz4BlockIndependence r).

(** A session of which all bytes are zero.  [previousRequestType] is neither of its values then;
    it is written before it is read. *)
Definition zero_session : dc_session_desc_t :=
  mk_session (replicate 64 0) (replicate 128 0) zero_req zero_req DC_REQUEST_FIRST DC_REQUEST_FIRST 0 0 0 0 0 0 0 0 0
    CbNull 0 0 0 LockNone false 0 None 0 false false LockNone 0 0 0 0.

(** * Instances *)

Definition SAL_RUNNING_CHECK (svc : sal_compression_service) : Z :=
  match svc_state svc with
  | ServiceRunning => CPA_STATUS_SUCCESS
  | ServiceRestarting => CPA_STATUS_RESTARTING
  | ServiceStopped => CPA_STATUS_FAIL
  end.
Definition SAL_CHECK_ADDR_TRANS_SETUP (svc : sal_compression_service) : Z :=
  if virt2PhysClient svc then CPA_STATUS_SUCCESS else CPA_STATUS_FAIL.
Definition SAL_CHECK_INSTANCE_TYPE (svc : sal_compression_service) : Z :=
  if svc_compression svc then CPA_STATUS_SUCCESS else CPA_STATUS_FAIL.

(** The first status that is not success, as a sequence of checks that return early gives it *)
Fixpoint checks (l : list Z) : Z :=
  match l with [] => CPA_STATUS_SUCCESS | s :: l => if s =? CPA_STATUS_SUCCESS then checks l else s end.
Definition LAC_CHECK_NULL_PARAM (null : bool) : Z := if null then CPA_STATUS_INVALID_PARAM else CPA_STATUS_SUCCESS.

(** The data of a device; a virtual function is treated as its physical function is. *)
Inductive dev_type :=
  DEVICE_DH895XCC | DEVICE_C3XXX | DEVICE_200XX | DEVICE_C62X | DEVICE_D15XX | DEVICE_4XXX | DEVICE_420XX
| DEVICE_C4XXX | DEVICE_OTHER.
Inductive dev_sku := DEV_SKU_1 | DEV_SKU_2 | DEV_SKU_3 | DEV_SKU_VF | DEV_SKU_OTHER.

Definition DC_DEST_BUFFER_STA_MIN_SIZE : Z := 64.
Definition DC_DEST_BUFFER_DYN_MIN_SIZE_GEN4 : Z := 512.
Definition DC_DEST_BUFFER_STA_MIN_SIZE_GEN4 : Z := 1024.
Definition DC_DEST_BUFFER_MIN_SIZE : Z := 47.
Definition DC_INFLATE_CONTEXT_SIZE : Z := 36864.
Definition DC_LZ4_DECOMP_CONTEXT_SIZE : Z := 32768.
Definition DC_INFLATE_EH_CONTEXT_SIZE : Z := 34032.
Definition DC_4K_WINDOW_SIZE : Z := 4.
Definition DC_8K_WINDOW_SIZE : Z := 5.
Definition DC_16K_WINDOW_SIZE : Z := 6.
Definition DC_NUM_COMPRESSION_LEVELS : Z := CPA_DC_L12.
Definition ICP_QAT_FW_COMP_DISABLE_SECURE_RAM_USED_AS_INTMD_BUF : Z := 1.
Definition ICP_QAT_FW_COMP_ENABLE_SECURE_RAM_USED_AS_INTMD_BUF : Z := 0.
Definition ICP_QAT_HW_COMPRESSION_DEPTH_1 : Z := 0.
Definition ICP_QAT_HW_COMPRESSION_DEPTH_4 : Z := 1.
Definition ICP_QAT_HW_COMPRESSION_DEPTH_8 : Z := 2.
Definition ICP_QAT_HW_COMPRESSION_DEPTH_16 : Z := 3.
Definition ICP_QAT_HW_COMPRESSION_DEPTH_128 : Z := 4.
Definition ICP_QAT_HW_COMP_20_SEARCH_DEPTH_LEVEL_1 : Z := 1.
Definition ICP_QAT_HW_COMP_20_SEARCH_DEPTH_LEVEL_6 : Z := 3.
Definition ICP_QAT_HW_COMP_20_SEARCH_DEPTH_LEVEL_9 : Z := 4.
Definition ICP_ACCEL_CAPABILITIES_INLINE : Z := 0x200000.
Definition ICP_ACCEL_CAPABILITIES_CNV_INTEGRITY : Z := 0x400000.
Definition ICP_ACCEL_CAPABILITIES_CNV_INTEGRITY64 : Z := 0x800000.

Definition set_levels (first count : Z) (unique : Z -> bool) (l : list bool) : list bool :=
  fold_left (fun l level => <[Z.to_nat level := unique level]> l) (seqZ first count) l.
Definition SalCtrl_Init_Compression_Levels_gen2 (d : device_data) : device_data :=
  d <| uniqueCompressionLevels :=
         set_levels CPA_DC_L1 (CPA_DC_L12 - CPA_DC_L1 + 1) (fun level => (1 <=? level) && (level <=? 4)) (uniqueCompressionLevels d) |>
    <| numCompressionLevels := DC_NUM_COMPRESSION_LEVELS |>.

Definition window_mask (l : list Z) : Z := fold_right (fun w m => Z.lor (Z.shiftl 1 w) m) 0 l.
Definition all_windows : Z := window_mask [DC_4K_WINDOW_SIZE; DC_8K_WINDOW_SIZE; DC_16K_WINDOW_SIZE; DC_32K_WINDOW_SIZE].

(** The data that the older devices have in common, with what differs as arguments *)
Definition gen2_device (nobFinal interim dmm : bool) (ram context : Z) (d : device_data) : device_data :=
  SalCtrl_Init_Compression_Levels_gen2
    (d <| minOutputBuffSize := DC_DEST_BUFFER_STA_MIN_SIZE |> <| minOutputBuffSizeDynamic := DC_DEST_BUFFER_STA_MIN_SIZE |>
       <| oddByteDecompNobFinal := nobFinal |> <| oddByteDecompInterim := interim |> <| translatorOverflow := false |>
       <| useDevRam := ram |> <| enableDmm := dmm |> <| inflateContextSize := context |>
       <| highestHwCompressionDepth := ICP_QAT_HW_COMPRESSION_DEPTH_16 |> <| windowSizeMask := all_windows |>).

Definition SalCtrl_CompressionInit_CompData (deviceType : dev_type) (sku : dev_sku) (accelCapabilitiesMask : Z)
    (svc : sal_compression_service) : Z * sal_compression_service :=
  let d := comp_device_data svc in
  let d := d <| uniqueCompressionLevels := <[0%nat := false]> (uniqueCompressionLevels d) |> in
  let svc := svc <| comp_device_data := d |> in
  let ENABLE := ICP_QAT_FW_COMP_ENABLE_SECURE_RAM_USED_AS_INTMD_BUF in
  let DISABLE := ICP_QAT_FW_COMP_DISABLE_SECURE_RAM_USED_AS_INTMD_BUF in
  let gen2 num nobFinal interim dmm ram context :=
    (CPA_STATUS_SUCCESS, svc <| numInterBuffs := num |> <| comp_device_data := gen2_device nobFinal interim dmm ram context d |>) in
  match deviceType with
  | DEVICE_DH895XCC => gen2 12 true false false ENABLE DC_INFLATE_CONTEXT_SIZE
  | DEVICE_C3XXX | DEVICE_200XX => gen2 12 false true true DISABLE DC_INFLATE_EH_CONTEXT_SIZE
  | DEVICE_C62X | DEVICE_D15XX => gen2 20 false true true ENABLE DC_INFLATE_EH_CONTEXT_SIZE
  | DEVICE_4XXX | DEVICE_420XX =>
      let svc := if negb (Z.land accelCapabilitiesMask ICP_ACCEL_CAPABILITIES_CNV_INTEGRITY =? 0) ||
                    negb (Z.land accelCapabilitiesMask ICP_ACCEL_CAPABILITIES_CNV_INTEGRITY64 =? 0)
                 then svc <| integrityCrcCheck := true |> else svc in
      (CPA_STATUS_SUCCESS,
       svc <| numInterBuffs := 0 |>
           <| comp_device_data :=
                d <| minOutputBuffSize := DC_DEST_BUFFER_STA_MIN_SIZE_GEN4 |>
                  <| minOutputBuffSizeDynamic := DC_DEST_BUFFER_DYN_MIN_SIZE_GEN4 |>
                  <| oddByteDecompNobFinal := true |> <| oddByteDecompInterim := false |> <| translatorOverflow := true |>
                  <| useDevRam := ENABLE |> <| enableDmm := true |> <| inflateContextSize := DC_INFLATE_CONTEXT_SIZE |>
                  <| lz4DecompContextSize := DC_LZ4_DECOMP_CONTEXT_SIZE |>
                  <| highestHwCompressionDepth := ICP_QAT_HW_COMP_20_SEARCH_DEPTH_LEVEL_9 |>
                  <| windowSizeMask := all_windows |>
                  <| uniqueCompressionLevels :=
                       set_levels CPA_DC_L1 (CPA_DC_L12 - CPA_DC_L1 + 1)
                         (fun level => (level =? 1) || (level =? 6) || (level =? 9)) (uniqueCompressionLevels d) |>
                  <| numCompressionLevels := DC_NUM_COMPRESSION_LEVELS |> |>)
  | DEVICE_C4XXX =>
      let finish num :=
        (CPA_STATUS_SUCCESS,
         svc <| numInterBuffs := num |> <| integrityCrcCheck := true |>
             <| comp_device_data :=
                  d <| minOutputBuffSize := DC_DEST_BUFFER_MIN_SIZE |>
                    <| oddByteDecompNobFinal := true |> <| oddByteDecompInterim := true |> <| translatorOverflow := true |>
                    <| useDevRam := if negb (Z.land (capabilitiesMask svc) ICP_ACCEL_CAPABILITIES_INLINE =? 0)
                                    then DISABLE else ENABLE |>
                    <| enableDmm := true |> <| inflateContextSize := DC_INFLATE_EH_CONTEXT_SIZE |>
                    <| highestHwCompressionDepth := ICP_QAT_HW_COMPRESSION_DEPTH_128 |>
                    <| windowSizeMask := window_mask [DC_16K_WINDOW_SIZE; DC_32K_WINDOW_SIZE] |>
                    <| uniqueCompressionLevels :=
                         set_levels 0 DC_NUM_COMPRESSION_LEVELS (fun level => (1 <=? level) && (level <=? 5))
                           (uniqueCompressionLevels d) |>
                    <| numCompressionLevels := DC_NUM_COMPRESSION_LEVELS |> |>) in
      match sku with
      | DEV_SKU_1 | DEV_SKU_VF => finish 64
      | DEV_SKU_2 => finish 48
      | DEV_SKU_3 => finish 24
      | DEV_SKU_OTHER => (CPA_STATUS_FAIL, svc)
      end
  | DEVICE_OTHER => (CPA_STATUS_FAIL, svc)
  end.

(** * Checking the setup data *)

Definition outside (x lo hi : Z) : bool := (x <? lo) || (hi <? x).
Definition not_bool (x : Z) : bool := negb (CPA_FALSE =? x) && negb (CPA_TRUE =? x).

Definition dcCheckSessionData (d : CpaDcSessionSetupData) : Z :=
  if outside (su_compLevel d) CPA_DC_L1 CPA_DC_L12 then CPA_STATUS_INVALID_PARAM
  else if outside (su_autoSelectBestHuffmanTree d) CPA_DC_ASB_DISABLED CPA_DC_ASB_ENABLED then CPA_STATUS_INVALID_PARAM
  else if outside (su_compType d) CPA_DC_DEFLATE CPA_DC_LZ4S then CPA_STATUS_INVALID_PARAM
  else if outside (su_huffType d) CPA_DC_HT_STATIC CPA_DC_HT_FULL_DYNAMIC || (CPA_DC_HT_PRECOMP =? su_huffType d)
  then CPA_STATUS_INVALID_PARAM
  else if outside (su_sessDirection d) CPA_DC_DIR_COMPRESS CPA_DC_DIR_COMBINED then CPA_STATUS_INVALID_PARAM
  else if outside (su_sessState d) CPA_DC_STATEFUL CPA_DC_STATELESS then CPA_STATUS_INVALID_PARAM
  else if outside (su_checksum d) CPA_DC_NONE CPA_DC_XXHASH32 then CPA_STATUS_INVALID_PARAM
  else if (CPA_DC_XXHASH32 =? su_checksum d) && (CPA_DC_DEFLATE =? su_compType d) then CPA_STATUS_INVALID_PARAM
  else if (CPA_DC_LZ4 =? su_compType d) && negb (CPA_DC_XXHASH32 =? su_checksum d) && negb (CPA_DC_NONE =? su_checksum d)
  then CPA_STATUS_INVALID_PARAM
  else if (CPA_DC_LZ4S =? su_compType d) && negb (CPA_DC_NONE =? su_checksum d) && negb (CPA_DC_XXHASH32 =? su_checksum d)
  then CPA_STATUS_INVALID_PARAM
  else if (CPA_DC_LZ4 =? su_compType d) &&
          (outside (su_lz4BlockMaxSize d) CPA_DC_LZ4_MAX_BLOCK_SIZE_64K CPA_DC_LZ4_MAX_BLOCK_SIZE_4M ||
           not_bool (su_lz4BlockChecksum d) || not_bool (su_lz4BlockIndependence d) || not_bool (su_accumulateXXHash d))
  then CPA_STATUS_INVALID_PARAM
  else if (CPA_DC_LZ4S =? su_compType d) && outside (su_minMatch d) CPA_DC_MIN_3_BYTE_MATCH CPA_DC_MIN_4_BYTE_MATCH
  then CPA_STATUS_INVALID_PARAM
  else CPA_STATUS_SUCCESS.

(** * Bit fields *)

Definition QAT_FIELD_SET (flags val bitpos mask : Z) : Z :=
  Z.lor (Z.land flags (not32 (Z.shiftl mask bitpos))) (u32 (Z.shiftl (Z.land val mask) bitpos)).
Definition QAT_FIELD_GET (flags bitpos mask : Z) : Z := Z.land (Z.shiftr flags bitpos) mask.
Definition BYTE_SWAP_32 (v : Z) : Z :=
  Z.lor (Z.shiftl (Z.land v 0xff) 24)
    (Z.lor (Z.shiftl (Z.land (Z.shiftr v 8) 0xff) 16)
       (Z.lor (Z.shiftl (Z.land (Z.shiftr v 16) 0xff) 8) (Z.land (Z.shiftr v 24) 0xff))).

(** * The slice configuration *)

Definition ICP_QAT_HW_COMPRESSION_DIR_COMPRESS : Z := 0.
Definition ICP_QAT_HW_COMPRESSION_DIR_DECOMPRESS : Z := 1.
Definition ICP_QAT_HW_COMPRESSION_ALGO_DEFLATE : Z := 0.
Definition ICP_QAT_HW_COMPRESSION_FILE_TYPE_0 : Z := 0.

Definition ICP_QAT_HW_COMPRESSION_CONFIG_BUILD (dir delayed algo depth filetype : Z) : Z :=
  Z.lor (Z.shiftl (Z.land dir 0x7) 4)
    (Z.lor (Z.shiftl (Z.land delayed 0x1) 16)
       (Z.lor (Z.shiftl (Z.land algo 0x1) 31) (Z.lor (Z.shiftl (Z.land depth 0x7) 28) (Z.shiftl (Z.land filetype 0xF) 24)))).

(** The lower and the upper word of the configuration *)
Definition dcCompHwBlockPopulate (svc : sal_compression_service) (s : dc_session_desc_t) (compDecomp : dc_request_dir_t)
    : Z * Z :=
  let dir := if compDecomp == DC_COMPRESSION_REQUEST then ICP_QAT_HW_COMPRESSION_DIR_COMPRESS
             else ICP_QAT_HW_COMPRESSION_DIR_DECOMPRESS in
  let dmm := Z.b2z (enableDmm (comp_device_data svc)) in
  let depth :=
    if compDecomp == DC_DECOMPRESSION_REQUEST then ICP_QAT_HW_COMPRESSION_DEPTH_1
    else if compLevel s =? 1 then ICP_QAT_HW_COMPRESSION_DEPTH_1
    else if compLevel s =? 2 then ICP_QAT_HW_COMPRESSION_DEPTH_4
    else if compLevel s =? 3 then ICP_QAT_HW_COMPRESSION_DEPTH_8
    else ICP_QAT_HW_COMPRESSION_DEPTH_16 in
  (ICP_QAT_HW_COMPRESSION_CONFIG_BUILD dir dmm ICP_QAT_HW_COMPRESSION_ALGO_DEFLATE depth ICP_QAT_HW_COMPRESSION_FILE_TYPE_0, 0).

Record csr_lower := mk_lower {
  lo_edmm : Z; lo_algo : Z; lo_sd : Z; lo_hbs : Z; lo_abd : Z; lo_lllbd : Z; lo_mmctrl : Z; lo_hash_col : Z;
  lo_hash_update : Z; lo_skip_ctrl : Z
}.
#[global] Instance eta_lower : Eta csr_lower := fun r =>
  mk_lower (lo_edmm r) (lo_algo r) (lo_sd r) (lo_hbs r) (lo_abd r) (lo_lllbd r) (lo_mmctrl r) (lo_hash_col r)
    (lo_hash_update r) (lo_skip_ctrl r).
Record csr_upper := mk_upper {
  up_scb_ctrl : Z; up_rmb_ctrl : Z; up_som_ctrl : Z; up_skip_hash_ctrl : Z; up_scb_unload_ctrl : Z;
  up_disable_token_fusion_ctrl : Z; up_lbms : Z; up_scb_mode_reset : Z; up_lazy : Z; up_nice : Z
}.
#[global] Instance eta_upper : Eta csr_upper := fun r =>
  mk_upper (up_scb_ctrl r) (up_rmb_ctrl r) (up_som_ctrl r) (up_skip_hash_ctrl r) (up_scb_unload_ctrl r)
    (up_disable_token_fusion_ctrl r) (up_lbms r) (up_scb_mode_reset r) (up_lazy r) (up_nice r).
Record decomp_csr_lower := mk_dlower { dl_hbs : Z; dl_lbms : Z; dl_algo : Z; dl_mmctrl : Z; dl_lbc : Z }.

Definition ICP_QAT_FW_COMP_20_BUILD_CONFIG_LOWER (c : csr_lower) : Z :=
  let v := QAT_FIELD_SET 0 (lo_algo c) 5 0x7 in
  let v := QAT_FIELD_SET v (lo_sd c) 8 0xf in
  let v := QAT_FIELD_SET v (lo_edmm c) 0 0x1 in
  let v := QAT_FIELD_SET v (lo_hbs c) 14 0x7 in
  let v := QAT_FIELD_SET v (lo_mmctrl c) 4 0x1 in
  let v := QAT_FIELD_SET v (lo_hash_col c) 3 0x1 in
  let v := QAT_FIELD_SET v (lo_hash_update c) 2 0x1 in
  let v := QAT_FIELD_SET v (lo_skip_ctrl c) 1 0x1 in
  let v := QAT_FIELD_SET v (lo_abd c) 13 0x1 in
  let v := QAT_FIELD_SET v (lo_lllbd c) 12 0x1 in
  BYTE_SWAP_32 v.
Definition ICP_QAT_FW_COMP_20_BUILD_CONFIG_UPPER (c : csr_upper) : Z :=
  let v := QAT_FIELD_SET 0 (up_scb_ctrl c) 31 0x1 in
  let v := QAT_FIELD_SET v (up_rmb_ctrl c) 30 0x1 in
  let v := QAT_FIELD_SET v (up_som_ctrl c) 28 0x3 in
  let v := QAT_FIELD_SET v (up_skip_hash_ctrl c) 27 0x1 in
  let v := QAT_FIELD_SET v (up_scb_unload_ctrl c) 26 0x1 in
  let v := QAT_FIELD_SET v (up_disable_token_fusion_ctrl c) 21 0x1 in
  let v := QAT_FIELD_SET v (up_lbms c) 19 0x3 in
  let v := QAT_FIELD_SET v (up_scb_mode_reset c) 18 0x1 in
  let v := QAT_FIELD_SET v (up_lazy c) 9 0x1ff in
  let v := QAT_FIELD_SET v (up_nice c) 0 0x1ff in
  BYTE_SWAP_32 v.
Definition ICP_QAT_FW_DECOMP_20_BUILD_CONFIG_LOWER (c : decomp_csr_lower) : Z :=
  let v := QAT_FIELD_SET 0 (dl_hbs c) 14 0x7 in
  let v := QAT_FIELD_SET v (dl_lbms c) 8 0x3 in
  let v := QAT_FIELD_SET v (dl_algo c) 5 0x7 in
  let v := QAT_FIELD_SET v (dl_mmctrl c) 4 0x1 in
  let v := QAT_FIELD_SET v (dl_lbc c) 3 0x1 in
  BYTE_SWAP_32 v.

Definition ICP_QAT_HW_COMP_20_HW_COMP_FORMAT_ILZ77 : Z := 0.
Definition ICP_QAT_HW_COMP_20_HW_COMP_FORMAT_DEFLATE : Z := 1.
Definition ICP_QAT_HW_COMP_20_HW_COMP_FORMAT_LZ4 : Z := 2.
Definition ICP_QAT_HW_COMP_20_HW_COMP_FORMAT_LZ4S : Z := 3.
Definition ICP_QAT_HW_DECOMP_20_HW_DECOMP_FORMAT_DEFLATE : Z := 1.
Definition ICP_QAT_HW_COMP_20_LLLBD_CTRL_LLLBD_ENABLED : Z := 0.
Definition ICP_QAT_HW_COMP_20_LLLBD_CTRL_LLLBD_DISABLED : Z := 1.
Definition ICP_QAT_HW_COMP_20_BYTE_SKIP_3BYTE_LITERAL : Z := 1.
Definition ICP_QAT_HW_COMP_20_SCB_CONTROL_DISABLE : Z := 1.
Definition ICP_QAT_HW_COMP_20_SOM_CONTROL_REPLAY_MODE : Z := 1.
Definition ICP_QAT_HW_COMP_20_MIN_MATCH_CONTROL_MATCH_4B : Z := 1.
Definition ICP_QAT_HW_COMP_20_SKIP_HASH_COLLISION_DONT_ALLOW : Z := 1.
Definition ICP_QAT_HW_COMP_20_ABD_ABD_DISABLED : Z := 1.
Definition ICP_QAT_HW_COMP_20_SKIP_HASH_UPDATE_DONT_ALLOW : Z := 1.
Definition ICP_QAT_HW_COMP_20_SCB_MODE_RESET_MASK_RESET_COUNTERS : Z := 0.
Definition ICP_QAT_HW_COMP_20_SCB_MODE_RESET_MASK_RESET_COUNTERS_AND_HISTORY : Z := 1.
Definition ICP_QAT_HW_COMP_20_CONFIG_CSR_NICE_PARAM_DEFAULT_VAL : Z := 259.
Definition ICP_QAT_HW_COMP_20_CONFIG_CSR_LAZY_PARAM_DEFAULT_VAL : Z := 258.
Definition ICP_QAT_HW_DECOMP_20_LZ4_BLOCK_CHKSUM_ABSENT : Z := 0.
Definition ICP_QAT_HW_DECOMP_20_LZ4_BLOCK_CHKSUM_PRESENT : Z := 1.

Definition setBlockIndep (c : csr_upper) : csr_upper :=
  c <| up_scb_mode_reset := ICP_QAT_HW_COMP_20_SCB_MODE_RESET_MASK_RESET_COUNTERS_AND_HISTORY |>.
Definition setBlockDep (c : csr_upper) : csr_upper :=
  c <| up_scb_mode_reset := ICP_QAT_HW_COMP_20_SCB_MODE_RESET_MASK_RESET_COUNTERS |>.

Definition is_dynamic (h : Z) : bool := CPA_DC_HT_FULL_DYNAMIC =? h.

(** The fields of the words for compression *)
Definition gen4_comp_csr (svc : sal_compression_service) (s : dc_session_desc_t) : csr_lower * csr_upper :=
  let lower := mk_lower 0 0 0 0 0 ICP_QAT_HW_COMP_20_LLLBD_CTRL_LLLBD_DISABLED 0 0 0 0 in
  let upper := mk_upper 0 0 0 0 0 0 0 0 0 0 in
  let '(lower, upper) :=
    if compType s =? CPA_DC_DEFLATE then
      let lower := lower <| lo_skip_ctrl := ICP_QAT_HW_COMP_20_BYTE_SKIP_3BYTE_LITERAL |> in
      let '(lower, upper) :=
        if is_dynamic (huffType s) then (lower <| lo_algo := ICP_QAT_HW_COMP_20_HW_COMP_FORMAT_ILZ77 |>, upper)
        else (lower <| lo_algo := ICP_QAT_HW_COMP_20_HW_COMP_FORMAT_DEFLATE |>,
              upper <| up_scb_ctrl := ICP_QAT_HW_COMP_20_SCB_CONTROL_DISABLE |>) in
      (lower, if CPA_DC_STATEFUL =? sessState s
              then upper <| up_som_ctrl := ICP_QAT_HW_COMP_20_SOM_CONTROL_REPLAY_MODE |> else upper)
    else if compType s =? CPA_DC_LZ4 then
      let upper := upper <| up_lbms := lz4BlockMaxSize s |> in
      (lower <| lo_algo := ICP_QAT_HW_COMP_20_HW_COMP_FORMAT_LZ4 |>
             <| lo_mmctrl := ICP_QAT_HW_COMP_20_MIN_MATCH_CONTROL_MATCH_4B |>,
       if CPA_TRUE =? lz4BlockIndependence s then setBlockIndep upper else setBlockDep upper)
    else if compType s =? CPA_DC_LZ4S then
      (lower <| lo_algo := ICP_QAT_HW_COMP_20_HW_COMP_FORMAT_LZ4S |> <| lo_mmctrl := minMatch s |>,
       upper <| up_scb_ctrl := ICP_QAT_HW_COMP_20_SCB_CONTROL_DISABLE |>)
    else (lower, upper) in
  let lower :=
    if (1 <=? compLevel s) && (compLevel s <=? 5) then
      lower <| lo_sd := ICP_QAT_HW_COMP_20_SEARCH_DEPTH_LEVEL_1 |>
            <| lo_hash_col := ICP_QAT_HW_COMP_20_SKIP_HASH_COLLISION_DONT_ALLOW |>
    else if (6 <=? compLevel s) && (compLevel s <=? 8) then lower <| lo_sd := ICP_QAT_HW_COMP_20_SEARCH_DEPTH_LEVEL_6 |>
    else if compLevel s =? 9 then lower <| lo_sd := ICP_QAT_HW_COMP_20_SEARCH_DEPTH_LEVEL_9 |>
    else
      let lower := lower <| lo_sd := highestHwCompressionDepth (comp_device_data svc) |> in
      if is_dynamic (huffType s) && (CPA_DC_DEFLATE =? compType s)
      then lower <| lo_lllbd := ICP_QAT_HW_COMP_20_LLLBD_CTRL_LLLBD_ENABLED |> else lower in
  (lower <| lo_abd := ICP_QAT_HW_COMP_20_ABD_ABD_DISABLED |>
         <| lo_hash_update := ICP_QAT_HW_COMP_20_SKIP_HASH_UPDATE_DONT_ALLOW |>
         <| lo_edmm := Z.b2z (enableDmm (comp_device_data svc)) |>,
   upper <| up_nice := ICP_QAT_HW_COMP_20_CONFIG_CSR_NICE_PARAM_DEFAULT_VAL |>
         <| up_lazy := ICP_QAT_HW_COMP_20_CONFIG_CSR_LAZY_PARAM_DEFAULT_VAL |>).

Definition gen4_decomp_csr (s : dc_session_desc_t) : decomp_csr_lower :=
  if CPA_DC_DEFLATE =? compType s then mk_dlower 0 0 ICP_QAT_HW_DECOMP_20_HW_DECOMP_FORMAT_DEFLATE 0 0
  else if CPA_DC_LZ4 =? compType s then
    mk_dlower 0 (lz4BlockMaxSize s) ICP_QAT_HW_COMP_20_HW_COMP_FORMAT_LZ4 0
      (if CPA_TRUE =? lz4BlockChecksum s then ICP_QAT_HW_DECOMP_20_LZ4_BLOCK_CHKSUM_PRESENT
       else ICP_QAT_HW_DECOMP_20_LZ4_BLOCK_CHKSUM_ABSENT)
  else mk_dlower 0 0 0 0 0.

Definition dcCompHwBlockPopulateGen4 (svc : sal_compression_service) (s : dc_session_desc_t) (compDecomp : dc_request_dir_t)
    : Z * Z :=
  if compDecomp == DC_COMPRESSION_REQUEST then
    let '(lower, upper) := gen4_comp_csr svc s in
    (ICP_QAT_FW_COMP_20_BUILD_CONFIG_LOWER lower, ICP_QAT_FW_COMP_20_BUILD_CONFIG_UPPER upper)
  else (ICP_QAT_FW_DECOMP_20_BUILD_CONFIG_LOWER (gen4_decomp_csr s), 0).

(** * Templates *)

Definition ICP_QAT_FW_SLICE_DRAM_WR : Z := 4.
Definition ICP_QAT_FW_SLICE_COMP : Z := 5.
Definition ICP_QAT_FW_SLICE_XLAT : Z := 6.
(** The new value of [next_curr_id] *)
Definition ICP_QAT_FW_COMN_NEXT_ID_SET (id val : Z) : Z := Z.lor (Z.land id 0x0F) (Z.land (Z.shiftl val 4) 0xF0).
Definition ICP_QAT_FW_COMN_CURR_ID_SET (id val : Z) : Z := Z.lor (Z.land id 0xF0) (Z.land val 0x0F).

(** Banks I to A, from the most significant bit down *)
Definition ICP_QAT_FW_COMP_RAM_FLAGS_BUILD (i h g f e d c b a : Z) : Z :=
  fold_left (fun v bank => Z.lor (Z.shiftl v 1) (Z.land bank 0x1)) [i; h; g; f; e; d; c; b; a] 0.

(** Offset of [stateRegistersDecomp] in the session *)
Definition off_stateRegistersDecomp : Z := 64.

Section templates.
Variable v2p : Z -> Z.

Definition dcCompContentDescPopulate (svc : sal_compression_service) (pSessionDesc : Z) (s : dc_session_desc_t)
    (contextBufferAddrPhys : Z) (m : comp_req) (nextSlice : Z) (compDecomp : dc_request_dir_t) : comp_req :=
  let m := m <| next_curr_id := ICP_QAT_FW_COMN_NEXT_ID_SET (next_curr_id m) nextSlice |> in
  let m := m <| next_curr_id := ICP_QAT_FW_COMN_CURR_ID_SET (next_curr_id m) ICP_QAT_FW_SLICE_COMP |> in
  let m := m <| comp_cfg_offset := 0 |> in
  let decomp := (CPA_DC_STATEFUL =? sessState s) && (compDecomp == DC_DECOMPRESSION_REQUEST) in
  let '(flags, bankEnabled) :=
    if decomp && (CPA_DC_DEFLATE =? compType s) then (ICP_QAT_FW_COMP_RAM_FLAGS_BUILD 0 0 0 0 1 1 1 1 1, true)
    else if decomp && (CPA_DC_LZ4 =? compType s) then (ICP_QAT_FW_COMP_RAM_FLAGS_BUILD 0 0 0 0 0 1 1 1 1, true)
    else (ICP_QAT_FW_COMP_RAM_FLAGS_BUILD 0 0 0 0 0 0 0 0 0, false) in
  let m := m <| ram_bank_flags := flags |> in
  let m := m <| comp_state_addr :=
                  v2p (if compDecomp == DC_COMPRESSION_REQUEST then pSessionDesc
                       else pSessionDesc + off_stateRegistersDecomp) |> in
  let m := m <| ram_banks_addr := if bankEnabled then contextBufferAddrPhys else 0 |> in
  let '(lower, upper) := if isGen4 svc then dcCompHwBlockPopulateGen4 svc s compDecomp
                         else dcCompHwBlockPopulate svc s compDecomp in
  m <| cfg_lower := lower |> <| cfg_upper := upper |>.
End templates.

Definition dcTransContentDescPopulate (m : comp_req) (nextSlice : Z) : comp_req :=
  let m := m <| xlt_next_curr_id := ICP_QAT_FW_COMN_NEXT_ID_SET (xlt_next_curr_id m) nextSlice |> in
  m <| xlt_next_curr_id := ICP_QAT_FW_COMN_CURR_ID_SET (xlt_next_curr_id m) ICP_QAT_FW_SLICE_XLAT |>.

(** The status and the size of the context *)
Definition dcGetContextSize (svc : sal_compression_service) (d : CpaDcSessionSetupData) : Z * Z :=
  if (CPA_DC_STATEFUL =? su_sessState d) && negb (CPA_DC_DIR_COMPRESS =? su_sessDirection d) then
    if su_compType d =? CPA_DC_DEFLATE then (CPA_STATUS_SUCCESS, inflateContextSize (comp_device_data svc))
    else if su_compType d =? CPA_DC_LZ4 then (CPA_STATUS_SUCCESS, lz4DecompContextSize (comp_device_data svc))
    else (CPA_STATUS_FAIL, 0)
  else (CPA_STATUS_SUCCESS, 0).

Definition ICP_QAT_FW_COMP_CMD_STATIC : Z := 0.
Definition ICP_QAT_FW_COMP_CMD_DYNAMIC : Z := 1.
Definition ICP_QAT_FW_COMP_CMD_DECOMPRESS : Z := 2.
Definition ICP_QAT_FW_COMP_20_CMD_LZ4_COMPRESS : Z := 3.
Definition ICP_QAT_FW_COMP_20_CMD_LZ4_DECOMPRESS : Z := 4.
Definition ICP_QAT_FW_COMP_20_CMD_LZ4S_COMPRESS : Z := 5.

Definition deflate_command (huff : Z) : Z := if is_dynamic huff then ICP_QAT_FW_COMP_CMD_DYNAMIC else ICP_QAT_FW_COMP_CMD_STATIC.

Definition dcGetCompressCommandId (svc : sal_compression_service) (d : CpaDcSessionSetupData) : Z * Z :=
  if isGen4 svc then
    if su_compType d =? CPA_DC_DEFLATE then (CPA_STATUS_SUCCESS, deflate_command (su_huffType d))
    else if su_compType d =? CPA_DC_LZ4 then (CPA_STATUS_SUCCESS, ICP_QAT_FW_COMP_20_CMD_LZ4_COMPRESS)
    else if su_compType d =? CPA_DC_LZ4S then (CPA_STATUS_SUCCESS, ICP_QAT_FW_COMP_20_CMD_LZ4S_COMPRESS)
    else (CPA_STATUS_UNSUPPORTED, u8 (-1))
  else if su_compType d =? CPA_DC_DEFLATE then (CPA_STATUS_SUCCESS, deflate_command (su_huffType d))
  else (CPA_STATUS_UNSUPPORTED, u8 (-1)).

Definition dcGetDecompressCommandId (svc : sal_compression_service) (d : CpaDcSessionSetupData) : Z * Z :=
  if isGen4 svc then
    if su_compType d =? CPA_DC_DEFLATE then (CPA_STATUS_SUCCESS, ICP_QAT_FW_COMP_CMD_DECOMPRESS)
    else if su_compType d =? CPA_DC_LZ4 then (CPA_STATUS_SUCCESS, ICP_QAT_FW_COMP_20_CMD_LZ4_DECOMPRESS)
    else (CPA_STATUS_UNSUPPORTED, u8 (-1))
  else if su_compType d =? CPA_DC_DEFLATE then (CPA_STATUS_SUCCESS, ICP_QAT_FW_COMP_CMD_DECOMPRESS)
  else (CPA_STATUS_UNSUPPORTED, u8 (-1)).

(** The state of xxHash-32 is at the start of the session, over [stateRegistersComp]: two
    counters, four accumulators and four words of text. *)
Definition dcXxhash32SetState (s : dc_session_desc_t) (seed : Z) : dc_session_desc_t :=
  let state := map u32 [0; 0; seed + XXHASH_PRIME32_A + XXHASH_PRIME32_B; seed + XXHASH_PRIME32_B; seed + 0;
                        seed - XXHASH_PRIME32_A; 0; 0; 0; 0] in
  s <| stateRegistersComp := concat (map le32 state) ++ drop 40 (stateRegistersComp s) |>.

Definition ICP_QAT_FW_COMN_REQ_CPM_FW_COMP : Z := 9.
Definition ICP_QAT_FW_COMN_HDR_FLAGS_BUILD (valid : Z) : Z := Z.shiftl (Z.land valid 0x1) 7.
Definition SalQatMsg_CmnHdrWrite (m : comp_req) (serviceType serviceCmdId cmnFlags serviceCmdFlags extServiceCmdFlags : Z) : comp_req :=
  m <| hdr_flags := ICP_QAT_FW_COMN_HDR_FLAGS_BUILD 1 |> <| service_type := u8 serviceType |>
    <| service_cmd_id := serviceCmdId |> <| comn_req_flags := cmnFlags |> <| serv_specif_flags := serviceCmdFlags |>
    <| extended_serv_specif_flags := extServiceCmdFlags |>.

Definition QAT_COMN_PTR_TYPE_SGL : Z := 1.
Definition QAT_COMN_CD_FLD_TYPE_16BYTE_DATA : Z := 1.
Definition ICP_QAT_FW_COMN_FLAGS_BUILD (cdt ptr : Z) : Z := Z.lor (Z.shiftl (Z.land cdt 0x1) 1) (Z.shiftl (Z.land ptr 0x1) 0).
Definition ICP_QAT_FW_COMP_FLAGS_BUILD (sesstype autoselect enhanced_asb ret_uncomp secure_ram : Z) : Z :=
  Z.lor (Z.shiftl (Z.land sesstype 0x1) 2)
    (Z.lor (Z.shiftl (Z.land autoselect 0x1) 3)
       (Z.lor (Z.shiftl (Z.land enhanced_asb 0x1) 4)
          (Z.lor (Z.shiftl (Z.land ret_uncomp 0x1) 5) (Z.shiftl (Z.land secure_ram 0x1) 7)))).

(** The flags for selecting the best encoding: selection, enhanced selection, no header *)
Definition asb_flags (asb : Z) : Z * Z * Z :=
  if asb =? CPA_DC_ASB_STATIC_DYNAMIC then (1, 0, 0)
  else if (asb =? CPA_DC_ASB_ENABLED) || (asb =? CPA_DC_ASB_UNCOMP_STATIC_DYNAMIC_WITH_STORED_HDRS) then (1, 1, 0)
  else if asb =? CPA_DC_ASB_UNCOMP_STATIC_DYNAMIC_WITH_NO_HDRS then (1, 1, 1)
  else (0, 0, 0).

(** * Initialisation *)

Section init.
Variable v2p : Z -> Z.

Definition sizeof_pointer : Z := 8.
Definition LAC_64BYTE_ALIGNMENT : Z := 64.

(** The fields that are copied from the setup data, with the setting for the best encoding
    as the device takes it *)
Definition session_of (svc : sal_compression_service) (d : CpaDcSessionSetupData) (minContextSize' : Z)
    (s : dc_session_desc_t) : dc_session_desc_t :=
  let asb := su_autoSelectBestHuffmanTree d in
  s <| cumulativeConsumedBytes := 0 |> <| requestType := DC_REQUEST_FIRST |> <| huffType := su_huffType d |>
    <| compType := su_compType d |> <| checksumType := su_checksum d |>
    <| autoSelectBestHuffmanTree :=
         if isGen4 svc then if (1 <=? asb) && (asb <=? 4) then CPA_DC_ASB_ENABLED else asb
         else if CPA_DC_ASB_ENABLED =? asb then CPA_DC_ASB_UNCOMP_STATIC_DYNAMIC_WITH_STORED_HDRS else asb |>
    <| sessDirection := su_sessDirection d |> <| sessState := su_sessState d |> <| compLevel := su_compLevel d |>
    <| lz4BlockMaxSize := su_lz4BlockMaxSize d |> <| lz4BlockChecksum := su_lz4BlockChecksum d |>
    <| lz4BlockIndependence := su_lz4BlockIndependence d |> <| accumulateXXHash := su_accumulateXXHash d |>
    <| minMatch := su_minMatch d |> <| isDcDp := false |> <| minContextSize := minContextSize' |>
    <| isSopForCompressionProcessed := false |> <| isSopForDecompressionProcessed := false |>.

(** The template for compression *)
Definition init_comp_template (svc : sal_compression_service) (pSessionDesc contextAddrPhys : Z) (d : CpaDcSessionSetupData)
    (s : dc_session_desc_t) : comp_req :=
  let m := reqCacheComp s in
  if negb (isGen4 svc) && is_dynamic (su_huffType d) then
    let m := dcCompContentDescPopulate v2p svc pSessionDesc s contextAddrPhys m ICP_QAT_FW_SLICE_XLAT DC_COMPRESSION_REQUEST in
    let m := dcTransContentDescPopulate m ICP_QAT_FW_SLICE_DRAM_WR in
    if negb (pInterBuffPtrsArrayPhyAddr svc =? 0) then m <| inter_buff_ptr := pInterBuffPtrsArrayPhyAddr svc |> else m
  else dcCompContentDescPopulate v2p svc pSessionDesc s contextAddrPhys m ICP_QAT_FW_SLICE_DRAM_WR DC_COMPRESSION_REQUEST.

(** The templates *)
Definition init_templates (svc : sal_compression_service) (pSessionDesc contextAddrPhys : Z) (d : CpaDcSessionSetupData)
    (s : dc_session_desc_t) : dc_session_desc_t :=
  let s := if negb (CPA_DC_DIR_DECOMPRESS =? su_sessDirection d)
           then s <| reqCacheComp := init_comp_template svc pSessionDesc contextAddrPhys d s |> else s in
  if negb (CPA_DC_DIR_COMPRESS =? su_sessDirection d) then
    s <| reqCacheDecomp := dcCompContentDescPopulate v2p svc pSessionDesc s contextAddrPhys (reqCacheDecomp s)
                             ICP_QAT_FW_SLICE_DRAM_WR DC_DECOMPRESSION_REQUEST |>
  else s.

(** The header of a template *)
Definition init_header (svc : sal_compression_service) (s : dc_session_desc_t) (dcCmdId : Z) (m : comp_req) : comp_req :=
  let sessType := if CPA_DC_STATEFUL =? sessState s then 1 else 0 in
  let '(asb, easb, type0) := asb_flags (autoSelectBestHuffmanTree s) in
  SalQatMsg_CmnHdrWrite (m <| initial_adler := 1 |> <| initial_crc32 := 0 |>) ICP_QAT_FW_COMN_REQ_CPM_FW_COMP dcCmdId
    (ICP_QAT_FW_COMN_FLAGS_BUILD QAT_COMN_PTR_TYPE_SGL QAT_COMN_CD_FLD_TYPE_16BYTE_DATA)
    (ICP_QAT_FW_COMP_FLAGS_BUILD sessType asb easb type0 (useDevRam (comp_device_data svc))) 0.

(** The headers of both templates: the status and the session *)
Definition init_headers (svc : sal_compression_service) (d : CpaDcSessionSetupData) (s : dc_session_desc_t) : Z * dc_session_desc_t :=
  let '(status, s) :=
    if negb (CPA_DC_DIR_DECOMPRESS =? su_sessDirection d) then
      let '(status, dcCmdId) := dcGetCompressCommandId svc d in
      if negb (status =? CPA_STATUS_SUCCESS) then (status, s)
      else (status, s <| reqCacheComp := init_header svc s dcCmdId (reqCacheComp s) |>)
    else (CPA_STATUS_SUCCESS, s) in
  if negb (status =? CPA_STATUS_SUCCESS) then (status, s)
  else if negb (CPA_DC_DIR_COMPRESS =? su_sessDirection d) then
    let '(status, dcCmdId) := dcGetDecompressCommandId svc d in
    if negb (status =? CPA_STATUS_SUCCESS) then (status, s)
    else (status, s <| reqCacheDecomp := init_header svc s dcCmdId (reqCacheDecomp s) |>)
  else (status, s).

(** Locks, templates and headers, once the fields of the session are set *)
Definition init_rest (svc : sal_compression_service) (pSessionDesc contextAddrPhys : Z) (d : CpaDcSessionSetupData)
    (callbackFn : CpaDcCallbackFn) (lock_ok : bool) (s : dc_session_desc_t) : Z * dc_session_desc_t :=
  if (CPA_DC_STATEFUL =? su_sessState d) && negb lock_ok then (CPA_STATUS_RESOURCE, s)
  else
    let s := if CPA_DC_STATEFUL =? su_sessState d then s <| sessionLock := LockFree |> else s in
    if (CPA_DC_STATELESS =? sessState s) && negb lock_ok then (CPA_STATUS_RESOURCE, s)
    else
      let s := if CPA_DC_STATELESS =? sessState s then s <| updateLock := LockFree |> else s in
      let s := s <| pCompressionCb := if callbackFn == CbNull then CbSync else callbackFn |>
                 <| pendingStatelessCbCount := 0 |> <| pendingStatefulCbCount := 0 |> <| pendingDpStatelessCbCount := 0 |> in
      let s := init_templates svc pSessionDesc contextAddrPhys d s in
      let s := if CPA_DC_STATEFUL =? su_sessState d
               then s <| stateRegistersComp := replicate 64 0 |> <| stateRegistersDecomp := replicate 128 0 |> else s in
      init_headers svc d s.

(** The session descriptor is zeroed and filled, once the setup data is accepted: the status and
    the session *)
Definition init_desc (svc : sal_compression_service) (pSessionDesc : Z) (d : CpaDcSessionSetupData) (ctx : option CpaBufferList)
    (minContextSize' : Z) (callbackFn : CpaDcCallbackFn) (lock_ok : bool) : Z * dc_session_desc_t :=
  let s := zero_session in
  let '(status, contextAddrPhys) :=
    match ctx with
    | Some bl =>
        if negb (minContextSize' =? 0) then
          let '(status, a, _, _) := LacBuffDesc_BufferListDescWrite v2p bl false in (status, default 0 a)
        else (CPA_STATUS_SUCCESS, 0)
    | None => (CPA_STATUS_SUCCESS, 0)
    end in
  if negb (status =? CPA_STATUS_SUCCESS) then (status, s)
  else
    let s := if negb (minContextSize' =? 0) then s <| pContextBuffer := ctx |> else s in
    let s := session_of svc d minContextSize' s in
    if (CPA_DC_LZ4 =? compType s) && (CPA_TRUE =? accumulateXXHash s) &&
       (CPA_DC_ASB_ENABLED =? autoSelectBestHuffmanTree s) then (CPA_STATUS_UNSUPPORTED, s)
    else
      let acc := (CPA_DC_STATELESS =? sessState s) && (CPA_DC_LZ4 =? compType s) && (CPA_TRUE =? accumulateXXHash s) in
      if acc && ((CPA_DC_DIR_DECOMPRESS =? sessDirection s) || (CPA_DC_DIR_COMBINED =? sessDirection s))
      then (CPA_STATUS_UNSUPPORTED, s)
      else init_rest svc pSessionDesc contextAddrPhys d callbackFn lock_ok (if acc then dcXxhash32SetState s 0 else s).

(** [lock_ok] says whether the lock can be initialised.  The result is the status, the setup
    data, which is the client's and can be changed, and the session if it is written. *)
Definition dcInitSession (svc : sal_compression_service) (pSessionHandle : Z) (null : bool) (d : CpaDcSessionSetupData)
    (ctx : option CpaBufferList) (callbackFn : CpaDcCallbackFn) (lock_ok : bool)
    : Z * CpaDcSessionSetupData * option dc_session_desc_t :=
  if (pSessionHandle =? 0) || null then (CPA_STATUS_INVALID_PARAM, d, None)
  else if negb (dcCheckSessionData d =? CPA_STATUS_SUCCESS) then (CPA_STATUS_INVALID_PARAM, d, None)
  else if (CPA_DC_STATEFUL =? su_sessState d) && negb (CPA_DC_DIR_DECOMPRESS =? su_sessDirection d)
  then (CPA_STATUS_UNSUPPORTED, d, None)
  else if isGen4 svc && (CPA_DC_STATEFUL =? su_sessState d) then (CPA_STATUS_UNSUPPORTED, d, None)
  else
    let no_buffers := negb (isGen4 svc) && is_dynamic (su_huffType d) &&
                      (pInterBuffPtrsArray svc =? 0) && (pInterBuffPtrsArrayPhyAddr svc =? 0) in
    if no_buffers && negb (CPA_DC_ASB_STATIC_DYNAMIC =? su_autoSelectBestHuffmanTree d) then (CPA_STATUS_RESOURCE, d, None)
    else
      let d := if no_buffers then d <| su_huffType := (CPA_DC_HT_STATIC : Z) |> else d in
      let '(status, minContextSize') :=
        if (CPA_DC_STATEFUL =? su_sessState d) && ((CPA_DC_DEFLATE =? su_compType d) || (CPA_DC_LZ4 =? su_compType d))
        then dcGetContextSize svc d else (CPA_STATUS_SUCCESS, 0) in
      let '(ctx_status, contextBuffSize) :=
        match ctx with
        | Some bl => LacBuffDesc_BufferListVerify false bl 0 LAC_NO_ALIGNMENT_SHIFT
        | None => (CPA_STATUS_INVALID_PARAM, 0)
        end in
      if negb (status =? CPA_STATUS_SUCCESS) then (CPA_STATUS_FAIL, d, None)
      else if negb (minContextSize' =? 0) &&
              (negb (ctx_status =? CPA_STATUS_SUCCESS) || (contextBuffSize <? minContextSize'))
      then (CPA_STATUS_INVALID_PARAM, d, None)
      else
        let physAddress := v2p (pSessionHandle + sizeof_pointer) in
        if physAddress =? 0 then (CPA_STATUS_FAIL, d, None)
        else
          let physAddressAligned := LAC_ALIGN_POW2_ROUNDUP physAddress LAC_64BYTE_ALIGNMENT in
          let pSessionDesc := pSessionHandle + sizeof_pointer + (physAddressAligned - physAddress) in
          let '(status, s) := init_desc svc pSessionDesc d ctx minContextSize' callbackFn lock_ok in
          (status, d, Some s).

(** [null] says that the instance is NULL, [null_data] that the setup data is. *)
Definition cpaDcInitSession (null : bool) (svc : sal_compression_service) (pSessionHandle : Z) (null_data : bool)
    (d : CpaDcSessionSetupData) (ctx : option CpaBufferList) (callbackFn : CpaDcCallbackFn) (lock_ok : bool)
    : Z * CpaDcSessionSetupData * option dc_session_desc_t :=
  let status := checks [LAC_CHECK_NULL_PARAM null; SAL_CHECK_ADDR_TRANS_SETUP svc; SAL_CHECK_INSTANCE_TYPE svc;
                        SAL_RUNNING_CHECK svc] in
  if negb (status =? CPA_STATUS_SUCCESS) then (status, d, None)
  else dcInitSession svc pSessionHandle null_data d ctx callbackFn lock_ok.
End init.

(** The status, [*pSessionSize] and [*pContextSize]; [sizeof_session] is the size of the session
    descriptor. *)
Definition dcGetSessionSize (sizeof_session : Z) (null : bool) (svc : sal_compression_service) (d : CpaDcSessionSetupData)
    : Z * Z * Z :=
  if null then (CPA_STATUS_INVALID_PARAM, 0, 0)
  else if negb (dcCheckSessionData d =? CPA_STATUS_SUCCESS) then (CPA_STATUS_INVALID_PARAM, 0, 0)
  else
    let size := sizeof_session + LAC_64BYTE_ALIGNMENT + sizeof_pointer in
    let '(status, context) := dcGetContextSize svc d in
    if negb (status =? CPA_STATUS_SUCCESS) then (CPA_STATUS_FAIL, size, context) else (CPA_STATUS_SUCCESS, size, context).

(** * Locks

    The locks are mutexes; destroying one frees its memory and clears the pointer. *)
Definition LAC_SPINLOCK (l : lock_state) : option lock_state := match l with LockFree => Some LockHeld | _ => None end.
Definition LAC_SPINUNLOCK (l : lock_state) : option lock_state := match l with LockHeld => Some LockFree | _ => None end.
Definition LAC_SPINLOCK_DESTROY (l : lock_state) : option lock_state := match l with LockFree => Some LockDestroyed | _ => None end.

(** * Update *)

Definition dcCheckUpdateSession (svc : sal_compression_service) (s : dc_session_desc_t) (u : CpaDcSessionUpdateData) : Z :=
  if negb (isGen4 svc) && is_dynamic (up_huffType u) && (pInterBuffPtrsArray svc =? 0) && (pInterBuffPtrsArrayPhyAddr svc =? 0)
  then CPA_STATUS_RESOURCE
  else if CPA_DC_STATEFUL =? sessState s then CPA_STATUS_INVALID_PARAM
  else if CPA_DC_DIR_DECOMPRESS =? sessDirection s then CPA_STATUS_INVALID_PARAM
  else CPA_STATUS_SUCCESS.

(** The slices and the command of the template *)
Definition update_slices (svc : sal_compression_service) (u : CpaDcSessionUpdateData) (m : comp_req) : comp_req :=
  if is_dynamic (up_huffType u) then
    let m := m <| next_curr_id := ICP_QAT_FW_COMN_NEXT_ID_SET (next_curr_id m) ICP_QAT_FW_SLICE_XLAT |> in
    let m := m <| next_curr_id := ICP_QAT_FW_COMN_CURR_ID_SET (next_curr_id m) ICP_QAT_FW_SLICE_COMP |> in
    let m := dcTransContentDescPopulate m ICP_QAT_FW_SLICE_DRAM_WR in
    m <| inter_buff_ptr := pInterBuffPtrsArrayPhyAddr svc |> <| service_cmd_id := ICP_QAT_FW_COMP_CMD_DYNAMIC |>
  else
    let m := m <| next_curr_id := ICP_QAT_FW_COMN_NEXT_ID_SET (next_curr_id m) ICP_QAT_FW_SLICE_DRAM_WR |> in
    let m := m <| next_curr_id := ICP_QAT_FW_COMN_CURR_ID_SET (next_curr_id m) ICP_QAT_FW_SLICE_COMP |> in
    m <| service_cmd_id := ICP_QAT_FW_COMP_CMD_STATIC |>.

Definition dcUpdateSession (svc : sal_compression_service) (s : dc_session_desc_t) (u : CpaDcSessionUpdateData)
    : option (Z * sal_compression_service * dc_session_desc_t) :=
  s ← (if isDcDp s then Some s else l ← LAC_SPINLOCK (updateLock s); Some (s <| updateLock := l |>));
  let svc := svc <| comp_device_data := (comp_device_data svc) <| enableDmm := negb (up_enableDmm u =? 0) |> |> in
  let s := s <| compLevel := up_compLevel u |> <| huffType := up_huffType u |> in
  let m := update_slices svc u (reqCacheComp s) in
  let '(lower, upper) := if isGen4 svc then dcCompHwBlockPopulateGen4 svc s DC_COMPRESSION_REQUEST
                         else dcCompHwBlockPopulate svc s DC_COMPRESSION_REQUEST in
  let s := s <| reqCacheComp := m <| cfg_lower := lower |> <| cfg_upper := upper |> |> in
  s ← (if isDcDp s then Some s else l ← LAC_SPINUNLOCK (updateLock s); Some (s <| updateLock := l |>));
  Some (CPA_STATUS_SUCCESS, svc, s).

(** [null]: a pointer is NULL *)
Definition cpaDcUpdateSession (null : bool) (svc : sal_compression_service) (s : dc_session_desc_t) (u : CpaDcSessionUpdateData)
    : option (Z * sal_compression_service * dc_session_desc_t) :=
  let status := checks [LAC_CHECK_NULL_PARAM null; SAL_CHECK_INSTANCE_TYPE svc; SAL_RUNNING_CHECK svc;
                        dcCheckUpdateSession svc s u] in
  if status =? CPA_STATUS_SUCCESS then dcUpdateSession svc s u else Some (status, svc, s).

(** * Reset and removal *)

Definition cpaDcResetXXHashState (null : bool) (svc : sal_compression_service) (s : dc_session_desc_t) : Z * dc_session_desc_t :=
  let status := checks [LAC_CHECK_NULL_PARAM null; SAL_CHECK_INSTANCE_TYPE svc; SAL_RUNNING_CHECK svc] in
  if negb (status =? CPA_STATUS_SUCCESS) then (status, s)
  else if (CPA_DC_STATELESS =? sessState s) && (CPA_DC_LZ4 =? compType s) && (CPA_TRUE =? accumulateXXHash s) then
    if negb (pendingStatelessCbCount s =? 0) then (CPA_STATUS_RETRY, s) else (CPA_STATUS_SUCCESS, dcXxhash32SetState s 0)
  else (CPA_STATUS_UNSUPPORTED, s).

Definition reset_counters (s : dc_session_desc_t) : dc_session_desc_t :=
  let s := s <| pendingStatelessCbCount := 0 |> <| pendingStatefulCbCount := 0 |> <| pendingDpStatelessCbCount := 0 |> in
  if CPA_DC_STATEFUL =? sessState s
  then s <| stateRegistersComp := replicate 64 0 |> <| stateRegistersDecomp := replicate 128 0 |> else s.

(** [queueDataToSend]: the answer of [icp_adf_queueDataToSend] about the ring; when it is yes,
    the tail of the ring is updated. *)
Definition cpaDcResetSession (null : bool) (svc : sal_compression_service) (queueDataToSend : bool) (s : dc_session_desc_t)
    : Z * dc_session_desc_t :=
  let status := checks [LAC_CHECK_NULL_PARAM null; SAL_CHECK_INSTANCE_TYPE svc; SAL_RUNNING_CHECK svc] in
  if negb (status =? CPA_STATUS_SUCCESS) then (status, s)
  else if isDcDp s then
    if queueDataToSend then (CPA_STATUS_RETRY, s)
    else if negb (pendingDpStatelessCbCount s =? 0) then (CPA_STATUS_RETRY, s)
    else (CPA_STATUS_SUCCESS, reset_counters s)
  else if negb (pendingStatelessCbCount s =? 0) then (CPA_STATUS_RETRY, s)
  else if negb (pendingStatefulCbCount s =? 0) then (CPA_STATUS_RETRY, s)
  else
    (CPA_STATUS_SUCCESS,
     reset_counters (s <| requestType := DC_REQUEST_FIRST |> <| cumulativeConsumedBytes := 0 |> <| cnvErrorInjection := 0 |>)).

Definition cpaDcRemoveSession (null : bool) (svc : sal_compression_service) (queueDataToSend : bool) (s : dc_session_desc_t)
    : option (Z * dc_session_desc_t) :=
  let status := checks [LAC_CHECK_NULL_PARAM null; SAL_CHECK_INSTANCE_TYPE svc; SAL_RUNNING_CHECK svc] in
  let destroy_update s :=
    if CPA_DC_STATELESS =? sessState s then l ← LAC_SPINLOCK_DESTROY (updateLock s); Some (s <| updateLock := l |>) else Some s in
  if negb (status =? CPA_STATUS_SUCCESS) then Some (status, s)
  else if isDcDp s then
    if queueDataToSend then Some (CPA_STATUS_RETRY, s)
    else if negb (pendingDpStatelessCbCount s =? 0) then Some (CPA_STATUS_RETRY, s)
    else s ← destroy_update s; Some (CPA_STATUS_SUCCESS, s)
  else
    let status := if negb (pendingStatelessCbCount s =? 0) then CPA_STATUS_RETRY else CPA_STATUS_SUCCESS in
    let status := if negb (pendingStatefulCbCount s =? 0) then CPA_STATUS_RETRY else status in
    s ← (if (CPA_DC_STATEFUL =? sessState s) && (status =? CPA_STATUS_SUCCESS)
         then l ← LAC_SPINLOCK_DESTROY (sessionLock s); Some (s <| sessionLock := l |>) else Some s);
    s ← destroy_update s; Some (status, s).

(** * Bit fields: what is written is read *)

Definition fields_set (l : list (Z * Z * Z)) (v : Z) : Z :=
  fold_left (fun v '(x, p, n) => QAT_FIELD_SET v x p (Z.ones n)) l v.

Lemma testbit_not32 x i : 0 <= i -> Z.testbit (not32 x) i = (i <? 32) && negb (Z.testbit x i).
Proof. intros. unfold not32. rewrite testbit_u32, Z.lnot_spec by lia. done. Qed.

Lemma testbit_field_set v x p n i :
  0 <= p -> 0 <= n -> p + n <= 32 -> 0 <= i ->
  Z.testbit (QAT_FIELD_SET v x p (Z.ones n)) i =
  if (p <=? i) && (i <? p + n) then Z.testbit x (i - p) else (i <? 32) && Z.testbit v i.
Proof.
  intros Hp Hn Hs Hi. unfold QAT_FIELD_SET. rewrite Z.lor_spec, Z.land_spec, testbit_not32, testbit_u32 by lia.
  rewrite !Z.shiftl_spec, Z.land_spec by lia.
  destruct (Z.leb_spec p i); [|rewrite !(Z.testbit_neg_r _ (i - p)) by lia; simpl; by rewrite andb_true_r, andb_false_r, orb_false_r, andb_comm].
  rewrite testbit_ones by lia. destruct (Z.ltb_spec i 32), (Z.ltb_spec i (p + n)), (Z.ltb_spec (i - p) n); simpl; try lia.
  all: by rewrite ?andb_false_r, ?andb_true_r, ?orb_false_r.
Qed.

Lemma testbit_field_get v p n i :
  0 <= p -> 0 <= n -> 0 <= i -> Z.testbit (QAT_FIELD_GET v p (Z.ones n)) i = (i <? n) && Z.testbit v (i + p).
Proof. intros. unfold QAT_FIELD_GET. rewrite Z.land_spec, Z.shiftr_spec, testbit_ones by lia. apply andb_comm. Qed.

Lemma field_get_set v x p n :
  0 <= p -> 0 <= n -> p + n <= 32 ->
  QAT_FIELD_GET (QAT_FIELD_SET v x p (Z.ones n)) p (Z.ones n) = Z.land x (Z.ones n).
Proof.
  intros. apply Z.bits_inj'. intros i Hi. rewrite testbit_field_get, testbit_field_set, Z.land_spec, testbit_ones by lia.
  destruct (Z.ltb_spec i n), (Z.leb_spec p (i + p)), (Z.ltb_spec (i + p) (p + n)); simpl; try lia.
  all: rewrite ?andb_true_r, ?andb_false_r; try done; f_equal; lia.
Qed.

Definition apart (p n : Z) : Z * Z * Z -> bool :=
  fun '(_, q, m) => (0 <=? q) && (0 <=? m) && (q + m <=? 32) && ((p + n <=? q) || (q + m <=? p)).

Lemma field_get_other v x p n q m :
  0 <= p -> 0 <= n -> p + n <= 32 -> apart p n (x, q, m) = true ->
  QAT_FIELD_GET (QAT_FIELD_SET v x q (Z.ones m)) p (Z.ones n) = QAT_FIELD_GET v p (Z.ones n).
Proof.
  intros Hp Hn Hs Ha. unfold apart in Ha. breflect. apply Z.bits_inj'. intros i Hi.
  rewrite !testbit_field_get, testbit_field_set by lia. destruct (Z.ltb_spec i n); [|done]. simpl.
  destruct (Z.leb_spec q (i + p)), (Z.ltb_spec (i + p) (q + m)), (Z.ltb_spec (i + p) 32); simpl; try done; lia.
Qed.

(** A field of a word is what was written to it last, if what is written after it is apart. *)
Lemma fields_read l i x p n v :
  l !! i = Some (x, p, n) -> (0 <=? p) && (0 <=? n) && (p + n <=? 32) && forallb (apart p n) (drop (S i) l) = true ->
  QAT_FIELD_GET (fields_set l v) p (Z.ones n) = Z.land x (Z.ones n).
Proof.
  intros Hl [Hd Hk]%andb_true_iff. breflect. rewrite <- (take_drop_middle l i _ Hl). unfold fields_set. rewrite fold_left_app. simpl.
  generalize (fold_left (fun v '(x, p, n) => QAT_FIELD_SET v x p (Z.ones n)) (take i l) v). intros w.
  pose proof (field_get_set w x p n ltac:(lia) ltac:(lia) ltac:(lia)) as E. revert E.
  generalize (QAT_FIELD_SET w x p (Z.ones n)). clear Hl. induction (drop (S i) l) as [|[[y q] m] k IH]; intros u E; [done|].
  cbn [forallb fold_left] in *. apply andb_true_iff in Hk as [Ha Hk]. apply IH; [done|]. by rewrite field_get_other by (done || lia).
Qed.

Lemma testbit_byte v p i : 0 <= p -> 0 <= i -> Z.testbit (Z.land (Z.shiftr v p) 0xff) i = (i <? 8) && Z.testbit v (i + p).
Proof. intros. change 0xff with (Z.ones 8). rewrite Z.land_spec, Z.shiftr_spec, testbit_ones by lia. apply andb_comm. Qed.

Lemma testbit_shiftl v n i : 0 <= n -> 0 <= i -> Z.testbit (Z.shiftl v n) i = (n <=? i) && Z.testbit v (i - n).
Proof.
  intros. rewrite Z.shiftl_spec by lia. destruct (Z.leb_spec n i); [done|]. by rewrite Z.testbit_neg_r by lia.
Qed.

Lemma testbit_byte_swap v i :
  0 <= i -> Z.testbit (BYTE_SWAP_32 v) i =
  if i <? 8 then Z.testbit v (i + 24) else if i <? 16 then Z.testbit v (i + 8)
  else if i <? 24 then Z.testbit v (i - 8) else if i <? 32 then Z.testbit v (i - 24) else false.
Proof.
  intros Hi. unfold BYTE_SWAP_32. rewrite <- (Z.shiftr_0_r v) at 1. rewrite !Z.lor_spec, !testbit_shiftl by lia.
  rewrite (testbit_byte v 24) by lia.
  destruct (Z.ltb_spec i 8), (Z.ltb_spec i 16), (Z.ltb_spec i 24), (Z.ltb_spec i 32), (Z.leb_spec 24 i), (Z.leb_spec 16 i),
    (Z.leb_spec 8 i); try lia; simpl; rewrite ?orb_false_r; try done.
  all: rewrite ?testbit_byte by lia.
  all: repeat (match goal with |- context [?a <? ?b] => destruct (Z.ltb_spec a b); try lia end); simpl; rewrite ?orb_false_r; try done.
  all: f_equal; lia.
Qed.

Lemma byte_swap_involutive v : 0 <= v < 2 ^ 32 -> BYTE_SWAP_32 (BYTE_SWAP_32 v) = v.
Proof.
  intros Hv. apply Z.bits_inj'. intros i Hi. rewrite testbit_byte_swap by lia.
  destruct (Z.ltb_spec i 8), (Z.ltb_spec i 16), (Z.ltb_spec i 24), (Z.ltb_spec i 32); try lia;
    rewrite ?testbit_byte_swap by lia.
  all: repeat (match goal with |- context [?a <? ?b] => destruct (Z.ltb_spec a b); try lia end); try (f_equal; lia).
  all: symmetry; apply (testbit_range v 32); lia.
Qed.

(** * The slice configuration: what the device reads *)

Definition read_lower (w : Z) : csr_lower :=
  let v := BYTE_SWAP_32 w in
  mk_lower (QAT_FIELD_GET v 0 0x1) (QAT_FIELD_GET v 5 0x7) (QAT_FIELD_GET v 8 0xf) (QAT_FIELD_GET v 14 0x7)
    (QAT_FIELD_GET v 13 0x1) (QAT_FIELD_GET v 12 0x1) (QAT_FIELD_GET v 4 0x1) (QAT_FIELD_GET v 3 0x1) (QAT_FIELD_GET v 2 0x1)
    (QAT_FIELD_GET v 1 0x1).
Definition read_upper (w : Z) : csr_upper :=
  let v := BYTE_SWAP_32 w in
  mk_upper (QAT_FIELD_GET v 31 0x1) (QAT_FIELD_GET v 30 0x1) (QAT_FIELD_GET v 28 0x3) (QAT_FIELD_GET v 27 0x1)
    (QAT_FIELD_GET v 26 0x1) (QAT_FIELD_GET v 21 0x1) (QAT_FIELD_GET v 19 0x3) (QAT_FIELD_GET v 18 0x1) (QAT_FIELD_GET v 9 0x1ff)
    (QAT_FIELD_GET v 0 0x1ff).
Definition read_decomp (w : Z) : decomp_csr_lower :=
  let v := BYTE_SWAP_32 w in
  mk_dlower (QAT_FIELD_GET v 14 0x7) (QAT_FIELD_GET v 8 0x3) (QAT_FIELD_GET v 5 0x7) (QAT_FIELD_GET v 4 0x1) (QAT_FIELD_GET v 3 0x1).
(** Direction, delayed match, algorithm, depth and file type of an older device *)
Definition read_gen2 (w : Z) : Z * Z * Z * Z * Z :=
  (QAT_FIELD_GET w 4 0x7, QAT_FIELD_GET w 16 0x1, QAT_FIELD_GET w 31 0x1, QAT_FIELD_GET w 28 0x7, QAT_FIELD_GET w 24 0xF).

Lemma fields_set_range l :
  Forall (fun '(_, p, n) => 0 <= p /\ 0 <= n /\ p + n <= 32) l -> 0 <= fields_set l 0 < 2 ^ 32.
Proof.
  assert (H : forall v, 0 <= v < 2 ^ 32 -> Forall (fun '(_, p, n) => 0 <= p /\ 0 <= n /\ p + n <= 32) l ->
                        0 <= fields_set l v < 2 ^ 32); [|apply H; lia].
  induction l as [|[[x p] n] l IH]; [done|]. intros v Hv [Hp Hl]%Forall_cons. apply IH; [|done].
  apply bits_range; [lia| |].
  - unfold QAT_FIELD_SET. apply Z.lor_nonneg. split; [apply Z.land_nonneg; left; lia|apply u32_range].
  - intros i Hi. rewrite testbit_field_set by lia.
    destruct (Z.leb_spec p i), (Z.ltb_spec i (p + n)), (Z.ltb_spec i 32); simpl; done || lia.
Qed.

Definition lower_fields (c : csr_lower) : list (Z * Z * Z) :=
  [(lo_algo c, 5, 3); (lo_sd c, 8, 4); (lo_edmm c, 0, 1); (lo_hbs c, 14, 3); (lo_mmctrl c, 4, 1); (lo_hash_col c, 3, 1);
   (lo_hash_update c, 2, 1); (lo_skip_ctrl c, 1, 1); (lo_abd c, 13, 1); (lo_lllbd c, 12, 1)].
Definition upper_fields (c : csr_upper) : list (Z * Z * Z) :=
  [(up_scb_ctrl c, 31, 1); (up_rmb_ctrl c, 30, 1); (up_som_ctrl c, 28, 2); (up_skip_hash_ctrl c, 27, 1);
   (up_scb_unload_ctrl c, 26, 1); (up_disable_token_fusion_ctrl c, 21, 1); (up_lbms c, 19, 2); (up_scb_mode_reset c, 18, 1);
   (up_lazy c, 9, 9); (up_nice c, 0, 9)].
Definition decomp_fields (c : decomp_csr_lower) : list (Z * Z * Z) :=
  [(dl_hbs c, 14, 3); (dl_lbms c, 8, 2); (dl_algo c, 5, 3); (dl_mmctrl c, 4, 1); (dl_lbc c, 3, 1)].
(** Every value fits into its field. *)
Definition fit (l : list (Z * Z * Z)) : Prop := Forall (fun '(x, _, n) => 0 <= x < 2 ^ n) l.

Lemma land_fit x n : 0 <= n -> 0 <= x < 2 ^ n -> Z.land x (Z.ones n) = x.
Proof. intros. rewrite Z.land_ones by lia. by apply Z.mod_small. Qed.

(** Reads field [i] of a word that was built from [l]. *)
Lemma field_read l i x p n m :
  m = Z.ones n -> fit l -> Forall (fun '(_, p, n) => 0 <= p /\ 0 <= n /\ p + n <= 32) l -> l !! i = Some (x, p, n) ->
  forallb (apart p n) (drop (S i) l) = true ->
  QAT_FIELD_GET (BYTE_SWAP_32 (BYTE_SWAP_32 (fields_set l 0))) p m = x.
Proof.
  intros -> Hf Hr Hl Ha. rewrite byte_swap_involutive by (by apply fields_set_range).
  pose proof (Forall_lookup_1 _ _ _ _ Hf Hl) as Hx. pose proof (Forall_lookup_1 _ _ _ _ Hr Hl) as Hp. simpl in Hx, Hp.
  rewrite (fields_read l i x p n); [apply land_fit; lia|done|].
  rewrite Ha. destruct (Z.leb_spec 0 p), (Z.leb_spec 0 n), (Z.leb_spec (p + n) 32); done || lia.
Qed.

Ltac read_field i n := apply (field_read _ i _ _ n); [reflexivity | assumption | repeat constructor; lia | reflexivity | reflexivity].
Ltac build_fields := intros; cbn [fields_set lower_fields upper_fields decomp_fields fold_left]; change (Z.ones 1) with 1;
  change (Z.ones 2) with 3; change (Z.ones 3) with 7; change (Z.ones 4) with 15; change (Z.ones 9) with 511; reflexivity.
Lemma lower_build c : ICP_QAT_FW_COMP_20_BUILD_CONFIG_LOWER c = BYTE_SWAP_32 (fields_set (lower_fields c) 0).
Proof. unfold ICP_QAT_FW_COMP_20_BUILD_CONFIG_LOWER, fields_set, lower_fields. build_fields. Qed.
Lemma upper_build c : ICP_QAT_FW_COMP_20_BUILD_CONFIG_UPPER c = BYTE_SWAP_32 (fields_set (upper_fields c) 0).
Proof. unfold ICP_QAT_FW_COMP_20_BUILD_CONFIG_UPPER, fields_set, upper_fields. build_fields. Qed.
Lemma decomp_build c : ICP_QAT_FW_DECOMP_20_BUILD_CONFIG_LOWER c = BYTE_SWAP_32 (fields_set (decomp_fields c) 0).
Proof. unfold ICP_QAT_FW_DECOMP_20_BUILD_CONFIG_LOWER, fields_set, decomp_fields. build_fields. Qed.

Lemma lower_read c : fit (lower_fields c) -> read_lower (ICP_QAT_FW_COMP_20_BUILD_CONFIG_LOWER c) = c.
Proof.
  intros Hf. unfold read_lower. rewrite lower_build.
  destruct c as [edmm algo sd hbs abd lllbd mm hc hu sk]. f_equal;
  [read_field 2%nat 1 | read_field 0%nat 3 | read_field 1%nat 4 | read_field 3%nat 3 | read_field 8%nat 1 | read_field 9%nat 1
  | read_field 4%nat 1 | read_field 5%nat 1 | read_field 6%nat 1 | read_field 7%nat 1].
Qed.
Lemma upper_read c : fit (upper_fields c) -> read_upper (ICP_QAT_FW_COMP_20_BUILD_CONFIG_UPPER c) = c.
Proof.
  intros Hf. unfold read_upper. rewrite upper_build.
  destruct c. f_equal;
  [read_field 0%nat 1 | read_field 1%nat 1 | read_field 2%nat 2 | read_field 3%nat 1 | read_field 4%nat 1 | read_field 5%nat 1
  | read_field 6%nat 2 | read_field 7%nat 1 | read_field 8%nat 9 | read_field 9%nat 9].
Qed.
Lemma decomp_read c : fit (decomp_fields c) -> read_decomp (ICP_QAT_FW_DECOMP_20_BUILD_CONFIG_LOWER c) = c.
Proof.
  intros Hf. unfold read_decomp. rewrite decomp_build.
  destruct c. f_equal; [read_field 0%nat 3 | read_field 1%nat 2 | read_field 2%nat 3 | read_field 3%nat 1 | read_field 4%nat 1].
Qed.

(** * What a template tells the device *)

Definition comp_command (ct huff : Z) : Z :=
  if ct =? CPA_DC_LZ4 then ICP_QAT_FW_COMP_20_CMD_LZ4_COMPRESS
  else if ct =? CPA_DC_LZ4S then ICP_QAT_FW_COMP_20_CMD_LZ4S_COMPRESS
  else if is_dynamic huff then ICP_QAT_FW_COMP_CMD_DYNAMIC else ICP_QAT_FW_COMP_CMD_STATIC.
Definition decomp_command (ct : Z) : Z :=
  if ct =? CPA_DC_LZ4 then ICP_QAT_FW_COMP_20_CMD_LZ4_DECOMPRESS else ICP_QAT_FW_COMP_CMD_DECOMPRESS.
Definition hw_format (ct huff : Z) : Z :=
  if ct =? CPA_DC_LZ4 then ICP_QAT_HW_COMP_20_HW_COMP_FORMAT_LZ4
  else if ct =? CPA_DC_LZ4S then ICP_QAT_HW_COMP_20_HW_COMP_FORMAT_LZ4S
  else if is_dynamic huff then ICP_QAT_HW_COMP_20_HW_COMP_FORMAT_ILZ77 else ICP_QAT_HW_COMP_20_HW_COMP_FORMAT_DEFLATE.
(** The search depth of a level *)
Definition depth_gen4 (svc : sal_compression_service) (level : Z) : Z :=
  if level <=? 5 then ICP_QAT_HW_COMP_20_SEARCH_DEPTH_LEVEL_1 else if level <=? 8 then ICP_QAT_HW_COMP_20_SEARCH_DEPTH_LEVEL_6
  else if level <=? 9 then ICP_QAT_HW_COMP_20_SEARCH_DEPTH_LEVEL_9 else highestHwCompressionDepth (comp_device_data svc).
Definition depth_gen2 (level : Z) : Z := Z.min 4 level - 1.

(** The parameters of compression as the device reads them from the configuration words *)
Definition comp_config (svc : sal_compression_service) (s : dc_session_desc_t) (m : comp_req) : Prop :=
  if isGen4 svc then
    let lower := read_lower (cfg_lower m) in
    let upper := read_upper (cfg_upper m) in
    lo_algo lower = hw_format (compType s) (huffType s) /\ lo_sd lower = depth_gen4 svc (compLevel s) /\
    lo_edmm lower = Z.b2z (enableDmm (comp_device_data svc)) /\
    (compType s = CPA_DC_LZ4 ->
     lo_mmctrl lower = 1 /\ up_lbms upper = lz4BlockMaxSize s /\ up_scb_mode_reset upper = lz4BlockIndependence s) /\
    (compType s = CPA_DC_LZ4S -> lo_mmctrl lower = minMatch s)
  else
    read_gen2 (cfg_lower m) =
      (ICP_QAT_HW_COMPRESSION_DIR_COMPRESS, Z.b2z (enableDmm (comp_device_data svc)), ICP_QAT_HW_COMPRESSION_ALGO_DEFLATE,
       depth_gen2 (compLevel s), ICP_QAT_HW_COMPRESSION_FILE_TYPE_0) /\ cfg_upper m = 0.

Definition decomp_config (svc : sal_compression_service) (s : dc_session_desc_t) (m : comp_req) : Prop :=
  cfg_upper m = 0 /\
  if isGen4 svc then
    read_decomp (cfg_lower m) =
      if compType s =? CPA_DC_LZ4 then mk_dlower 0 (lz4BlockMaxSize s) ICP_QAT_HW_COMP_20_HW_COMP_FORMAT_LZ4 0 (lz4BlockChecksum s)
      else mk_dlower 0 0 ICP_QAT_HW_DECOMP_20_HW_DECOMP_FORMAT_DEFLATE 0 0
  else
    read_gen2 (cfg_lower m) =
      (ICP_QAT_HW_COMPRESSION_DIR_DECOMPRESS, Z.b2z (enableDmm (comp_device_data svc)), ICP_QAT_HW_COMPRESSION_ALGO_DEFLATE,
       ICP_QAT_HW_COMPRESSION_DEPTH_1, ICP_QAT_HW_COMPRESSION_FILE_TYPE_0).

Definition slice_ids (next curr : Z) : Z := 16 * next + curr.
(** The translator comes after the compression slice for dynamic trees on older devices. *)
Definition uses_translator (svc : sal_compression_service) (huff : Z) : bool := negb (isGen4 svc) && is_dynamic huff.

Record comp_template (v2p : Z -> Z) (svc : sal_compression_service) (p : Z) (s : dc_session_desc_t) (m : comp_req) : Prop := {
  ct_command : service_cmd_id m = comp_command (compType s) (huffType s);
  ct_config : comp_config svc s m;
  ct_state : comp_state_addr m = v2p p;
  ct_slices : next_curr_id m =
    slice_ids (if uses_translator svc (huffType s) then ICP_QAT_FW_SLICE_XLAT else ICP_QAT_FW_SLICE_DRAM_WR) ICP_QAT_FW_SLICE_COMP;
  ct_translator : uses_translator svc (huffType s) = true ->
    xlt_next_curr_id m = slice_ids ICP_QAT_FW_SLICE_DRAM_WR ICP_QAT_FW_SLICE_XLAT /\
    inter_buff_ptr m = pInterBuffPtrsArrayPhyAddr svc
}.

Record decomp_template (v2p : Z -> Z) (svc : sal_compression_service) (p ctx : Z) (s : dc_session_desc_t) (m : comp_req) : Prop := {
  dt_command : service_cmd_id m = decomp_command (compType s);
  dt_config : decomp_config svc s m;
  dt_state : comp_state_addr m = v2p (p + off_stateRegistersDecomp);
  dt_slices : next_curr_id m = slice_ids ICP_QAT_FW_SLICE_DRAM_WR ICP_QAT_FW_SLICE_COMP;
  dt_banks : ram_banks_addr m = if CPA_DC_STATEFUL =? sessState s then ctx else 0
}.

(** What the checks of the setup data ensure of the session *)
Record params_ok (s : dc_session_desc_t) : Prop := {
  po_level : 1 <= compLevel s <= 12;
  po_type : 3 <= compType s <= 5;
  po_huff : huffType s = 0 \/ huffType s = 2;
  po_dir : 0 <= sessDirection s <= 2;
  po_state : 0 <= sessState s <= 1;
  po_checksum : 0 <= checksumType s <= 4;
  po_lz4 : compType s = CPA_DC_LZ4 ->
    0 <= lz4BlockMaxSize s <= 3 /\ 0 <= lz4BlockChecksum s <= 1 /\ 0 <= lz4BlockIndependence s <= 1 /\ 0 <= accumulateXXHash s <= 1;
  po_lz4s : compType s = CPA_DC_LZ4S -> 0 <= minMatch s <= 1
}.

Definition depth_ok (svc : sal_compression_service) : Prop := 0 <= highestHwCompressionDepth (comp_device_data svc) < 16.

Lemma b2z_range b : 0 <= Z.b2z b < 2.
Proof. destruct b; simpl; lia. Qed.

Lemma comp_csr_fit svc s :
  params_ok s -> depth_ok svc -> fit (lower_fields (gen4_comp_csr svc s).1) /\ fit (upper_fields (gen4_comp_csr svc s).2).
Proof.
  intros HP Hd. pose proof (po_lz4 s HP) as H4. pose proof (po_lz4s s HP) as H4s. unfold depth_ok in Hd. pose proof (b2z_range (enableDmm (comp_device_data svc))).
  unfold fit, lower_fields, upper_fields, gen4_comp_csr, setBlockIndep, setBlockDep.
  destruct (Z.eqb_spec (compType s) CPA_DC_DEFLATE) as [E|E]; [|destruct (Z.eqb_spec (compType s) CPA_DC_LZ4) as [E1|E1];
    [specialize (H4 E1)|destruct (Z.eqb_spec (compType s) CPA_DC_LZ4S) as [E2|E2]; [specialize (H4s E2)|]]].
  all: repeat case_if; cbn; split; repeat (apply List.Forall_cons; [first [lia | by split]|]); apply List.Forall_nil.
Qed.

Lemma comp_hw_config svc s m :
  params_ok s -> depth_ok svc ->
  (cfg_lower m, cfg_upper m) = (if isGen4 svc then dcCompHwBlockPopulateGen4 svc s DC_COMPRESSION_REQUEST
                                else dcCompHwBlockPopulate svc s DC_COMPRESSION_REQUEST) ->
  comp_config svc s m.
Proof.
  intros HP Hd Hm. pose proof (po_level s HP) as Hl. unfold comp_config. destruct (isGen4 svc).
  - unfold dcCompHwBlockPopulateGen4 in Hm. rewrite bool_decide_true in Hm by done.
    destruct (comp_csr_fit svc s HP Hd) as [F1 F2]. destruct (gen4_comp_csr svc s) as [lower upper] eqn:E.
    injection Hm as -> ->. cbn [fst snd] in F1, F2. rewrite lower_read, upper_read by done. clear F1 F2.
    pose proof (po_lz4 s HP) as H4. pose proof (po_type s HP) as Ht.
    unfold gen4_comp_csr, setBlockIndep, setBlockDep in E. unfold hw_format, depth_gen4.
    change (compType s =? CPA_DC_DEFLATE) with (compType s =? 3) in *. change (compType s =? CPA_DC_LZ4) with (compType s =? 4) in *.
    change (compType s =? CPA_DC_LZ4S) with (compType s =? 5) in *. change (CPA_DC_DEFLATE =? compType s) with (3 =? compType s) in *.
    change (compType s = CPA_DC_LZ4) with (compType s = 4) in *. change (compType s = CPA_DC_LZ4S) with (compType s = 5) in *.
    unfold CPA_TRUE in E.
    destruct (Z.eqb_spec (compType s) 3), (Z.eqb_spec (compType s) 4), (Z.eqb_spec (compType s) 5); try lia;
      repeat case_if; injection E as <- <-; cbn; split_and!; try done; try lia.
    all: intros Hc; destruct (H4 Hc) as (_ & _ & ? & _); split_and!; [done|done|].
    all: unfold ICP_QAT_HW_COMP_20_SCB_MODE_RESET_MASK_RESET_COUNTERS; lia.
  - unfold dcCompHwBlockPopulate in Hm. rewrite bool_decide_true, bool_decide_false in Hm by done. injection Hm as -> ->.
    split; [|done]. unfold depth_gen2.
    assert (exists d, Z.min 4 (compLevel s) = d /\ 1 <= d <= 4) as (d & Ed & ?) by (eexists; split; [done|lia]). rewrite Ed.
    destruct (enableDmm (comp_device_data svc)), (Z.eqb_spec (compLevel s) 1), (Z.eqb_spec (compLevel s) 2), (Z.eqb_spec (compLevel s) 3);
      try lia; [replace d with 1 by lia|replace d with 2 by lia|replace d with 3 by lia|replace d with 4 by lia
               |replace d with 1 by lia|replace d with 2 by lia|replace d with 3 by lia|replace d with 4 by lia]; done.
Qed.

Lemma decomp_hw_config svc s m :
  params_ok s -> compType s <> CPA_DC_LZ4S ->
  (cfg_lower m, cfg_upper m) = (if isGen4 svc then dcCompHwBlockPopulateGen4 svc s DC_DECOMPRESSION_REQUEST
                                else dcCompHwBlockPopulate svc s DC_DECOMPRESSION_REQUEST) ->
  decomp_config svc s m.
Proof.
  intros HP Hc Hm. pose proof (po_lz4 s HP) as H4. pose proof (po_type s HP) as Ht. unfold decomp_config. destruct (isGen4 svc).
  - unfold dcCompHwBlockPopulateGen4 in Hm. rewrite bool_decide_false in Hm by done. injection Hm as -> ->. split; [done|].
    assert (gen4_decomp_csr s =
      if compType s =? CPA_DC_LZ4 then mk_dlower 0 (lz4BlockMaxSize s) 2 0 (lz4BlockChecksum s) else mk_dlower 0 0 1 0 0) as ->.
    { unfold gen4_decomp_csr, CPA_TRUE. change (compType s =? CPA_DC_LZ4) with (compType s =? 4) in *. change (compType s <> 5) in Hc.
      change (CPA_DC_LZ4 =? compType s) with (4 =? compType s). change (CPA_DC_DEFLATE =? compType s) with (3 =? compType s).
      destruct (Z.eqb_spec 3 (compType s)), (Z.eqb_spec 4 (compType s)), (Z.eqb_spec (compType s) 4); try lia; try done.
      destruct (H4 ltac:(done)) as (_ & ? & _). f_equal. case_if; [done|].
      unfold ICP_QAT_HW_DECOMP_20_LZ4_BLOCK_CHKSUM_ABSENT. lia. }
    rewrite decomp_read; [done|]. unfold fit, decomp_fields. destruct (Z.eqb_spec (compType s) CPA_DC_LZ4) as [E|E].
    + destruct (H4 E) as (? & ? & _). cbn. repeat (apply List.Forall_cons; [lia|]). apply List.Forall_nil.
    + cbn. repeat (apply List.Forall_cons; [lia|]). apply List.Forall_nil.
  - unfold dcCompHwBlockPopulate in Hm. rewrite bool_decide_false, bool_decide_true in Hm by done. injection Hm as -> ->.
    split; [done|]. by destruct (enableDmm (comp_device_data svc)).
Qed.

Lemma slice_ids_set id next :
  0 <= next < 16 -> ICP_QAT_FW_COMN_CURR_ID_SET (ICP_QAT_FW_COMN_NEXT_ID_SET id next) ICP_QAT_FW_SLICE_COMP = slice_ids next 5.
Proof.
  intros H. assert (forallb (fun n => ICP_QAT_FW_COMN_CURR_ID_SET (Z.land (Z.shiftl n 4) 0xF0) 5 =? slice_ids n 5) (seqZ 0 16) = true)
    as F by done. rewrite forallb_seqZ in F. specialize (F next ltac:(lia)). apply Z.eqb_eq in F. rewrite <- F.
  unfold ICP_QAT_FW_COMN_CURR_ID_SET, ICP_QAT_FW_COMN_NEXT_ID_SET. rewrite Z.land_lor_distr_l, <- Z.land_assoc.
  change (Z.land 0x0F 0xF0) with 0. by rewrite Z.land_0_r, Z.lor_0_l.
Qed.
Lemma xlt_ids_set id :
  ICP_QAT_FW_COMN_CURR_ID_SET (ICP_QAT_FW_COMN_NEXT_ID_SET id ICP_QAT_FW_SLICE_DRAM_WR) ICP_QAT_FW_SLICE_XLAT = slice_ids 4 6.
Proof.
  unfold ICP_QAT_FW_COMN_CURR_ID_SET, ICP_QAT_FW_COMN_NEXT_ID_SET. rewrite Z.land_lor_distr_l, <- Z.land_assoc.
  change (Z.land 0x0F 0xF0) with 0. rewrite Z.land_0_r, Z.lor_0_l. done.
Qed.

(** * Initialisation: what is accepted and what comes out *)

Record setup_ok (d : CpaDcSessionSetupData) : Prop := {
  sk_level : 1 <= su_compLevel d <= 12;
  sk_asb : 0 <= su_autoSelectBestHuffmanTree d <= 4;
  sk_type : 3 <= su_compType d <= 5;
  sk_huff : su_huffType d = 0 \/ su_huffType d = 2;
  sk_dir : 0 <= su_sessDirection d <= 2;
  sk_state : 0 <= su_sessState d <= 1;
  sk_checksum : 0 <= su_checksum d <= 4;
  sk_deflate : su_compType d = 3 -> su_checksum d <> 4;
  sk_lz : su_compType d <> 3 -> su_checksum d = 0 \/ su_checksum d = 4;
  sk_lz4 : su_compType d = 4 -> 0 <= su_lz4BlockMaxSize d <= 3 /\ 0 <= su_lz4BlockChecksum d <= 1 /\
             0 <= su_lz4BlockIndependence d <= 1 /\ 0 <= su_accumulateXXHash d <= 1;
  sk_lz4s : su_compType d = 5 -> 0 <= su_minMatch d <= 1
}.

Lemma outside_spec x lo hi : outside x lo hi = false <-> lo <= x <= hi.
Proof. unfold outside. rewrite orb_false_iff, !Z.ltb_ge. lia. Qed.
Lemma not_bool_spec x : not_bool x = false <-> 0 <= x <= 1.
Proof. unfold not_bool, CPA_FALSE, CPA_TRUE. rewrite andb_false_iff, !negb_false_iff, !Z.eqb_eq. lia. Qed.

Lemma check_session_data d : dcCheckSessionData d = CPA_STATUS_SUCCESS <-> setup_ok d.
Proof.
  unfold dcCheckSessionData. cbn [comp_type_value checksum_value session_dir_value huff_type_value].
  unfold CPA_DC_L1, CPA_DC_L12, CPA_DC_ASB_DISABLED, CPA_DC_ASB_ENABLED, CPA_DC_STATEFUL, CPA_DC_STATELESS,
    CPA_DC_LZ4_MAX_BLOCK_SIZE_64K, CPA_DC_LZ4_MAX_BLOCK_SIZE_4M, CPA_DC_MIN_3_BYTE_MATCH, CPA_DC_MIN_4_BYTE_MATCH.
  split.
  - intros H. repeat (case_if; [done|]).
    repeat match goal with H : outside _ _ _ = false |- _ => apply outside_spec in H end.
    constructor; try lia.
    + intros Hc. destruct E8 as [E8|E8]; [lia|]. rewrite !orb_false_iff, outside_spec, !not_bool_spec in E8. tauto.
    + intros Hc. destruct E9 as [E9|E9]; [lia|]. by apply outside_spec in E9.
  - intros HS. pose proof (sk_lz4 d HS). pose proof (sk_lz4s d HS). destruct HS.
    assert (O : forall x lo hi, lo <= x <= hi -> outside x lo hi = false) by (intros; by apply outside_spec).
    assert (N : forall x, 0 <= x <= 1 -> not_bool x = false) by (intros; by apply not_bool_spec).
    rewrite !(O (su_compLevel d)), !(O (su_autoSelectBestHuffmanTree d)), !(O (su_compType d)), !(O (su_huffType d)),
      !(O (su_sessDirection d)), !(O (su_sessState d)), !(O (su_checksum d)) by lia.
    destruct (Z.eqb_spec 1 (su_huffType d)); [lia|]. cbn [orb].
    destruct (Z.eqb_spec 4 (su_checksum d)), (Z.eqb_spec 3 (su_compType d)), (Z.eqb_spec 4 (su_compType d)),
      (Z.eqb_spec 0 (su_checksum d)), (Z.eqb_spec 5 (su_compType d)); cbn [andb negb]; try lia; try done.
    all: rewrite ?O, ?N by lia; done.
Qed.

(** No buffers for the translator, which dynamic trees need on older devices *)
Definition no_inter (svc : sal_compression_service) (huff : Z) : bool :=
  uses_translator svc huff && (pInterBuffPtrsArray svc =? 0) && (pInterBuffPtrsArrayPhyAddr svc =? 0).

(** The context buffer can take what the device saves there. *)
Definition context_ok (v2p : Z -> Z) (svc : sal_compression_service) (ctx : option CpaBufferList) : Prop :=
  inflateContextSize (comp_device_data svc) <> 0 ->
  exists bl size, ctx = Some bl /\ LacBuffDesc_BufferListVerify false bl 0 LAC_NO_ALIGNMENT_SHIFT = (CPA_STATUS_SUCCESS, size) /\
    inflateContextSize (comp_device_data svc) <= size /\ (LacBuffDesc_BufferListDescWrite v2p bl false).1.1.1 = CPA_STATUS_SUCCESS.

Record setup_accepted (v2p : Z -> Z) (svc : sal_compression_service) (h : Z) (null : bool) (d : CpaDcSessionSetupData)
    (ctx : option CpaBufferList) (lock_ok : bool) : Prop := {
  ac_pointers : h <> 0 /\ null = false;
  ac_setup : setup_ok d;
  ac_inter : no_inter svc (su_huffType d) = true -> su_autoSelectBestHuffmanTree d = CPA_DC_ASB_STATIC_DYNAMIC;
  ac_address : v2p (h + sizeof_pointer) <> 0;
  ac_lock : lock_ok = true;
  ac_stateless : su_sessState d = CPA_DC_STATELESS ->
    su_compType d = CPA_DC_DEFLATE \/
    isGen4 svc = true /\ su_compType d = CPA_DC_LZ4 /\
      (su_accumulateXXHash d = CPA_TRUE ->
       su_autoSelectBestHuffmanTree d = CPA_DC_ASB_DISABLED /\ su_sessDirection d = CPA_DC_DIR_COMPRESS) \/
    isGen4 svc = true /\ su_compType d = CPA_DC_LZ4S /\ su_sessDirection d = CPA_DC_DIR_COMPRESS;
  ac_stateful : su_sessState d = CPA_DC_STATEFUL ->
    isGen4 svc = false /\ su_sessDirection d = CPA_DC_DIR_DECOMPRESS /\ su_compType d = CPA_DC_DEFLATE /\ context_ok v2p svc ctx
}.

(** The session holds what the setup data [d] asks for. *)
Record session_holds (d : CpaDcSessionSetupData) (s : dc_session_desc_t) : Prop := {
  sh_level : compLevel s = su_compLevel d;
  sh_type : compType s = su_compType d;
  sh_huff : huffType s = su_huffType d;
  sh_dir : sessDirection s = su_sessDirection d;
  sh_state : sessState s = su_sessState d;
  sh_checksum : checksumType s = su_checksum d;
  sh_lz4 : lz4BlockMaxSize s = su_lz4BlockMaxSize d /\ lz4BlockChecksum s = su_lz4BlockChecksum d /\
    lz4BlockIndependence s = su_lz4BlockIndependence d /\ accumulateXXHash s = su_accumulateXXHash d;
  sh_minMatch : minMatch s = su_minMatch d
}.

(** A session that nothing has been sent for *)
Record session_fresh (s : dc_session_desc_t) : Prop := {
  sf_type : requestType s = DC_REQUEST_FIRST;
  sf_stateless : pendingStatelessCbCount s = 0;
  sf_stateful : pendingStatefulCbCount s = 0;
  sf_dp : pendingDpStatelessCbCount s = 0 /\ isDcDp s = false;
  sf_consumed : cumulativeConsumedBytes s = 0;
  sf_session_lock : sessionLock s = if CPA_DC_STATEFUL =? sessState s then LockFree else LockNone;
  sf_update_lock : updateLock s = if CPA_DC_STATELESS =? sessState s then LockFree else LockNone;
  sf_comp_regs : length (stateRegistersComp s) = 64%nat;
  sf_decomp_regs : length (stateRegistersDecomp s) = 128%nat
}.

Lemma holds_params d s : setup_ok d -> session_holds d s -> params_ok s.
Proof.
  intros [] []. destruct sh_lz5 as (E1 & E2 & E3 & E4).
  constructor; rewrite ?sh_level0, ?sh_type0, ?sh_huff0, ?sh_dir0, ?sh_state0, ?sh_checksum0, ?E1, ?E2, ?E3, ?E4, ?sh_minMatch0; done.
Qed.

Lemma compress_command svc d :
  3 <= su_compType d <= 5 ->
  dcGetCompressCommandId svc d =
  if (su_compType d =? 3) || isGen4 svc then (CPA_STATUS_SUCCESS, comp_command (su_compType d) (su_huffType d))
  else (CPA_STATUS_UNSUPPORTED, 255).
Proof.
  intros. unfold dcGetCompressCommandId, comp_command, deflate_command. cbn [comp_type_value].
  destruct (isGen4 svc), (Z.eqb_spec (su_compType d) 3), (Z.eqb_spec (su_compType d) 4), (Z.eqb_spec (su_compType d) 5); done || lia.
Qed.
Lemma decompress_command svc d :
  3 <= su_compType d <= 5 ->
  dcGetDecompressCommandId svc d =
  if (su_compType d =? 3) || isGen4 svc && (su_compType d =? 4) then (CPA_STATUS_SUCCESS, decomp_command (su_compType d))
  else (CPA_STATUS_UNSUPPORTED, 255).
Proof.
  intros. unfold dcGetDecompressCommandId, decomp_command. cbn [comp_type_value].
  destruct (isGen4 svc), (Z.eqb_spec (su_compType d) 3), (Z.eqb_spec (su_compType d) 4); done || lia.
Qed.

Section init_spec.
Variables (v2p : Z -> Z) (svc : sal_compression_service).
Hypothesis Hdepth : depth_ok svc.

(** The content descriptor of a template, before its header is written *)
Lemma comp_desc p s ctx m n :
  params_ok s -> 0 <= n < 16 ->
  let m' := dcCompContentDescPopulate v2p svc p s ctx m n DC_COMPRESSION_REQUEST in
  comp_config svc s m' /\ comp_state_addr m' = v2p p /\ next_curr_id m' = slice_ids n ICP_QAT_FW_SLICE_COMP.
Proof.
  intros HP Hn m'. subst m'. unfold dcCompContentDescPopulate.
  change (DC_COMPRESSION_REQUEST == DC_DECOMPRESSION_REQUEST) with false. change (DC_COMPRESSION_REQUEST == DC_COMPRESSION_REQUEST) with true.
  rewrite !andb_false_r. cbn [andb]. destruct (if isGen4 svc then _ else _) as [lower upper] eqn:E.
  split_and!; [by apply comp_hw_config|done|]. cbn. by apply slice_ids_set.
Qed.

Lemma decomp_desc p s ctx m n :
  params_ok s -> 0 <= n < 16 -> compType s <> CPA_DC_LZ4S ->
  let m' := dcCompContentDescPopulate v2p svc p s ctx m n DC_DECOMPRESSION_REQUEST in
  decomp_config svc s m' /\ comp_state_addr m' = v2p (p + off_stateRegistersDecomp) /\
  next_curr_id m' = slice_ids n ICP_QAT_FW_SLICE_COMP /\ ram_banks_addr m' = if CPA_DC_STATEFUL =? sessState s then ctx else 0.
Proof.
  intros HP Hn Hc m'. subst m'. pose proof (po_type s HP). unfold dcCompContentDescPopulate.
  change (DC_DECOMPRESSION_REQUEST == DC_DECOMPRESSION_REQUEST) with true. change (DC_DECOMPRESSION_REQUEST == DC_COMPRESSION_REQUEST) with false.
  rewrite !andb_true_r. cbn [comp_type_value] in *.
  destruct (if isGen4 svc then _ else _) as [lower upper] eqn:E.
  assert ((3 =? compType s) || (4 =? compType s) = true) as Ht by (destruct (Z.eqb_spec 3 (compType s)), (Z.eqb_spec 4 (compType s)); done || lia).
  destruct (CPA_DC_STATEFUL =? sessState s), (3 =? compType s), (4 =? compType s); try done; cbn [andb orb] in *;
    (split_and!; [by apply decomp_hw_config|done|cbn; by apply slice_ids_set|done]).
Qed.

(** What is needed of the templates besides their headers *)
Definition comp_body (p : Z) (s : dc_session_desc_t) (m : comp_req) : Prop :=
  comp_config svc s m /\ comp_state_addr m = v2p p /\
  next_curr_id m = slice_ids (if uses_translator svc (huffType s) then ICP_QAT_FW_SLICE_XLAT else ICP_QAT_FW_SLICE_DRAM_WR) ICP_QAT_FW_SLICE_COMP /\
  (uses_translator svc (huffType s) = true ->
   xlt_next_curr_id m = slice_ids ICP_QAT_FW_SLICE_DRAM_WR ICP_QAT_FW_SLICE_XLAT /\ inter_buff_ptr m = pInterBuffPtrsArrayPhyAddr svc).
Definition decomp_body (p ctx : Z) (s : dc_session_desc_t) (m : comp_req) : Prop :=
  decomp_config svc s m /\ comp_state_addr m = v2p (p + off_stateRegistersDecomp) /\
  next_curr_id m = slice_ids ICP_QAT_FW_SLICE_DRAM_WR ICP_QAT_FW_SLICE_COMP /\
  ram_banks_addr m = if CPA_DC_STATEFUL =? sessState s then ctx else 0.

Lemma comp_template_body p ctx d s :
  params_ok s -> huffType s = su_huffType d -> inter_buff_ptr (reqCacheComp s) = 0 ->
  comp_body p s (init_comp_template v2p svc p ctx d s).
Proof.
  intros HP Hh H0. unfold comp_body, init_comp_template. rewrite <- Hh. fold (uses_translator svc (huffType s)).
  destruct (uses_translator svc (huffType s)).
  - destruct (comp_desc p s ctx (reqCacheComp s) ICP_QAT_FW_SLICE_XLAT HP ltac:(done)) as (C1 & C2 & C3).
    destruct (Z.eqb_spec (pInterBuffPtrsArrayPhyAddr svc) 0) as [Ez|Ez]; cbn [negb]; split_and!; try done.
    all: intros _; split; [apply xlt_ids_set|try done].
    rewrite Ez, <- H0. unfold dcTransContentDescPopulate, dcCompContentDescPopulate.
    destruct (if (_ : bool) then _ else _), (if isGen4 svc then _ else _). done.
  - destruct (comp_desc p s ctx (reqCacheComp s) ICP_QAT_FW_SLICE_DRAM_WR HP ltac:(done)) as (C1 & C2 & C3). by split_and!.
Qed.

Lemma templates_spec p ctx d s :
  setup_ok d -> session_holds d s -> inter_buff_ptr (reqCacheComp s) = 0 ->
  exists mc md, init_templates v2p svc p ctx d s = s <| reqCacheComp := mc |> <| reqCacheDecomp := md |> /\
    (su_sessDirection d <> 1 -> comp_body p s mc) /\
    (su_sessDirection d <> 0 -> su_compType d <> 5 -> decomp_body p ctx s md).
Proof.
  intros HS HH H0. pose proof (holds_params _ _ HS HH) as HP. unfold init_templates. cbn [session_dir_value].
  pose proof (comp_template_body p ctx d s HP (sh_huff _ _ HH) H0) as Hc.
  generalize dependent (init_comp_template v2p svc p ctx d s). intros mc Hc.
  assert (forall s1, params_ok s1 -> compType s1 = su_compType d -> su_compType d <> 5 ->
    decomp_body p ctx s1 (dcCompContentDescPopulate v2p svc p s1 ctx (reqCacheDecomp s1) ICP_QAT_FW_SLICE_DRAM_WR DC_DECOMPRESSION_REQUEST)) as Hd.
  { intros s1 HP1 E1 H5. destruct (decomp_desc p s1 ctx (reqCacheDecomp s1) ICP_QAT_FW_SLICE_DRAM_WR HP1 ltac:(done)) as (D1 & D2 & D3 & D4);
      [by rewrite E1|]. by split_and!. }
  assert (params_ok (s <| reqCacheComp := mc |>)) as HP' by (destruct HP; by constructor).
  destruct (Z.eqb_spec 1 (su_sessDirection d)), (Z.eqb_spec 0 (su_sessDirection d)); cbn [negb]; try lia.
  - exists (reqCacheComp s). eexists. split; [by destruct s|]. split; [lia|]. intros _. by apply Hd, (sh_type _ _ HH).
  - exists mc, (reqCacheDecomp s). split; [by destruct s|]. split; [done|lia].
  - exists mc. eexists. split; [reflexivity|]. split; [done|]. intros _ H5. exact (Hd _ HP' (sh_type _ _ HH) H5).
Qed.

(** The directions of a session that the device has commands for *)
Definition commands_ok (d : CpaDcSessionSetupData) : bool :=
  ((su_sessDirection d =? 1) || (su_compType d =? 3) || isGen4 svc) &&
  ((su_sessDirection d =? 0) || (su_compType d =? 3) || isGen4 svc && (su_compType d =? 4)).

Lemma headers_spec p ctx d s st s' :
  setup_ok d -> session_holds d s -> init_headers svc d s = (st, s') ->
  (su_sessDirection d <> 1 -> comp_body p s (reqCacheComp s)) ->
  (su_sessDirection d <> 0 -> su_compType d <> 5 -> decomp_body p ctx s (reqCacheDecomp s)) ->
  st = (if commands_ok d then CPA_STATUS_SUCCESS else CPA_STATUS_UNSUPPORTED) /\
  exists mc md, s' = s <| reqCacheComp := mc |> <| reqCacheDecomp := md |> /\
    (commands_ok d = true -> su_sessDirection d <> 1 -> comp_template v2p svc p s mc) /\
    (commands_ok d = true -> su_sessDirection d <> 0 -> decomp_template v2p svc p ctx s md).
Proof.
  intros HS HH Hi Hc Hd. pose proof (sk_type _ HS) as Ht. pose proof (sk_dir _ HS) as Hdir. unfold init_headers in Hi.
  rewrite compress_command, decompress_command in Hi by done. cbn [session_dir_value] in Hi. unfold commands_ok.
  rewrite <- (sh_type _ _ HH), <- (sh_huff _ _ HH) in *.
  assert (forall m, comp_body p s m -> comp_template v2p svc p s (init_header svc s (comp_command (compType s) (huffType s)) m)) as HC.
  { intros m (C1 & C2 & C3 & C4). unfold init_header. destruct (asb_flags _) as [[? ?] ?]. by constructor. }
  assert (forall s1 m, autoSelectBestHuffmanTree s1 = autoSelectBestHuffmanTree s -> decomp_body p ctx s m ->
            decomp_template v2p svc p ctx s (init_header svc s1 (decomp_command (compType s)) m)) as HD.
  { intros s1 m E (D1 & D2 & D3 & D4). unfold init_header. destruct (asb_flags _) as [[? ?] ?]. by constructor. }
  destruct (Z.eqb_spec 1 (su_sessDirection d)), (Z.eqb_spec (su_sessDirection d) 1), (Z.eqb_spec 0 (su_sessDirection d)),
    (Z.eqb_spec (su_sessDirection d) 0); try lia; cbn [negb orb andb] in *;
    destruct (isGen4 svc), (Z.eqb_spec (compType s) 3), (Z.eqb_spec (compType s) 4); try lia; cbn [orb andb negb] in *;
    change (CPA_STATUS_SUCCESS =? CPA_STATUS_SUCCESS) with true in Hi; change (CPA_STATUS_UNSUPPORTED =? CPA_STATUS_SUCCESS) with false in Hi;
    cbn [negb] in Hi; injection Hi as <- <-; (split; [done|]).
  all: first
    [ eexists _, _; split; [reflexivity|]; split; intros ? ?; [first [done | lia | by apply HC, Hc] | first [done | lia | apply HD; [done|apply Hd; lia]]]
    | eexists _, (reqCacheDecomp s); split; [reflexivity|]; split; intros ? ?; [first [done | lia | by apply HC, Hc] | first [done | lia]]
    | exists (reqCacheComp s); eexists _; split; [destruct s; reflexivity|]; split; intros ? ?; [first [done|lia] | first [done | lia | apply HD; [done|apply Hd; lia]]]
    | exists (reqCacheComp s), (reqCacheDecomp s); split; [by destruct s|]; split; intros ? ?; first [done | lia]].
Qed.

(** A session of which only the fields are set that come from the setup data *)
Record unready (d : CpaDcSessionSetupData) (s : dc_session_desc_t) : Prop := {
  ur_holds : session_holds d s;
  ur_type : requestType s = DC_REQUEST_FIRST;
  ur_consumed : cumulativeConsumedBytes s = 0;
  ur_dp : isDcDp s = false;
  ur_locks : sessionLock s = LockNone /\ updateLock s = LockNone;
  ur_regs : length (stateRegistersComp s) = 64%nat /\ length (stateRegistersDecomp s) = 128%nat;
  ur_template : inter_buff_ptr (reqCacheComp s) = 0
}.

(** The counters are reset and the templates written for a session with its locks. *)
Definition uncounted (s : dc_session_desc_t) : dc_session_desc_t :=
  s <| pendingStatelessCbCount := 0 |> <| pendingStatefulCbCount := 0 |> <| pendingDpStatelessCbCount := 0 |>.

Lemma rest_main p ctx d cb0 s0 s1 st s' :
  s1 = uncounted (s0 <| pCompressionCb := cb0 |>) -> setup_ok d -> session_holds d s0 -> inter_buff_ptr (reqCacheComp s0) = 0 -> session_fresh (uncounted s0) ->
  let s2 := init_templates v2p svc p ctx d s1 in
  init_headers svc d (if 0 =? su_sessState d then s2 <| stateRegistersComp := replicate 64 0 |> <| stateRegistersDecomp := replicate 128 0 |>
                      else s2) = (st, s') ->
  st = (if commands_ok d then CPA_STATUS_SUCCESS else CPA_STATUS_UNSUPPORTED) /\
  session_holds d s' /\ session_fresh s' /\ pCompressionCb s' = cb0 /\
  (commands_ok d = true -> su_sessDirection d <> 1 -> comp_template v2p svc p s' (reqCacheComp s')) /\
  (commands_ok d = true -> su_sessDirection d <> 0 -> decomp_template v2p svc p ctx s' (reqCacheDecomp s')).
Proof.
  intros E1 HS HH0 H0 HF s2 Hi.
  destruct (templates_spec p ctx d s1) as (mc & md & E & Hc & Hd);
    [done|subst s1; by destruct HH0|by subst s1|]. subst s2. rewrite E in Hi. clear E. subst s1.
  match type of Hi with init_headers _ _ ?a = _ => set (s3 := a) in Hi end.
  assert (session_holds d s3) as HH3 by (subst s3; destruct HH0; case_if; by constructor).
  destruct (headers_spec p ctx d s3 st s' HS HH3 Hi) as (-> & mc' & md' & -> & Hc' & Hd').
  { intros Hn. specialize (Hc Hn). subst s3. case_if; exact Hc. }
  { intros Hn H5. specialize (Hd Hn H5). subst s3. case_if; exact Hd. }
  split; [done|]. split; [by destruct HH3|]. split; [|split; [by subst s3; case_if|]].
  - subst s3. destruct HF. case_if; by constructor.
  - split; intros Hk Hn; [specialize (Hc' Hk Hn); by destruct Hc'|specialize (Hd' Hk Hn); by destruct Hd'].
Qed.

Lemma rest_spec p ctx d cb lock_ok s st s' :
  setup_ok d -> unready d s -> init_rest v2p svc p ctx d cb lock_ok s = (st, s') ->
  (st = CPA_STATUS_SUCCESS <-> lock_ok = true /\ commands_ok d = true) /\
  (st = CPA_STATUS_SUCCESS ->
   session_holds d s' /\ session_fresh s' /\ pCompressionCb s' = (if cb == CbNull then CbSync else cb) /\
   (su_sessDirection d <> 1 -> comp_template v2p svc p s' (reqCacheComp s')) /\
   (su_sessDirection d <> 0 -> decomp_template v2p svc p ctx s' (reqCacheDecomp s'))).
Proof.
  intros HS [HH U1 U2 U3 [U4 U5] [U6 U7] U8] Hr. pose proof (sk_state _ HS) as Hst. unfold init_rest, CPA_DC_STATEFUL, CPA_DC_STATELESS in Hr.
  pose proof (sh_state _ _ HH) as Es.
  assert (forall s1, s1 = (if 0 =? su_sessState d then s <| sessionLock := LockFree |> else s) ->
    sessState s1 = su_sessState d) as Es1 by (intros s1 ->; by destruct (0 =? su_sessState d)).
  rewrite (Es1 _ eq_refl) in Hr. clear Es1.
  destruct lock_ok; cbn [negb] in Hr; rewrite ?andb_true_r, ?andb_false_r in Hr; cbv iota in Hr.
  2: { destruct (Z.eqb_spec 0 (su_sessState d)), (Z.eqb_spec 1 (su_sessState d)); try lia; injection Hr as <- <-; (split; [split; [done|by intros [? _]]|done]). }
  assert (forall s0,
    s0 = (if 1 =? su_sessState d then (if 0 =? su_sessState d then s <| sessionLock := LockFree |> else s) <| updateLock := LockFree |>
          else (if 0 =? su_sessState d then s <| sessionLock := LockFree |> else s)) ->
    session_holds d s0 /\ inter_buff_ptr (reqCacheComp s0) = 0 /\ session_fresh (uncounted s0)) as A.
  { intros s0 ->. rewrite <- Es in *.
    destruct (Z.eqb_spec 0 (sessState s)) as [E|E], (Z.eqb_spec 1 (sessState s)) as [E'|E']; try lia;
      (split; [by destruct HH|split; [done|]]); constructor; try done; cbn; unfold CPA_DC_STATEFUL, CPA_DC_STATELESS;
      rewrite <- ?E, <- ?E'; done. }
  destruct (A _ eq_refl) as (A1 & A2 & A3). clear A.
  destruct (rest_main p ctx d _ _ _ st s' eq_refl HS A1 A2 A3 Hr) as (-> & B1 & B2 & B3 & B4 & B5).
  destruct (commands_ok d); [|split; [split; [done|by intros [_ ?]]|done]].
  split; [done|]. intros _. by split_and!; auto.
Qed.

(** The setup data that is used: static trees when there are no buffers for dynamic ones *)
Definition used_setup (d : CpaDcSessionSetupData) : CpaDcSessionSetupData :=
  if no_inter svc (su_huffType d) then d <| su_huffType := 0 |> else d.
Definition init_ctx (minContextSize' : Z) (ctx : option CpaBufferList) : Z :=
  match ctx with
  | Some bl => if negb (minContextSize' =? 0) then default 0 (LacBuffDesc_BufferListDescWrite v2p bl false).1.1.2 else 0
  | None => 0
  end.
Definition session_addr (h : Z) : Z :=
  h + sizeof_pointer + (LAC_ALIGN_POW2_ROUNDUP (v2p (h + sizeof_pointer)) LAC_64BYTE_ALIGNMENT - v2p (h + sizeof_pointer)).

Lemma used_setup_ok d : setup_ok d -> setup_ok (used_setup d).
Proof. intros []. unfold used_setup. destruct (no_inter _ _); by constructor; auto. Qed.

Lemma session_of_unready d c s :
  s = zero_session \/ (exists bl, s = zero_session <| pContextBuffer := bl |>) -> unready d (session_of svc d c s).
Proof. intros [->|[bl ->]]; (constructor; [constructor|..]; done). Qed.

Lemma xxhash_unready d s : unready d s -> unready d (dcXxhash32SetState s 0).
Proof.
  intros [[] ? ? ? ? [E1 E2] ?]. constructor; try done.
  split; [|done]. unfold dcXxhash32SetState. change (length (concat (map le32 (map u32
    [0; 0; 0 + XXHASH_PRIME32_A + XXHASH_PRIME32_B; 0 + XXHASH_PRIME32_B; 0 + 0; 0 - XXHASH_PRIME32_A; 0; 0; 0; 0])) ++
    drop 40 (stateRegistersComp s)) = 64%nat). rewrite length_app, length_drop, E1. done.
Qed.

(** A session with a running xxHash can only compress, with the best encoding not selected. *)
Definition xxhash_ok (d : CpaDcSessionSetupData) : bool :=
  negb ((su_compType d =? 4) && (su_accumulateXXHash d =? 1)) ||
  negb (isGen4 svc && negb (su_autoSelectBestHuffmanTree d =? 0)) && (negb (su_sessState d =? 1) || (su_sessDirection d =? 0)).

Lemma session_of_asb d c s : setup_ok d ->
  (CPA_DC_ASB_ENABLED =? autoSelectBestHuffmanTree (session_of svc d c s)) = isGen4 svc && negb (su_autoSelectBestHuffmanTree d =? 0).
Proof.
  intros HS. pose proof (sk_asb _ HS) as Hx. cbn [session_of autoSelectBestHuffmanTree upd]. clear HS.
  generalize dependent (su_autoSelectBestHuffmanTree d). intros x Hx.
  assert (x = 0 \/ x = 1 \/ x = 2 \/ x = 3 \/ x = 4) as Hx' by lia. destruct Hx' as [->|[->|[->|[->| ->]]]]; by destruct (isGen4 svc).
Qed.

(** The part of [init_desc] after the fields are set *)
Lemma desc_tail p d ctx c cb lock_ok st s s0 :
  setup_ok d -> unready d s0 -> (CPA_DC_ASB_ENABLED =? autoSelectBestHuffmanTree s0) = isGen4 svc && negb (su_autoSelectBestHuffmanTree d =? 0) ->
  (if (CPA_DC_LZ4 =? compType s0) && (CPA_TRUE =? accumulateXXHash s0) && (CPA_DC_ASB_ENABLED =? autoSelectBestHuffmanTree s0)
   then (CPA_STATUS_UNSUPPORTED, s0)
   else
     let acc := (CPA_DC_STATELESS =? sessState s0) && (CPA_DC_LZ4 =? compType s0) && (CPA_TRUE =? accumulateXXHash s0) in
     if acc && ((CPA_DC_DIR_DECOMPRESS =? sessDirection s0) || (CPA_DC_DIR_COMBINED =? sessDirection s0))
     then (CPA_STATUS_UNSUPPORTED, s0)
     else init_rest v2p svc p (init_ctx c ctx) d cb lock_ok (if acc then dcXxhash32SetState s0 0 else s0)) = (st, s) ->
  (st = CPA_STATUS_SUCCESS <-> xxhash_ok d = true /\ lock_ok = true /\ commands_ok d = true) /\
  (st = CPA_STATUS_SUCCESS ->
   session_holds d s /\ session_fresh s /\ pCompressionCb s = (if cb == CbNull then CbSync else cb) /\
   (su_sessDirection d <> 1 -> comp_template v2p svc p s (reqCacheComp s)) /\
   (su_sessDirection d <> 0 -> decomp_template v2p svc p (init_ctx c ctx) s (reqCacheDecomp s))).
Proof.
  intros HS Hu Ea Hi. pose proof (sk_dir _ HS) as Hdir. rewrite Ea in Hi. clear Ea.
  destruct (ur_holds _ _ Hu) as [_ Et _ Ed Es _ (_ & _ & _ & Eh) _]. rewrite Et, Ed, Es, Eh in Hi. clear Et Ed Es Eh.
  assert ((CPA_DC_DIR_DECOMPRESS =? su_sessDirection d) || (CPA_DC_DIR_COMBINED =? su_sessDirection d) = negb (su_sessDirection d =? 0)) as Edir
    by (cbn [session_dir_value]; clear -Hdir; generalize dependent (su_sessDirection d); intros; zcases).
  rewrite Edir in Hi. clear Edir.
  change (CPA_DC_LZ4 =? su_compType d) with (4 =? su_compType d) in Hi. change (CPA_TRUE =? su_accumulateXXHash d) with (1 =? su_accumulateXXHash d) in Hi.
  change (CPA_DC_STATELESS =? su_sessState d) with (1 =? su_sessState d) in Hi.
  rewrite (Z.eqb_sym 4), (Z.eqb_sym 1), (Z.eqb_sym 1 (su_sessState d)) in Hi. cbv zeta in Hi. unfold xxhash_ok.
  generalize dependent (isGen4 svc && negb (su_autoSelectBestHuffmanTree d =? 0)). intros g Hi.
  assert (forall b : bool, unready d (if b then dcXxhash32SetState s0 0 else s0)) as Hu' by (intros []; [by apply xxhash_unready|done]).
  pose proof (fun b => rest_spec p (init_ctx c ctx) d cb lock_ok _ st s HS (Hu' b)) as HR. clear Hu'.
  destruct (su_compType d =? 4), (su_accumulateXXHash d =? 1), g, (su_sessState d =? 1), (su_sessDirection d =? 0); cbn [negb andb orb] in *.
  all: try (injection Hi as <- <-; split; [split; [done|by intros (? & _)]|done]).
  all: first [specialize (HR true Hi)|specialize (HR false Hi)]; destruct HR as [Hi1 Hi2].
  all: split; [rewrite Hi1; split; [by intros [? ?]|by intros (_ & ? & ?)]|exact Hi2].
Qed.

Lemma desc_spec p d ctx c cb lock_ok st s :
  setup_ok d -> init_desc v2p svc p d ctx c cb lock_ok = (st, s) ->
  (st = CPA_STATUS_SUCCESS <->
   (forall bl, ctx = Some bl -> c <> 0 -> (LacBuffDesc_BufferListDescWrite v2p bl false).1.1.1 = CPA_STATUS_SUCCESS) /\
   xxhash_ok d = true /\ lock_ok = true /\ commands_ok d = true) /\
  (st = CPA_STATUS_SUCCESS ->
   session_holds d s /\ session_fresh s /\ pCompressionCb s = (if cb == CbNull then CbSync else cb) /\
   (su_sessDirection d <> 1 -> comp_template v2p svc p s (reqCacheComp s)) /\
   (su_sessDirection d <> 0 -> decomp_template v2p svc p (init_ctx c ctx) s (reqCacheDecomp s))).
Proof.
  intros HS Hi. unfold init_desc in Hi.
  match type of Hi with (let '(_, _) := ?x in _) = _ => destruct x as [status ca] eqn:Ec end.
  assert ((status = CPA_STATUS_SUCCESS <-> forall bl, ctx = Some bl -> c <> 0 ->
    (LacBuffDesc_BufferListDescWrite v2p bl false).1.1.1 = CPA_STATUS_SUCCESS) /\ ca = init_ctx c ctx) as [Hs ->].
  { unfold init_ctx. destruct ctx as [bl|]; [|by simplify_eq].
    destruct (Z.eqb_spec c 0); cbn [negb] in *; [by simplify_eq|].
    destruct (LacBuffDesc_BufferListDescWrite v2p bl false) as [[[w a] t] lg] eqn:Ew. injection Ec as <- <-. split; [|done].
    split; [intros -> bl' [= <-] _; by rewrite Ew|intros H; specialize (H bl eq_refl ltac:(done)); by rewrite Ew in H]. }
  destruct (Z.eqb_spec status CPA_STATUS_SUCCESS) as [E|E]; cbn [negb] in Hi.
  2: { injection Hi as <- <-. split; [|done]. rewrite <- Hs. split; [done|by intros [? _]]. }
  rewrite <- Hs. clear Hs Ec. subst status.
  revert Hi. match goal with |- context [session_of svc d c ?x] => pose proof (session_of_unready d c x) as Hu; pose proof (session_of_asb d c x HS) as Ha;
    generalize dependent (session_of svc d c x) end.
  intros s0 Hu Ha Hi. destruct (desc_tail p d ctx c cb lock_ok st s s0 HS) as [T1 T2]; [|exact Ha|exact Hi|].
  - apply Hu. destruct (negb (c =? 0)); [right; by eexists|by left].
  - split; [rewrite T1; split; [by intros (? & ? & ?)|by intros (_ & ?)]|exact T2].
Qed.
(** The rest of [dcInitSession] once the setup data is the one that is used *)
Definition init_tail (h : Z) (d : CpaDcSessionSetupData) (ctx : option CpaBufferList) (cb : CpaDcCallbackFn) (lock_ok : bool)
    : Z * CpaDcSessionSetupData * option dc_session_desc_t :=
  let '(status, c) :=
    if (CPA_DC_STATEFUL =? su_sessState d) && ((CPA_DC_DEFLATE =? su_compType d) || (CPA_DC_LZ4 =? su_compType d))
    then dcGetContextSize svc d else (CPA_STATUS_SUCCESS, 0) in
  let '(ctx_status, size) :=
    match ctx with
    | Some bl => LacBuffDesc_BufferListVerify false bl 0 LAC_NO_ALIGNMENT_SHIFT
    | None => (CPA_STATUS_INVALID_PARAM, 0)
    end in
  if negb (status =? CPA_STATUS_SUCCESS) then (CPA_STATUS_FAIL, d, None)
  else if negb (c =? 0) && (negb (ctx_status =? CPA_STATUS_SUCCESS) || (size <? c)) then (CPA_STATUS_INVALID_PARAM, d, None)
  else if v2p (h + sizeof_pointer) =? 0 then (CPA_STATUS_FAIL, d, None)
  else let '(status, s) := init_desc v2p svc (session_addr h) d ctx c cb lock_ok in (status, d, Some s).

(** The size of the context that is asked for *)
Definition context_size (d : CpaDcSessionSetupData) : Z :=
  if 1 =? su_sessState d then 0 else if su_compType d =? 3 then inflateContextSize (comp_device_data svc)
  else if su_compType d =? 4 then lz4DecompContextSize (comp_device_data svc) else 0.

Definition context_for (c : Z) (ctx : option CpaBufferList) : Prop :=
  c <> 0 -> exists bl size, ctx = Some bl /\ LacBuffDesc_BufferListVerify false bl 0 LAC_NO_ALIGNMENT_SHIFT = (CPA_STATUS_SUCCESS, size) /\
    c <= size /\ (LacBuffDesc_BufferListDescWrite v2p bl false).1.1.1 = CPA_STATUS_SUCCESS.

Lemma tail_spec h d ctx cb lock_ok st d' os :
  setup_ok d -> (su_sessState d = 0 -> su_sessDirection d = 1) -> init_tail h d ctx cb lock_ok = (st, d', os) ->
  (st = CPA_STATUS_SUCCESS <-> context_for (context_size d) ctx /\ v2p (h + sizeof_pointer) <> 0 /\
     xxhash_ok d = true /\ lock_ok = true /\ commands_ok d = true) /\ d' = d /\
  (st = CPA_STATUS_SUCCESS -> exists s, os = Some s /\
   session_holds d s /\ session_fresh s /\ pCompressionCb s = (if cb == CbNull then CbSync else cb) /\
   (su_sessDirection d <> 1 -> comp_template v2p svc (session_addr h) s (reqCacheComp s)) /\
   (su_sessDirection d <> 0 -> decomp_template v2p svc (session_addr h) (init_ctx (context_size d) ctx) s (reqCacheDecomp s))).
Proof.
  intros HS Hdir Hi. unfold init_tail in Hi.
  assert ((if (CPA_DC_STATEFUL =? su_sessState d) && ((CPA_DC_DEFLATE =? su_compType d) || (CPA_DC_LZ4 =? su_compType d))
    then dcGetContextSize svc d else (CPA_STATUS_SUCCESS, 0)) = (CPA_STATUS_SUCCESS, context_size d)) as Ec.
  { unfold dcGetContextSize, context_size. cbn [comp_type_value session_dir_value]. pose proof (sk_state _ HS). pose proof (sk_type _ HS).
    destruct (Z.eqb_spec CPA_DC_STATEFUL (su_sessState d)) as [E|E]; unfold CPA_DC_STATEFUL in E; cbn [andb].
    - rewrite Hdir, <- E by done. change (negb (0 =? 1)) with true. change (1 =? 0) with false. cbn [andb].
      destruct (Z.eqb_spec 3 (su_compType d)), (Z.eqb_spec (su_compType d) 3), (Z.eqb_spec 4 (su_compType d)), (Z.eqb_spec (su_compType d) 4);
        done || lia.
    - by destruct (Z.eqb_spec 1 (su_sessState d)); [|lia]. }
  rewrite Ec in Hi. clear Ec. generalize dependent (context_size d). intros c Hi. change (CPA_STATUS_SUCCESS =? CPA_STATUS_SUCCESS) with true in Hi.
  cbn [negb] in Hi.
  destruct (match ctx with Some bl => _ | None => _ end) as [vs size] eqn:Ev.
  destruct (negb (c =? 0) && (negb (vs =? CPA_STATUS_SUCCESS) || (size <? c))) eqn:Eb.
  { injection Hi as <- <- <-. split; [|done]. split; [done|]. intros [Hc _]. exfalso.
    destruct (Z.eqb_spec c 0); [done|]. destruct (Hc ltac:(done)) as (bl & z & -> & E2 & ? & _).
    rewrite Ev in E2. injection E2 as -> ->. revert Eb. cbn [negb andb]. change (CPA_STATUS_SUCCESS =? CPA_STATUS_SUCCESS) with true.
    cbn [negb orb]. intros; lia. }
  destruct (Z.eqb_spec (v2p (h + sizeof_pointer)) 0) as [Ep|Ep].
  { injection Hi as <- <- <-. split; [|done]. split; [done|]. by intros (_ & ? & _). }
  destruct (init_desc v2p svc _ d ctx c cb lock_ok) as [st1 s1] eqn:Ed. injection Hi as <- <- <-.
  destruct (desc_spec _ _ _ _ _ _ _ _ HS Ed) as [D1 D2]. split; [|split; [done|intros E; exists s1; split; [done|exact (D2 E)]]].
  rewrite D1. split; intros (Hc & ?).
  - split_and!; try tauto. intros Hn. destruct (Z.eqb_spec c 0) as [|_]; [done|]. cbn [negb andb] in Eb. apply orb_false_iff in Eb as [Eb1 Eb2].
    apply negb_false_iff, Z.eqb_eq in Eb1. apply Z.ltb_ge in Eb2. destruct ctx as [bl|]; [|by simplify_eq]. exists bl, size. rewrite Ev, Eb1. eauto.
  - split; [|tauto]. intros bl -> Hn. destruct (Hc Hn) as (? & ? & [= <-] & ? & ? & ?). done.
Qed.
Definition stateless_ok (d : CpaDcSessionSetupData) : Prop :=
  su_compType d = CPA_DC_DEFLATE \/
  isGen4 svc = true /\ su_compType d = CPA_DC_LZ4 /\
    (su_accumulateXXHash d = CPA_TRUE ->
     su_autoSelectBestHuffmanTree d = CPA_DC_ASB_DISABLED /\ su_sessDirection d = CPA_DC_DIR_COMPRESS) \/
  isGen4 svc = true /\ su_compType d = CPA_DC_LZ4S /\ su_sessDirection d = CPA_DC_DIR_COMPRESS.

Lemma stateless_commands d : setup_ok d -> su_sessState d = 1 -> (xxhash_ok d = true /\ commands_ok d = true <-> stateless_ok d).
Proof.
  intros HS E. pose proof (sk_type _ HS). unfold xxhash_ok, commands_ok, stateless_ok. rewrite E. clear E HS.
  cbn [comp_type_value session_dir_value]. unfold CPA_TRUE, CPA_DC_ASB_DISABLED. change (1 =? 1) with true.
  destruct (isGen4 svc); cbn [andb orb negb]; rewrite ?andb_false_r, ?andb_true_r, ?orb_false_r, ?orb_true_r; cbn [andb orb negb];
    breflect; lia.
Qed.

Lemma stateful_commands d ctx :
  setup_ok d -> su_sessState d = 0 -> su_sessDirection d = 1 -> isGen4 svc = false ->
  (context_for (context_size d) ctx /\ xxhash_ok d = true /\ commands_ok d = true <->
   su_compType d = CPA_DC_DEFLATE /\ context_ok v2p svc ctx).
Proof.
  intros HS E Ed Eg. pose proof (sk_type _ HS). unfold xxhash_ok, commands_ok, context_size, context_ok, context_for. rewrite E, Ed, Eg.
  clear HS E Ed Eg. change (1 =? 0) with false. change (1 =? 1) with true. cbn [andb orb negb comp_type_value].
  destruct (Z.eqb_spec (su_compType d) 3) as [->|]; cbn [andb orb negb]; [|split; [by intros (_ & _ & ?)|by intros [? _]]].
  change (3 =? 4) with false. cbn [andb orb negb]. tauto.
Qed.

(** The checks before the context buffer is looked at *)
Definition first_checks (h : Z) (null : bool) (d : CpaDcSessionSetupData) : Prop :=
  (h <> 0 /\ null = false) /\ setup_ok d /\ (su_sessState d = 0 -> isGen4 svc = false /\ su_sessDirection d = 1) /\
  (no_inter svc (su_huffType d) = true -> su_autoSelectBestHuffmanTree d = CPA_DC_ASB_STATIC_DYNAMIC).

Lemma init_cases h null d ctx cb lock_ok st d' os :
  dcInitSession v2p svc h null d ctx cb lock_ok = (st, d', os) ->
  st <> CPA_STATUS_SUCCESS /\ ~ first_checks h null d \/
  first_checks h null d /\ init_tail h (used_setup d) ctx cb lock_ok = (st, d', os).
Proof.
  unfold dcInitSession, first_checks. intros Hi.
  assert (forall (P : Prop) st1, (st1, d, None) = (st, d', os) -> st1 <> CPA_STATUS_SUCCESS -> ~ P -> st <> CPA_STATUS_SUCCESS /\ ~ P) as rejected
    by (intros P st1 [= -> _ _]; done).
  destruct (Z.eqb_spec h 0) as [|Hh]; [left; apply (rejected _ _ Hi); [done|by intros [[? _] _]]|].
  destruct null; [left; apply (rejected _ _ Hi); [done|by intros [[_ ?] _]]|]. cbn [orb] in Hi.
  destruct (Z.eqb_spec (dcCheckSessionData d) CPA_STATUS_SUCCESS) as [HS|HS]; cbn [negb] in Hi;
    [|left; apply (rejected _ _ Hi); [done|intros (_ & ? & _); by destruct HS; apply check_session_data]].
  apply check_session_data in HS. pose proof (sk_state _ HS) as Hstate. unfold CPA_DC_STATEFUL in Hi. cbn [session_dir_value] in Hi.
  destruct ((0 =? su_sessState d) && _) eqn:E1; [left; apply (rejected _ _ Hi); [done|]; intros (_ & _ & Hs & _); breflect; lia|].
  destruct (isGen4 svc && _) eqn:E2; [left; apply (rejected _ _ Hi); [done|]; intros (_ & _ & Hs & _); apply andb_true_iff in E2 as [E2 E3%Z.eqb_eq]; destruct (Hs ltac:(lia)); congruence|].
  change (negb (isGen4 svc) && is_dynamic (su_huffType d) && (pInterBuffPtrsArray svc =? 0) && (pInterBuffPtrsArrayPhyAddr svc =? 0))
    with (no_inter svc (su_huffType d)) in Hi.
  destruct (no_inter svc (su_huffType d) && _) eqn:E3;
    [left; apply (rejected _ _ Hi); [done|]; intros (_ & _ & _ & Hs); apply andb_true_iff in E3 as [E3 E4];
     by rewrite (Hs E3) in E4|].
  right. split; [|exact Hi]. split_and!; [done..| |].
  - intros E. rewrite E in E1, E2. destruct (isGen4 svc); [done|]. split; [done|]. breflect; lia.
  - intros E. rewrite E in E3. unfold CPA_DC_ASB_STATIC_DYNAMIC in *. breflect; lia.
Qed.

(** C11.  [dcInitSession] returns success exactly for the pointers, setup data, device and context buffer that
    [setup_accepted] describes.  The session then holds the setup data (static trees in place of dynamic ones where
    the device has no buffers for them and the client lets the device choose), nothing is pending, the lock of
    its kind is free, and the request template of each direction of the session has the command for the
    algorithm, the configuration word or words from which the device reads the depth of the level and the
    format, the physical address of the state registers, and the slices in order. *)
Theorem init_session h null d ctx cb lock_ok st d' os :
  dcInitSession v2p svc h null d ctx cb lock_ok = (st, d', os) ->
  (st = CPA_STATUS_SUCCESS <-> setup_accepted v2p svc h null d ctx lock_ok) /\
  (st = CPA_STATUS_SUCCESS ->
   d' = used_setup d /\ exists s, os = Some s /\ session_holds d' s /\ session_fresh s /\
     pCompressionCb s = (if cb == CbNull then CbSync else cb) /\
     (sessDirection s <> CPA_DC_DIR_DECOMPRESS -> comp_template v2p svc (session_addr h) s (reqCacheComp s)) /\
     (sessDirection s <> CPA_DC_DIR_COMPRESS ->
      decomp_template v2p svc (session_addr h) (init_ctx (context_size d) ctx) s (reqCacheDecomp s))).
Proof.
  intros Hi. apply init_cases in Hi as [[Hst Hn]|[(Hp & HS & Hst & Hinter) HT]].
  { split; [split; [done|]|done]. intros []. destruct Hn. split; [done|]. split; [done|]. split; [|done]. intros E. by destruct (ac_stateful0 E) as (? & ? & _). }
  assert (su_sessState (used_setup d) = su_sessState d /\ su_sessDirection (used_setup d) = su_sessDirection d /\
    context_size (used_setup d) = context_size d /\ xxhash_ok (used_setup d) = xxhash_ok d /\ commands_ok (used_setup d) = commands_ok d)
    as (U1 & U2 & U3 & U4 & U5) by (unfold used_setup; by destruct (no_inter _ _)).
  apply tail_spec in HT as (T1 & -> & T2); [|by apply used_setup_ok|rewrite U1, U2; tauto]. rewrite U3, U4, U5 in *. split.
  - rewrite T1. pose proof (sk_state _ HS) as Hs. clear T1 T2 U1 U2 U3 U4 U5.
    assert (su_sessState d = 1 \/ su_sessState d = 0) as [E|E] by lia.
    + pose proof (stateless_commands d HS E) as HC. unfold stateless_ok in HC. split.
      * intros (_ & ? & ? & -> & ?). constructor; try done; [tauto|by rewrite E].
      * intros []. assert (xxhash_ok d = true /\ commands_ok d = true) as [? ?] by tauto. split_and!; try done.
        intros Hc. unfold context_size in Hc. by rewrite E in Hc.
    + destruct (Hst E) as [Eg Ed]. pose proof (stateful_commands d ctx HS E Ed Eg) as HC. split.
      * intros (? & ? & ? & -> & ?). constructor; try done; [by rewrite E|]. intros _. destruct HC as [[? ?] _]; done.
      * intros []. destruct (ac_stateful0 E) as (_ & _ & ? & ?). destruct HC as [_ (? & ? & ?)]; [done|]. by split_and!.
  - intros E. split; [done|]. destruct (T2 E) as (s & -> & HH & HF & Hcb & Hc & Hd). exists s. rewrite <- (sh_dir _ _ HH) in *. by split_and!.
Qed.
End init_spec.

(** The data that every device is set up with has a search depth that fits. *)
Lemma comp_data_depth t sku mask svc svc' :
  SalCtrl_CompressionInit_CompData t sku mask svc = (CPA_STATUS_SUCCESS, svc') -> depth_ok svc'.
Proof.
  unfold SalCtrl_CompressionInit_CompData, depth_ok, gen2_device.
  intros H. destruct t; cbv beta iota zeta in H; repeat case_match; try done; injection H as <-; done.
Qed.

(** Services and sessions for examples *)
Definition ex_service (t : dev_type) (gen4 : bool) (inter : Z) : sal_compression_service :=
  (SalCtrl_CompressionInit_CompData t DEV_SKU_OTHER 0
     (mk_service ServiceRunning true true gen4 0 false 0 (mk_device 0 0 0 false false false false 0 0 0 (replicate 13 false) 0 0)
        0 0 inter inter)).2.
Definition ex_lz4 : CpaDcSessionSetupData := mk_setup 9 4 0 0 0 1 0 0 2 1 1 4 0.
Definition ex_deflate : CpaDcSessionSetupData := mk_setup 3 3 2 0 2 1 7 0 0 0 0 1 0.
Definition ex_session (svc : sal_compression_service) (d : CpaDcSessionSetupData) : dc_session_desc_t :=
  default zero_session (dcInitSession (fun x => x) svc 4096 false d None CbClient true).2.

(** An LZ4 session for level 9 on a 4xxx device: the device reads depth 4 and format 2. *)
Lemma init_session_witness :
  setup_accepted (fun x => x) (ex_service DEVICE_4XXX true 0) 4096 false ex_lz4 None true /\
  comp_template (fun x => x) (ex_service DEVICE_4XXX true 0) 4160 (ex_session (ex_service DEVICE_4XXX true 0) ex_lz4)
    (reqCacheComp (ex_session (ex_service DEVICE_4XXX true 0) ex_lz4)) /\
  (lo_sd (read_lower (cfg_lower (reqCacheComp (ex_session (ex_service DEVICE_4XXX true 0) ex_lz4)))),
   lo_algo (read_lower (cfg_lower (reqCacheComp (ex_session (ex_service DEVICE_4XXX true 0) ex_lz4))))) = (4, 2).
Proof.
  destruct (dcInitSession (fun x => x) (ex_service DEVICE_4XXX true 0) 4096 false ex_lz4 None CbClient true) as [[st d'] os] eqn:E.
  destruct (init_session (fun x => x) (ex_service DEVICE_4XXX true 0) ltac:(by split) _ _ _ _ _ _ _ _ _ E) as [[H1 _] H2].
  assert (st = CPA_STATUS_SUCCESS) as Hs by (vm_compute in E; by injection E as <- <- <-).
  destruct (H2 Hs) as (_ & s & Eo & _ & _ & _ & Hc & _). split; [exact (H1 Hs)|]. split; [|by vm_compute].
  assert (ex_session (ex_service DEVICE_4XXX true 0) ex_lz4 = s) as -> by (unfold ex_session; by rewrite E, Eo).
  apply Hc. vm_compute in E. injection E as _ _ Es. rewrite Eo in Es. by injection Es as <-.
Defined.

(** * Update *)

(** The session after an update with [u], with [m] as its template *)
Definition updated (s : dc_session_desc_t) (u : CpaDcSessionUpdateData) (m : comp_req) : dc_session_desc_t :=
  s <| compLevel := up_compLevel u |> <| huffType := up_huffType u |> <| reqCacheComp := m |>.
Definition updated_service (svc : sal_compression_service) (u : CpaDcSessionUpdateData) : sal_compression_service :=
  svc <| comp_device_data := (comp_device_data svc) <| enableDmm := negb (up_enableDmm u =? 0) |> |>.

(** The template after an update *)
Record update_written (svc : sal_compression_service) (s : dc_session_desc_t) (u : CpaDcSessionUpdateData) (m : comp_req) : Prop := {
  uw_state : comp_state_addr m = comp_state_addr (reqCacheComp s);
  uw_command : service_cmd_id m = deflate_command (up_huffType u);
  uw_slices : next_curr_id m =
    slice_ids (if is_dynamic (up_huffType u) then ICP_QAT_FW_SLICE_XLAT else ICP_QAT_FW_SLICE_DRAM_WR) ICP_QAT_FW_SLICE_COMP;
  uw_translator : is_dynamic (up_huffType u) = true ->
    xlt_next_curr_id m = slice_ids ICP_QAT_FW_SLICE_DRAM_WR ICP_QAT_FW_SLICE_XLAT /\ inter_buff_ptr m = pInterBuffPtrsArrayPhyAddr svc;
  uw_config : (cfg_lower m, cfg_upper m) =
    if isGen4 svc then dcCompHwBlockPopulateGen4 (updated_service svc u) (updated s u m) DC_COMPRESSION_REQUEST
    else dcCompHwBlockPopulate (updated_service svc u) (updated s u m) DC_COMPRESSION_REQUEST
}.

(** The configuration words of the template *)
Definition update_words (svc : sal_compression_service) (s : dc_session_desc_t) : Z * Z :=
  if isGen4 svc then dcCompHwBlockPopulateGen4 svc s DC_COMPRESSION_REQUEST else dcCompHwBlockPopulate svc s DC_COMPRESSION_REQUEST.

Lemma update_words_ext svc s u m l : update_words svc (updated (s <| updateLock := l |>) u m) = update_words svc (updated s u zero_req).
Proof. reflexivity. Qed.
Lemma update_words_template svc s u m : update_words svc (updated s u m) = update_words svc (updated s u zero_req).
Proof. reflexivity. Qed.
Lemma relock s u m : updateLock s = LockFree -> (updated (s <| updateLock := LockHeld |>) u m) <| updateLock := LockFree |> = updated s u m.
Proof. destruct s. cbn. by intros ->. Qed.

Lemma update_runs svc s u :
  updateLock s = LockFree ->
  exists m, dcUpdateSession svc s u = Some (CPA_STATUS_SUCCESS, updated_service svc u, updated s u m) /\ update_written svc s u m.
Proof.
  intros Hl. destruct (update_words (updated_service svc u) (updated s u zero_req)) as [lower upper] eqn:Ec.
  exists ((update_slices svc u (reqCacheComp s)) <| cfg_lower := lower |> <| cfg_upper := upper |>). split.
  - unfold dcUpdateSession. destruct (isDcDp s) eqn:Ed; [|rewrite Hl]; cbn [mbind option_bind LAC_SPINLOCK];
      match goal with |- (let '(_, _) := ?x in _) = _ =>
        change x with (update_words (updated_service svc u) (updated s u zero_req)) end; rewrite Ec.
    + change (isDcDp (_ <| reqCacheComp := _ |>)) with (isDcDp s). rewrite Ed. reflexivity.
    + change (isDcDp (_ <| reqCacheComp := _ |>)) with (isDcDp s). rewrite Ed. cbn [mbind option_bind].
      rewrite <- (relock s u _ Hl). reflexivity.
  - unfold update_slices. destruct (is_dynamic (up_huffType u)) eqn:Eh; constructor.
    all: try done.
    all: rewrite ?Eh; try done.
    all: try (apply slice_ids_set; done).
    all: try (intros; split; [apply xlt_ids_set|done]).
    all: unfold deflate_command; by rewrite Eh.
Qed.

(** The calls that [cpaDcUpdateSession] lets through *)
Definition update_ok (null : bool) (svc : sal_compression_service) (s : dc_session_desc_t) (u : CpaDcSessionUpdateData) : Prop :=
  null = false /\ SAL_CHECK_INSTANCE_TYPE svc = CPA_STATUS_SUCCESS /\ SAL_RUNNING_CHECK svc = CPA_STATUS_SUCCESS /\
  no_inter svc (up_huffType u) = false /\ sessState s <> CPA_DC_STATEFUL /\ sessDirection s <> CPA_DC_DIR_DECOMPRESS.

Lemma checks_success l : checks l = CPA_STATUS_SUCCESS <-> Forall (fun x => x = CPA_STATUS_SUCCESS) l.
Proof.
  induction l as [|x l IH]; cbn [checks]; [done|]. rewrite Forall_cons.
  destruct (Z.eqb_spec x CPA_STATUS_SUCCESS); cbn [negb]; [rewrite IH|]; tauto.
Qed.

Lemma update_checks null svc s u :
  checks [LAC_CHECK_NULL_PARAM null; SAL_CHECK_INSTANCE_TYPE svc; SAL_RUNNING_CHECK svc; dcCheckUpdateSession svc s u] =
    CPA_STATUS_SUCCESS <-> update_ok null svc s u.
Proof.
  rewrite checks_success, !Forall_cons, Forall_nil. unfold update_ok.
  assert (LAC_CHECK_NULL_PARAM null = CPA_STATUS_SUCCESS <-> null = false) as -> by by destruct null.
  assert (dcCheckUpdateSession svc s u = CPA_STATUS_SUCCESS <->
    no_inter svc (up_huffType u) = false /\ sessState s <> CPA_DC_STATEFUL /\ sessDirection s <> CPA_DC_DIR_DECOMPRESS) as ->; [|tauto].
  unfold dcCheckUpdateSession.
  change (negb (isGen4 svc) && is_dynamic (up_huffType u) && (pInterBuffPtrsArray svc =? 0) && (pInterBuffPtrsArrayPhyAddr svc =? 0))
    with (no_inter svc (up_huffType u)).
  destruct (no_inter _ _), (Z.eqb_spec CPA_DC_STATEFUL (sessState s)), (Z.eqb_spec CPA_DC_DIR_DECOMPRESS (sessDirection s));
    (split; [intros ?; first [done | split_and!; congruence]|intros (? & ? & ?); first [done | congruence]]).
Qed.

(** C12.  Updating a session: when the checks let the call through, the level, the trees and the delayed match
    window are the new ones, the lock is free again and the rest of the session and of the service is unchanged;
    otherwise the status is an error and nothing changes.  The template for compression then is the
    template of the new parameters exactly for a deflate session that, on a Gen4 device, is not given dynamic
    trees: the command is one of deflate also when the session is one of LZ4 or LZ4s, and dynamic trees
    bring in the translator slice also on a Gen4 device, for which [dcInitSession] leaves it out. *)
Theorem update_session v2p null svc p s u :
  depth_ok svc -> params_ok s -> comp_template v2p svc p s (reqCacheComp s) -> updateLock s = LockFree ->
  1 <= up_compLevel u <= 12 -> up_huffType u = CPA_DC_HT_STATIC \/ up_huffType u = CPA_DC_HT_FULL_DYNAMIC ->
  exists st svc' s', cpaDcUpdateSession null svc s u = Some (st, svc', s') /\
    (st = CPA_STATUS_SUCCESS <-> update_ok null svc s u) /\
    (st <> CPA_STATUS_SUCCESS -> svc' = svc /\ s' = s) /\
    (st = CPA_STATUS_SUCCESS ->
     svc' = updated_service svc u /\ (exists m, s' = updated s u m) /\
     (comp_template v2p svc' p s' (reqCacheComp s') <->
      compType s = CPA_DC_DEFLATE /\ (isGen4 svc = true -> up_huffType u = CPA_DC_HT_STATIC))).
Proof.
  intros Hd HP HT Hl Hlev Hh. destruct (update_runs svc s u Hl) as (m & Em & HW).
  unfold cpaDcUpdateSession.
  destruct (Z.eqb_spec (checks [LAC_CHECK_NULL_PARAM null; SAL_CHECK_INSTANCE_TYPE svc; SAL_RUNNING_CHECK svc; dcCheckUpdateSession svc s u])
    CPA_STATUS_SUCCESS) as [E|E].
  2: { eexists _, _, _. split; [done|]. by rewrite <- update_checks. }
  eexists _, _, _. split; [exact Em|]. split; [by rewrite <- update_checks|]. split; [done|]. intros _.
  split; [done|]. split; [by eexists|]. change (reqCacheComp (updated s u m)) with m.
  assert (params_ok (updated s u m)) as HP' by (destruct HP; by constructor).
  pose proof (comp_hw_config (updated_service svc u) (updated s u m) m HP' Hd (uw_config _ _ _ _ HW)) as Hc.
  pose proof (po_type s HP) as Ht. destruct HW as [W1 W2 W3 W4 _]. split.
  - intros [T1 _ _ T4 _]. rewrite W2 in T1. rewrite W3 in T4. clear Hc W1 W2 W3 W4.
    change (deflate_command (up_huffType u) = comp_command (compType s) (up_huffType u)) in T1.
    change (uses_translator (updated_service svc u) (huffType (updated s u m))) with (negb (isGen4 svc) && is_dynamic (up_huffType u)) in T4.
    unfold comp_command, deflate_command in T1. cbn [comp_type_value] in *. split.
    + destruct (is_dynamic _), (Z.eqb_spec (compType s) 4), (Z.eqb_spec (compType s) 5); try done; lia.
    + intros Hg. rewrite Hg in T4. cbn [negb andb] in T4. destruct Hh as [->|Hh]; [done|]. rewrite Hh in T4. done.
  - intros [Ed Hg]. constructor; try done.
    + rewrite W2. change (deflate_command (up_huffType u) = comp_command (compType s) (up_huffType u)). by rewrite Ed.
    + rewrite W1. apply HT.
    + rewrite W3. change (uses_translator (updated_service svc u) (huffType (updated s u m))) with (negb (isGen4 svc) && is_dynamic (up_huffType u)).
      destruct (isGen4 svc); [by rewrite Hg|done].
    + change (uses_translator (updated_service svc u) (huffType (updated s u m))) with (negb (isGen4 svc) && is_dynamic (up_huffType u)).
      intros [_ E1]%andb_true_iff. apply W4, E1.
Qed.

(** A deflate session on a C62x device is given static trees and level 1. *)
Lemma update_session_witness :
  match cpaDcUpdateSession false (ex_service DEVICE_C62X false 8192) (ex_session (ex_service DEVICE_C62X false 8192) ex_deflate) (mk_update 1 0 0) with
  | Some (st, svc', s') => st = CPA_STATUS_SUCCESS /\ comp_template (fun x => x) svc' 4160 s' (reqCacheComp s')
  | None => False
  end.
Proof.
  destruct (update_session (fun x => x) false (ex_service DEVICE_C62X false 8192) 4160 (ex_session (ex_service DEVICE_C62X false 8192) ex_deflate)
    (mk_update 1 0 0)) as (st & svc' & s' & -> & H1 & _ & H2); [by split|..].
  - apply (holds_params ex_deflate); [|constructor; by vm_compute]. apply check_session_data. by vm_compute.
  - constructor; by vm_compute.
  - by vm_compute.
  - by split.
  - by left.
  - assert (st = CPA_STATUS_SUCCESS) as Hs by (apply H1; repeat split; by vm_compute). split; [done|]. apply H2; [done|]. split; [by vm_compute|done].
Defined.
