(* ===== verification/DcData.v ===== *)
(** * Compression requests

    Building, sending and completing the requests of a compression session
    ([compression/dc_datapath.c]): the checks of a call, the message made from the
    session's template, the flags of a stateful stream, the counters of pending
    requests, the response with its error codes, and the integrity checksums that are
    compared with those of the client's buffers.

    What a pointer of the client refers to (the results, the checksum data) is an argument
    and a result of the functions here; [None] stands for NULL.  [mem] gives the bytes of
    the client's buffers.  A function that takes a lock has no result when the lock is not
    free. *)

From S2P Require Import Prelude Checksum DcFormat Buffers DcSession.

(** * Data *)

Definition CPA_DC_OK : Z := 0.
Definition CPA_DC_OVERFLOW : Z := -11.
Definition CPA_DC_FATALERR : Z := -13.
Definition CPA_DC_INCOMPLETE_FILE_ERR : Z := -15.
Definition CPA_DC_EMPTY_DYM_BLK : Z := -19.
Definition CPA_DC_CRC_INTEG_ERR : Z := -20.
Definition MAX_DC_ERROR_TYPE : Z := 20.
Definition ERR_CODE_NO_ERROR : Z := 0.
Definition CPA_DC_FLUSH_NONE : Z := 0.
Definition CPA_DC_FLUSH_FINAL : Z := 1.
Definition CPA_DC_FLUSH_SYNC : Z := 2.
Definition CPA_DC_FLUSH_FULL : Z := 3.
Definition CPA_DC_SKIP_DISABLED : Z := 0.
Definition CPA_DC_SKIP_STRIDE : Z := 3.
Definition DC_DEFAULT_CRC : Z := 0.
Definition DC_DEFAULT_ADLER32 : Z := 1.
Definition DC_CLEARTEXT_TYPE : Z := 0.
Definition DC_STATIC_TYPE : Z := 1.
Definition DC_DYNAMIC_TYPE : Z := 2.
Definition DC_STATE_CRC32_OFFSET : Z := 40.
Definition DC_STATE_ADLER32_OFFSET : Z := 44.
Definition DC_STATE_OUTPUT_CRC32_OFFSET : Z := 48.
Definition DC_STATE_INPUT_CRC32_OFFSET : Z := 52.
Definition DC_XOR_FLAGS_DEFAULT : Z := 0x000e0000.
Definition DC_CRC_POLY_DEFAULT : Z := 0x04c11db7.
Definition DC_XOR_OUT_DEFAULT : Z := 0xffffffff.
Definition DC_CRC64_POLY_DEFAULT : Z := 0x42f0e1eba9ea3693.
Definition DC_XOR64_OUT_DEFAULT : Z := 0.
Definition DC_BUFFER_MAX_SIZE : Z := 0xFFFFFFFF.
Definition DC_DEST_BUFFER_DEC_MIN_SIZE : Z := 1.
Definition DC_COMP_MAX_BUFF_SIZE : Z := 1024 * 64.
Definition DC_CNV_EXTENDED_CAPABILITY : Z := 0x01.
Definition DC_CNVNR_EXTENDED_CAPABILITY : Z := 0x100.

(** [(Cpa8S)x] *)
Definition s8 (x : Z) : Z := (x + 2 ^ 7) mod 2 ^ 8 - 2 ^ 7.

Record CpaDcRqResults := mk_rq {
  rq_status : Z; rq_produced : Z; rq_consumed : Z; rq_checksum : Z; rq_endOfLastBlock : bool; rq_dataUncompressed : Z
}.
#[global] Instance eta_rq : Eta CpaDcRqResults := fun r =>
  mk_rq (rq_status r) (rq_produced r) (rq_consumed r) (rq_checksum r) (rq_endOfLastBlock r) (rq_dataUncompressed r).

Record CpaCrcData := mk_crc { cd_crc32 : Z; cd_adler32 : Z; cd_iCrc : Z; cd_oCrc : Z; cd_iCrc64 : Z; cd_oCrc64 : Z }.
#[global] Instance eta_crc : Eta CpaCrcData := fun r =>
  mk_crc (cd_crc32 r) (cd_adler32 r) (cd_iCrc r) (cd_oCrc r) (cd_iCrc64 r) (cd_oCrc64 r).

(** [op_pCrcData]: the pointer is not NULL *)
Record CpaDcOpData := mk_op {
  op_flushFlag : Z; op_compressAndVerify : Z; op_compressAndVerifyAndRecover : Z; op_integrityCrcCheck : Z;
  op_verifyHwIntegrityCrcs : Z; op_inputSkipMode : Z; op_outputSkipMode : Z; op_pCrcData : bool
}.

(** [dc_integrity_crc_fw_t].  The 32-bit and the 64-bit fields share their memory; a device
    uses only one kind. *)
Record dc_integrity_crc_fw_t := mk_fw_crc {
  fw_crc32 : Z; fw_adler32 : Z;
  oCrc32Cpr : Z; iCrc32Cpr : Z; oCrc32Xlt : Z; iCrc32Xlt : Z; xorFlags : Z; crcPoly : Z; xorOut : Z; deflateBlockType : Z;
  iCrc64Cpr : Z; oCrc64Cpr : Z; iCrc64Xlt : Z; oCrc64Xlt : Z; crc64Poly : Z; xor64Out : Z
}.
#[global] Instance eta_fw_crc : Eta dc_integrity_crc_fw_t := fun r =>
  mk_fw_crc (fw_crc32 r) (fw_adler32 r) (oCrc32Cpr r) (iCrc32Cpr r) (oCrc32Xlt r) (iCrc32Xlt r) (xorFlags r) (crcPoly r)
    (xorOut r) (deflateBlockType r) (iCrc64Cpr r) (oCrc64Cpr r) (iCrc64Xlt r) (oCrc64Xlt r) (crc64Poly r) (xor64Out r).

(** [dc_compression_cookie_t].  [ck_results] is the pointer to the results. *)
Record dc_compression_cookie_t := mk_cookie {
  ck_request : comp_req; ck_callbackTag : Z; ck_flushFlag : Z; ck_opData : option CpaDcOpData; ck_integrityCrcCheck : Z;
  ck_verifyHwIntegrityCrcs : Z; ck_srcTotalDataLenInBytes : Z; ck_dstTotalDataLenInBytes : Z;
  ck_compDecomp : dc_request_dir_t; ck_src : CpaBufferList; ck_dst : CpaBufferList; ck_crcs : dc_integrity_crc_fw_t
}.
#[global] Instance eta_cookie : Eta dc_compression_cookie_t := fun r =>
  mk_cookie (ck_request r) (ck_callbackTag r) (ck_flushFlag r) (ck_opData r) (ck_integrityCrcCheck r)
    (ck_verifyHwIntegrityCrcs r) (ck_srcTotalDataLenInBytes r) (ck_dstTotalDataLenInBytes r) (ck_compDecomp r) (ck_src r)
    (ck_dst r) (ck_crcs r).

(** [icp_qat_fw_comp_resp_t] *)
Record comp_resp := mk_resp {
  comn_status : Z; resp_hdr_flags : Z; cmp_err_code : Z; xlat_err_code : Z; input_byte_counter : Z; output_byte_counter : Z;
  curr_crc32 : Z; curr_adler_32 : Z
}.

(** [CpaDcStats], and whether they are kept *)
Record dc_stats := mk_stats {
  bDcStatsEnabled : bool; numCompRequests : Z; numCompRequestsErrors : Z; numCompCompleted : Z; numCompCompletedErrors : Z;
  numCompCnvErrorsRecovered : Z; numDecompRequests : Z; numDecompRequestsErrors : Z; numDecompCompleted : Z;
  numDecompCompletedErrors : Z
}.
#[global] Instance eta_stats : Eta dc_stats := fun r =>
  mk_stats (bDcStatsEnabled r) (numCompRequests r) (numCompRequestsErrors r) (numCompCompleted r) (numCompCompletedErrors r)
    (numCompCnvErrorsRecovered r) (numDecompRequests r) (numDecompRequestsErrors r) (numDecompCompleted r)
    (numDecompCompletedErrors r).

Inductive dc_cnv_mode_t := DC_NO_CNV | DC_CNV | DC_CNVNR.

(** Which counter of a direction is meant *)
Inductive stat_kind := StatRequests | StatRequestsErrors | StatCompleted | StatCompletedErrors.

Definition is_comp (d : dc_request_dir_t) : bool := match d with DC_COMPRESSION_REQUEST => true | _ => false end.

(** [COMPRESSION_STAT_INC] for the direction of a request *)
Definition stat_inc (k : stat_kind) (d : dc_request_dir_t) (t : dc_stats) : dc_stats :=
  if negb (bDcStatsEnabled t) then t
  else
    match k, d with
    | StatRequests, DC_COMPRESSION_REQUEST => t <| numCompRequests := numCompRequests t + 1 |>
    | StatRequestsErrors, DC_COMPRESSION_REQUEST => t <| numCompRequestsErrors := numCompRequestsErrors t + 1 |>
    | StatCompleted, DC_COMPRESSION_REQUEST => t <| numCompCompleted := numCompCompleted t + 1 |>
    | StatCompletedErrors, DC_COMPRESSION_REQUEST => t <| numCompCompletedErrors := numCompCompletedErrors t + 1 |>
    | StatRequests, DC_DECOMPRESSION_REQUEST => t <| numDecompRequests := numDecompRequests t + 1 |>
    | StatRequestsErrors, DC_DECOMPRESSION_REQUEST => t <| numDecompRequestsErrors := numDecompRequestsErrors t + 1 |>
    | StatCompleted, DC_DECOMPRESSION_REQUEST => t <| numDecompCompleted := numDecompCompleted t + 1 |>
    | StatCompletedErrors, DC_DECOMPRESSION_REQUEST => t <| numDecompCompletedErrors := numDecompCompletedErrors t + 1 |>
    end.
Definition stat_recovered (t : dc_stats) : dc_stats :=
  if bDcStatsEnabled t then t <| numCompCnvErrorsRecovered := numCompCnvErrorsRecovered t + 1 |> else t.

(** * Error counters *)

Definition dcErrorLog (dcErrorCount : list Z) (dcError : Z) : list Z :=
  let absError := u32 (Z.abs dcError) in
  if (dcError <? CPA_DC_OK) && (absError <? MAX_DC_ERROR_TYPE)
  then dcErrorCount.[absError <- dcErrorCount.[absError] + 1] else dcErrorCount.

Definition getDcErrorCounter (dcErrorCount : list Z) (dcError : Z) : Z :=
  let absError := u32 (Z.abs dcError) in
  if negb ((CPA_DC_OK <=? dcError) || (dcError <? CPA_DC_EMPTY_DYM_BLK)) then dcErrorCount.[absError] else 0.

(** * Integrity checksums *)

(** The bytes of a buffer list *)
Definition contents (mem : Z -> Z) (bl : CpaBufferList) : list CpaFlatBuffer :=
  map (fun b => mk_flat (buf_len b) (map mem (seqZ (buf_data b) (buf_len b)))) (take (Z.to_nat (numBuffers bl)) (pBuffers bl)).

Definition dcUpdateCompStateCrc (s : dc_session_desc_t) (offset newCrcValue : Z) : dc_session_desc_t :=
  s <| stateRegistersComp :=
         foldl (fun regs i => regs.[offset + i <- Z.land (Z.shiftr newCrcValue (i * 8)) 0xff]) (stateRegistersComp s) (seqZ 0 4) |>.

(** The status when the checksums do not agree: an error of the device is kept. *)
Definition integrity_error (r : CpaDcRqResults) : CpaDcRqResults :=
  if (CPA_DC_OK =? rq_status r) || (CPA_DC_OVERFLOW =? rq_status r) then r <| rq_status := CPA_DC_CRC_INTEG_ERR |> else r.

Definition op_verify (c : dc_compression_cookie_t) : bool :=
  match ck_opData c with Some op => CPA_TRUE =? op_verifyHwIntegrityCrcs op | None => false end.

Definition dcHandleIntegrityChecksums (mem : Z -> Z) (c : dc_compression_cookie_t) (s : dc_session_desc_t)
    (crc_external : CpaCrcData) (r : CpaDcRqResults) : dc_session_desc_t * CpaCrcData * CpaDcRqResults :=
  let crc_internal := ck_crcs c in
  let blockType := deflateBlockType crc_internal in
  let verify := op_verify c in
  let '(seedI, seedO) := if CPA_DC_STATEFUL =? sessState s then (cd_iCrc crc_external, cd_oCrc crc_external)
                         else (DC_DEFAULT_CRC, DC_DEFAULT_CRC) in
  let ext := crc_external <| cd_crc32 := fw_crc32 crc_internal |> <| cd_adler32 := fw_adler32 crc_internal |>
                          <| cd_iCrc := iCrc32Cpr crc_internal |> in
  let '(swCrcI, swCrcO) :=
    if verify || (DC_CLEARTEXT_TYPE =? blockType)
    then (dcCalculateCrc32 (contents mem (ck_src c)) (rq_consumed r) seedI,
          dcCalculateCrc32 (contents mem (ck_dst c)) (rq_produced r) seedO)
    else (DC_DEFAULT_CRC, DC_DEFAULT_CRC) in
  let '(s, ext, error) :=
    if (DC_STATIC_TYPE =? blockType) || (CPA_DC_DIR_DECOMPRESS =? sessDirection s)
    then (s, ext <| cd_oCrc := oCrc32Cpr crc_internal |>, false)
    else if DC_DYNAMIC_TYPE =? blockType
    then (s, ext <| cd_oCrc := oCrc32Xlt crc_internal |>, negb (oCrc32Cpr crc_internal =? iCrc32Xlt crc_internal))
    else if DC_CLEARTEXT_TYPE =? blockType then
      let s := dcUpdateCompStateCrc s DC_STATE_CRC32_OFFSET swCrcI in
      let s := dcUpdateCompStateCrc s DC_STATE_INPUT_CRC32_OFFSET swCrcI in
      let s := dcUpdateCompStateCrc s DC_STATE_OUTPUT_CRC32_OFFSET swCrcO in
      (s, ext <| cd_iCrc := swCrcI |> <| cd_oCrc := swCrcO |>, false)
    else (s, ext, false) in
  let error := error || verify && (negb (cd_iCrc ext =? swCrcI) || negb (cd_oCrc ext =? swCrcO)) in
  let '(s, r) :=
    if error then (s, integrity_error r)
    else if ((DC_DYNAMIC_TYPE =? blockType) || (DC_STATIC_TYPE =? blockType)) && is_comp (ck_compDecomp c)
    then (dcUpdateCompStateCrc s DC_STATE_OUTPUT_CRC32_OFFSET (cd_oCrc ext), r)
    else (s, r) in
  let r := if CPA_DC_CRC32 =? checksumType s then r <| rq_checksum := cd_crc32 ext |>
           else if CPA_DC_ADLER32 =? checksumType s then r <| rq_checksum := cd_adler32 ext |> else r in
  (s, ext, r).

Definition dcHandleIntegrityChecksumsGen4 (mem : Z -> Z) (c : dc_compression_cookie_t) (s : dc_session_desc_t)
    (crc_external : CpaCrcData) (r : CpaDcRqResults) : CpaCrcData * CpaDcRqResults :=
  let crc_internal := ck_crcs c in
  let dynamic := (CPA_DC_DEFLATE =? compType s) && is_dynamic (huffType s) && is_comp (ck_compDecomp c) in
  let ext := crc_external <| cd_crc32 := fw_crc32 crc_internal |> <| cd_adler32 := fw_adler32 crc_internal |>
                          <| cd_iCrc64 := iCrc64Cpr crc_internal |>
                          <| cd_oCrc64 := if dynamic then oCrc64Xlt crc_internal else oCrc64Cpr crc_internal |> in
  let error :=
    op_verify c &&
    (negb (cd_iCrc64 ext =? dcCalculateCrc64 (contents mem (ck_src c)) (rq_consumed r) DC_DEFAULT_CRC) ||
     negb (cd_oCrc64 ext =? dcCalculateCrc64 (contents mem (ck_dst c)) (rq_produced r) DC_DEFAULT_CRC)) in
  let r := if error then integrity_error r else r in
  let r := if CPA_DC_CRC32 =? checksumType s then r <| rq_checksum := cd_crc32 ext |>
           else if (CPA_DC_ADLER32 =? checksumType s) || (CPA_DC_XXHASH32 =? checksumType s)
           then r <| rq_checksum := cd_adler32 ext |> else r in
  (ext, r).

(** * Responses *)

Definition ICP_QAT_FW_COMN_RESP_CMP_STAT_GET (status : Z) : Z := QAT_FIELD_GET status 5 0x1.
Definition ICP_QAT_FW_COMN_RESP_XLAT_STAT_GET (status : Z) : Z := QAT_FIELD_GET status 4 0x1.
Definition ICP_QAT_FW_COMN_RESP_CMP_END_OF_LAST_BLK_FLAG_GET (status : Z) : Z := QAT_FIELD_GET status 3 0x1.
Definition ICP_QAT_FW_COMN_RESP_UNSUPPORTED_REQUEST_STAT_GET (status : Z) : Z := QAT_FIELD_GET status 2 0x1.
Definition ICP_QAT_FW_COMN_HDR_CNV_FLAG_GET (flags : Z) : Z := QAT_FIELD_GET flags 6 0x1.
Definition ICP_QAT_FW_COMN_HDR_CNVNR_FLAG_GET (flags : Z) : Z := QAT_FIELD_GET flags 5 0x1.
Definition ICP_QAT_FW_COMN_HDR_ST_BLK_FLAG_GET (flags : Z) : Z := QAT_FIELD_GET flags 4 0x1.

(** The calls of the client's functions: of a session with its tag, or of the data plane *)
Inductive dc_event := EvCallback (fn : CpaDcCallbackFn) (callbackTag status : Z) | EvDpCallback (responseStatus : Z).

(** What a response changes *)
Record dc_world := mk_world {
  w_session : dc_session_desc_t; w_results : option CpaDcRqResults; w_crc : option CpaCrcData; w_stats : dc_stats;
  w_errors : list Z; w_events : list dc_event
}.
#[global] Instance eta_world : Eta dc_world := fun r =>
  mk_world (w_session r) (w_results r) (w_crc r) (w_stats r) (w_errors r) (w_events r).

Definition dcResetXxhashState (s : dc_session_desc_t) (cookie : option dc_compression_cookie_t) : dc_session_desc_t :=
  match cookie with
  | None => s
  | Some c =>
      if (CPA_DC_LZ4 =? compType s) && (CPA_DC_XXHASH32 =? checksumType s) && (CPA_DC_FLUSH_FINAL =? ck_flushFlag c)
      then dcXxhash32SetState s 0 else s
  end.

(** The counters of requests that wait for their callback *)
Definition pending_dec (s : dc_session_desc_t) : dc_session_desc_t :=
  if CPA_DC_STATELESS =? sessState s then s <| pendingStatelessCbCount := pendingStatelessCbCount s - 1 |>
  else if negb (pendingStatefulCbCount s =? 0) then s <| pendingStatefulCbCount := pendingStatefulCbCount s - 1 |> else s.

(** The end of a response: the counter, the cookie is freed, the client is called. *)
Definition finish (tag status responseStatus : Z) (w : dc_world) : dc_world :=
  let s := w_session w in
  if isDcDp s then
    w <| w_session := s <| pendingDpStatelessCbCount := pendingDpStatelessCbCount s - 1 |> |>
      <| w_events := w_events w ++ [EvDpCallback responseStatus] |>
  else
    let w := w <| w_session := pending_dec s |> in
    if pCompressionCb s == CbNull then w else w <| w_events := w_events w ++ [EvCallback (pCompressionCb s) tag status] |>.

(** Whether the compression slice and the translator were successful, and their codes *)
Record resp_codes := mk_codes { cmpPass : bool; xlatPass : bool; cmpErr : Z; xlatErr : Z; codes_status : Z }.

Definition response_codes (svc : sal_compression_service) (s : dc_session_desc_t) (d : dc_request_dir_t) (m : comp_resp) : resp_codes :=
  let cmpPass := ICP_QAT_FW_COMN_RESP_CMP_STAT_GET (comn_status m) =? 0 in
  let '(cmpPass, cmpErr) :=
    if (negb (isGen4 svc) || (CPA_DC_DEFLATE =? compType s)) && (CPA_DC_INCOMPLETE_FILE_ERR =? s8 (cmp_err_code m))
    then (true, ERR_CODE_NO_ERROR) else (cmpPass, cmp_err_code m) in
  if is_comp d && is_dynamic (huffType s) then
    let xlatErr := xlat_err_code m in
    mk_codes cmpPass (ICP_QAT_FW_COMN_RESP_XLAT_STAT_GET (comn_status m) =? 0) cmpErr xlatErr
      (if (CPA_DC_OK =? s8 cmpErr) || (CPA_DC_FATALERR =? s8 xlatErr) then s8 xlatErr else s8 cmpErr)
  else mk_codes cmpPass true cmpErr ERR_CODE_NO_ERROR (s8 cmpErr).

(** An overflow is not an error of a stateful request or of compression, but it is one for the data plane. *)
Definition overflow_codes (s : dc_session_desc_t) (d : dc_request_dir_t) (k : resp_codes) : resp_codes :=
  let c := CPA_DC_OVERFLOW =? s8 (cmpErr k) in
  let x := CPA_DC_OVERFLOW =? s8 (xlatErr k) in
  if negb (isDcDp s) then
    if (CPA_DC_STATEFUL =? sessState s) || (CPA_DC_STATELESS =? sessState s) && is_comp d
    then mk_codes (cmpPass k || c) (xlatPass k || x) (cmpErr k) (xlatErr k) (codes_status k) else k
  else mk_codes (cmpPass k && negb c) (xlatPass k && negb x) (cmpErr k) (xlatErr k) (codes_status k).

Definition response_checksum (s : dc_session_desc_t) (m : comp_resp) (r : CpaDcRqResults) : CpaDcRqResults :=
  if CPA_DC_CRC32 =? checksumType s then r <| rq_checksum := curr_crc32 m |>
  else if (CPA_DC_ADLER32 =? checksumType s) || (CPA_DC_XXHASH32 =? checksumType s)
  then r <| rq_checksum := curr_adler_32 m |> else r.

(** The counts and checksums of a successful response; the boolean is [cmpPass] afterwards. *)
Definition response_results (mem : Z -> Z) (svc : sal_compression_service) (c : dc_compression_cookie_t) (m : comp_resp)
    (w : dc_world) : dc_world * bool :=
  match w_results w with
  | None => (w, true)
  | Some r =>
      let r := r <| rq_consumed := input_byte_counter m |> <| rq_produced := output_byte_counter m |> in
      let s := w_session w in
      let s := s <| cumulativeConsumedBytes := u64 (cumulativeConsumedBytes s + input_byte_counter m) |> in
      match w_crc w with
      | Some crc =>
          if negb (isDcDp s) && integrityCrcCheck svc && (CPA_TRUE =? ck_integrityCrcCheck c) then
            let '(s, crc, r) :=
              if isGen4 svc then let '(crc, r) := dcHandleIntegrityChecksumsGen4 mem c s crc r in (s, crc, r)
              else dcHandleIntegrityChecksums mem c s crc r in
            (w <| w_session := s |> <| w_crc := Some crc |> <| w_results := Some r |>,
             negb (rq_status r =? CPA_DC_CRC_INTEG_ERR))
          else (w <| w_session := s |> <| w_results := Some (response_checksum s m r) |>, true)
      | None => (w <| w_session := s |> <| w_results := Some (response_checksum s m r) |>, true)
      end
  end.

(** The direction of the request that [m] answers *)
Definition response_dir (s : dc_session_desc_t) (c : dc_compression_cookie_t) : dc_request_dir_t :=
  if isDcDp s then if CPA_DC_DIR_DECOMPRESS =? sessDirection s then DC_DECOMPRESSION_REQUEST else DC_COMPRESSION_REQUEST
  else ck_compDecomp c.

(** The type of the next request of the session *)
Definition next_type (c : dc_compression_cookie_t) (k : resp_codes) : dc_request_type_t :=
  if (CPA_DC_FLUSH_FINAL =? ck_flushFlag c) && cmpPass k && xlatPass k then DC_REQUEST_FIRST else DC_REQUEST_SUBSEQUENT.

(** The flags of a successful response *)
Definition response_flags (svc : sal_compression_service) (d : dc_request_dir_t) (c : dc_compression_cookie_t) (k : resp_codes)
    (m : comp_resp) (w : dc_world) : dc_world :=
  let s := w_session w in
  let w :=
    if is_comp d && isGen4 svc then
      let w := w <| w_results := (fun r => r <| rq_dataUncompressed := ICP_QAT_FW_COMN_HDR_ST_BLK_FLAG_GET (resp_hdr_flags m) |>)
                                   <$> w_results w |> in
      if negb (CPA_DC_OVERFLOW =? s8 (cmpErr k))
      then w <| w_session := dcResetXxhashState s (if isDcDp s then None else Some c) |> else w
    else w in
  let w :=
    if is_comp d then w
    else w <| w_results := (fun r => r <| rq_endOfLastBlock :=
           ICP_QAT_FW_COMN_RESP_CMP_END_OF_LAST_BLK_FLAG_GET (comn_status m) =? 1 |>) <$> w_results w |> in
  let w :=
    if is_comp d && negb (ICP_QAT_FW_COMN_HDR_CNV_FLAG_GET (resp_hdr_flags m) =? 0) &&
       negb (ICP_QAT_FW_COMN_HDR_CNVNR_FLAG_GET (resp_hdr_flags m) =? 0)
    then w <| w_stats := stat_recovered (w_stats w) |> else w in
  if isDcDp s then w else w <| w_stats := stat_inc StatCompleted d (w_stats w) |>.

(** The status that the client gets with a failed response *)
Definition failed_status (res : option CpaDcRqResults) : Z :=
  match res with
  | None => CPA_STATUS_FAIL
  | Some r => if negb (CPA_DC_OK =? rq_status r) && negb (CPA_DC_INCOMPLETE_FILE_ERR =? rq_status r)
              then CPA_STATUS_FAIL else CPA_STATUS_SUCCESS
  end.

(** [c] is the cookie that the message's opaque data points to; for the data plane it is the
    client's operation, of which only the results are used. *)
Definition dcCompression_ProcessCallback (mem : Z -> Z) (svc : sal_compression_service) (c : dc_compression_cookie_t)
    (m : comp_resp) (w : dc_world) : dc_world :=
  let s := w_session w in
  let d := response_dir s c in
  let tag := ck_callbackTag c in
  if negb (ICP_QAT_FW_COMN_RESP_UNSUPPORTED_REQUEST_STAT_GET (comn_status m) =? 0) then
    let w := w <| w_results := (fun r => r <| rq_status := s8 (cmp_err_code m) |> <| rq_consumed := 0 |> <| rq_produced := 0 |>)
                                 <$> w_results w |> in
    let w := finish tag CPA_STATUS_UNSUPPORTED CPA_STATUS_UNSUPPORTED w in
    w <| w_stats := stat_inc StatCompletedErrors d (w_stats w) |>
  else
    let k := response_codes svc s d m in
    let w := w <| w_results := (fun r => r <| rq_status := codes_status k |>) <$> w_results w |>
               <| w_errors := match w_results w with Some _ => dcErrorLog (w_errors w) (codes_status k) | None => w_errors w end |> in
    let w := if isDcDp s then w else w <| w_session := s <| requestType := next_type c k |> |> in
    let k := overflow_codes s d k in
    let '(w, pass) := if cmpPass k && xlatPass k then response_results mem svc c m w else (w, false) in
    if pass then finish tag CPA_STATUS_SUCCESS CPA_STATUS_SUCCESS (response_flags svc d c k m w)
    else
      let w := w <| w_results := (fun r => r <| rq_consumed := 0 |> <| rq_produced := 0 |>) <$> w_results w |> in
      let w := if isDcDp s then w else w <| w_stats := stat_inc StatCompletedErrors d (w_stats w) |> in
      finish tag (failed_status (w_results w)) CPA_STATUS_FAIL w.

(** The answers that the software makes up for the requests in flight when the device is in error *)
Definition sw_response (c : dc_compression_cookie_t) (w : dc_world) : dc_world :=
  let s := w_session w in
  let w := w <| w_stats := stat_inc StatCompletedErrors (ck_compDecomp c) (w_stats w) |> in
  let s := if CPA_DC_STATELESS =? sessState s then s <| pendingStatelessCbCount := pendingStatelessCbCount s - 1 |>
           else s <| pendingStatefulCbCount := pendingStatefulCbCount s - 1 |> in
  w <| w_session := s |> <| w_events := w_events w ++ [EvCallback (pCompressionCb s) (ck_callbackTag c) CPA_STATUS_FAIL] |>.

(** [cs] are the cookies of the bucket, in the order of the ring. *)
Definition dcCompression_SwRespMsgCallback (cs : list dc_compression_cookie_t) (w : dc_world) : Z * dc_world :=
  let w := foldl (fun w c => sw_response c w) w cs in
  (if len cs =? 0 then CPA_STATUS_RETRY else CPA_STATUS_SUCCESS, w).

(** * The checks of a call *)

Definition bad_flag (x : Z) : bool := negb (x =? CPA_TRUE) && negb (x =? CPA_FALSE).

Definition dcCheckOpData (svc : sal_compression_service) (op : CpaDcOpData) : Z :=
  if outside (op_flushFlag op) CPA_DC_FLUSH_NONE CPA_DC_FLUSH_FULL then CPA_STATUS_INVALID_PARAM
  else if outside (op_inputSkipMode op) CPA_DC_SKIP_DISABLED CPA_DC_SKIP_STRIDE then CPA_STATUS_INVALID_PARAM
  else if outside (op_outputSkipMode op) CPA_DC_SKIP_DISABLED CPA_DC_SKIP_STRIDE then CPA_STATUS_INVALID_PARAM
  else if (op_integrityCrcCheck op =? CPA_FALSE) && (op_verifyHwIntegrityCrcs op =? CPA_TRUE) then CPA_STATUS_INVALID_PARAM
  else if bad_flag (op_integrityCrcCheck op) then CPA_STATUS_INVALID_PARAM
  else if bad_flag (op_verifyHwIntegrityCrcs op) then CPA_STATUS_INVALID_PARAM
  else if bad_flag (op_compressAndVerify op) then CPA_STATUS_INVALID_PARAM
  else if (CPA_TRUE =? op_integrityCrcCheck op) && negb (integrityCrcCheck svc) then CPA_STATUS_INVALID_PARAM
  else if (CPA_TRUE =? op_integrityCrcCheck op) && negb (op_pCrcData op) then CPA_STATUS_INVALID_PARAM
  else CPA_STATUS_SUCCESS.

(** A buffer list of the client is its address with its contents; NULL has address 0. *)
Record buffer_arg := mk_arg { ba_ptr : Z; ba_list : CpaBufferList }.
Definition is_null (a : Z) : bool := a =? 0.

(** [null]: the session handle, or the descriptor it leads to, is NULL *)
Definition dcCheckSourceData (null : bool) (s : dc_session_desc_t) (src dst : buffer_arg) (results : option CpaDcRqResults)
    (flushFlag srcBuffSize : Z) : Z :=
  if null || is_null (ba_ptr src) || is_null (ba_ptr dst) || match results with None => true | _ => false end
  then CPA_STATUS_INVALID_PARAM
  else if outside flushFlag CPA_DC_FLUSH_NONE CPA_DC_FLUSH_FULL then CPA_STATUS_INVALID_PARAM
  else if ba_ptr src =? ba_ptr dst then CPA_STATUS_INVALID_PARAM
  else if (CPA_DC_STATELESS =? sessState s) && (0 =? srcBuffSize) then CPA_STATUS_INVALID_PARAM
  else if DC_BUFFER_MAX_SIZE <? srcBuffSize then CPA_STATUS_INVALID_PARAM
  else CPA_STATUS_SUCCESS.

Definition dcCheckDestinationData (null : bool) (svc : sal_compression_service) (s : dc_session_desc_t) (dst : buffer_arg)
    (d : dc_request_dir_t) : Z :=
  if null || is_null (ba_ptr dst) then CPA_STATUS_INVALID_PARAM
  else
    let '(status, destBuffSize) := LacBuffDesc_BufferListVerify false (ba_list dst) 0 LAC_NO_ALIGNMENT_SHIFT in
    if negb (status =? CPA_STATUS_SUCCESS) then CPA_STATUS_INVALID_PARAM
    else if DC_BUFFER_MAX_SIZE <? destBuffSize then CPA_STATUS_INVALID_PARAM
    else if isDcDp s then CPA_STATUS_INVALID_PARAM
    else if is_comp d then
      if is_dynamic (huffType s) then
        if negb (isGen4 svc) && ((0 =? pInterBuffPtrsArrayPhyAddr svc) || (0 =? pInterBuffPtrsArray svc)) then CPA_STATUS_INVALID_PARAM
        else if destBuffSize <? minOutputBuffSizeDynamic (comp_device_data svc) then CPA_STATUS_INVALID_PARAM
        else CPA_STATUS_SUCCESS
      else if destBuffSize <? minOutputBuffSize (comp_device_data svc) then CPA_STATUS_INVALID_PARAM
      else CPA_STATUS_SUCCESS
    else if destBuffSize <? DC_DEST_BUFFER_DEC_MIN_SIZE then CPA_STATUS_INVALID_PARAM
    else CPA_STATUS_SUCCESS.

(** * Requests *)

Definition ICP_QAT_FW_COMP_REQ_PARAM_FLAGS_BUILD (sop eop bfinal cnv cnvnr cnvdfx crc : Z) : Z :=
  fold_right Z.lor 0
    [Z.shiftl (Z.land sop 0x1) 0; Z.shiftl (Z.land eop 0x1) 1; Z.shiftl (Z.land bfinal 0x1) 6; Z.shiftl (Z.land cnv 0x1) 16;
     Z.shiftl (Z.land cnvnr 0x1) 17; Z.shiftl (Z.land cnvdfx 0x1) 18; Z.shiftl (Z.land crc 0x1) 19].
Definition ICP_QAT_FW_COMP_XXHASH_ACC_MODE_SET (flags val : Z) : Z := QAT_FIELD_SET flags val 20 0x1.

Definition SalQatMsg_CmnMidWrite (m : comp_req) (pOpaqueData bufferFormat srcBuffer dstBuffer : Z) : comp_req :=
  let m := m <| opaque_data := pOpaqueData |> <| src_data_addr := srcBuffer |>
             <| dest_data_addr := if 0 =? dstBuffer then srcBuffer else dstBuffer |>
             <| comn_req_flags := Z.land (comn_req_flags m) (Z.shiftl 0x1 1) |> in
  m <| comn_req_flags := QAT_FIELD_SET (comn_req_flags m) bufferFormat 0 0x1 |>.

(** The bytes that a stateful request for decompression is given: odd lengths are not taken by
    some devices, unless the request is the last one. *)
Definition even_len (svc : sal_compression_service) (s : dc_session_desc_t) (d : dc_request_dir_t) (flushFlag len : Z) : Z :=
  let stateful_decomp := (CPA_DC_STATEFUL =? sessState s) && negb (is_comp d) in
  let odd n := negb (Z.land n 0x1 =? 0) in
  let len :=
    if negb (oddByteDecompNobFinal (comp_device_data svc)) && stateful_decomp && negb (CPA_DC_FLUSH_FINAL =? flushFlag) && odd len
    then len - 1 else len in
  if negb (oddByteDecompInterim (comp_device_data svc)) && stateful_decomp && negb (CPA_DC_FLUSH_FINAL =? flushFlag) &&
     negb (CPA_DC_FLUSH_FULL =? flushFlag) && odd len
  then len - 1 else len.

(** The checksum that a stateless request goes on from: adler-32 and CRC-32 *)
Definition initial_checksums (s : dc_session_desc_t) (checksum : Z) : Z * Z :=
  if (CPA_DC_STATELESS =? sessState s) && (requestType s == DC_REQUEST_SUBSEQUENT) then
    if checksumType s =? CPA_DC_ADLER32 then (checksum, DC_DEFAULT_CRC)
    else if checksumType s =? CPA_DC_CRC32 then (DC_DEFAULT_ADLER32, checksum)
    else (DC_DEFAULT_ADLER32, DC_DEFAULT_CRC)
  else (DC_DEFAULT_ADLER32, DC_DEFAULT_CRC).

(** The table for the integrity checksums, before the device gets it *)
Definition integrity_table (svc : sal_compression_service) (s : dc_session_desc_t) (crc : CpaCrcData) (adler crc32 : Z)
    (t : dc_integrity_crc_fw_t) : dc_integrity_crc_fw_t :=
  let t := t <| fw_crc32 := crc32 |> <| fw_adler32 := adler |> in
  if negb (isGen4 svc) then
    let '(i, o) := if CPA_DC_STATEFUL =? sessState s then (cd_iCrc crc, cd_oCrc crc) else (DC_DEFAULT_CRC, DC_DEFAULT_CRC) in
    t <| iCrc32Cpr := i |> <| oCrc32Cpr := o |> <| iCrc32Xlt := o |> <| oCrc32Xlt := o |>
      <| xorFlags := DC_XOR_FLAGS_DEFAULT |> <| crcPoly := DC_CRC_POLY_DEFAULT |> <| xorOut := DC_XOR_OUT_DEFAULT |>
      <| deflateBlockType := DC_STATIC_TYPE |>
  else
    t <| iCrc64Cpr := DC_DEFAULT_CRC |> <| oCrc64Cpr := DC_DEFAULT_CRC |> <| iCrc64Xlt := DC_DEFAULT_CRC |>
      <| oCrc64Xlt := DC_DEFAULT_CRC |> <| crc64Poly := DC_CRC64_POLY_DEFAULT |> <| xor64Out := DC_XOR64_OUT_DEFAULT |>.

(** Start and end of packet, and the session for the requests that follow *)
Definition stream_flags (s : dc_session_desc_t) (d : dc_request_dir_t) (flush : Z) : Z * Z * dc_session_desc_t :=
  if CPA_DC_STATEFUL =? sessState s then
    let first := requestType s == DC_REQUEST_FIRST in
    let s := s <| previousRequestType := requestType s |> in
    let '(sop, s) :=
      if first then
        let s := s <| requestType := DC_REQUEST_SUBSEQUENT |> <| cumulativeConsumedBytes := 0 |> in
        (1, if is_comp d then s <| isSopForCompressionProcessed := true |> else s <| isSopForDecompressionProcessed := true |>)
      else if is_comp d then
        if isSopForCompressionProcessed s then (0, s) else (1, s <| isSopForCompressionProcessed := true |>)
      else if isSopForDecompressionProcessed s then (0, s) else (1, s <| isSopForDecompressionProcessed := true |>) in
    if (CPA_DC_FLUSH_FINAL =? flush) || (CPA_DC_FLUSH_FULL =? flush) then (sop, 1, s <| requestType := DC_REQUEST_FIRST |>)
    else (sop, 0, s)
  else (1, 1, if requestType s == DC_REQUEST_FIRST then s <| cumulativeConsumedBytes := 0 |> else s).

(** A call for one request *)
Record dc_call := mk_call {
  cl_src : CpaBufferList; cl_dst : CpaBufferList; cl_flushFlag : Z; cl_opData : option CpaDcOpData; cl_tag : Z;
  cl_dir : dc_request_dir_t; cl_cnvMode : dc_cnv_mode_t
}.

Definition call_flush (a : dc_call) : Z := match cl_opData a with Some op => op_flushFlag op | None => cl_flushFlag a end.

(** The size of the destination that the device is told: not more than an intermediate buffer holds *)
Definition dest_len (svc : sal_compression_service) (s : dc_session_desc_t) (d : dc_request_dir_t) (dstTotal : Z) : Z :=
  if negb (isGen4 svc) && is_comp d && is_dynamic (huffType s) then
    if minInterBuffSizeInBytes svc <? u32 dstTotal then u32 (minInterBuffSizeInBytes svc) else u32 dstTotal
  else u32 dstTotal.

(** The cookie of a call, before its message is written *)
Definition call_cookie (svc : sal_compression_service) (s : dc_session_desc_t) (a : dc_call) (srcTotal dstTotal : Z)
    (c : dc_compression_cookie_t) : dc_compression_cookie_t :=
  let '(check, verify) := match cl_opData a with
                          | Some op => (op_integrityCrcCheck op, op_verifyHwIntegrityCrcs op)
                          | None => (CPA_FALSE, CPA_FALSE)
                          end in
  mk_cookie (ck_request c) (cl_tag a) (call_flush a) (cl_opData a) check verify
    (even_len svc s (cl_dir a) (cl_flushFlag a) (u32 srcTotal)) (dest_len svc s (cl_dir a) dstTotal) (cl_dir a) (cl_src a)
    (cl_dst a) (ck_crcs c).

(** The template of the session, read under the lock that updates take *)
Definition read_template (s : dc_session_desc_t) (d : dc_request_dir_t) : option (comp_req * dc_session_desc_t) :=
  if (CPA_DC_STATELESS =? sessState s) && is_comp d then
    l ← LAC_SPINLOCK (updateLock s);
    let m := reqCacheComp s in
    l ← LAC_SPINUNLOCK l;
    Some (m, s <| updateLock := l |>)
  else Some (if is_comp d then reqCacheComp s else reqCacheDecomp s, s).

(** The flags for compress-and-verify *)
Definition cnv_flags (svc : sal_compression_service) (s : dc_session_desc_t) (mode : dc_cnv_mode_t) : Z * Z * Z :=
  let dfx := if isGen4 svc then cnvErrorInjection s else 0 in
  match mode with DC_CNVNR => (1, 1, dfx) | DC_CNV => (1, 0, dfx) | DC_NO_CNV => (0, 0, 0) end.

Section create.
Variable v2p : Z -> Z.
(** [LAC_OS_VIRT_TO_PHYS_INTERNAL] for the integrity table of a cookie *)
Variable crc_table_addr : Z -> Z.

(** The checksums of the message, or the address of the table; the mode of the flags.  [None]
    as a message: the address is not known. *)
Definition request_crcs (svc : sal_compression_service) (s : dc_session_desc_t) (pCookie : Z) (crc : option CpaCrcData)
    (checksum : Z) (c : dc_compression_cookie_t) (m : comp_req) : option (option comp_req * dc_compression_cookie_t * Z) :=
  let '(adler, crc32) := initial_checksums s checksum in
  if integrityCrcCheck svc && (CPA_TRUE =? ck_integrityCrcCheck c) then
    let addr := crc_table_addr pCookie in
    if addr =? 0 then Some (None, c, 0)
    else
      crc ← (if negb (isGen4 svc) && (CPA_DC_STATEFUL =? sessState s) then crc else Some (default (mk_crc 0 0 0 0 0 0) crc));
      Some (Some (m <| initial_crc32 := u32 addr |> <| initial_adler := Z.shiftr addr 32 |>),
            c <| ck_crcs := integrity_table svc s crc adler crc32 (ck_crcs c) |>, 1)
  else Some (Some (m <| initial_crc32 := crc32 |> <| initial_adler := adler |>), c, 0).

(** The status, the session, the cookie and the descriptors that are written.  [checksum] is
    what the results hold. *)
Definition dcCreateRequest (svc : sal_compression_service) (s : dc_session_desc_t) (a : dc_call) (crc : option CpaCrcData)
    (checksum pCookie : Z) (c : dc_compression_cookie_t)
    : option (Z * dc_session_desc_t * dc_compression_cookie_t * list write) :=
  let '(status, srcAddrPhys, srcTotal, log1) := LacBuffDesc_BufferListDescWriteAndGetSize v2p (cl_src a) false in
  if negb (status =? CPA_STATUS_SUCCESS) then Some (status, s, c, log1)
  else
    let '(status, dstAddrPhys, dstTotal, log2) := LacBuffDesc_BufferListDescWriteAndGetSize v2p (cl_dst a) false in
    if negb (status =? CPA_STATUS_SUCCESS) then Some (status, s, c, log1 ++ log2)
    else
      let c := call_cookie svc s a srcTotal dstTotal c in
      '(m, s) ← read_template s (cl_dir a);
      '(m, c, crcMode) ← request_crcs svc s pCookie crc checksum c m;
      match m with
      | None => Some (CPA_STATUS_FAIL, s, c, log1 ++ log2)
      | Some m =>
          let '(sop, eop, s) := stream_flags s (cl_dir a) (call_flush a) in
          let m := m <| comp_len := ck_srcTotalDataLenInBytes c |> <| out_buffer_sz := ck_dstTotalDataLenInBytes c |> in
          let bFinal := if CPA_DC_FLUSH_FINAL =? call_flush a then 1 else 0 in
          let '(cnvDecompReq, cnvRecovery, cnvError) := cnv_flags svc s (cl_cnvMode a) in
          let rpCmdFlags := ICP_QAT_FW_COMP_REQ_PARAM_FLAGS_BUILD sop eop bFinal cnvDecompReq cnvRecovery cnvError crcMode in
          let m := m <| req_par_flags := ICP_QAT_FW_COMP_XXHASH_ACC_MODE_SET rpCmdFlags (accumulateXXHash s) |> in
          let m := SalQatMsg_CmnMidWrite m pCookie QAT_COMN_PTR_TYPE_SGL (default 0 srcAddrPhys) (default 0 dstAddrPhys) in
          Some (CPA_STATUS_SUCCESS, s, c <| ck_request := m |>, log1 ++ log2)
      end.

(** [put] is the answer of [icp_adf_transPutMsg] for the message. *)
Definition dcSendRequest (put : Z) (s : dc_session_desc_t) : Z * dc_session_desc_t :=
  (put, if (CPA_DC_STATEFUL =? sessState s) && (CPA_STATUS_RETRY =? put)
        then s <| requestType := previousRequestType s |> else s).

(** Once [dcCreateRequest] has returned [status] *)
Definition send_created (put status : Z) (d : dc_request_dir_t) (s : dc_session_desc_t) (t : dc_stats) (c : dc_compression_cookie_t)
    : Z * dc_session_desc_t * dc_stats * option dc_compression_cookie_t :=
  let '(status, s) :=
    if status =? CPA_STATUS_SUCCESS then
      let s := if CPA_DC_STATELESS =? sessState s then s <| pendingStatelessCbCount := pendingStatelessCbCount s + 1 |> else s in
      dcSendRequest put s
    else (status, s) in
  if status =? CPA_STATUS_SUCCESS then (status, s, stat_inc StatRequests d t, Some c)
  else
    let s := if CPA_DC_STATELESS =? sessState s then s <| pendingStatelessCbCount := pendingStatelessCbCount s - 1 |>
             else s <| pendingStatefulCbCount := pendingStatefulCbCount s - 1 |> in
    (status, s, stat_inc StatRequestsErrors d t, None).

(** Once the cookie is there *)
Definition create_and_send (svc : sal_compression_service) (s : dc_session_desc_t) (t : dc_stats) (a : dc_call)
    (crc : option CpaCrcData) (checksum put pCookie : Z) (c : dc_compression_cookie_t)
    : option (Z * dc_session_desc_t * dc_stats * option dc_compression_cookie_t) :=
  '(status, s, c, _) ← dcCreateRequest svc s a crc checksum pCookie c;
  Some (send_created put status (cl_dir a) s t c).

(** What the calls of the environment answer: [LacSync_CreateSyncCookie] with the new cookie,
    [Lac_MemPoolEntryAlloc] in the order of the calls, [icp_adf_transPutMsg] *)
Inductive alloc_answer := AllocNull | AllocRetry | AllocEntry (pCookie : Z) (c : dc_compression_cookie_t).
Record dc_env := mk_env { env_sync : Z; env_sync_tag : Z; env_alloc : list alloc_answer; env_put : Z }.

(** The loop yields and tries again while the pool says so; [None]: it is still in the loop. *)
Fixpoint alloc_loop (l : list alloc_answer) : option (option (Z * dc_compression_cookie_t)) :=
  match l with
  | [] => None
  | AllocRetry :: l => alloc_loop l
  | AllocNull :: _ => Some None
  | AllocEntry p c :: _ => Some (Some (p, c))
  end.

(** A call returns, or waits for the callback of the request with this tag. *)
Inductive dc_return := Returns (status : Z) | Waits (tag : Z).

Definition comp_decomp_async (svc : sal_compression_service) (s : dc_session_desc_t) (t : dc_stats) (a : dc_call)
    (crc : option CpaCrcData) (checksum : Z) (e : dc_env)
    : option (Z * dc_session_desc_t * dc_stats * option (Z * dc_compression_cookie_t)) :=
  entry ← alloc_loop (env_alloc e);
  match entry with
  | None => Some (CPA_STATUS_RESOURCE, s, t, None)
  | Some (pCookie, c) =>
      '(status, s, t, c) ← create_and_send svc s t a crc checksum (env_put e) pCookie c;
      Some (status, s, t, option_map (pair pCookie) c)
  end.

Definition dcCompDecompData (svc : sal_compression_service) (s : dc_session_desc_t) (t : dc_stats) (a : dc_call)
    (crc : option CpaCrcData) (checksum : Z) (e : dc_env)
    : option (dc_return * dc_session_desc_t * dc_stats * option (Z * dc_compression_cookie_t)) :=
  if pCompressionCb s == CbSync then
    if env_sync e =? CPA_STATUS_SUCCESS then
      let a := mk_call (cl_src a) (cl_dst a) (cl_flushFlag a) (cl_opData a) (env_sync_tag e) (cl_dir a) (cl_cnvMode a) in
      '(status, s, t, c) ← comp_decomp_async svc s t a crc checksum e;
      Some (if status =? CPA_STATUS_SUCCESS then Waits (env_sync_tag e) else Returns status, s, t, c)
    else Some (Returns (env_sync e), s, t, None)
  else
    '(status, s, t, c) ← comp_decomp_async svc s t a crc checksum e;
    Some (Returns status, s, t, c).

(** The end of a call that waits: [syncStatus] is that of the semaphore, [status] that of the callback. *)
Definition sync_end (d : dc_request_dir_t) (syncStatus status : Z) (t : dc_stats) : Z * dc_stats :=
  if negb (syncStatus =? CPA_STATUS_SUCCESS) then (syncStatus, stat_inc StatCompletedErrors d t) else (status, t).

(** ** Requests without data *)

Definition read_state (regs : list Z) (offset : Z) : Z :=
  foldl (fun v i => Z.lor v (u32 (Z.shiftl regs.[offset + i] (i * 8)))) 0 (seqZ 0 4).

(** The results and the session when such a request is answered at once *)
Definition zero_length (s : dc_session_desc_t) (r : CpaDcRqResults) (flushFlag : Z) (d : dc_request_dir_t)
    : option (CpaDcRqResults * dc_session_desc_t) :=
  if requestType s == DC_REQUEST_FIRST then
    Some (r <| rq_checksum := if CPA_DC_ADLER32 =? checksumType s then 1 else 0 |>, s <| cumulativeConsumedBytes := 0 |>)
  else if (CPA_DC_FLUSH_NONE =? flushFlag) || (CPA_DC_FLUSH_SYNC =? flushFlag) then
    let regs := if is_comp d then stateRegistersComp s else stateRegistersDecomp s in
    let offset := if CPA_DC_ADLER32 =? checksumType s then DC_STATE_ADLER32_OFFSET else DC_STATE_CRC32_OFFSET in
    Some (r <| rq_checksum := read_state regs offset |>, s)
  else None.

(** The boolean says that the request has been answered. *)
Definition dcZeroLengthRequests (s : dc_session_desc_t) (t : dc_stats) (r : CpaDcRqResults) (flushFlag callbackTag : Z)
    (d : dc_request_dir_t) : option (bool * dc_session_desc_t * dc_stats * CpaDcRqResults * list dc_event) :=
  match zero_length s r flushFlag d with
  | None => Some (false, s, t, r, [])
  | Some (r, s) =>
      let r := r <| rq_status := CPA_DC_OK |> <| rq_produced := 0 |> <| rq_consumed := 0 |> in
      let t := stat_inc StatCompleted d (stat_inc StatRequests d t) in
      l ← LAC_SPINUNLOCK (sessionLock s);
      let s := s <| sessionLock := l |> in
      let ev := if (pCompressionCb s == CbNull) || (pCompressionCb s == CbSync) then []
                else [EvCallback (pCompressionCb s) callbackTag CPA_STATUS_SUCCESS] in
      Some (true, s, t, r, ev)
  end.

(** * The calls *)

(** What a call leaves: how it returns, the session, the counters, the results, the callbacks
    made during the call, and the request that is in flight. *)
Record dc_result := mk_result {
  rt_return : dc_return; rt_session : dc_session_desc_t; rt_stats : dc_stats; rt_results : option CpaDcRqResults;
  rt_events : list dc_event; rt_sent : option (Z * dc_compression_cookie_t)
}.

(** The arguments of a call: [ca_null_instance] and [ca_null_session] say that the handle is NULL;
    another session handle leads to a session that has been initialised. *)
Record call_args := mk_args {
  ca_null_instance : bool; ca_null_session : bool; ca_src : buffer_arg; ca_dst : buffer_arg; ca_tag : Z;
  ca_results : option CpaDcRqResults; ca_crc : option CpaCrcData
}.

Definition rejected (status : Z) (s : dc_session_desc_t) (t : dc_stats) (g : call_args) : option dc_result :=
  Some (mk_result (Returns status) s t (ca_results g) [] None).

Definition results_checksum (r : option CpaDcRqResults) : Z := match r with Some r => rq_checksum r | None => 0 end.

(** A request that the checks let through.  [rr_zero]: it is answered at once in a stateful
    session, if it can be. *)
Record dc_req := mk_dc_req {
  rr_flush : Z; rr_op : option CpaDcOpData; rr_dir : dc_request_dir_t; rr_mode : dc_cnv_mode_t; rr_zero : bool
}.
Definition req_call (q : dc_req) (g : call_args) : dc_call :=
  mk_call (ba_list (ca_src g)) (ba_list (ca_dst g)) (rr_flush q) (rr_op q) (ca_tag g) (rr_dir q) (rr_mode q).

Definition send_call (svc : sal_compression_service) (s : dc_session_desc_t) (t : dc_stats) (g : call_args) (q : dc_req)
    (e : dc_env) : option dc_result :=
  '(ret, s, t, c) ← dcCompDecompData svc s t (req_call q g) (ca_crc g) (results_checksum (ca_results g)) e;
  Some (mk_result ret s t (ca_results g) [] c).

(** A stateful session takes one request at a time. *)
Definition stateful_call (svc : sal_compression_service) (s : dc_session_desc_t) (t : dc_stats) (g : call_args) (q : dc_req)
    (e : dc_env) : option dc_result :=
  l ← LAC_SPINLOCK (sessionLock s);
  let s := s <| sessionLock := l |> in
  if negb (pendingStatefulCbCount s =? 0) then
    l ← LAC_SPINUNLOCK (sessionLock s);
    rejected CPA_STATUS_RETRY (s <| sessionLock := l |>) t g
  else
    '(answered, s, t, r, ev) ←
      (match ca_results g with
       | Some r => if rr_zero q then dcZeroLengthRequests s t r (rr_flush q) (ca_tag g) (rr_dir q) else Some (false, s, t, r, [])
       | None => None
       end);
    if (answered : bool) then Some (mk_result (Returns CPA_STATUS_SUCCESS) s t (Some r) ev None)
    else
      let s := s <| pendingStatefulCbCount := pendingStatefulCbCount s + 1 |> in
      l ← LAC_SPINUNLOCK (sessionLock s);
      send_call svc (s <| sessionLock := l |>) t g q e.

Definition request_call (svc : sal_compression_service) (s : dc_session_desc_t) (t : dc_stats) (g : call_args)
    (q : Z + dc_req) (e : dc_env) : option dc_result :=
  match q with
  | inl status => rejected status s t g
  | inr q => if CPA_DC_STATEFUL =? sessState s then stateful_call svc s t g q e else send_call svc s t g q e
  end.
End create.

(** The checks that all the calls begin with, and the size of the source *)
Definition begin_call (g : call_args) (svc : sal_compression_service) (first_checks : list Z) : Z + Z :=
  let status := checks (first_checks ++ [SAL_RUNNING_CHECK svc]) in
  if negb (status =? CPA_STATUS_SUCCESS) then inl status
  else
    let '(status, srcBuffSize) := LacBuffDesc_BufferListVerifyNull (is_null (ba_ptr (ca_src g))) (ba_list (ca_src g)) 0 LAC_NO_ALIGNMENT_SHIFT in
    if negb (status =? CPA_STATUS_SUCCESS) then inl CPA_STATUS_INVALID_PARAM
    else if negb (SAL_CHECK_INSTANCE_TYPE svc =? CPA_STATUS_SUCCESS) then inl (SAL_CHECK_INSTANCE_TYPE svc)
    else inr srcBuffSize.

Definition dcParamCheck (svc : sal_compression_service) (s : dc_session_desc_t) (g : call_args) (flushFlag srcBuffSize : Z) : Z :=
  if negb (dcCheckSourceData (ca_null_session g) s (ca_src g) (ca_dst g) (ca_results g) flushFlag srcBuffSize =? CPA_STATUS_SUCCESS)
  then CPA_STATUS_INVALID_PARAM
  else if negb (dcCheckDestinationData (ca_null_session g) svc s (ca_dst g) DC_COMPRESSION_REQUEST =? CPA_STATUS_SUCCESS)
  then CPA_STATUS_INVALID_PARAM
  else if CPA_DC_DIR_DECOMPRESS =? sessDirection s then CPA_STATUS_INVALID_PARAM
  else CPA_STATUS_SUCCESS.

Definition has_feature (svc : sal_compression_service) (mask : Z) : bool := negb (Z.land (dcExtendedFeatures svc) mask =? 0).

(** The checks of each call: the status of a call that is rejected, or the request *)
Definition compress_checks (svc : sal_compression_service) (s : dc_session_desc_t) (g : call_args) (flushFlag : Z) : Z + dc_req :=
  match begin_call g svc [LAC_CHECK_NULL_PARAM (ca_null_instance g); LAC_CHECK_NULL_PARAM (ca_null_session g);
                          SAL_CHECK_ADDR_TRANS_SETUP svc] with
  | inl status => inl status
  | inr srcBuffSize =>
      if negb (dcParamCheck svc s g flushFlag srcBuffSize =? CPA_STATUS_SUCCESS) then inl CPA_STATUS_INVALID_PARAM
      else if CPA_DC_STATEFUL =? sessState s then inl CPA_STATUS_UNSUPPORTED
      else if negb (has_feature svc DC_CNV_EXTENDED_CAPABILITY) then inl CPA_STATUS_UNSUPPORTED
      else if negb (has_feature svc DC_CNVNR_EXTENDED_CAPABILITY) then inl CPA_STATUS_UNSUPPORTED
      else inr (mk_dc_req flushFlag None DC_COMPRESSION_REQUEST DC_CNVNR false)
  end.

(** [op] is [None] when the pointer is NULL. *)
Definition compress2_checks (svc : sal_compression_service) (s : dc_session_desc_t) (g : call_args) (op : option CpaDcOpData)
    : Z + dc_req :=
  match op with
  | None => inl CPA_STATUS_INVALID_PARAM
  | Some op =>
      let cnv := op_compressAndVerify op in
      let cnvnr := op_compressAndVerifyAndRecover op in
      if bad_flag cnv || bad_flag cnvnr then inl CPA_STATUS_INVALID_PARAM
      else if (CPA_FALSE =? cnv) && (CPA_TRUE =? cnvnr) then inl CPA_STATUS_INVALID_PARAM
      else if (CPA_TRUE =? cnv) && (CPA_TRUE =? cnvnr) && (CPA_FALSE =? op_integrityCrcCheck op)
      then compress_checks svc s g (op_flushFlag op)
      else if CPA_FALSE =? cnv then inl CPA_STATUS_UNSUPPORTED
      else
        match begin_call g svc [LAC_CHECK_NULL_PARAM (ca_null_instance g); LAC_CHECK_NULL_PARAM (ca_null_session g);
                                SAL_CHECK_ADDR_TRANS_SETUP svc] with
        | inl status => inl status
        | inr srcBuffSize =>
            if (CPA_TRUE =? cnv) && (CPA_DC_STATEFUL =? sessState s) then inl CPA_STATUS_UNSUPPORTED
            else if negb (has_feature svc DC_CNV_EXTENDED_CAPABILITY) && (CPA_TRUE =? cnv) then inl CPA_STATUS_UNSUPPORTED
            else if (CPA_DC_LZ4 =? compType s) && (CPA_TRUE =? op_integrityCrcCheck op) then inl CPA_STATUS_UNSUPPORTED
            else if negb (dcParamCheck svc s g (op_flushFlag op) srcBuffSize =? CPA_STATUS_SUCCESS) then inl CPA_STATUS_INVALID_PARAM
            else if negb (dcCheckOpData svc op =? CPA_STATUS_SUCCESS) then inl CPA_STATUS_INVALID_PARAM
            else if negb (CPA_TRUE =? cnv) && (DC_COMP_MAX_BUFF_SIZE <? srcBuffSize) then inl CPA_STATUS_UNSUPPORTED
            else
              let mode := if CPA_TRUE =? cnvnr then DC_CNVNR else if CPA_TRUE =? cnv then DC_CNV else DC_NO_CNV in
              inr (mk_dc_req (op_flushFlag op) (Some op) DC_COMPRESSION_REQUEST mode (0 =? srcBuffSize))
        end
  end.

(** A source that is too short for the device, unless it ends the stream *)
Definition short_source (srcBuffSize flushFlag : Z) : bool :=
  (1 =? srcBuffSize) && negb (CPA_DC_FLUSH_FINAL =? flushFlag) && negb (CPA_DC_FLUSH_FULL =? flushFlag).

Definition decompress_checks (svc : sal_compression_service) (s : dc_session_desc_t) (g : call_args) (flushFlag : Z) : Z + dc_req :=
  match begin_call g svc [LAC_CHECK_NULL_PARAM (ca_null_instance g); SAL_CHECK_ADDR_TRANS_SETUP svc] with
  | inl status => inl status
  | inr srcBuffSize =>
      if negb (dcCheckSourceData (ca_null_session g) s (ca_src g) (ca_dst g) (ca_results g) flushFlag srcBuffSize =? CPA_STATUS_SUCCESS)
      then inl CPA_STATUS_INVALID_PARAM
      else if negb (dcCheckDestinationData (ca_null_session g) svc s (ca_dst g) DC_DECOMPRESSION_REQUEST =? CPA_STATUS_SUCCESS)
      then inl CPA_STATUS_INVALID_PARAM
      else if CPA_DC_DIR_COMPRESS =? sessDirection s then inl CPA_STATUS_INVALID_PARAM
      else inr (mk_dc_req flushFlag None DC_DECOMPRESSION_REQUEST DC_NO_CNV
                  ((0 =? srcBuffSize) || short_source srcBuffSize flushFlag && negb (isGen4 svc)))
  end.

Definition decompress2_checks (svc : sal_compression_service) (s : dc_session_desc_t) (g : call_args) (op : option CpaDcOpData)
    : Z + dc_req :=
  match begin_call g svc [LAC_CHECK_NULL_PARAM (ca_null_instance g); SAL_CHECK_ADDR_TRANS_SETUP svc;
                          LAC_CHECK_NULL_PARAM (match op with None => true | _ => false end)], op with
  | inl status, _ => inl status
  | inr _, None => inl CPA_STATUS_INVALID_PARAM
  | inr srcBuffSize, Some op =>
      if negb (dcCheckSourceData (ca_null_session g) s (ca_src g) (ca_dst g) (ca_results g) CPA_DC_FLUSH_NONE srcBuffSize =? CPA_STATUS_SUCCESS)
      then inl CPA_STATUS_INVALID_PARAM
      else if negb (dcCheckDestinationData (ca_null_session g) svc s (ca_dst g) DC_DECOMPRESSION_REQUEST =? CPA_STATUS_SUCCESS)
      then inl CPA_STATUS_INVALID_PARAM
      else if negb (dcCheckOpData svc op =? CPA_STATUS_SUCCESS) then inl CPA_STATUS_INVALID_PARAM
      else if CPA_DC_DIR_COMPRESS =? sessDirection s then inl CPA_STATUS_INVALID_PARAM
      else inr (mk_dc_req (op_flushFlag op) (Some op) DC_DECOMPRESSION_REQUEST DC_NO_CNV
                  (negb (isGen4 svc) && ((0 =? srcBuffSize) || short_source srcBuffSize (op_flushFlag op))))
  end.

(** The calls of the API *)
Section calls.
Variables v2p crc_table_addr : Z -> Z.
Variables (svc : sal_compression_service) (s : dc_session_desc_t) (t : dc_stats) (g : call_args).

Definition cpaDcCompressData (flushFlag : Z) : dc_env -> option dc_result :=
  request_call v2p crc_table_addr svc s t g (compress_checks svc s g flushFlag).
Definition cpaDcCompressData2 (op : option CpaDcOpData) : dc_env -> option dc_result :=
  request_call v2p crc_table_addr svc s t g (compress2_checks svc s g op).
Definition cpaDcDecompressData (flushFlag : Z) : dc_env -> option dc_result :=
  request_call v2p crc_table_addr svc s t g (decompress_checks svc s g flushFlag).
Definition cpaDcDecompressData2 (op : option CpaDcOpData) : dc_env -> option dc_result :=
  request_call v2p crc_table_addr svc s t g (decompress2_checks svc s g op).
End calls.

(** * What a call changes in the session *)

(** The parts of a session that requests and responses leave as they are *)
Record kept (s s' : dc_session_desc_t) : Prop := {
  kp_setup : compType s' = compType s /\ huffType s' = huffType s /\ checksumType s' = checksumType s /\
    sessDirection s' = sessDirection s /\ sessState s' = sessState s /\ compLevel s' = compLevel s /\
    autoSelectBestHuffmanTree s' = autoSelectBestHuffmanTree s /\ accumulateXXHash s' = accumulateXXHash s;
  kp_templates : reqCacheComp s' = reqCacheComp s /\ reqCacheDecomp s' = reqCacheDecomp s;
  kp_locks : sessionLock s' = sessionLock s /\ updateLock s' = updateLock s;
  kp_client : pCompressionCb s' = pCompressionCb s /\ isDcDp s' = isDcDp s
}.

Lemma kept_refl s : kept s s.
Proof. by constructor. Qed.
Lemma kept_trans s1 s2 s3 : kept s1 s2 -> kept s2 s3 -> kept s1 s3.
Proof. intros [? ? ? ?] [? ? ? ?]. constructor; destruct_and!; split_and!; congruence. Qed.

(** The counters of pending requests are [a] and [b] more. *)
Definition counted (a b : Z) (s s' : dc_session_desc_t) : Prop :=
  kept s s' /\ pendingStatelessCbCount s' = pendingStatelessCbCount s + a /\ pendingStatefulCbCount s' = pendingStatefulCbCount s + b /\
  pendingDpStatelessCbCount s' = pendingDpStatelessCbCount s.

Lemma counted_trans a1 b1 a2 b2 s1 s2 s3 : counted a1 b1 s1 s2 -> counted a2 b2 s2 s3 -> counted (a1 + a2) (b1 + b2) s1 s3.
Proof. intros (K1 & ? & ? & ?) (K2 & ? & ? & ?). split; [by eapply kept_trans|lia]. Qed.

Ltac counted_tac := split; [by constructor|cbn; lia].

Lemma stream_flags_counted s d flush sop eop s' : stream_flags s d flush = (sop, eop, s') -> counted 0 0 s s'.
Proof.
  unfold stream_flags. intros H. repeat case_match; simplify_eq; counted_tac.
Qed.

Lemma read_template_same s d m s' : read_template s d = Some (m, s') -> s' = s /\ m = if is_comp d then reqCacheComp s else reqCacheDecomp s.
Proof.
  unfold read_template. intros H. destruct (is_comp d); rewrite ?andb_false_r, ?andb_true_r in H; [|by simplify_eq].
  destruct (CPA_DC_STATELESS =? sessState s); [|by simplify_eq].
  destruct (updateLock s) eqn:El; simpl in H; try done. injection H as <- <-. split; [destruct s; cbn in El; by subst|done].
Qed.

Lemma read_template_defined s d :
  (sessState s = CPA_DC_STATELESS -> updateLock s = LockFree) ->
  read_template s d = Some (if is_comp d then reqCacheComp s else reqCacheDecomp s, s).
Proof.
  intros Hl. destruct (read_template s d) as [[m s']|] eqn:E; [by apply read_template_same in E as [-> ->]|].
  exfalso. unfold read_template in E. destruct (Z.eqb_spec CPA_DC_STATELESS (sessState s)) as [Es|]; [|done].
  destruct (is_comp d); [|done]. cbn [andb] in E. by rewrite Hl in E.
Qed.

(** How far a call gets that its checks let through: no memory for its cookie, no message, no
    place in the ring, or sent *)
Inductive outcome := NoCookie | NotCreated | NotPut | Sent.
#[global] Instance outcome_dec : EqDecision outcome.
Proof. solve_decision. Defined.

Definition send_outcome (status put : Z) : outcome :=
  if negb (status =? CPA_STATUS_SUCCESS) then NotCreated else if negb (put =? CPA_STATUS_SUCCESS) then NotPut else Sent.

(** What an outcome does to the counter of a session *)
Definition stateless_delta (o : outcome) : Z := match o with NotCreated => -1 | Sent => 1 | _ => 0 end.
Definition stateful_delta (o : outcome) : Z := match o with NotCreated | NotPut => -1 | _ => 0 end.

Lemma send_created_counted put st d s t c st' s' t' c' :
  send_created put st d s t c = (st', s', t', c') ->
  (if CPA_DC_STATELESS =? sessState s then counted (stateless_delta (send_outcome st put)) 0 s s'
   else counted 0 (stateful_delta (send_outcome st put)) s s') /\
  (st' = CPA_STATUS_SUCCESS <-> send_outcome st put = Sent) /\ c' = (if decide (send_outcome st put = Sent) then Some c else None).
Proof.
  unfold send_created, dcSendRequest, send_outcome. intros H.
  destruct (Z.eqb_spec st CPA_STATUS_SUCCESS) as [_|E1].
  - destruct (Z.eqb_spec put CPA_STATUS_SUCCESS) as [->|E2].
    + change (CPA_STATUS_RETRY =? CPA_STATUS_SUCCESS) with false in H. rewrite andb_false_r in H. cbn [negb].
      destruct (CPA_DC_STATELESS =? sessState s); injection H as <- <- <- <-; (split; [counted_tac|done]).
    + cbn [negb]. destruct (CPA_DC_STATELESS =? sessState s) eqn:E3.
      * change (sessState (s <| pendingStatelessCbCount := pendingStatelessCbCount s + 1 |>)) with (sessState s) in H.
        destruct (CPA_DC_STATEFUL =? sessState s) eqn:E4; [exfalso; unfold CPA_DC_STATELESS, CPA_DC_STATEFUL in *; lia|]. cbn [andb] in H.
        change (sessState (s <| pendingStatelessCbCount := pendingStatelessCbCount s + 1 |>)) with (sessState s) in H. rewrite E3 in H.
        injection H as <- <- <- <-. split; [counted_tac|done].
      * destruct ((CPA_DC_STATEFUL =? sessState s) && (CPA_STATUS_RETRY =? put));
          [change (sessState (s <| requestType := previousRequestType s |>)) with (sessState s) in H|]; rewrite E3 in H;
          injection H as <- <- <- <-; (split; [counted_tac|done]).
  - cbn [negb]. destruct (Z.eqb_spec st CPA_STATUS_SUCCESS); [done|].
    destruct (CPA_DC_STATELESS =? sessState s); injection H as <- <- <- <-; (split; [counted_tac|done]).
Qed.

Lemma alloc_entry l p c : alloc_loop l = Some (Some (p, c)) -> AllocEntry p c ∈ l.
Proof. induction l as [|[] l IH]; cbn; intros H; simplify_eq; [right; auto|left]. Qed.

Section outcomes.
Variables (v2p crc_table_addr : Z -> Z).

Definition async_outcome (svc : sal_compression_service) (s : dc_session_desc_t) (a : dc_call) (crc : option CpaCrcData)
    (checksum : Z) (e : dc_env) : option outcome :=
  match alloc_loop (env_alloc e) with
  | None => None
  | Some None => Some NoCookie
  | Some (Some (p, c)) =>
      match dcCreateRequest v2p crc_table_addr svc s a crc checksum p c with
      | None => None
      | Some (st, _, _, _) =>
          Some (send_outcome st (env_put e))
      end
  end.

Lemma create_counted svc s a crc checksum p c st s' c' log :
  dcCreateRequest v2p crc_table_addr svc s a crc checksum p c = Some (st, s', c', log) ->
  counted 0 0 s s' /\ (st = CPA_STATUS_SUCCESS -> ck_callbackTag c' = cl_tag a /\ ck_compDecomp c' = cl_dir a /\
    ck_flushFlag c' = call_flush a /\ ck_opData c' = cl_opData a /\ opaque_data (ck_request c') = p).
Proof.
  unfold dcCreateRequest. intros H.
  destruct (LacBuffDesc_BufferListDescWriteAndGetSize v2p (cl_src a) false) as [[[st1 a1] t1] l1].
  destruct (LacBuffDesc_BufferListDescWriteAndGetSize v2p (cl_dst a) false) as [[[st2 a2] t2] l2].
  destruct (Z.eqb_spec st1 CPA_STATUS_SUCCESS); cbn [negb] in H; [|by simplify_eq; split; [counted_tac|]].
  destruct (Z.eqb_spec st2 CPA_STATUS_SUCCESS); cbn [negb] in H; [|by simplify_eq; split; [counted_tac|]].
  apply bind_Some in H as ([m s1] & Hm & H). apply read_template_same in Hm as [-> ->].
  apply bind_Some in H as ([[m c1] mode] & Hc & H).
  destruct m as [m|]; [|by simplify_eq; split; [counted_tac|]].
  destruct (stream_flags s (cl_dir a) (call_flush a)) as [[sop eop] s2] eqn:Ef.
  destruct (cnv_flags svc s2 (cl_cnvMode a)) as [[x y] z]. injection H as <- <- <- <-.
  split; [by eapply stream_flags_counted|]. intros _.
  assert (ck_callbackTag c1 = cl_tag a /\ ck_compDecomp c1 = cl_dir a /\ ck_flushFlag c1 = call_flush a /\ ck_opData c1 = cl_opData a)
    as (H1 & H2 & H3 & H4); [|split_and!; [exact H1|exact H2|exact H3|exact H4|reflexivity]].
  unfold request_crcs in Hc. destruct (initial_checksums s checksum) as [ad cr].
  case_if; [case_if; [done|]; apply bind_Some in Hc as (crc' & _ & Hc)|]; injection Hc as _ <- _; unfold call_cookie;
    destruct (cl_opData a); done.
Qed.

Lemma async_counted svc s t a crc checksum e st s' t' sent :
  comp_decomp_async v2p crc_table_addr svc s t a crc checksum e = Some (st, s', t', sent) ->
  exists o, async_outcome svc s a crc checksum e = Some o /\
    (if CPA_DC_STATELESS =? sessState s then counted (stateless_delta o) 0 s s' else counted 0 (stateful_delta o) s s') /\
    (st = CPA_STATUS_SUCCESS <-> o = Sent) /\
    match sent with
    | Some (p, c) => o = Sent /\ ck_callbackTag c = cl_tag a /\ ck_compDecomp c = cl_dir a /\ opaque_data (ck_request c) = p /\
        exists c0, AllocEntry p c0 ∈ env_alloc e
    | None => o <> Sent
    end.
Proof.
  unfold comp_decomp_async, async_outcome. intros H. apply bind_Some in H as (entry & Ee & H). rewrite Ee.
  destruct entry as [[p c]|].
  2: { injection H as <- <- <- <-. exists NoCookie. split; [done|]. split; [case_if; counted_tac|done]. }
  apply bind_Some in H as ([[[st1 s1] t1] c1] & Hc & H). injection H as <- <- <- <-.
  unfold create_and_send in Hc. apply bind_Some in Hc as ([[[st2 s2] c2] log] & Hd & Hc). rewrite Hd. injection Hc as Hc.
  apply create_counted in Hd as [HK Htag]. apply send_created_counted in Hc as (H1 & H2 & ->).
  exists (send_outcome st2 (env_put e)). split; [done|]. split; [|split; [done|]].
  - assert (sessState s2 = sessState s) as Es by (destruct HK as [[(_ & _ & _ & _ & ? & _) _ _ _] _]; done). rewrite Es in H1.
    destruct (CPA_DC_STATELESS =? sessState s); exact (counted_trans _ _ _ _ _ _ _ HK H1).
  - case_decide as E; [|done]. cbn [option_map]. split; [done|]. unfold send_outcome in E.
    destruct (Z.eqb_spec st2 CPA_STATUS_SUCCESS) as [->|]; [|done]. destruct (Htag eq_refl) as (? & ? & _ & _ & ?).
    split_and!; try done. exists c. by apply alloc_entry.
Qed.

(** A synchronous call needs a cookie to wait with, too. *)
Definition sync_call (s : dc_session_desc_t) (a : dc_call) (e : dc_env) : dc_call :=
  if pCompressionCb s == CbSync
  then mk_call (cl_src a) (cl_dst a) (cl_flushFlag a) (cl_opData a) (env_sync_tag e) (cl_dir a) (cl_cnvMode a) else a.
Definition call_outcome (svc : sal_compression_service) (s : dc_session_desc_t) (a : dc_call) (crc : option CpaCrcData)
    (checksum : Z) (e : dc_env) : option outcome :=
  if (pCompressionCb s == CbSync) && negb (env_sync e =? CPA_STATUS_SUCCESS) then Some NoCookie
  else async_outcome svc s (sync_call s a e) crc checksum e.

(** How a call goes: rejected with this status, answered at once, or as far as the outcome says *)
Inductive call_kind := KReject (status : Z) | KAnswer | KSend (o : outcome).

Definition request_kind (svc : sal_compression_service) (s : dc_session_desc_t) (g : call_args) (q : Z + dc_req) (e : dc_env)
    : option call_kind :=
  match q with
  | inl status => Some (KReject status)
  | inr q =>
      if CPA_DC_STATEFUL =? sessState s then
        if negb (pendingStatefulCbCount s =? 0) then Some (KReject CPA_STATUS_RETRY)
        else if rr_zero q && ((requestType s == DC_REQUEST_FIRST) || (CPA_DC_FLUSH_NONE =? rr_flush q) || (CPA_DC_FLUSH_SYNC =? rr_flush q))
        then Some KAnswer
        else KSend <$> call_outcome svc (s <| pendingStatefulCbCount := pendingStatefulCbCount s + 1 |>) (req_call q g) (ca_crc g) (results_checksum (ca_results g)) e
      else KSend <$> call_outcome svc s (req_call q g) (ca_crc g) (results_checksum (ca_results g)) e
  end.

(** What a call adds to the counters *)
Definition kind_stateless (k : call_kind) : Z := match k with KSend o => stateless_delta o | _ => 0 end.
Definition kind_stateful (k : call_kind) : Z := match k with KSend o => 1 + stateful_delta o | _ => 0 end.

Lemma send_call_counted svc s t g q e r :
  send_call v2p crc_table_addr svc s t g q e = Some r ->
  exists o, call_outcome svc s (req_call q g) (ca_crc g) (results_checksum (ca_results g)) e = Some o /\
    (if CPA_DC_STATELESS =? sessState s then counted (stateless_delta o) 0 s (rt_session r) else counted 0 (stateful_delta o) s (rt_session r)) /\
    rt_results r = ca_results g /\ rt_events r = [] /\
    match rt_sent r with
    | Some (p, c) => o = Sent /\ opaque_data (ck_request c) = p /\ (exists c0, AllocEntry p c0 ∈ env_alloc e) /\ ck_compDecomp c = rr_dir q /\
        ck_callbackTag c = (if pCompressionCb s == CbSync then env_sync_tag e else ca_tag g) /\
        rt_return r = (if pCompressionCb s == CbSync then Waits (env_sync_tag e) else Returns CPA_STATUS_SUCCESS)
    | None => o <> Sent /\ exists st, rt_return r = Returns st /\ st <> CPA_STATUS_SUCCESS
    end.
Proof.
  unfold send_call, dcCompDecompData, call_outcome, sync_call. intros H. apply bind_Some in H as ([[[ret s1] t1] sent] & H & [= <-]).
  cbn [rt_session rt_results rt_events rt_sent rt_return].
  destruct (bool_decide (pCompressionCb s = CbSync)) eqn:Eb; cbn [andb].
  - destruct (Z.eqb_spec (env_sync e) CPA_STATUS_SUCCESS) as [Es|Es]; cbn [negb].
    + apply bind_Some in H as ([[[st s2] t2] c] & H & [= <- <- <- <-]).
      destruct (async_counted _ _ _ _ _ _ _ _ _ _ _ H) as (o & Eo & HK & Hst & Hs). exists o. split; [exact Eo|]. split; [exact HK|].
      split; [done|]. split; [done|]. destruct c as [[p c]|].
      * destruct Hs as (-> & ? & ? & ? & ?). destruct (Z.eqb_spec st CPA_STATUS_SUCCESS); [done|]. tauto.
      * split; [done|]. exists st. destruct (Z.eqb_spec st CPA_STATUS_SUCCESS); tauto.
    + injection H as <- <- <- <-. exists NoCookie. split; [done|]. split; [case_if; counted_tac|]. split; [done|]. split; [done|].
      split; [done|]. by eexists.
  - apply bind_Some in H as ([[[st s2] t2] c] & H & [= <- <- <- <-]).
    destruct (async_counted _ _ _ _ _ _ _ _ _ _ _ H) as (o & Eo & HK & Hst & Hs). exists o. split; [exact Eo|]. split; [exact HK|].
    split; [done|]. split; [done|]. destruct c as [[p c]|].
    + destruct Hs as (-> & ? & ? & ? & ?). rewrite (proj2 Hst eq_refl). tauto.
    + split; [done|]. exists st. tauto.
Qed.

Lemma session_relock s : sessionLock s = LockFree -> s <| sessionLock := LockHeld |> <| sessionLock := LockFree |> = s.
Proof. destruct s. cbn. by intros ->. Qed.

Lemma zero_length_cases s r flush d :
  match zero_length s r flush d with
  | Some (r', s') => counted 0 0 s s' /\
      (requestType s == DC_REQUEST_FIRST) || (CPA_DC_FLUSH_NONE =? flush) || (CPA_DC_FLUSH_SYNC =? flush) = true
  | None => (requestType s == DC_REQUEST_FIRST) || (CPA_DC_FLUSH_NONE =? flush) || (CPA_DC_FLUSH_SYNC =? flush) = false
  end.
Proof.
  unfold zero_length. destruct (requestType s == DC_REQUEST_FIRST); [split; [counted_tac|done]|]. cbn [orb].
  destruct (_ || _); [split; [counted_tac|done]|done].
Qed.

(** The requests that a call has sent, and the callbacks it has made *)
Definition kind_done (s : dc_session_desc_t) (g : call_args) (e : dc_env) (k : call_kind) (r : dc_result) : Prop :=
  match k with
  | KReject st => rt_return r = Returns st /\ rt_session r = s /\ rt_events r = [] /\ rt_sent r = None /\ rt_results r = ca_results g
  | KAnswer => rt_return r = Returns CPA_STATUS_SUCCESS /\ rt_sent r = None /\
      rt_events r = (if pCompressionCb s == CbClient then [EvCallback CbClient (ca_tag g) CPA_STATUS_SUCCESS] else []) /\
      exists r', rt_results r = Some r' /\ rq_status r' = CPA_DC_OK /\ rq_consumed r' = 0 /\ rq_produced r' = 0
  | KSend o => rt_events r = [] /\ rt_results r = ca_results g /\
      match rt_sent r with
      | Some (p, c) => o = Sent /\ opaque_data (ck_request c) = p /\ (exists c0, AllocEntry p c0 ∈ env_alloc e) /\
          ck_callbackTag c = (if pCompressionCb s == CbSync then env_sync_tag e else ca_tag g) /\
          rt_return r = (if pCompressionCb s == CbSync then Waits (env_sync_tag e) else Returns CPA_STATUS_SUCCESS)
      | None => o <> Sent /\ exists st, rt_return r = Returns st /\ st <> CPA_STATUS_SUCCESS
      end
  end.

Lemma zero_requests s t r flush tag d answered s1 t1 r1 ev :
  sessionLock s = LockFree -> dcZeroLengthRequests (s <| sessionLock := LockHeld |>) t r flush tag d = Some (answered, s1, t1, r1, ev) ->
  answered = (requestType s == DC_REQUEST_FIRST) || (CPA_DC_FLUSH_NONE =? flush) || (CPA_DC_FLUSH_SYNC =? flush) /\
  if answered then counted 0 0 s s1 /\ ev = (if pCompressionCb s == CbClient then [EvCallback CbClient tag CPA_STATUS_SUCCESS] else []) /\
    rq_status r1 = CPA_DC_OK /\ rq_consumed r1 = 0 /\ rq_produced r1 = 0
  else s1 = s <| sessionLock := LockHeld |>.
Proof.
  intros El H. unfold dcZeroLengthRequests in H. pose proof (zero_length_cases (s <| sessionLock := LockHeld |>) r flush d) as HZ.
  destruct (zero_length _ _ _ _) as [[r2 s2]|]; [|injection H as <- <- <- <- <-; by split].
  destruct HZ as [(K & P1 & P2 & P3) Hb]. pose proof (kp_locks _ _ K) as [E1 E2]. pose proof (kp_client _ _ K) as [Ecb _].
  change (sessionLock (s <| sessionLock := LockHeld |>)) with LockHeld in E1. rewrite E1 in H. cbn [LAC_SPINUNLOCK mbind option_bind] in H.
  change (pCompressionCb (s2 <| sessionLock := LockFree |>)) with (pCompressionCb s2) in H. rewrite Ecb in H.
  change (pCompressionCb (s <| sessionLock := LockHeld |>)) with (pCompressionCb s) in H.
  injection H as <- <- <- <- <-. split; [done|]. split.
  - split; [|done]. destruct K as [K1 K2 K3 K4]. constructor; [exact K1|exact K2|split; [done|exact E2]|exact K4].
  - split; [|done]. by destruct (pCompressionCb s).
Qed.

Lemma stateful_call_counted svc s t g q e r :
  sessState s = CPA_DC_STATEFUL -> stateful_call v2p crc_table_addr svc s t g q e = Some r ->
  exists k, request_kind svc s g (inr q) e = Some k /\ counted 0 (kind_stateful k) s (rt_session r) /\ kind_done s g e k r.
Proof.
  intros Es H. unfold stateful_call in H. unfold request_kind. rewrite Es. change (CPA_DC_STATEFUL =? CPA_DC_STATEFUL) with true. cbn [negb].
  destruct (sessionLock s) eqn:El; cbn [LAC_SPINLOCK mbind option_bind] in H; try done.
  change (pendingStatefulCbCount (s <| sessionLock := LockHeld |>)) with (pendingStatefulCbCount s) in H.
  destruct (negb (pendingStatefulCbCount s =? 0)) eqn:Ep.
  - change (LAC_SPINUNLOCK (sessionLock (s <| sessionLock := LockHeld |>))) with (Some LockFree) in H. cbn [mbind option_bind] in H.
    rewrite session_relock in H by done. injection H as <-.
    exists (KReject CPA_STATUS_RETRY). split; [done|]. split; [counted_tac|done].
  - apply bind_Some in H as ([[[[answered s1] t1] r1] ev] & Hz & H).
    assert (answered = rr_zero q && ((requestType s == DC_REQUEST_FIRST) || (CPA_DC_FLUSH_NONE =? rr_flush q) || (CPA_DC_FLUSH_SYNC =? rr_flush q)) /\
      if answered then counted 0 0 s s1 /\ ev = (if pCompressionCb s == CbClient then [EvCallback CbClient (ca_tag g) CPA_STATUS_SUCCESS] else []) /\
        rq_status r1 = CPA_DC_OK /\ rq_consumed r1 = 0 /\ rq_produced r1 = 0
      else s1 = s <| sessionLock := LockHeld |>) as [Ea Hans].
    { destruct (ca_results g) as [r0|]; [|done]. destruct (rr_zero q); [|by injection Hz as <- <- <- <- <-].
      exact (zero_requests _ _ _ _ _ _ _ _ _ _ _ El Hz). }
    rewrite <- Ea. destruct answered.
    + injection H as <-. exists KAnswer. split; [done|]. destruct Hans as (? & ? & ?). split; [done|]. split; [done|]. split; [done|]. split; [done|].
      by exists r1.
    + subst s1.
      change (LAC_SPINUNLOCK (sessionLock (s <| sessionLock := LockHeld |> <| pendingStatefulCbCount :=
        pendingStatefulCbCount (s <| sessionLock := LockHeld |>) + 1 |>))) with (Some LockFree) in H. cbn [mbind option_bind] in H.
      assert (s <| sessionLock := LockHeld |> <| pendingStatefulCbCount := pendingStatefulCbCount (s <| sessionLock := LockHeld |>) + 1 |>
        <| sessionLock := LockFree |> = s <| pendingStatefulCbCount := pendingStatefulCbCount s + 1 |>) as E2 by (destruct s; cbn in El; by subst).
      rewrite E2 in H. clear E2. apply send_call_counted in H as (o & Eo & HK & Hres & Hev & Hsent).
      exists (KSend o). rewrite Eo. split; [done|].
      change (sessState (s <| pendingStatefulCbCount := pendingStatefulCbCount s + 1 |>)) with (sessState s) in HK. rewrite Es in HK.
      split; [eapply (counted_trans 0 1 0 (stateful_delta o)); [|exact HK]; counted_tac|]. split; [done|]. split; [done|].
      destruct (rt_sent r) as [[p c]|]; [|done]. destruct Hsent as (? & ? & ? & _ & ? & ?). done.
Qed.

Lemma request_call_counted svc s t g q e r :
  request_call v2p crc_table_addr svc s t g q e = Some r ->
  exists k, request_kind svc s g q e = Some k /\ kind_done s g e k r /\
    if CPA_DC_STATEFUL =? sessState s then counted 0 (kind_stateful k) s (rt_session r)
    else if CPA_DC_STATELESS =? sessState s then counted (kind_stateless k) 0 s (rt_session r) else True.
Proof.
  unfold request_call. intros H. destruct q as [st|q].
  { injection H as <-. exists (KReject st). split; [done|]. split; [done|]. repeat case_if; try counted_tac; done. }
  destruct (Z.eqb_spec CPA_DC_STATEFUL (sessState s)) as [E|E].
  - apply stateful_call_counted in H as (k & ? & ? & ?); [|done]. by exists k.
  - unfold request_kind. destruct (Z.eqb_spec CPA_DC_STATEFUL (sessState s)); [done|].
    apply send_call_counted in H as (o & Eo & HK & Hres & Hev & Hsent). exists (KSend o). rewrite Eo. split; [done|]. split.
    + split; [done|]. split; [done|]. destruct (rt_sent r) as [[p c]|]; [|done]. destruct Hsent as (? & ? & ? & _ & ? & ?). done.
    + by destruct (CPA_DC_STATELESS =? sessState s).
Qed.
End outcomes.

(** * What a response changes in the session *)

(** The counters before [finish] *)
Definition uncounted_step (w w' : dc_world) : Prop := counted 0 0 (w_session w) (w_session w') /\ w_events w' = w_events w.

Lemma uncounted_refl w : uncounted_step w w.
Proof. split; [counted_tac|done]. Qed.
Lemma uncounted_trans w1 w2 w3 : uncounted_step w1 w2 -> uncounted_step w2 w3 -> uncounted_step w1 w3.
Proof. intros [H1 E1] [H2 E2]. split; [exact (counted_trans _ _ _ _ _ _ _ H1 H2)|congruence]. Qed.

Lemma update_crc_counted s off v : counted 0 0 s (dcUpdateCompStateCrc s off v).
Proof. counted_tac. Qed.
Lemma xxhash_counted s seed : counted 0 0 s (dcXxhash32SetState s seed).
Proof. counted_tac. Qed.

Lemma integrity_counted mem c s crc r s' crc' r' : dcHandleIntegrityChecksums mem c s crc r = (s', crc', r') -> counted 0 0 s s'.
Proof.
  unfold dcHandleIntegrityChecksums. intros H.
  repeat match type of H with context [match ?x with _ => _ end] => lazymatch x with context [match _ with _ => _ end] => fail | _ => destruct x end end.
  all: injection H as <- _ _; counted_tac.
Qed.

Lemma results_counted mem svc c m w : uncounted_step w (response_results mem svc c m w).1.
Proof.
  unfold response_results. destruct (w_results w) as [r|]; [|apply uncounted_refl].
  destruct (w_crc w) as [crc|]; [|split; [counted_tac|done]].
  destruct (_ && _ && _); [|split; [counted_tac|done]].
  destruct (isGen4 svc).
  - destruct (dcHandleIntegrityChecksumsGen4 _ _ _ _ _) as [crc' r']. split; [counted_tac|done].
  - destruct (dcHandleIntegrityChecksums _ _ _ _ _) as [[s' crc'] r'] eqn:E. apply integrity_counted in E. split; [|done].
    eapply (counted_trans 0 0 0 0); [|exact E]. counted_tac.
Qed.

Lemma flags_counted svc d c k m w : uncounted_step w (response_flags svc d c k m w).
Proof.
  unfold response_flags, dcResetXxhashState.
  destruct (is_comp d), (isGen4 svc), (isDcDp (w_session w)), (negb (CPA_DC_OVERFLOW =? s8 (cmpErr k))); cbn [andb negb].
  all: repeat case_match; (split; [counted_tac|done]).
Qed.

Lemma pending_dec_counted s :
  if CPA_DC_STATELESS =? sessState s then counted (-1) 0 s (pending_dec s)
  else counted 0 (if pendingStatefulCbCount s =? 0 then 0 else -1) s (pending_dec s).
Proof.
  unfold pending_dec. destruct (CPA_DC_STATELESS =? sessState s); [counted_tac|].
  destruct (pendingStatefulCbCount s =? 0); counted_tac.
Qed.

Lemma finish_counted tag st rst w :
  isDcDp (w_session w) = false -> pCompressionCb (w_session w) <> CbNull ->
  finish tag st rst w = w <| w_session := pending_dec (w_session w) |>
                          <| w_events := w_events w ++ [EvCallback (pCompressionCb (w_session w)) tag st] |>.
Proof. intros Hd Hc. unfold finish. rewrite Hd. by rewrite bool_decide_false. Qed.

(** A response of a session that is not for the data plane takes one from the counter and calls
    the client once, with the tag of the request. *)
Lemma response_counted mem svc c m w :
  isDcDp (w_session w) = false -> pCompressionCb (w_session w) <> CbNull ->
  exists w1 st, uncounted_step w w1 /\
    w_session (dcCompression_ProcessCallback mem svc c m w) = pending_dec (w_session w1) /\
    w_events (dcCompression_ProcessCallback mem svc c m w) = w_events w ++ [EvCallback (pCompressionCb (w_session w)) (ck_callbackTag c) st].
Proof.
  intros Hd Hc.
  assert (forall w1 tag st rst, uncounted_step w w1 ->
    w_session (finish tag st rst w1) = pending_dec (w_session w1) /\
    w_events (finish tag st rst w1) = w_events w ++ [EvCallback (pCompressionCb (w_session w)) tag st]) as HF.
  { intros w1 tag st rst [[K _] E]. destruct (kp_client _ _ K) as [E1 E2]. rewrite finish_counted by congruence. split; [done|].
    change (w_events w1 ++ [EvCallback (pCompressionCb (w_session w1)) tag st] = w_events w ++ [EvCallback (pCompressionCb (w_session w)) tag st]).
    by rewrite E, E1. }
  unfold dcCompression_ProcessCallback. rewrite Hd. cbv zeta.
  destruct (negb (ICP_QAT_FW_COMN_RESP_UNSUPPORTED_REQUEST_STAT_GET (comn_status m) =? 0)).
  { eexists _, _. split; [|apply HF]; (split; [counted_tac|done]). }
  match goal with |- context [response_results mem svc c m ?x] => set (w2 := x) end.
  assert (uncounted_step w w2) as H2 by (split; [counted_tac|done]).
  match goal with |- context [cmpPass ?x && xlatPass ?x] => set (k := x) end.
  destruct (if cmpPass k && xlatPass k then response_results mem svc c m w2 else (w2, false)) as [w3 pass] eqn:E3.
  assert (uncounted_step w w3) as H3.
  { destruct (cmpPass k && xlatPass k); [|by injection E3 as <- <-].
    eapply uncounted_trans; [exact H2|]. pose proof (results_counted mem svc c m w2) as HR. by rewrite E3 in HR. }
  destruct pass.
  - eexists _, _. split; [|apply HF]; (eapply uncounted_trans; [exact H3|apply flags_counted]).
  - eexists _, _. split; [|apply HF]; (eapply uncounted_trans; [exact H3|split; [counted_tac|done]]).
Qed.
