(* ===== verification/DcRequest.v ===== *)
(** The messages and the integrity checks of compression requests ([dc_datapath.c]): what the device
    is told by the message that [dcCreateRequest] builds, and what the checksums of a response are
    worth that [dcHandleIntegrityChecksums] has let through. *)

From S2P Require Import Prelude Checksum DcFormat Buffers DcSession DcData.

(** * Integrity *)

(** The first bytes of a client's buffer list *)
Definition client_bytes (mem : Z -> Z) (bl : CpaBufferList) (n : Z) : list Z := take (Z.to_nat n) (buffers_bytes (contents mem bl)).

Lemma contents_ok mem bl : (forall a, is_byte (mem a)) -> Forall buf_ok (pBuffers bl) -> Forall flat_ok (contents mem bl).
Proof.
  intros Hm Hb. unfold contents. apply (Forall_take _ (Z.to_nat (numBuffers bl))) in Hb. apply Forall_map.
  eapply Forall_impl; [exact Hb|]. intros b Hk. unfold buf_ok in Hk. split; cbn.
  - rewrite length_map, length_seqZ. lia.
  - apply Forall_map, Forall_true. intros a. apply Hm.
Qed.

Lemma client_crc32 mem bl n seed :
  (forall a, is_byte (mem a)) -> Forall buf_ok (pBuffers bl) -> 0 <= n -> 0 <= seed < 2 ^ 32 ->
  dcCalculateCrc32 (contents mem bl) n seed = crc32_serial seed (client_bytes mem bl n).
Proof. intros Hm Hb Hn Hs. apply (crc_buffer_list _ _ _ 0 Hn (contents_ok _ _ Hm Hb) Hs ltac:(lia)). Qed.
Lemma client_crc64 mem bl n :
  (forall a, is_byte (mem a)) -> Forall buf_ok (pBuffers bl) -> 0 <= n ->
  dcCalculateCrc64 (contents mem bl) n DC_DEFAULT_CRC = crc64_serial 0 (client_bytes mem bl n).
Proof. intros Hm Hb Hn. apply (crc_buffer_list _ _ 0 0 Hn (contents_ok _ _ Hm Hb)); unfold DC_DEFAULT_CRC; lia. Qed.

Definition reported (r : CpaDcRqResults) : Prop := rq_status r = CPA_DC_OK \/ rq_status r = CPA_DC_OVERFLOW.

Lemma integrity_error_reported r : ~ reported (integrity_error r).
Proof.
  unfold integrity_error, reported. destruct (Z.eqb_spec CPA_DC_OK (rq_status r)), (Z.eqb_spec CPA_DC_OVERFLOW (rq_status r)); cbn; intros [?|?]; (done || congruence).
Qed.

(** The seeds of the checksums of a request: a stateful session goes on from those of the request before. *)
Definition crc_seeds (s : dc_session_desc_t) (x : CpaCrcData) : Z * Z :=
  if CPA_DC_STATEFUL =? sessState s then (cd_iCrc x, cd_oCrc x) else (0, 0).

Lemma integrity_gen2 mem c s x r s' x' r' :
  dcHandleIntegrityChecksums mem c s x r = (s', x', r') -> op_verify c = true -> reported r' ->
  cd_iCrc x' = dcCalculateCrc32 (contents mem (ck_src c)) (rq_consumed r) (crc_seeds s x).1 /\
  cd_oCrc x' = dcCalculateCrc32 (contents mem (ck_dst c)) (rq_produced r) (crc_seeds s x).2 /\
  rq_consumed r' = rq_consumed r /\ rq_produced r' = rq_produced r.
Proof.
  unfold dcHandleIntegrityChecksums. intros H Hv Hr. rewrite Hv in H. cbn [orb] in H.
  assert ((if CPA_DC_STATEFUL =? sessState s then (cd_iCrc x, cd_oCrc x) else (DC_DEFAULT_CRC, DC_DEFAULT_CRC)) = crc_seeds s x) as E by done.
  rewrite E in H. clear E. destruct (crc_seeds s x) as [seedI seedO]. cbn [fst snd].
  set (swI := dcCalculateCrc32 (contents mem (ck_src c)) _ _) in *. set (swO := dcCalculateCrc32 (contents mem (ck_dst c)) _ _) in *.
  cbv beta iota zeta in H. match type of H with match ?x with _ => _ end = _ => destruct x as [[s1 ext] err] end.
  destruct (err || true && (negb (cd_iCrc ext =? swI) || negb (cd_oCrc ext =? swO))) eqn:Ee.
  - exfalso. apply (integrity_error_reported r).
    destruct (CPA_DC_CRC32 =? checksumType s1), (CPA_DC_ADLER32 =? checksumType s1); injection H as _ _ <-; exact Hr.
  - apply orb_false_iff in Ee as [_ Ee]. cbn [andb] in Ee. apply orb_false_iff in Ee as [Ei%negb_false_iff%Z.eqb_eq Eo%negb_false_iff%Z.eqb_eq].
    destruct (_ && is_comp _); cbv beta iota in H; repeat (destruct (_ =? checksumType _) in H); injection H as _ <- <-; split_and!; done.
Qed.

Lemma integrity_gen4 mem c s x r x' r' :
  dcHandleIntegrityChecksumsGen4 mem c s x r = (x', r') -> op_verify c = true -> reported r' ->
  cd_iCrc64 x' = dcCalculateCrc64 (contents mem (ck_src c)) (rq_consumed r) DC_DEFAULT_CRC /\
  cd_oCrc64 x' = dcCalculateCrc64 (contents mem (ck_dst c)) (rq_produced r) DC_DEFAULT_CRC /\
  rq_consumed r' = rq_consumed r /\ rq_produced r' = rq_produced r.
Proof.
  unfold dcHandleIntegrityChecksumsGen4. intros H Hv Hr. rewrite Hv in H. cbn [andb] in H.
  match type of H with context [(?e, _) = _] => set (ext := e) in * end.
  destruct (negb (cd_iCrc64 ext =? _) || negb (cd_oCrc64 ext =? _)) eqn:Ee.
  - exfalso. apply (integrity_error_reported r).
    destruct (CPA_DC_CRC32 =? checksumType s), ((CPA_DC_ADLER32 =? checksumType s) || (CPA_DC_XXHASH32 =? checksumType s)); injection H as _ <-; exact Hr.
  - apply orb_false_iff in Ee as [Ei%negb_false_iff%Z.eqb_eq Eo%negb_false_iff%Z.eqb_eq]. 
    destruct (CPA_DC_CRC32 =? checksumType s), ((CPA_DC_ADLER32 =? checksumType s) || (CPA_DC_XXHASH32 =? checksumType s));
      injection H as <- <-; split_and!; done.
Qed.

(** [finish] and the flags leave the counts, the status and the checksum data. *)
Definition same_counts (a b : option CpaDcRqResults) : Prop :=
  (fun r => (rq_status r, rq_consumed r, rq_produced r)) <$> a = (fun r => (rq_status r, rq_consumed r, rq_produced r)) <$> b.

Lemma finish_results tag st rst w : w_results (finish tag st rst w) = w_results w /\ w_crc (finish tag st rst w) = w_crc w.
Proof. unfold finish. by repeat case_match. Qed.

Lemma flags_results svc d c k m w : same_counts (w_results (response_flags svc d c k m w)) (w_results w) /\ w_crc (response_flags svc d c k m w) = w_crc w.
Proof.
  unfold response_flags, same_counts, dcResetXxhashState.
  destruct (is_comp d), (isGen4 svc), (isDcDp (w_session w)), (negb (CPA_DC_OVERFLOW =? s8 (cmpErr k))); cbn [andb negb].
  all: repeat case_match; (split; [cbn; by destruct (w_results w)|done]).
Qed.

(** The checksums of a client's buffers that an answer with [w'] must have *)
Definition crcs_of (mem : Z -> Z) (svc : sal_compression_service) (c : dc_compression_cookie_t) (s : dc_session_desc_t) (x x' : CpaCrcData)
    (consumed produced : Z) : Prop :=
  if isGen4 svc
  then cd_iCrc64 x' = crc64_serial 0 (client_bytes mem (ck_src c) consumed) /\
       cd_oCrc64 x' = crc64_serial 0 (client_bytes mem (ck_dst c) produced)
  else cd_iCrc x' = crc32_serial (crc_seeds s x).1 (client_bytes mem (ck_src c) consumed) /\
       cd_oCrc x' = crc32_serial (crc_seeds s x).2 (client_bytes mem (ck_dst c) produced).

(** The buffers and counts of a request whose checksums are verified *)
Record verified_request (mem : Z -> Z) (svc : sal_compression_service) (c : dc_compression_cookie_t) (m : comp_resp)
    (s : dc_session_desc_t) (x : CpaCrcData) : Prop := {
  vr_session : isDcDp s = false;
  vr_checked : integrityCrcCheck svc = true /\ ck_integrityCrcCheck c = CPA_TRUE /\ op_verify c = true;
  vr_mem : forall a, is_byte (mem a);
  vr_buffers : Forall buf_ok (pBuffers (ck_src c)) /\ Forall buf_ok (pBuffers (ck_dst c));
  vr_counts : 0 <= input_byte_counter m /\ 0 <= output_byte_counter m;
  vr_seeds : 0 <= cd_iCrc x < 2 ^ 32 /\ 0 <= cd_oCrc x < 2 ^ 32
}.

Lemma results_verified mem svc c m w w3 x r3 :
  verified_request mem svc c m (w_session w) x -> w_crc w = Some x ->
  response_results mem svc c m w = (w3, true) -> w_results w3 = Some r3 -> reported r3 ->
  exists x', w_crc w3 = Some x' /\ crcs_of mem svc c (w_session w) x x' (rq_consumed r3) (rq_produced r3).
Proof.
  intros [Hd (Hi & Hc & Hv) Hm [Hsrc Hdst] [Hin Hout] [Hx1 Hx2]] Ex E3 E4 Hrep. unfold response_results, crcs_of in *. rewrite Ex in E3.
  destruct (w_results w) as [r2|] eqn:E5; [|injection E3 as <-; congruence].
  match type of E3 with context [negb (isDcDp ?a)] => change (isDcDp a) with (isDcDp (w_session w)) in E3 end.
  rewrite Hd, Hi, Hc in E3. change (CPA_TRUE =? CPA_TRUE) with true in E3. cbn [negb andb] in E3.
  match type of E3 with context [dcHandleIntegrityChecksums mem c ?s x ?r] => set (s2 := s) in *; set (r0 := r) in * end.
  assert (crc_seeds s2 x = crc_seeds (w_session w) x) as Eseed by done.
  assert (rq_consumed r0 = input_byte_counter m /\ rq_produced r0 = output_byte_counter m) as [C1 C2] by done. clearbody s2 r0.
  destruct (isGen4 svc).
  - destruct (dcHandleIntegrityChecksumsGen4 mem c s2 x r0) as [x' r'] eqn:Eg. injection E3 as <- _. injection E4 as ->.
    apply integrity_gen4 in Eg as (I1 & I2 & I3 & I4); [|done..]. exists x'. split; [done|].
    by rewrite I1, I2, I3, I4, C1, C2, !client_crc64.
  - destruct (dcHandleIntegrityChecksums mem c s2 x r0) as [[s' x'] r'] eqn:Eg. injection E3 as <- _. injection E4 as ->.
    apply integrity_gen2 in Eg as (I1 & I2 & I3 & I4); [|done..]. exists x'. split; [done|].
    rewrite I1, I2, I3, I4, C1, C2, Eseed.
    assert (0 <= (crc_seeds (w_session w) x).1 < 2 ^ 32 /\ 0 <= (crc_seeds (w_session w) x).2 < 2 ^ 32) as [? ?]
      by (unfold crc_seeds; destruct (_ =? _); cbn; lia).
    by rewrite !client_crc32.
Qed.

(** C10. The integrity checks of a request of a traditional session that asks for them and for software to verify the
    checksums, on a service that has them: when the client is told, with the status CPA_DC_OK or CPA_DC_OVERFLOW, that bytes
    were consumed or produced, the integrity checksums in its data are computed over exactly these bytes of its source and
    destination buffers, as the memory holds them at that time.  On devices of generation 4 (64 bits) and in stateless
    sessions (32 bits) they are the checksums of these bytes, with the seed 0; in a stateful session of an older device
    they continue from the values that the client's data held before the response, although the API says that they are
    not accumulated.  The buffers' lengths and these seeds are of 32 bits. *)
Theorem integrity_verified mem svc c m w x r :
  verified_request mem svc c m (w_session w) x -> w_crc w = Some x ->
  w_results (dcCompression_ProcessCallback mem svc c m w) = Some r -> reported r -> rq_consumed r <> 0 \/ rq_produced r <> 0 ->
  exists x', w_crc (dcCompression_ProcessCallback mem svc c m w) = Some x' /\
    crcs_of mem svc c (w_session w) x x' (rq_consumed r) (rq_produced r).
Proof.
  intros HV Ex Hr Hrep Hmoved. pose proof (vr_session _ _ _ _ _ _ HV) as Hd.
  unfold dcCompression_ProcessCallback in *. rewrite Hd in *. cbv zeta in *.
  destruct (negb (ICP_QAT_FW_COMN_RESP_UNSUPPORTED_REQUEST_STAT_GET (comn_status m) =? 0)).
  { exfalso. change (w_results (finish (ck_callbackTag c) CPA_STATUS_UNSUPPORTED CPA_STATUS_UNSUPPORTED
      (w <| w_results := (fun r => r <| rq_status := s8 (cmp_err_code m) |> <| rq_consumed := 0 |> <| rq_produced := 0 |>) <$> w_results w |>)) = Some r) in Hr.
    rewrite (proj1 (finish_results _ _ _ _)) in Hr. 
    destruct (w_results w) as [r0|]; [|done]. injection Hr as <-. by destruct Hmoved as [[]|[]]. }
  match type of Hr with context [response_results mem svc c m ?x] => set (w2 := x) in * end.
  match type of Hr with context [cmpPass ?x && xlatPass ?x] => set (k := x) in * end.
  destruct (if cmpPass k && xlatPass k then response_results mem svc c m w2 else (w2, false)) as [w3 pass] eqn:E3.
  destruct pass.
  2: { exfalso. rewrite (proj1 (finish_results _ _ _ _)) in Hr.
    change ((fun r => r <| rq_consumed := 0 |> <| rq_produced := 0 |>) <$> w_results w3 = Some r) in Hr.
    destruct (w_results w3) as [r0|]; [|done]. injection Hr as <-. by destruct Hmoved as [[]|[]]. }
  destruct (cmpPass k && xlatPass k); [|done].
  rewrite (proj1 (finish_results _ _ _ _)) in Hr. rewrite (proj2 (finish_results _ _ _ _)), (proj2 (flags_results _ _ _ _ _ _)).
  pose proof (proj1 (flags_results svc (response_dir (w_session w) c) c k m w3)) as Hs. unfold same_counts in Hs. rewrite Hr in Hs.
  destruct (w_results w3) as [r3|] eqn:E4; [|done]. injection Hs as S1 S2 S3. clear Hr. rewrite S2, S3. unfold reported in Hrep. rewrite S1 in Hrep.
  apply (results_verified mem svc c m w2 w3 x r3); try done. destruct HV. by constructor.
Qed.

(** * The message of a request *)

#[global] Instance cnv_mode_dec : EqDecision dc_cnv_mode_t.
Proof. solve_decision. Defined.

(** The request flags as the device reads them *)
Record req_flags := mk_flags { fl_sop : Z; fl_eop : Z; fl_bfinal : Z; fl_cnv : Z; fl_cnvnr : Z; fl_cnvdfx : Z; fl_crc : Z; fl_xxhash : Z }.
Definition read_flags (w : Z) : req_flags :=
  mk_flags (QAT_FIELD_GET w 0 1) (QAT_FIELD_GET w 1 1) (QAT_FIELD_GET w 6 1) (QAT_FIELD_GET w 16 1) (QAT_FIELD_GET w 17 1)
    (QAT_FIELD_GET w 18 1) (QAT_FIELD_GET w 19 1) (QAT_FIELD_GET w 20 1).

Definition flag (x : Z) : Prop := x = 0 \/ x = 1.

Lemma flags_read f :
  flag (fl_sop f) -> flag (fl_eop f) -> flag (fl_bfinal f) -> flag (fl_cnv f) -> flag (fl_cnvnr f) -> flag (fl_cnvdfx f) -> flag (fl_crc f) ->
  flag (fl_xxhash f) ->
  read_flags (ICP_QAT_FW_COMP_XXHASH_ACC_MODE_SET
    (ICP_QAT_FW_COMP_REQ_PARAM_FLAGS_BUILD (fl_sop f) (fl_eop f) (fl_bfinal f) (fl_cnv f) (fl_cnvnr f) (fl_cnvdfx f) (fl_crc f)) (fl_xxhash f)) = f.
Proof.
  destruct f as [a b c d e g h i]. cbn. intros [->| ->] [->| ->] [->| ->] [->| ->] [->| ->] [->| ->] [->| ->] [->| ->]; reflexivity.
Qed.

(** Whether the checksums of the request go to a table beside the message *)
Definition end_to_end (svc : sal_compression_service) (a : dc_call) : bool :=
  integrityCrcCheck svc && match cl_opData a with Some op => CPA_TRUE =? op_integrityCrcCheck op | None => false end.

(** Flags as the device takes them *)
Definition flag_for (P : Prop) `{Decision P} : Z := if decide P then 1 else 0.

(** The packet starts with this request unless a stateful session has started one in this direction before. *)
Definition continues (s : dc_session_desc_t) (d : dc_request_dir_t) : Prop :=
  sessState s = CPA_DC_STATEFUL /\ requestType s = DC_REQUEST_SUBSEQUENT /\
  (if is_comp d then isSopForCompressionProcessed s else isSopForDecompressionProcessed s) = true.
Definition ends_packet (s : dc_session_desc_t) (flush : Z) : Prop :=
  sessState s <> CPA_DC_STATEFUL \/ flush = CPA_DC_FLUSH_FINAL \/ flush = CPA_DC_FLUSH_FULL.
#[global] Instance continues_dec s d : Decision (continues s d).
Proof. unfold continues. apply _. Defined.
#[global] Instance ends_packet_dec s flush : Decision (ends_packet s flush).
Proof. unfold ends_packet. apply _. Defined.

(** The odd byte at the end of a stateful decompression that the device cannot take yet *)
Definition holds_back (svc : sal_compression_service) (s : dc_session_desc_t) (a : dc_call) (n : Z) : Prop :=
  Z.odd n = true /\ sessState s = CPA_DC_STATEFUL /\ cl_dir a = DC_DECOMPRESSION_REQUEST /\ cl_flushFlag a <> CPA_DC_FLUSH_FINAL /\
  (oddByteDecompNobFinal (comp_device_data svc) = false \/
   oddByteDecompInterim (comp_device_data svc) = false /\ cl_flushFlag a <> CPA_DC_FLUSH_FULL).
#[global] Instance holds_back_dec svc s a n : Decision (holds_back svc s a n).
Proof. unfold holds_back. apply _. Defined.

(** The checksum of the results is what a request of a stateless session that follows another one goes on from. *)
Definition goes_on (s : dc_session_desc_t) (type : CpaDcChecksum) : Prop :=
  sessState s = CPA_DC_STATELESS /\ requestType s = DC_REQUEST_SUBSEQUENT /\ checksumType s = checksum_value type.
#[global] Instance goes_on_dec s type : Decision (goes_on s type).
Proof. unfold goes_on. apply _. Defined.
Definition crc32_seed (s : dc_session_desc_t) (checksum : Z) : Z := if decide (goes_on s CPA_DC_CRC32) then checksum else 0.
Definition adler32_seed (s : dc_session_desc_t) (checksum : Z) : Z := if decide (goes_on s CPA_DC_ADLER32) then checksum else 1.

(** The table of the integrity checksums that the device gets *)
Record table_for (svc : sal_compression_service) (s : dc_session_desc_t) (crc : option CpaCrcData) (checksum : Z)
    (t : dc_integrity_crc_fw_t) : Prop := {
  tb_seeds : fw_crc32 t = crc32_seed s checksum /\ fw_adler32 t = adler32_seed s checksum;
  tb_gen2 : isGen4 svc = false ->
    (xorFlags t, crcPoly t, xorOut t, deflateBlockType t) = (0x000e0000, 0x04c11db7, 0xffffffff, 1) /\
    (sessState s <> CPA_DC_STATEFUL -> (iCrc32Cpr t, oCrc32Cpr t, iCrc32Xlt t, oCrc32Xlt t) = (0, 0, 0, 0)) /\
    (sessState s = CPA_DC_STATEFUL -> exists x, crc = Some x /\
       (iCrc32Cpr t, oCrc32Cpr t, iCrc32Xlt t, oCrc32Xlt t) = (cd_iCrc x, cd_oCrc x, cd_oCrc x, cd_oCrc x));
  tb_gen4 : isGen4 svc = true ->
    (iCrc64Cpr t, oCrc64Cpr t, iCrc64Xlt t, oCrc64Xlt t, crc64Poly t, xor64Out t) = (0, 0, 0, 0, 0x42f0e1eba9ea3693, 0)
}.

Lemma odd_land n : negb (Z.land n 1 =? 0) = Z.odd n.
Proof. rewrite <- Z.bit0_odd, Z.bit0_eqb. change 1 with (Z.ones 1) at 1. rewrite Z.land_ones by lia. change (2 ^ 1) with 2. divmod n 2. lia. Qed.

Lemma even_len_spec svc s a n :
  even_len svc s (cl_dir a) (cl_flushFlag a) n = if decide (holds_back svc s a n) then n - 1 else n.
Proof.
  unfold even_len. cbv beta zeta. rewrite !odd_land.
  destruct (oddByteDecompNobFinal _) eqn:E1, (oddByteDecompInterim _) eqn:E2, (Z.eqb_spec CPA_DC_STATEFUL (sessState s)),
    (Z.eqb_spec CPA_DC_FLUSH_FINAL (cl_flushFlag a)), (Z.eqb_spec CPA_DC_FLUSH_FULL (cl_flushFlag a)), (cl_dir a) eqn:E3, (Z.odd n) eqn:E4;
    cbn [negb andb is_comp]; rewrite ?Z.odd_sub, ?E4; cbn [xorb Z.odd negb andb];
    case_decide as HD; unfold holds_back in HD; rewrite ?E1, ?E2, ?E3, ?E4 in HD;
    first [done | exfalso; intuition congruence | destruct HD; naive_solver].
Qed.

Lemma dest_len_spec svc s d n : 0 <= minInterBuffSizeInBytes svc < 2 ^ 32 ->
  dest_len svc s d n = if decide (d = DC_COMPRESSION_REQUEST /\ uses_translator svc (huffType s) = true)
                       then Z.min (u32 n) (minInterBuffSizeInBytes svc) else u32 n.
Proof.
  intros Hm. unfold dest_len, uses_translator.
  destruct d; cbn [is_comp]; rewrite ?andb_true_r, ?andb_false_r; cbn [andb].
  2: { rewrite decide_False; [done|]. by intros [? _]. }
  destruct (negb (isGen4 svc) && is_dynamic (huffType s)).
  - rewrite decide_True by done. destruct (Z.ltb_spec (minInterBuffSizeInBytes svc) (u32 n)); [rewrite u32_small|]; lia.
  - rewrite decide_False; [done|]. by intros [_ ?].
Qed.

Lemma initial_checksums_spec s checksum : initial_checksums s checksum = (adler32_seed s checksum, crc32_seed s checksum).
Proof.
  unfold initial_checksums, adler32_seed, crc32_seed.
  destruct (decide (goes_on s CPA_DC_ADLER32)) as [Ha|Ha], (decide (goes_on s CPA_DC_CRC32)) as [Hc|Hc]; unfold goes_on in Ha, Hc;
    destruct (Z.eqb_spec CPA_DC_STATELESS (sessState s)) as [E|E], (requestType s) eqn:Er;
    destruct (Z.eqb_spec (checksumType s) CPA_DC_ADLER32) as [Ea|Ea], (Z.eqb_spec (checksumType s) CPA_DC_CRC32) as [Ec|Ec];
    first [reflexivity | by destruct Ha | by destruct Hc | exfalso; cbn in *; intuition (congruence || lia)].
Qed.

Lemma integrity_table_spec svc s crc crc' checksum t :
  (if negb (isGen4 svc) && (CPA_DC_STATEFUL =? sessState s) then crc else Some (default (mk_crc 0 0 0 0 0 0) crc)) = Some crc' ->
  table_for svc s crc checksum (integrity_table svc s crc' (adler32_seed s checksum) (crc32_seed s checksum) t).
Proof.
  intros H. unfold integrity_table. destruct (isGen4 svc) eqn:Eg; cbn [negb andb] in H.
  { constructor; [done|by rewrite Eg|done]. }
  destruct (Z.eqb_spec CPA_DC_STATEFUL (sessState s)) as [E|E]; constructor; try done; try (by rewrite Eg); intros _; (split; [done|]); split; intros Hs;
    first [done | congruence | by exists crc'].
Qed.

(** The session after a request: what the next one of a stateful session is *)
Definition next_in_stream (s s' : dc_session_desc_t) (d : dc_request_dir_t) (flush : Z) : Prop :=
  sessState s = CPA_DC_STATEFUL ->
  requestType s' = (if decide (ends_packet s flush) then DC_REQUEST_FIRST else DC_REQUEST_SUBSEQUENT) /\
  (if is_comp d then isSopForCompressionProcessed s' else isSopForDecompressionProcessed s') = true.

Lemma stream_flags_spec s d flush sop eop s' : stream_flags s d flush = (sop, eop, s') ->
  sop = flag_for (~ continues s d) /\ eop = flag_for (ends_packet s flush) /\
  accumulateXXHash s' = accumulateXXHash s /\ cnvErrorInjection s' = cnvErrorInjection s /\ next_in_stream s s' d flush.
Proof.
  unfold stream_flags, flag_for, next_in_stream. intros H.
  destruct (Z.eqb_spec CPA_DC_STATEFUL (sessState s)) as [E|E].
  2: { injection H as <- <- <-. rewrite decide_True by (unfold continues; intuition congruence).
       rewrite (decide_True (P := ends_packet _ _)) by (left; congruence). split_and!; [done|done|by case_match|by case_match|congruence]. }
  symmetry in E. assert (He : ends_packet s flush <-> CPA_DC_FLUSH_FINAL = flush \/ CPA_DC_FLUSH_FULL = flush) by (unfold ends_packet; intuition congruence).
  destruct (decide (ends_packet s flush)) as [Hp|Hp], (decide (~ continues s d)) as [Hc|Hc]; unfold continues in Hc;
    destruct (Z.eqb_spec CPA_DC_FLUSH_FINAL flush) as [Ef|Ef], (Z.eqb_spec CPA_DC_FLUSH_FULL flush) as [El|El]; try tauto; cbn [orb] in H;
    destruct (requestType s) eqn:Er, d; cbn in H, Hc |- *;
    try destruct (isSopForCompressionProcessed s) eqn:Ec; try destruct (isSopForDecompressionProcessed s) eqn:Ed;
    injection H as <- <- <-; first [by split_and! | exfalso; intuition congruence].
Qed.

Lemma cnv_flags_spec svc s mode : cnv_flags svc s mode =
  (flag_for (mode = DC_CNV \/ mode = DC_CNVNR), flag_for (mode = DC_CNVNR),
   if decide (isGen4 svc = true /\ mode <> DC_NO_CNV) then cnvErrorInjection s else 0).
Proof.
  unfold cnv_flags, flag_for. destruct (isGen4 svc), mode; cbn;
    rewrite ?(decide_True (P := _ /\ _)) by done; rewrite ?(decide_False (P := _ /\ _)) by (intros [? ?]; done); done.
Qed.

Lemma flag_for_flag (P : Prop) `{Decision P} : flag (flag_for P).
Proof. unfold flag_for, flag. case_decide; auto. Qed.

Section message.
Variables (v2p crc_table_addr : Z -> Z).

(** What the device is told by the message [m] of the call [a], whose integrity table is [t] *)
Record message_for (svc : sal_compression_service) (s : dc_session_desc_t) (a : dc_call) (crc : option CpaCrcData) (checksum p : Z)
    (m : comp_req) (t : dc_integrity_crc_fw_t) (src dst srcTotal dstTotal : Z) : Prop := {
  mf_buffers : src_data_addr m = src /\ dest_data_addr m = (if 0 =? dst then src else dst) /\ opaque_data m = p;
  mf_source : comp_len m = if decide (holds_back svc s a (u32 srcTotal)) then u32 srcTotal - 1 else u32 srcTotal;
  mf_dest : out_buffer_sz m =
    if decide (cl_dir a = DC_COMPRESSION_REQUEST /\ uses_translator svc (huffType s) = true)
    then Z.min (u32 dstTotal) (minInterBuffSizeInBytes svc) else u32 dstTotal;
  mf_flags : read_flags (req_par_flags m) = {|
    fl_sop := flag_for (~ continues s (cl_dir a));
    fl_eop := flag_for (ends_packet s (call_flush a));
    fl_bfinal := flag_for (call_flush a = CPA_DC_FLUSH_FINAL);
    fl_cnv := flag_for (cl_cnvMode a = DC_CNV \/ cl_cnvMode a = DC_CNVNR);
    fl_cnvnr := flag_for (cl_cnvMode a = DC_CNVNR);
    fl_cnvdfx := if decide (isGen4 svc = true /\ cl_cnvMode a <> DC_NO_CNV) then cnvErrorInjection s else 0;
    fl_crc := flag_for (end_to_end svc a = true);
    fl_xxhash := accumulateXXHash s |};
  mf_seeds : end_to_end svc a = false -> initial_crc32 m = crc32_seed s checksum /\ initial_adler m = adler32_seed s checksum;
  mf_table : end_to_end svc a = true ->
    initial_crc32 m + 2 ^ 32 * initial_adler m = crc_table_addr p /\ table_for svc s crc checksum t;
  mf_comp : forall pd, cl_dir a = DC_COMPRESSION_REQUEST -> comp_template v2p svc pd s (reqCacheComp s) -> comp_template v2p svc pd s m;
  mf_decomp : forall pd ctx, cl_dir a = DC_DECOMPRESSION_REQUEST -> decomp_template v2p svc pd ctx s (reqCacheDecomp s) ->
    decomp_template v2p svc pd ctx s m
}.

Lemma crcs_message svc s p crc checksum c m m' c' mode :
  request_crcs crc_table_addr svc s p crc checksum c m = Some (Some m', c', mode) ->
  let e := integrityCrcCheck svc && (CPA_TRUE =? ck_integrityCrcCheck c) in
  exists x y, m' = m <| initial_crc32 := x |> <| initial_adler := y |> /\ mode = (if e then 1 else 0) /\
    ck_srcTotalDataLenInBytes c' = ck_srcTotalDataLenInBytes c /\ ck_dstTotalDataLenInBytes c' = ck_dstTotalDataLenInBytes c /\
    (e = false -> x = crc32_seed s checksum /\ y = adler32_seed s checksum) /\
    (e = true -> x + 2 ^ 32 * y = crc_table_addr p /\ table_for svc s crc checksum (ck_crcs c')).
Proof.
  unfold request_crcs. intros H. rewrite initial_checksums_spec in H. cbv zeta beta iota in H |- *.
  destruct (integrityCrcCheck svc && _).
  - destruct (_ =? 0); [done|]. apply bind_Some in H as (crc' & Hc & H). injection H as <- <- <-.
    exists (u32 (crc_table_addr p)), (Z.shiftr (crc_table_addr p) 32). split_and!; try done. intros _. split; [|by apply integrity_table_spec].
    rewrite Z.shiftr_div_pow2 by lia. unfold u32. pose proof (Z.div_mod (crc_table_addr p) (2 ^ 32)). lia.
  - injection H as <- <- <-. eexists _, _. by split_and!.
Qed.

Lemma cookie_e2e svc s a n k c : integrityCrcCheck svc && (CPA_TRUE =? ck_integrityCrcCheck (call_cookie svc s a n k c)) = end_to_end svc a.
Proof. unfold call_cookie, end_to_end. by destruct (cl_opData a). Qed.

(** The message that [dcCreateRequest] writes over the template *)
Definition written_message (m : comp_req) (x y len sz fl p src dst : Z) : comp_req :=
  SalQatMsg_CmnMidWrite (m <| initial_crc32 := x |> <| initial_adler := y |> <| comp_len := len |> <| out_buffer_sz := sz |>
    <| req_par_flags := fl |>) p QAT_COMN_PTR_TYPE_SGL src dst.

Lemma written_comp svc pd s m x y len sz fl p src dst :
  comp_template v2p svc pd s m -> comp_template v2p svc pd s (written_message m x y len sz fl p src dst).
Proof. intros [H1 H2 H3 H4 H5]. constructor; [exact H1|exact H2|exact H3|exact H4|exact H5]. Qed.

Lemma written_decomp svc pd ctx s m x y len sz fl p src dst :
  decomp_template v2p svc pd ctx s m -> decomp_template v2p svc pd ctx s (written_message m x y len sz fl p src dst).
Proof. intros [H1 H2 H3 H4 H5]. constructor; [exact H1|exact H2|exact H3|exact H4|exact H5]. Qed.

Lemma written_for svc s a crc checksum p x y t src dst n k :
  flag (accumulateXXHash s) -> flag (cnvErrorInjection s) -> 0 <= minInterBuffSizeInBytes svc < 2 ^ 32 ->
  (end_to_end svc a = false -> x = crc32_seed s checksum /\ y = adler32_seed s checksum) ->
  (end_to_end svc a = true -> x + 2 ^ 32 * y = crc_table_addr p /\ table_for svc s crc checksum t) ->
  let '(cnv, cnvnr, dfx) := cnv_flags svc s (cl_cnvMode a) in
  message_for svc s a crc checksum p
    (written_message (if is_comp (cl_dir a) then reqCacheComp s else reqCacheDecomp s) x y
       (even_len svc s (cl_dir a) (cl_flushFlag a) (u32 n)) (dest_len svc s (cl_dir a) k)
       (ICP_QAT_FW_COMP_XXHASH_ACC_MODE_SET
          (ICP_QAT_FW_COMP_REQ_PARAM_FLAGS_BUILD (flag_for (~ continues s (cl_dir a))) (flag_for (ends_packet s (call_flush a)))
             (if CPA_DC_FLUSH_FINAL =? call_flush a then 1 else 0) cnv cnvnr dfx
             (if end_to_end svc a then 1 else 0)) (accumulateXXHash s)) p src dst) t src dst n k.
Proof.
  intros Hx Hi Hm H0 H1. rewrite cnv_flags_spec. constructor.
  - by split_and!.
  - apply even_len_spec.
  - by apply dest_len_spec.
  - assert ((if CPA_DC_FLUSH_FINAL =? call_flush a then 1 else 0) = flag_for (call_flush a = CPA_DC_FLUSH_FINAL)) as ->.
    { unfold flag_for. destruct (Z.eqb_spec CPA_DC_FLUSH_FINAL (call_flush a)); case_decide; congruence. }
    assert ((if end_to_end svc a then 1 else 0) = flag_for (end_to_end svc a = true)) as -> by (unfold flag_for; by destruct (end_to_end svc a)).
    match goal with |- _ = ?f => apply (flags_read f) end;
      cbn [fl_sop fl_eop fl_bfinal fl_cnv fl_cnvnr fl_cnvdfx fl_crc fl_xxhash]; try apply flag_for_flag; [|done].
    case_decide; [done|by left].
  - exact H0.
  - exact H1.
  - intros pd Hd. rewrite Hd. apply written_comp.
  - intros pd ctx Hd. rewrite Hd. apply written_decomp.
Qed.
End message.

(** C9. A request that [dcCreateRequest] creates tells the device what the caller asked for.  (The
    session's settings of xxHash accumulation and error injection are flags, and the size of the
    intermediate buffers has 32 bits, as their types and initialisation make them.)  The message has the addresses of the two buffer descriptors that were written, and the cookie.  Its
    source length is the length of the source, less one when that is odd and the device cannot take
    the odd byte yet (in a stateful decompression without a final flush); its destination size is that
    of the destination, or of the intermediate buffers if the translator is used and they are
    smaller.  The request flags, read back, say that a packet starts here, unless a stateful session
    has one under way; that it ends here, unless the session is stateful and the flush is neither
    final nor full; that the block is the last one, exactly for a final flush; whether the output is
    to be verified and recovered; whether the checksums are in a table; and the xxHash mode.  Without
    integrity checks the message has the checksums to go on from: the one in the results, if a
    stateless session goes on with one of that kind, and the initial value 0 or 1 otherwise.  With
    them it has the address of a table with these values, the polynomials and masks, and as seeds of
    the integrity checksums 0, or those of the client's data in a stateful session of the older
    devices.  The rest is what the template of the session tells.  A stateful
    session is left ready for the first request of a packet exactly if this one ends a packet. *)
Theorem request_message (v2p crc_table_addr : Z -> Z) (svc : sal_compression_service) (s s' : dc_session_desc_t) (a : dc_call)
    (crc : option CpaCrcData) (checksum p : Z) (c c' : dc_compression_cookie_t) (log : list write)
    (Hr : dcCreateRequest v2p crc_table_addr svc s a crc checksum p c = Some (CPA_STATUS_SUCCESS, s', c', log))
    (Hx : flag (accumulateXXHash s)) (Hi : flag (cnvErrorInjection s)) (Hm : 0 <= minInterBuffSizeInBytes svc < 2 ^ 32) :
  exists src srcTotal log1 dst dstTotal log2,
    LacBuffDesc_BufferListDescWriteAndGetSize v2p (cl_src a) false = (CPA_STATUS_SUCCESS, src, srcTotal, log1) /\
    LacBuffDesc_BufferListDescWriteAndGetSize v2p (cl_dst a) false = (CPA_STATUS_SUCCESS, dst, dstTotal, log2) /\
    log = log1 ++ log2 /\ next_in_stream s s' (cl_dir a) (call_flush a) /\
    message_for v2p crc_table_addr svc s a crc checksum p (ck_request c') (ck_crcs c') (default 0 src) (default 0 dst) srcTotal dstTotal.
Proof.
  unfold dcCreateRequest in Hr.
  destruct (LacBuffDesc_BufferListDescWriteAndGetSize v2p (cl_src a) false) as [[[st1 a1] t1] l1].
  destruct (LacBuffDesc_BufferListDescWriteAndGetSize v2p (cl_dst a) false) as [[[st2 a2] t2] l2].
  destruct (Z.eqb_spec st1 CPA_STATUS_SUCCESS) as [->|]; cbn [negb] in Hr; [|by injection Hr].
  destruct (Z.eqb_spec st2 CPA_STATUS_SUCCESS) as [->|]; cbn [negb] in Hr; [|by injection Hr].
  exists a1, t1, l1, a2, t2, l2. split; [done|]. split; [done|].
  apply bind_Some in Hr as ([m s1] & Ht & Hr). apply read_template_same in Ht as [-> ->].
  apply bind_Some in Hr as ([[m c1] mode] & Hc & Hr). destruct m as [m|]; [|by injection Hr].
  apply crcs_message in Hc as (x & y & -> & -> & L1 & L2 & C0 & C1). rewrite cookie_e2e in Hr, C0, C1.
  destruct (stream_flags s (cl_dir a) (call_flush a)) as [[sop eop] s2] eqn:Ef.
  apply stream_flags_spec in Ef as (-> & -> & Ex & Ei & Hnext).
  assert (Ec : cnv_flags svc s2 (cl_cnvMode a) = cnv_flags svc s (cl_cnvMode a)) by (unfold cnv_flags; by rewrite Ei).
  pose proof (written_for v2p crc_table_addr svc s a crc checksum p x y (ck_crcs c1) (default 0 a1) (default 0 a2) t1 t2 Hx Hi Hm C0 C1) as W.
  rewrite Ec, L1, L2, Ex in Hr. destruct (cnv_flags svc s (cl_cnvMode a)) as [[cnv cnvnr] dfx].
  injection Hr as <- <- <-. split; [done|]. split; [done|].
  change (ck_request (?c <| ck_request := ?m |>)) with m. change (ck_crcs (c1 <| ck_request := ?m |>)) with (ck_crcs c1).
  unfold call_cookie in *. destruct (cl_opData a); exact W.
Qed.

(** * Examples *)

(** All addresses have a translation but one. *)
Definition ex_v2p (a : Z) : Z := if a =? 999 then 0 else a.
Definition ex_svc : sal_compression_service := (ex_service DEVICE_C62X false 8192) <| dcExtendedFeatures := 0x101 |>.
Definition zero_crcs : dc_integrity_crc_fw_t := mk_fw_crc 0 0 0 0 0 0 0 0 0 0 0 0 0 0 0 0.
Definition ex_cookie : dc_compression_cookie_t :=
  mk_cookie zero_req 0 0 None 0 0 0 0 DC_COMPRESSION_REQUEST (mk_list 0 [] 0) (mk_list 0 [] 0) zero_crcs.

(** A request with integrity checks on a device that has them, into more than the intermediate buffers hold *)
Definition ex_e2e : sal_compression_service := ex_svc <| integrityCrcCheck := true |> <| minInterBuffSizeInBytes := 8192 |>.
Definition ex_op : CpaDcOpData := mk_op CPA_DC_FLUSH_FINAL CPA_TRUE CPA_FALSE CPA_TRUE CPA_TRUE 0 0 true.
Definition ex_request : dc_call :=
  mk_call (mk_list 1 [mk_buf 100 8192] 20480) (mk_list 1 [mk_buf 16384 12288] 24576) CPA_DC_FLUSH_FINAL (Some ex_op) 7
    DC_COMPRESSION_REQUEST DC_CNV.

Lemma request_message_witness :
  match dcCreateRequest ex_v2p (fun p => p + 512) ex_e2e (ex_session ex_e2e ex_deflate) ex_request (Some (mk_crc 0 0 0 0 0 0)) 0 61440 ex_cookie with
  | Some (st, _, c, _) =>
      st = CPA_STATUS_SUCCESS /\ out_buffer_sz (ck_request c) = 8192 /\ initial_crc32 (ck_request c) + 2 ^ 32 * initial_adler (ck_request c) = 61952 /\
      fl_bfinal (read_flags (req_par_flags (ck_request c))) = 1
  | None => False
  end.
Proof.
  destruct (dcCreateRequest ex_v2p (fun p => p + 512) ex_e2e (ex_session ex_e2e ex_deflate) ex_request (Some (mk_crc 0 0 0 0 0 0)) 0 61440 ex_cookie) as [[[[st s'] c'] log]|] eqn:E; 
    [|by vm_compute in E].
  assert (st = CPA_STATUS_SUCCESS) as -> by (vm_compute in E; by injection E as <- _ _ _). split; [done|].
  destruct (request_message ex_v2p (fun p => p + 512) ex_e2e (ex_session ex_e2e ex_deflate) s' ex_request (Some (mk_crc 0 0 0 0 0 0)) 0 61440
    ex_cookie c' log E) as (src & n & l1 & dst & k & l2 & _ & Ek & _ & _ & [_ _ Hd Hf _ Ht _ _]).
  - left. by vm_compute.
  - left. by vm_compute.
  - by split.
  - assert (k = 16384) as -> by (vm_compute in Ek; congruence). rewrite Hd. split; [by vm_compute|]. split; [exact (proj1 (Ht eq_refl))|]. rewrite Hf. by vm_compute.
Defined.

(** The answer to a request of two bytes that gave one byte; [b] is what the memory holds at each address. *)
Definition ex_answered (b : Z) : dc_compression_cookie_t :=
  mk_cookie zero_req 7 CPA_DC_FLUSH_FINAL (Some ex_op) CPA_TRUE CPA_TRUE 2 64 DC_COMPRESSION_REQUEST
    (mk_list 1 [mk_buf 2 8192] 20480) (mk_list 1 [mk_buf 64 12288] 24576)
    (zero_crcs <| iCrc32Cpr := crc32_serial 0 [b; b] |> <| oCrc32Cpr := crc32_serial 0 [b] |>).
Definition ex_response : comp_resp := mk_resp 0 0 0 0 2 1 0 0.
Definition ex_world : dc_world :=
  mk_world (ex_session ex_e2e ex_deflate) (Some (mk_rq 0 0 0 0 false 0)) (Some (mk_crc 0 0 0 0 0 0))
    (mk_stats true 0 0 0 0 0 0 0 0 0) (replicate 20 0) [].

Lemma integrity_verified_witness :
  exists x, w_crc (dcCompression_ProcessCallback (fun _ => 171) ex_e2e (ex_answered 171) ex_response ex_world) = Some x /\
    cd_iCrc x = crc32_serial 0 [171; 171] /\ cd_oCrc x = crc32_serial 0 [171].
Proof.
  destruct (integrity_verified (fun _ => 171) ex_e2e (ex_answered 171) ex_response ex_world (mk_crc 0 0 0 0 0 0)
    (mk_rq 0 1 2 0 false 0)) as (x & H1 & H2).
  - constructor.
    + by vm_compute.
    + by split_and!; vm_compute.
    + by intros a.
    + split; apply Forall_singleton; by vm_compute.
    + by split.
    + by split.
  - reflexivity.
  - by vm_compute.
  - by left.
  - by left.
  - exists x. split; [exact H1|]. exact H2.
Defined.
