(* ===== verification/DcSys.v ===== *)
(** * A compression session and its requests

    A session after its initialisation, with calls of the client, responses of the device,
    and updates, resets and refused removals of the session in any order
    ([compression/dc_session.c], [compression/dc_datapath.c]); a removal that succeeds ends
    the session.  A call is one step, and so is a response: a call that waits for its callback
    does so between steps.  The state holds the requests in flight, and for the proofs the
    tags of the requests that were sent and called back, how many calls failed after the
    session's counter was, or was not, changed, and how many removals of a stateless session
    were refused because of requests that were pending. *)

From S2P Require Import Prelude Checksum DcFormat Buffers DcSession DcData DcRequest.

(** * The system *)

Inductive dc_api :=
| ApiCompress (flushFlag : Z) | ApiCompress2 (op : option CpaDcOpData)
| ApiDecompress (flushFlag : Z) | ApiDecompress2 (op : option CpaDcOpData).

Definition api_checks (svc : sal_compression_service) (s : dc_session_desc_t) (g : call_args) (a : dc_api) : Z + dc_req :=
  match a with
  | ApiCompress f => compress_checks svc s g f
  | ApiCompress2 op => compress2_checks svc s g op
  | ApiDecompress f => decompress_checks svc s g f
  | ApiDecompress2 op => decompress2_checks svc s g op
  end.

Record sys := mk_sys {
  y_svc : sal_compression_service; y_session : dc_session_desc_t; y_stats : dc_stats; y_errors : list Z;
  y_flight : list (Z * dc_compression_cookie_t); y_sent : list Z; y_done : list Z; y_lost : Z; y_leaked : Z;
  y_refused : Z
}.

Section system.
Variables (v2p crc_table_addr mem : Z -> Z).

Definition api_call (y : sys) (g : call_args) (a : dc_api) : dc_env -> option dc_result :=
  let svc := y_svc y in
  match a with
  | ApiCompress f => cpaDcCompressData v2p crc_table_addr svc (y_session y) (y_stats y) g f
  | ApiCompress2 op => cpaDcCompressData2 v2p crc_table_addr svc (y_session y) (y_stats y) g op
  | ApiDecompress f => cpaDcDecompressData v2p crc_table_addr svc (y_session y) (y_stats y) g f
  | ApiDecompress2 op => cpaDcDecompressData2 v2p crc_table_addr svc (y_session y) (y_stats y) g op
  end.

(** The calls that failed without a message, in a stateless session, or without a cookie, in a stateful one *)
Definition lost_by (k : call_kind) : Z := match k with KSend NotCreated => 1 | _ => 0 end.
Definition leaked_by (k : call_kind) : Z := match k with KSend NoCookie => 1 | _ => 0 end.

Definition after_call (y : sys) (k : call_kind) (r : dc_result) : sys :=
  let sent := match rt_sent r with Some pc => [pc] | None => [] end in
  let stateful := CPA_DC_STATEFUL =? sessState (y_session y) in
  mk_sys (y_svc y) (rt_session r) (rt_stats r) (y_errors y) (y_flight y ++ sent)
    (y_sent y ++ map (fun pc => ck_callbackTag pc.2) sent) (y_done y)
    (y_lost y + if stateful then 0 else lost_by k) (y_leaked y + if stateful then leaked_by k else 0) (y_refused y).

(** The entries that the pool gives out are not those of requests in flight. *)
Definition fresh_entries (y : sys) (e : dc_env) : Prop :=
  forall p c, AllocEntry p c ∈ env_alloc e -> p ∉ (y_flight y).*1.

(** The response [m] for the cookie at [p], whose table of checksums the device has filled in *)
Definition after_response (y : sys) (p : Z) (c : dc_compression_cookie_t) (m : comp_resp) (table : dc_integrity_crc_fw_t)
    (results : option CpaDcRqResults) (crc : option CpaCrcData) : sys :=
  let w := dcCompression_ProcessCallback mem (y_svc y) (c <| ck_crcs := table |>) m
             (mk_world (y_session y) results crc (y_stats y) (y_errors y) []) in
  mk_sys (y_svc y) (w_session w) (w_stats w) (w_errors w) (base.filter (fun pc => pc.1 <> p) (y_flight y)) (y_sent y)
    (y_done y ++ omap (fun ev => match ev with EvCallback _ tag _ => Some tag | _ => None end) (w_events w)) (y_lost y) (y_leaked y) (y_refused y).

Definition put_session (y : sys) (svc : sal_compression_service) (s : dc_session_desc_t) : sys :=
  mk_sys svc s (y_stats y) (y_errors y) (y_flight y) (y_sent y) (y_done y) (y_lost y) (y_leaked y) (y_refused y).

(** A removal that is refused; [st] is its status. *)
Definition after_refusal (y : sys) (st : Z) (s : dc_session_desc_t) : sys :=
  let pending := (CPA_DC_STATELESS =? sessState (y_session y)) && (st =? CPA_STATUS_RETRY) in
  mk_sys (y_svc y) s (y_stats y) (y_errors y) (y_flight y) (y_sent y) (y_done y) (y_lost y) (y_leaked y)
    (y_refused y + if pending then 1 else 0).

Inductive sys_step : sys -> sys -> Prop :=
| step_call y g a e r k : fresh_entries y e -> api_call y g a e = Some r ->
    request_kind v2p crc_table_addr (y_svc y) (y_session y) g (api_checks (y_svc y) (y_session y) g a) e = Some k ->
    sys_step y (after_call y k r)
| step_response y p c m table results crc : (p, c) ∈ y_flight y -> sys_step y (after_response y p c m table results crc)
| step_update y u null st svc' s' : cpaDcUpdateSession null (y_svc y) (y_session y) u = Some (st, svc', s') ->
    sys_step y (put_session y svc' s')
| step_reset y null queued st s' : cpaDcResetSession null (y_svc y) queued (y_session y) = (st, s') ->
    sys_step y (put_session y (y_svc y) s')
| step_reset_xxhash y null st s' : cpaDcResetXXHashState null (y_svc y) (y_session y) = (st, s') ->
    sys_step y (put_session y (y_svc y) s')
| step_remove y null queued st s' : cpaDcRemoveSession null (y_svc y) queued (y_session y) = Some (st, s') ->
    st <> CPA_STATUS_SUCCESS -> sys_step y (after_refusal y st s').

(** The session that [dcInitSession] returns *)
Definition sys_init (y : sys) : Prop :=
  exists h d ctx cb d', depth_ok (y_svc y) /\
    dcInitSession v2p (y_svc y) h false d ctx cb true = (CPA_STATUS_SUCCESS, d', Some (y_session y)) /\
    y_flight y = [] /\ y_sent y = [] /\ y_done y = [] /\ y_lost y = 0 /\ y_leaked y = 0 /\ y_refused y = 0.

Definition reachable (y : sys) : Prop := exists y0, sys_init y0 /\ rtc sys_step y0 y.
End system.

(** * The counters of a session *)

Record sys_inv (y : sys) : Prop := {
  iv_state : sessState (y_session y) = CPA_DC_STATEFUL \/ sessState (y_session y) = CPA_DC_STATELESS;
  iv_dp : isDcDp (y_session y) = false;
  iv_cb : pCompressionCb (y_session y) <> CbNull;
  iv_lock : if CPA_DC_STATEFUL =? sessState (y_session y) then sessionLock (y_session y) = LockFree
            else updateLock (y_session y) = if y_refused y =? 0 then LockFree else LockDestroyed;
  iv_addr : NoDup (y_flight y).*1;
  iv_tags : y_sent y ≡ₚ y_done y ++ map (fun pc => ck_callbackTag pc.2) (y_flight y);
  iv_ghost : 0 <= y_lost y /\ 0 <= y_leaked y /\ 0 <= y_refused y;
  iv_count : if CPA_DC_STATEFUL =? sessState (y_session y)
             then pendingStatefulCbCount (y_session y) = len (y_flight y) + y_leaked y /\ len (y_flight y) <= 1 /\
                  pendingStatelessCbCount (y_session y) = 0 /\ y_lost y = 0
             else pendingStatelessCbCount (y_session y) = len (y_flight y) - y_lost y /\
                  pendingStatefulCbCount (y_session y) = 0 /\ y_leaked y = 0
}.

Section invariant.
Variables (v2p crc_table_addr mem : Z -> Z).

Lemma init_inv y : sys_init v2p y -> sys_inv y.
Proof.
  intros (h & d & ctx & cb & d' & Hdepth & Hi & Ef & Es & Ed & El & Ek & Er).
  apply init_cases in Hi as [[? _]|[(_ & HS & Hst & _) HT]]; [done|].
  assert (su_sessState (used_setup (y_svc y) d) = su_sessState d /\ su_sessDirection (used_setup (y_svc y) d) = su_sessDirection d) as [U1 U2]
    by (unfold used_setup; by destruct (no_inter _ _)).
  apply (tail_spec v2p (y_svc y) Hdepth) in HT as (_ & -> & HT); [|by apply used_setup_ok|rewrite U1, U2; tauto].
  destruct (HT eq_refl) as (s & [= <-] & HH & HF & Hcb & _ & _). pose proof (sk_state _ HS) as Hs.
  destruct HF as [_ F2 F3 [_ F4] _ F5 F6 _ _].
  pose proof (sh_state _ _ HH) as E. rewrite U1 in E.
  constructor; rewrite ?Ef, ?Es, ?Ed, ?El, ?Ek, ?Er; try done.
  - unfold CPA_DC_STATEFUL, CPA_DC_STATELESS. lia.
  - rewrite Hcb. destruct (decide (cb = CbNull)); [by rewrite bool_decide_true|by rewrite bool_decide_false].
  - destruct (CPA_DC_STATEFUL =? sessState (y_session y)) eqn:E1; [by rewrite F5|].
    destruct (CPA_DC_STATELESS =? sessState (y_session y)) eqn:E2; [by rewrite F6|].
    unfold CPA_DC_STATEFUL, CPA_DC_STATELESS in *. lia.
  - apply NoDup_nil_2.
  - rewrite F2, F3. by destruct (_ =? _).
Qed.

(** A call that has sent a request *)
Lemma call_inv y k r :
  sys_inv y -> (sessState (y_session y) = CPA_DC_STATEFUL -> pendingStatefulCbCount (y_session y) <> 0 -> exists st, k = KReject st) ->
  (if CPA_DC_STATEFUL =? sessState (y_session y) then counted 0 (kind_stateful k) (y_session y) (rt_session r)
   else counted (kind_stateless k) 0 (y_session y) (rt_session r)) ->
  (match rt_sent r with Some (p, c) => k = KSend Sent /\ p ∉ (y_flight y).*1 | None => k <> KSend Sent end) ->
  sys_inv (after_call y k r).
Proof.
  intros [I1 I2 I3 I4 I5 I6 I7 I8] Hrej HK Hsent.
  assert (kept (y_session y) (rt_session r)) as K by (destruct (CPA_DC_STATEFUL =? _); apply HK).
  destruct K as [(_ & _ & _ & _ & Es & _) _ [L1 L2] [C1 C2]].
  set (sent := match rt_sent r with Some pc => [pc] | None => [] end).
  assert (len sent = match k with KSend Sent => 1 | _ => 0 end) as El.
  { subst sent. destruct (rt_sent r) as [[p c]|]; [by destruct Hsent as [-> _]|]. destruct k as [| |[]]; done. }
  constructor; unfold after_call; fold sent; cbn [y_session y_flight y_sent y_done y_lost y_leaked y_refused]; rewrite ?Es, ?L1, ?L2, ?C1, ?C2; try done.
  - rewrite fmap_app. apply NoDup_app. split; [done|]. subst sent. destruct (rt_sent r) as [[p c]|]; cbn.
    + split; [|apply NoDup_singleton]. intros x Hx ->%list_elem_of_singleton. by destruct Hsent.
    + split; [|apply NoDup_nil_2]. intros x _ []%not_elem_of_nil.
  - rewrite map_app, app_assoc. by rewrite I6.
  - destruct k as [| |[]], (CPA_DC_STATEFUL =? _); cbn; lia.
  - rewrite length_app, Nat2Z.inj_add, El. destruct (Z.eqb_spec CPA_DC_STATEFUL (sessState (y_session y))) as [E|E].
    + destruct HK as (_ & P1 & P2 & _). destruct I8 as (Q1 & Q2 & Q3 & Q4). rewrite P1, P2.
      assert (k = KSend Sent -> pendingStatefulCbCount (y_session y) = 0) as H0.
      { intros ->. destruct (Z.eqb_spec (pendingStatefulCbCount (y_session y)) 0); [done|]. destruct Hrej as [st ?]; done. }
      destruct k as [| |[]]; cbn [kind_stateful stateful_delta lost_by leaked_by]; try lia. specialize (H0 eq_refl). lia.
    + destruct HK as (_ & P1 & P2 & _). destruct I8 as (Q1 & Q2 & Q3). rewrite P1, P2.
      destruct k as [| |[]]; cbn [kind_stateless stateless_delta lost_by leaked_by]; lia.
Qed.

Lemma api_call_spec y g a e r :
  api_call v2p crc_table_addr y g a e = Some r ->
  exists k, request_kind v2p crc_table_addr (y_svc y) (y_session y) g (api_checks (y_svc y) (y_session y) g a) e = Some k /\
    kind_done (y_session y) g e k r /\
    if CPA_DC_STATEFUL =? sessState (y_session y) then counted 0 (kind_stateful k) (y_session y) (rt_session r)
    else if CPA_DC_STATELESS =? sessState (y_session y) then counted (kind_stateless k) 0 (y_session y) (rt_session r) else True.
Proof. intros H. eapply request_call_counted with (t := y_stats y). by destruct a. Qed.

Lemma step_call_inv y g a e r k :
  sys_inv y -> fresh_entries y e -> api_call v2p crc_table_addr y g a e = Some r ->
  request_kind v2p crc_table_addr (y_svc y) (y_session y) g (api_checks (y_svc y) (y_session y) g a) e = Some k ->
  sys_inv (after_call y k r).
Proof.
  intros HI Hf Hc Hk. apply api_call_spec in Hc as (k' & Hk' & Hd & HK). rewrite Hk in Hk'. injection Hk' as <-.
  apply call_inv; [done|..].
  - intros Es Hp. unfold request_kind in Hk. destruct (api_checks _ _ _ _) as [st|q]; [injection Hk as <-; by eexists|].
    rewrite Es in Hk. change (CPA_DC_STATEFUL =? CPA_DC_STATEFUL) with true in Hk.
    destruct (Z.eqb_spec (pendingStatefulCbCount (y_session y)) 0); [done|]. injection Hk as <-. by eexists.
  - destruct (CPA_DC_STATEFUL =? _) eqn:E1; [done|]. destruct (CPA_DC_STATELESS =? _) eqn:E2; [done|].
    destruct (iv_state _ HI); unfold CPA_DC_STATEFUL, CPA_DC_STATELESS in *; lia.
  - destruct k as [st| |o].
    + destruct Hd as (_ & _ & _ & -> & _). done.
    + destruct Hd as (_ & -> & _). done.
    + destruct Hd as (_ & _ & Hd). destruct (rt_sent r) as [[p c]|]; [|destruct Hd; congruence].
      destruct Hd as (-> & _ & (c0 & Hin) & _). split; [done|]. by eapply Hf.
Qed.

Lemma flight_filter (f : list (Z * dc_compression_cookie_t)) p c :
  NoDup f.*1 -> (p, c) ∈ f -> f ≡ₚ (p, c) :: base.filter (fun pc => pc.1 <> p) f.
Proof.
  induction f as [|[p' c'] f IH]; intros Hn Hin; [by apply not_elem_of_nil in Hin|].
  rewrite fmap_cons in Hn. apply NoDup_cons in Hn as [Hp Hn]. cbn [fst] in Hp. rewrite filter_cons. cbn [fst].
  apply elem_of_cons in Hin as [[= <- <-]|Hin].
  - rewrite decide_False by tauto. f_equiv. clear IH Hn. induction f as [|[p' c'] f IH]; [done|].
    rewrite fmap_cons in Hp. apply not_elem_of_cons in Hp as [Hp1 Hp2]. cbn [fst] in Hp1.
    rewrite filter_cons, decide_True by (cbn; congruence). f_equiv. by apply IH.
  - assert (p' <> p) by (intros ->; apply Hp; by apply (list_elem_of_fmap_2 fst) in Hin).
    rewrite decide_True by done. rewrite (IH Hn Hin) at 1. apply Permutation_swap.
Qed.

Lemma step_response_inv y p c m table results crc :
  sys_inv y -> (p, c) ∈ y_flight y -> sys_inv (after_response mem y p c m table results crc).
Proof.
  intros [I1 I2 I3 I4 I5 I6 I7 I8] Hin. unfold after_response.
  destruct (response_counted mem (y_svc y) (c <| ck_crcs := table |>) m (mk_world (y_session y) results crc (y_stats y) (y_errors y) []) I2 I3)
    as (w1 & st & [HK Hev] & Es & Ee).
  set (w := dcCompression_ProcessCallback _ _ _ _ _) in *. pose proof (flight_filter _ _ _ I5 Hin) as HP. cbn [w_session w_events] in *.
  pose proof (pending_dec_counted (w_session w1)) as HD. rewrite <- Es in HD.
  assert (sessState (w_session w1) = sessState (y_session y)) as E1 by apply HK.
  assert (pendingStatefulCbCount (w_session w1) = pendingStatefulCbCount (y_session y)) as E2 by (destruct HK as (_ & _ & ? & _); lia).
  rewrite E1, E2 in HD.
  assert (kept (y_session y) (w_session w)) as K.
  { eapply kept_trans; [apply HK|]. destruct (CPA_DC_STATELESS =? sessState (y_session y)); apply HD. }
  destruct K as [(_ & _ & _ & _ & F1 & _) _ [F4 F5] [F3 F2]].
  constructor; cbn [y_session y_flight y_sent y_done y_lost y_leaked y_refused]; rewrite ?F1, ?F2, ?F3, ?F4, ?F5; try done.
  - rewrite HP, fmap_cons in I5. by apply NoDup_cons in I5 as [_ I5].
  - rewrite Ee. cbn. rewrite I6. rewrite HP at 1. cbn [map snd]. rewrite <- app_assoc. done.
  - assert (len (y_flight y) = 1 + len (base.filter (fun pc => pc.1 <> p) (y_flight y))) as El by (rewrite HP at 1; cbn [length]; lia).
    destruct (Z.eqb_spec CPA_DC_STATEFUL (sessState (y_session y))) as [E|E].
    + rewrite <- E in HD. change (CPA_DC_STATELESS =? CPA_DC_STATEFUL) with false in HD.
      destruct HK as (_ & P1 & P2 & _), HD as (_ & Q1 & Q2 & _). destruct (Z.eqb_spec (pendingStatefulCbCount (y_session y)) 0); lia.
    + destruct (Z.eqb_spec CPA_DC_STATELESS (sessState (y_session y))) as [E3|E3]; [|destruct I1; congruence].
      destruct HK as (_ & P1 & P2 & _), HD as (_ & Q1 & Q2 & _). lia.
Qed.

(** Changes of the session that leave its kind, its locks and its counters *)
Definition administrative (s s' : dc_session_desc_t) : Prop :=
  sessState s' = sessState s /\ isDcDp s' = isDcDp s /\ pCompressionCb s' = pCompressionCb s /\ sessionLock s' = sessionLock s /\
  updateLock s' = updateLock s /\ pendingStatelessCbCount s' = pendingStatelessCbCount s /\ pendingStatefulCbCount s' = pendingStatefulCbCount s.

Lemma administrative_inv y svc s : sys_inv y -> administrative (y_session y) s -> sys_inv (put_session y svc s).
Proof.
  intros [] (E1 & E2 & E3 & E4 & E5 & E6 & E7).
  constructor; cbn [put_session y_session y_flight y_sent y_done y_lost y_leaked y_refused]; rewrite ?E1, ?E2, ?E3, ?E4, ?E5, ?E6, ?E7; done.
Qed.

Lemma update_administrative y u null st svc' s' :
  sys_inv y -> cpaDcUpdateSession null (y_svc y) (y_session y) u = Some (st, svc', s') -> administrative (y_session y) s'.
Proof.
  intros HI H. unfold cpaDcUpdateSession in H.
  destruct (Z.eqb_spec (checks [LAC_CHECK_NULL_PARAM null; SAL_CHECK_INSTANCE_TYPE (y_svc y); SAL_RUNNING_CHECK (y_svc y);
    dcCheckUpdateSession (y_svc y) (y_session y) u]) CPA_STATUS_SUCCESS) as [E|E]; [|by injection H as _ _ <-].
  apply update_checks in E as (_ & _ & _ & _ & Hs & _).
  pose proof (iv_lock _ HI) as HL. destruct (Z.eqb_spec CPA_DC_STATEFUL (sessState (y_session y))); [congruence|].
  destruct (y_refused y =? 0).
  - destruct (update_runs (y_svc y) (y_session y) u) as (m & Em & _); [done|]. rewrite Em in H. injection H as _ _ <-. done.
  - unfold dcUpdateSession in H. by rewrite (iv_dp _ HI), HL in H.
Qed.

Lemma reset_administrative y null queued st s' :
  sys_inv y -> cpaDcResetSession null (y_svc y) queued (y_session y) = (st, s') -> administrative (y_session y) s'.
Proof.
  intros HI H. unfold cpaDcResetSession in H. rewrite (iv_dp _ HI) in H.
  destruct (negb (checks _ =? _)); [by injection H as _ <-|].
  destruct (Z.eqb_spec (pendingStatelessCbCount (y_session y)) 0) as [E1|E1]; cbn [negb] in H; [|by injection H as _ <-].
  destruct (Z.eqb_spec (pendingStatefulCbCount (y_session y)) 0) as [E2|E2]; cbn [negb] in H; [|by injection H as _ <-].
  injection H as _ <-. unfold reset_counters, administrative. rewrite E1, E2. by destruct (CPA_DC_STATEFUL =? _).
Qed.

Lemma xxhash_administrative y null st s' :
  cpaDcResetXXHashState null (y_svc y) (y_session y) = (st, s') -> administrative (y_session y) s'.
Proof. unfold cpaDcResetXXHashState. intros H. repeat case_match; by injection H as _ <-. Qed.

Lemma remove_keeps y null queued st s' :
  sys_inv y -> cpaDcRemoveSession null (y_svc y) queued (y_session y) = Some (st, s') -> st <> CPA_STATUS_SUCCESS ->
  s' = if (CPA_DC_STATELESS =? sessState (y_session y)) && (st =? CPA_STATUS_RETRY)
       then (y_session y) <| updateLock := LockDestroyed |> else y_session y.
Proof.
  intros HI H Hne. unfold cpaDcRemoveSession in H. rewrite (iv_dp _ HI) in H.
  set (ck := checks _) in H. assert (ck <> CPA_STATUS_RETRY) as Hr.
  { subst ck. unfold LAC_CHECK_NULL_PARAM, SAL_CHECK_INSTANCE_TYPE, SAL_RUNNING_CHECK.
    by destruct null, (svc_compression (y_svc y)), (svc_state (y_svc y)). }
  clearbody ck. destruct (negb (ck =? CPA_STATUS_SUCCESS)).
  { injection H as <- <-. by rewrite (proj2 (Z.eqb_neq _ _) Hr), andb_false_r. }
  set (status := if negb (pendingStatefulCbCount _ =? 0) then _ else _) in H.
  assert (status = CPA_STATUS_RETRY \/ status = CPA_STATUS_SUCCESS) as Hs by (subst status; repeat case_if; auto). clearbody status.
  destruct Hs as [-> | ->].
  - change (CPA_STATUS_RETRY =? CPA_STATUS_SUCCESS) with false in H. rewrite andb_false_r in H. cbn [mbind option_bind] in H.
    destruct (CPA_DC_STATELESS =? sessState (y_session y)); [|by injection H as <- <-].
    destruct (LAC_SPINLOCK_DESTROY (updateLock (y_session y))) as [l|] eqn:El; [|done]. injection H as <- <-. cbn.
    destruct (updateLock (y_session y)); try discriminate El; by injection El as <-.
  - exfalso. apply Hne. destruct (_ && _).
    + destruct (LAC_SPINLOCK_DESTROY _); [|done]. cbn [mbind option_bind] in H. destruct (CPA_DC_STATELESS =? _); [|by injection H as <- _].
      destruct (LAC_SPINLOCK_DESTROY _); [|done]. by injection H as <- _.
    + cbn [mbind option_bind] in H. destruct (CPA_DC_STATELESS =? _); [|by injection H as <- _].
      destruct (LAC_SPINLOCK_DESTROY _); [|done]. by injection H as <- _.
Qed.

Lemma step_remove_inv y null queued st s' :
  sys_inv y -> cpaDcRemoveSession null (y_svc y) queued (y_session y) = Some (st, s') -> st <> CPA_STATUS_SUCCESS ->
  sys_inv (after_refusal y st s').
Proof.
  intros HI H Hne. pose proof (remove_keeps _ _ _ _ _ HI H Hne) as ->. destruct HI as [I1 I2 I3 I4 I5 I6 I7 I8]. unfold after_refusal.
  destruct ((CPA_DC_STATELESS =? sessState (y_session y)) && (st =? CPA_STATUS_RETRY)) eqn:E;
    constructor; cbn [y_session y_flight y_sent y_done y_lost y_leaked y_refused upd]; rewrite ?Z.add_0_r; try done; [|lia].
  apply andb_true_iff in E as [E%Z.eqb_eq _]. change (sessState ((y_session y) <| updateLock := LockDestroyed |>)) with (sessState (y_session y)).
  rewrite <- E in *. change (CPA_DC_STATEFUL =? CPA_DC_STATELESS) with false in *. cbn.
  destruct (Z.eqb_spec (y_refused y + 1) 0); [lia|done].
Qed.

Lemma dc_step_inv y y' : sys_inv y -> sys_step v2p crc_table_addr mem y y' -> sys_inv y'.
Proof.
  intros HI Hs. revert HI. destruct Hs; intros HI.
  - eauto using step_call_inv.
  - by apply step_response_inv.
  - eauto using administrative_inv, update_administrative.
  - eauto using administrative_inv, reset_administrative.
  - eauto using administrative_inv, xxhash_administrative.
  - eauto using step_remove_inv.
Qed.

Lemma dc_reachable_inv y : reachable v2p crc_table_addr mem y -> sys_inv y.
Proof. intros (y0 & H0 & Hr). apply init_inv in H0. induction Hr; eauto using dc_step_inv. Qed.
End invariant.

Definition tags (f : list (Z * dc_compression_cookie_t)) : list Z := map (fun pc => ck_callbackTag pc.2) f.
Definition service_up (svc : sal_compression_service) : Prop :=
  SAL_CHECK_INSTANCE_TYPE svc = CPA_STATUS_SUCCESS /\ SAL_RUNNING_CHECK svc = CPA_STATUS_SUCCESS.

Lemma up_checks svc : service_up svc -> checks [LAC_CHECK_NULL_PARAM false; SAL_CHECK_INSTANCE_TYPE svc; SAL_RUNNING_CHECK svc] = CPA_STATUS_SUCCESS.
Proof. intros [-> ->]. done. Qed.

Section claims.
Variables (v2p crc_table_addr mem : Z -> Z).

(** C8.  A session with its requests, in any order of calls, responses, updates, resets and refused removals: the requests that
    calls have sent are those whose callback has been made and those in flight, each once.  The counter of
    a stateful session is the number of its requests in flight, of which there is one at most, plus
    the calls that found no cookie; that of a stateless session is the number in flight minus the calls
    whose message could not be made. *)
Theorem pending_requests y :
  reachable v2p crc_table_addr mem y ->
  y_sent y ≡ₚ y_done y ++ tags (y_flight y) /\
  (sessState (y_session y) = CPA_DC_STATEFUL ->
   pendingStatefulCbCount (y_session y) = len (y_flight y) + y_leaked y /\ len (y_flight y) <= 1) /\
  (sessState (y_session y) = CPA_DC_STATELESS -> pendingStatelessCbCount (y_session y) = len (y_flight y) - y_lost y).
Proof.
  intros [_ _ _ _ _ HT _ HC]%dc_reachable_inv. split; [exact HT|]. split; intros E; rewrite E in HC; [|apply HC].
  change (CPA_DC_STATEFUL =? CPA_DC_STATEFUL) with true in HC. split; apply HC.
Qed.

(** C13.  A session whose calls did not fail in one of those ways (a message that could not be made, in a stateless session, or
    no cookie, in a stateful one), while the service is up: it can be reset exactly when none of its requests is in flight, and
    otherwise the client is told to try again.  It can be removed exactly when none of its requests is in flight, and otherwise
    the client is told to try again, unless the session is stateless and a removal of it has been refused in this way before:
    that call has destroyed the mutex of the session and cleared the pointer to it, and every further removal gives the NULL
    pointer to pthread_mutex_destroy, in flight or not. *)
Theorem idle_session y queued :
  reachable v2p crc_table_addr mem y -> service_up (y_svc y) -> y_lost y = 0 -> y_leaked y = 0 ->
  let st := if decide (y_flight y = []) then CPA_STATUS_SUCCESS else CPA_STATUS_RETRY in
  (cpaDcResetSession false (y_svc y) queued (y_session y)).1 = st /\
  if decide (sessState (y_session y) = CPA_DC_STATELESS /\ 0 < y_refused y)
  then cpaDcRemoveSession false (y_svc y) queued (y_session y) = None
  else exists s', cpaDcRemoveSession false (y_svc y) queued (y_session y) = Some (st, s').
Proof.
  intros HI%dc_reachable_inv Hup Hl Hk. pose proof (iv_lock _ HI) as HL. pose proof (iv_count _ HI) as HC. pose proof (iv_state _ HI) as HS.
  pose proof (iv_ghost _ HI) as (_ & _ & HR).
  unfold cpaDcRemoveSession, cpaDcResetSession. rewrite (up_checks _ Hup), (iv_dp _ HI). change (CPA_STATUS_SUCCESS =? CPA_STATUS_SUCCESS) with true.
  cbn [negb]. rewrite Hl, Hk in HC.
  assert (len (y_flight y) = 0 <-> y_flight y = []) as Hf by (destruct (y_flight y); cbn; split; (done || lia)).
  destruct HS as [E|E]; rewrite E in *.
  - rewrite (decide_False (P := _ /\ _)) by (intros [? _]; done). change (CPA_DC_STATEFUL =? CPA_DC_STATEFUL) with true in *.
    change (CPA_DC_STATELESS =? CPA_DC_STATEFUL) with false in *.
    destruct HC as (Q1 & _ & Q2 & _). rewrite Q1, Q2. change (negb (0 =? 0)) with false. rewrite Z.add_0_r. cbn [andb].
    destruct (Z.eqb_spec (len (y_flight y)) 0) as [E0|E0]; cbn [negb].
    + change (CPA_STATUS_SUCCESS =? CPA_STATUS_SUCCESS) with true. rewrite HL. cbn [LAC_SPINLOCK_DESTROY mbind option_bind].
      change (sessState ((y_session y) <| sessionLock := LockDestroyed |>)) with (sessState (y_session y)). rewrite E.
      change (CPA_DC_STATELESS =? CPA_DC_STATEFUL) with false. rewrite decide_True by tauto. split; [done|by eexists].
    + change (CPA_STATUS_RETRY =? CPA_STATUS_SUCCESS) with false. cbn [mbind option_bind]. rewrite E.
      change (CPA_DC_STATELESS =? CPA_DC_STATEFUL) with false. rewrite decide_False by tauto. split; [done|by eexists].
  - change (CPA_DC_STATEFUL =? CPA_DC_STATELESS) with false in *. change (CPA_DC_STATELESS =? CPA_DC_STATELESS) with true in *.
    destruct HC as (Q1 & Q2 & _). rewrite Q1, Q2, Z.sub_0_r. change (negb (0 =? 0)) with false. cbn [andb mbind option_bind]. rewrite E, HL.
    change (CPA_DC_STATELESS =? CPA_DC_STATELESS) with true.
    destruct (Z.eqb_spec (len (y_flight y)) 0) as [E0|E0]; cbn [negb]; [rewrite (decide_True (P := _ = [])) by tauto|rewrite (decide_False (P := _ = [])) by tauto];
      (split; [done|]); destruct (Z.eqb_spec (y_refused y) 0) as [Er|Er]; case_decide as HD; try lia; try (by eexists); try done.
Qed.
End claims.

(** * Examples *)

Definition ex_inflate : CpaDcSessionSetupData := mk_setup 1 3 0 0 1 0 7 0 0 0 0 1 0.
Definition ex_context : CpaBufferList := mk_list 1 [mk_buf 65536 65536] 40960.
Definition ex_start (d : CpaDcSessionSetupData) : sys :=
  mk_sys ex_svc (default zero_session (dcInitSession ex_v2p ex_svc 4096 false d (Some ex_context) CbClient true).2)
    (mk_stats true 0 0 0 0 0 0 0 0 0) (replicate 20 0) [] [] [] 0 0 0.
(** A call with the descriptors of the destination at [meta] *)
Definition ex_args (meta tag : Z) : call_args :=
  mk_args false false (mk_arg 16 (mk_list 1 [mk_buf 100 8192] 20480)) (mk_arg 32 (mk_list 1 [mk_buf 200 12288] meta)) tag
    (Some (mk_rq 0 0 0 0 false 0)) None.
Definition ex_env (p : Z) : dc_env := mk_env 0 0 [AllocRetry; AllocEntry p ex_cookie] CPA_STATUS_SUCCESS.
Definition no_memory : dc_env := mk_env 0 0 [AllocNull] CPA_STATUS_SUCCESS.

(** One call as a function *)
Definition ex_call (y : sys) (g : call_args) (a : dc_api) (e : dc_env) : sys :=
  match request_kind ex_v2p (fun x => x) (y_svc y) (y_session y) g (api_checks (y_svc y) (y_session y) g a) e,
        api_call ex_v2p (fun x => x) y g a e with
  | Some k, Some r => after_call y k r
  | _, _ => y
  end.

Lemma ex_call_step y g a e mem :
  fresh_entries y e -> is_Some (api_call ex_v2p (fun x => x) y g a e) -> sys_step ex_v2p (fun x => x) mem y (ex_call y g a e).
Proof.
  intros Hf [r Hr]. unfold ex_call. destruct (api_call_spec _ _ _ _ _ _ _ Hr) as (k & Hk & _). rewrite Hk, Hr. by econstructor.
Qed.

Lemma ex_start_init d : 
  (dcInitSession ex_v2p ex_svc 4096 false d (Some ex_context) CbClient true).1.1 = CPA_STATUS_SUCCESS ->
  is_Some (dcInitSession ex_v2p ex_svc 4096 false d (Some ex_context) CbClient true).2 -> sys_init ex_v2p (ex_start d).
Proof.
  intros H1 [s H2]. destruct (dcInitSession _ _ _ _ _ _ _ _) as [[st d'] os] eqn:E. cbn in H1, H2. subst.
  exists 4096, d, (Some ex_context), CbClient, d'. split; [by split|]. split; [|done]. unfold ex_start. rewrite E. exact E.
Qed.

Definition ex_lost1 : sys := ex_call (ex_start ex_deflate) (ex_args 999 7) (ApiCompress 1) (ex_env 61440).
Definition ex_lost2 : sys := ex_call ex_lost1 (ex_args 24576 8) (ApiCompress 1) (ex_env 61440).

Lemma fresh_nil y e : y_flight y = [] -> fresh_entries y e.
Proof. intros E p c _. rewrite E. apply not_elem_of_nil. Qed.

Lemma ex_lost_reachable mem : reachable ex_v2p (fun x => x) mem ex_lost2.
Proof.
  exists (ex_start ex_deflate). split; [apply ex_start_init; vm_compute; by try eexists|].
  apply (rtc_l _ _ ex_lost1); [|apply rtc_once]; apply ex_call_step; [apply fresh_nil|..|apply fresh_nil|]; vm_compute; by try eexists.
Qed.

(** A call of a stateless session whose message cannot be made, here because the descriptors of the destination
    have no physical address, takes one from the counter of pending requests although nothing was added for it.
    With the next request in flight the counter is zero, and the session is removed, and reset, as if
    nothing was pending. *)
Theorem lost_request :
  exists y, reachable ex_v2p (fun x => x) (fun _ => 0) y /\ len (y_flight y) = 1 /\ pendingStatelessCbCount (y_session y) = 0 /\
    (cpaDcResetSession false (y_svc y) false (y_session y)).1 = CPA_STATUS_SUCCESS /\
    (fst <$> cpaDcRemoveSession false (y_svc y) false (y_session y)) = Some CPA_STATUS_SUCCESS.
Proof. exists ex_lost2. split; [apply ex_lost_reachable|]. by vm_compute. Qed.

(** * Calls without a cookie *)

Section stuck.
Variables (v2p crc_table_addr mem : Z -> Z).

Definition stuck (y : sys) : Prop := sys_inv y /\ sessState (y_session y) = CPA_DC_STATEFUL /\ 0 < y_leaked y.

Lemma stuck_pending y : stuck y -> pendingStatefulCbCount (y_session y) <> 0.
Proof.
  intros (HI & E & Hl). pose proof (iv_count _ HI) as HC. rewrite E in HC. change (CPA_DC_STATEFUL =? CPA_DC_STATEFUL) with true in HC. destruct HC as (HC & _). lia.
Qed.

Lemma stuck_step y y' : stuck y -> sys_step v2p crc_table_addr mem y y' -> stuck y'.
Proof.
  intros Hs Ht. pose proof (proj1 Hs) as HI. pose proof (dc_step_inv _ _ _ _ _ HI Ht) as HI'. split; [done|].
  destruct Hs as (_ & E & Hl). revert HI E Hl. clear HI'. destruct Ht as [y g a e r k Hf Hc Hk|y p c m table results crc Hin| | | |y null queued st s' Hr Hne]; intros HI E Hl.
  - apply api_call_spec in Hc as (k' & Hk' & _ & HK). rewrite Hk in Hk'. injection Hk' as <-. rewrite E in HK.
    change (CPA_DC_STATEFUL =? CPA_DC_STATEFUL) with true in HK. cbn [after_call y_session y_leaked].
    assert (sessState (rt_session r) = sessState (y_session y)) as -> by apply HK. split; [done|].
    destruct (CPA_DC_STATEFUL =? _); destruct k as [| |[]]; cbn; lia.
  - split; [|done]. cbn [after_response y_session]. pose proof (iv_dp _ HI) as I2. pose proof (iv_cb _ HI) as I3.
    destruct (response_counted mem (y_svc y) (c <| ck_crcs := table |>) m (mk_world (y_session y) results crc (y_stats y) (y_errors y) []) I2 I3)
      as (w1 & st & [HK _] & Es & _). rewrite Es. cbn [w_session] in HK.
    assert (sessState (w_session w1) = sessState (y_session y)) as E1 by apply HK. rewrite <- E, <- E1.
    pose proof (pending_dec_counted (w_session w1)) as HD. destruct (_ =? _); apply HD.
  - split; [|done]. cbn. rewrite <- E. eapply update_administrative; eauto.
  - split; [|done]. cbn. rewrite <- E. eapply reset_administrative; eauto.
  - split; [|done]. cbn. rewrite <- E. eapply xxhash_administrative; eauto.
  - split; [|done]. cbn. rewrite (remove_keeps _ _ _ _ _ HI Hr Hne). by destruct (_ && _).
Qed.

(** C14.  A call of a stateful session that finds no cookie has been counted as pending, and nothing takes that back: from
    then on every call that its checks let through is told to try again, and the session can be neither reset nor
    removed, whatever else happens. *)
Theorem stateful_stuck y y' :
  reachable v2p crc_table_addr mem y -> sessState (y_session y) = CPA_DC_STATEFUL -> 0 < y_leaked y ->
  rtc (sys_step v2p crc_table_addr mem) y y' ->
  (forall g a e r q, api_checks (y_svc y') (y_session y') g a = inr q -> api_call v2p crc_table_addr y' g a e = Some r ->
     rt_return r = Returns CPA_STATUS_RETRY) /\
  (forall queued, (cpaDcResetSession false (y_svc y') queued (y_session y')).1 <> CPA_STATUS_SUCCESS) /\
  (forall queued, (fst <$> cpaDcRemoveSession false (y_svc y') queued (y_session y')) <> Some CPA_STATUS_SUCCESS).
Proof.
  intros HI%dc_reachable_inv E Hl Hr. assert (stuck y') as Hs.
  { assert (stuck y) as H0 by done. clear HI E Hl. induction Hr; eauto using stuck_step. }
  clear HI E Hl Hr. pose proof (stuck_pending _ Hs) as Hp. destruct Hs as (HI & E & Hl). split; [|split].
  - intros g a e r q Hq Hc. apply api_call_spec in Hc as (k & Hk & Hd & _). rewrite Hq in Hk. unfold request_kind in Hk. rewrite E in Hk.
    change (CPA_DC_STATEFUL =? CPA_DC_STATEFUL) with true in Hk. destruct (Z.eqb_spec (pendingStatefulCbCount (y_session y')) 0); [done|].
    injection Hk as <-. apply Hd.
  - intros queued. unfold cpaDcResetSession. rewrite (iv_dp _ HI).
    destruct (Z.eqb_spec (checks [LAC_CHECK_NULL_PARAM false; SAL_CHECK_INSTANCE_TYPE (y_svc y'); SAL_RUNNING_CHECK (y_svc y')]) CPA_STATUS_SUCCESS);
      cbn [negb]; [|done]. destruct (negb (pendingStatelessCbCount _ =? 0)); [done|]. by destruct (Z.eqb_spec (pendingStatefulCbCount (y_session y')) 0).
  - intros queued. unfold cpaDcRemoveSession. rewrite (iv_dp _ HI).
    destruct (Z.eqb_spec (checks [LAC_CHECK_NULL_PARAM false; SAL_CHECK_INSTANCE_TYPE (y_svc y'); SAL_RUNNING_CHECK (y_svc y')]) CPA_STATUS_SUCCESS);
      cbn [negb]; [|by intros [= ?]]. destruct (Z.eqb_spec (pendingStatefulCbCount (y_session y')) 0); [done|]. cbn [negb].
    change (CPA_STATUS_RETRY =? CPA_STATUS_SUCCESS) with false. rewrite andb_false_r. cbn [mbind option_bind]. rewrite E. done.
Qed.
End stuck.

Definition ex_stuck : sys := ex_call (ex_start ex_inflate) (ex_args 24576 7) (ApiDecompress 0) no_memory.

Lemma ex_stuck_reachable mem : reachable ex_v2p (fun x => x) mem ex_stuck.
Proof.
  exists (ex_start ex_inflate). split; [apply ex_start_init; vm_compute; by try eexists|].
  apply rtc_once, ex_call_step; [apply fresh_nil|]; vm_compute; by try eexists.
Qed.
Lemma stateful_stuck_witness :
  y_leaked ex_stuck = 1 /\ y_flight ex_stuck = [] /\ (cpaDcResetSession false (y_svc ex_stuck) false (y_session ex_stuck)).1 <> CPA_STATUS_SUCCESS.
Proof.
  destruct (stateful_stuck ex_v2p (fun x => x) (fun _ => 0) ex_stuck ex_stuck (ex_stuck_reachable _) ltac:(by vm_compute) ltac:(by vm_compute) (rtc_refl _ _))
    as (_ & H & _). split_and!; [by vm_compute|by vm_compute|apply H].
Defined.

(** Removing a stateless session while requests are pending tells the client to try again, but it has destroyed the
    lock that updates and requests for compression take: another call to remove the session, and each further
    request for compression or update, would use a mutex that is no longer there. *)
Theorem remove_busy svc queued s :
  service_up svc -> sessState s = CPA_DC_STATELESS -> isDcDp s = false -> updateLock s = LockFree -> pendingStatelessCbCount s <> 0 ->
  exists s', cpaDcRemoveSession false svc queued s = Some (CPA_STATUS_RETRY, s') /\ updateLock s' = LockDestroyed /\
    cpaDcRemoveSession false svc queued s' = None /\ (forall u, dcUpdateSession svc s' u = None) /\
    (forall v2p tbl t a crc checksum put p c,
       cl_dir a = DC_COMPRESSION_REQUEST ->
       (LacBuffDesc_BufferListDescWriteAndGetSize v2p (cl_src a) false).1.1.1 = CPA_STATUS_SUCCESS ->
       (LacBuffDesc_BufferListDescWriteAndGetSize v2p (cl_dst a) false).1.1.1 = CPA_STATUS_SUCCESS ->
       create_and_send v2p tbl svc s' t a crc checksum put p c = None).
Proof.
  intros Hup Es Ed El Hp. exists (s <| updateLock := LockDestroyed |>).
  assert (forall s1, sessState s1 = CPA_DC_STATELESS -> isDcDp s1 = false -> pendingStatelessCbCount s1 <> 0 ->
    cpaDcRemoveSession false svc queued s1 =
      l ← LAC_SPINLOCK_DESTROY (updateLock s1); Some (CPA_STATUS_RETRY, s1 <| updateLock := l |>)) as HR.
  { intros s1 E1 E2 E3. unfold cpaDcRemoveSession. rewrite (up_checks _ Hup), E2. change (CPA_STATUS_SUCCESS =? CPA_STATUS_SUCCESS) with true.
    cbn [negb]. destruct (Z.eqb_spec (pendingStatelessCbCount s1) 0); [done|]. cbn [negb]. rewrite E1. cbn [mbind option_bind].
    change (CPA_DC_STATEFUL =? CPA_DC_STATELESS) with false. cbn [andb mbind option_bind]. rewrite E1.
    change (CPA_DC_STATELESS =? CPA_DC_STATELESS) with true.
    destruct (negb (pendingStatefulCbCount s1 =? 0)); by destruct (LAC_SPINLOCK_DESTROY (updateLock s1)). }
  split; [by rewrite HR, El by done|]. split; [done|]. split; [by rewrite HR by done|]. split.
  - intros u. unfold dcUpdateSession. change (isDcDp (s <| updateLock := LockDestroyed |>)) with (isDcDp s). by rewrite Ed.
  - intros v2p tbl t a crc checksum put p c Hd H1 H2. unfold create_and_send, dcCreateRequest.
    destruct (LacBuffDesc_BufferListDescWriteAndGetSize v2p (cl_src a) false) as [[[st1 a1] t1] l1].
    destruct (LacBuffDesc_BufferListDescWriteAndGetSize v2p (cl_dst a) false) as [[[st2 a2] t2] l2]. cbn [fst] in H1, H2. subst st1 st2.
    change (CPA_STATUS_SUCCESS =? CPA_STATUS_SUCCESS) with true. cbn [negb]. rewrite Hd. unfold read_template.
    change (sessState (s <| updateLock := LockDestroyed |>)) with (sessState s). rewrite Es. done.
Qed.

(** The states of the examples *)
Definition ex_busy : sys := ex_call (ex_start ex_deflate) (ex_args 24576 8) (ApiCompress 1) (ex_env 61440).
Lemma ex_busy_reachable mem : reachable ex_v2p (fun x => x) mem ex_busy.
Proof.
  exists (ex_start ex_deflate). split; [apply ex_start_init; vm_compute; by try eexists|].
  apply rtc_once, ex_call_step; [apply fresh_nil|]; vm_compute; by try eexists.
Qed.

Lemma remove_busy_witness :
  exists s', cpaDcRemoveSession false (y_svc ex_busy) false (y_session ex_busy) = Some (CPA_STATUS_RETRY, s') /\ updateLock s' = LockDestroyed.
Proof.
  destruct (remove_busy (y_svc ex_busy) false (y_session ex_busy)) as (s' & H1 & H2 & _); [by vm_compute..|].
  exists s'. split; [exact H1|exact H2].
Defined.
Lemma pending_requests_witness : y_sent ex_busy = [8] /\ pendingStatelessCbCount (y_session ex_busy) = len (y_flight ex_busy) - y_lost ex_busy.
Proof.
  split; [by vm_compute|]. destruct (pending_requests ex_v2p (fun x => x) (fun _ => 0) ex_busy (ex_busy_reachable _)) as (_ & _ & H).
  apply H. by vm_compute.
Defined.
(** The same after a removal that was refused *)
Definition ex_refused : sys :=
  after_refusal ex_busy CPA_STATUS_RETRY ((y_session ex_busy) <| updateLock := LockDestroyed |>).
Lemma ex_refused_reachable mem : reachable ex_v2p (fun x => x) mem ex_refused.
Proof.
  destruct (ex_busy_reachable mem) as (y0 & H0 & Hr). exists y0. split; [done|]. eapply rtc_r; [exact Hr|].
  apply (step_remove _ _ _ ex_busy false false); [|done]. by vm_compute.
Qed.
Lemma idle_session_witness :
  (cpaDcResetSession false (y_svc ex_refused) false (y_session ex_refused)).1 = CPA_STATUS_RETRY /\
  cpaDcRemoveSession false (y_svc ex_refused) false (y_session ex_refused) = None /\
  exists s', cpaDcRemoveSession false (y_svc ex_busy) false (y_session ex_busy) = Some (CPA_STATUS_RETRY, s').
Proof.
  destruct (idle_session ex_v2p (fun x => x) (fun _ => 0) ex_busy false (ex_busy_reachable _)) as [_ H1]; [by vm_compute..|].
  destruct (idle_session ex_v2p (fun x => x) (fun _ => 0) ex_refused false (ex_refused_reachable _)) as [H2 H3]; [by vm_compute..|].
  split; [exact H2|]. split; [exact H3|exact H1].
Defined.
