(* ===== verification/SymQueue.v ===== *)
(** * Symmetric requests of a session

    How the requests of a symmetric session are sent and completed
    ([crypto/sym/lac_sym_queue.c], [lac_sym_cb.c], [lac_sym_partial.c], and the parts of
    [lac_sym_api.c], [lac_sym_alg_chain.c], [lac_sym_cipher.c] and [qat/lac_sym_qat*.c] that
    they work with).  A partial request uses the cipher state that the one before it left in
    the session, so only one partial is given to the device at a time; what comes behind it
    waits in a linked list and is sent when its response is processed.
    The message of a request is modelled as far as the vector goes: the pointer or the bytes it
    has, and the flag that tells the device to update the state.

    Requests are described by cookies, which are blocks of a memory pool; [cookies] is the
    memory of those in use and [None] as a result is an access to one that is not in use.
    The statuses that the calls of [icp_adf_transPutMsg] will return are the list [puts],
    behind its end they succeed; what has been put on the ring is [ring].  A call runs to
    its end before the next one here and in [SymSys], which has the calls of a client and the
    device's work in any order. *)

From S2P Require Import Prelude Buffers.

(** * Data *)

Inductive CpaCySymPacketType :=
  CPA_CY_SYM_PACKET_TYPE_FULL | CPA_CY_SYM_PACKET_TYPE_PARTIAL | CPA_CY_SYM_PACKET_TYPE_LAST_PARTIAL.
Inductive CpaCySymOp :=
  CPA_CY_SYM_OP_NONE | CPA_CY_SYM_OP_CIPHER | CPA_CY_SYM_OP_HASH | CPA_CY_SYM_OP_ALGORITHM_CHAINING.
Inductive CpaCySymCipherAlgorithm :=
  CPA_CY_SYM_CIPHER_NULL | CPA_CY_SYM_CIPHER_ARC4 | CPA_CY_SYM_CIPHER_AES_ECB | CPA_CY_SYM_CIPHER_AES_CBC
| CPA_CY_SYM_CIPHER_AES_CTR | CPA_CY_SYM_CIPHER_AES_CCM | CPA_CY_SYM_CIPHER_AES_GCM | CPA_CY_SYM_CIPHER_DES_ECB
| CPA_CY_SYM_CIPHER_DES_CBC | CPA_CY_SYM_CIPHER_3DES_ECB | CPA_CY_SYM_CIPHER_3DES_CBC | CPA_CY_SYM_CIPHER_3DES_CTR
| CPA_CY_SYM_CIPHER_KASUMI_F8 | CPA_CY_SYM_CIPHER_SNOW3G_UEA2 | CPA_CY_SYM_CIPHER_AES_F8 | CPA_CY_SYM_CIPHER_AES_XTS
| CPA_CY_SYM_CIPHER_ZUC_EEA3 | CPA_CY_SYM_CIPHER_CHACHA | CPA_CY_SYM_CIPHER_SM4_ECB | CPA_CY_SYM_CIPHER_SM4_CBC
| CPA_CY_SYM_CIPHER_SM4_CTR.
Inductive lac_single_pass_state := SPC_NO | SPC_PROBABLE | SPC_YES.

#[global] Instance packet_type_dec : EqDecision CpaCySymPacketType.
Proof. solve_decision. Defined.
#[global] Instance sym_op_dec : EqDecision CpaCySymOp.
Proof. solve_decision. Defined.
#[global] Instance cipher_dec : EqDecision CpaCySymCipherAlgorithm.
Proof. solve_decision. Defined.
#[global] Instance spc_dec : EqDecision lac_single_pass_state.
Proof. solve_decision. Defined.

(** [CpaCySymOpData], the fields that are read here *)
Record CpaCySymOpData := mk_op {
  packetType : CpaCySymPacketType; pIv : Z; ivLenInBytes : Z;
  cryptoStartSrcOffsetInBytes : Z; messageLenToCipherInBytes : Z; pDigestResult : Z
}.

(** The buffer that holds the vector or the cipher state of a request, and what its message has
    of it: a pointer, or the bytes that the buffer held when the message was written *)
Inductive iv_buffer := IvUser | IvPartialOpState | IvARC4InitialState | IvNone.
Inductive iv_field := cipher_IV_ptr (b : iv_buffer) | cipher_IV_array (l : list Z).

(** [lac_sym_bulk_cookie_t]; [cipher_IV] and [la_update_state] are the vector and the flag
    UPDATE_STATE of its message [qatMsg] *)
Record cookie := mk_cookie {
  pCallbackTag : Z; pOpData : CpaCySymOpData;
  updateSessionIvOnSend : bool; updateUserIvOnRecieve : bool; updateKeySizeOnRecieve : bool;
  cipher_IV : iv_field; la_update_state : bool;
  pDstBuffer : CpaBufferList; pNext : Z
}.

(** [lac_session_desc_t]; [laCmdAuth] says whether [laCmdId] is [ICP_QAT_FW_LA_CMD_AUTH],
    [cipher_key_sz] and [cipher_state_sz] are in the control block of the message template *)
Record session := mk_session {
  symOperation : CpaCySymOp; laCmdAuth : bool; cipherAlgorithm : CpaCySymCipherAlgorithm; singlePassState : lac_single_pass_state;
  hashResultSize : Z; cipherKeyLenInBytes : Z; cipher_key_sz : Z; cipher_state_sz : Z;
  digestVerify : bool; digestIsAppended : bool; internalSession : bool;
  partialState : CpaCySymPacketType; pendingCbCount : Z;
  pRequestQueueHead : Z; pRequestQueueTail : Z; nonBlockingOpsInProgress : bool;
  cipherPartialOpState : list Z; cipherARC4InitialState : list Z
}.

Record sym_stats := mk_stats {
  numSymOpRequests : Z; numSymOpRequestErrors : Z; numSymOpCompleted : Z;
  numSymOpCompletedErrors : Z; numSymOpVerifyFailures : Z
}.

(** What a call of the client's callback tells *)
Record cb_event := mk_event {
  ev_tag : Z; ev_status : Z; ev_op : CpaCySymOp; ev_opdata : CpaCySymOpData; ev_dst : CpaBufferList; ev_verify : bool
}.

(** A session with all it works on; [umem] is the client's memory *)
Record cy := mk_cy {
  sess : session; cookies : gmap Z cookie; umem : memory; puts : list Z; ring : list Z;
  stats : sym_stats; events : list cb_event
}.

#[global] Instance eta_cookie : Eta cookie := fun r =>
  mk_cookie (pCallbackTag r) (pOpData r) (updateSessionIvOnSend r) (updateUserIvOnRecieve r)
    (updateKeySizeOnRecieve r) (cipher_IV r) (la_update_state r) (pDstBuffer r) (pNext r).
#[global] Instance eta_session : Eta session := fun r =>
  mk_session (symOperation r) (laCmdAuth r) (cipherAlgorithm r) (singlePassState r) (hashResultSize r) (cipherKeyLenInBytes r)
    (cipher_key_sz r) (cipher_state_sz r) (digestVerify r) (digestIsAppended r) (internalSession r) (partialState r) (pendingCbCount r)
    (pRequestQueueHead r) (pRequestQueueTail r) (nonBlockingOpsInProgress r) (cipherPartialOpState r)
    (cipherARC4InitialState r).
#[global] Instance eta_stats : Eta sym_stats := fun r =>
  mk_stats (numSymOpRequests r) (numSymOpRequestErrors r) (numSymOpCompleted r) (numSymOpCompletedErrors r)
    (numSymOpVerifyFailures r).
#[global] Instance eta_cy : Eta cy := fun r =>
  mk_cy (sess r) (cookies r) (umem r) (puts r) (ring r) (stats r) (events r).

Definition is_full (q : cookie) : bool := bool_decide (packetType (pOpData q) = CPA_CY_SYM_PACKET_TYPE_FULL).

(** * Sequences of partial packets *)

Definition LacSym_PartialPacketStateCheck (packetType partialState : CpaCySymPacketType) : Z :=
  match partialState, packetType with
  | CPA_CY_SYM_PACKET_TYPE_FULL, CPA_CY_SYM_PACKET_TYPE_PARTIAL
  | CPA_CY_SYM_PACKET_TYPE_PARTIAL, CPA_CY_SYM_PACKET_TYPE_PARTIAL
  | CPA_CY_SYM_PACKET_TYPE_PARTIAL, CPA_CY_SYM_PACKET_TYPE_LAST_PARTIAL => CPA_STATUS_SUCCESS
  | _, _ => CPA_STATUS_INVALID_PARAM
  end.

Definition LacSym_PartialPacketStateUpdate (packetType partialState : CpaCySymPacketType) : CpaCySymPacketType :=
  if decide (partialState = CPA_CY_SYM_PACKET_TYPE_FULL) then CPA_CY_SYM_PACKET_TYPE_PARTIAL
  else if decide (packetType = CPA_CY_SYM_PACKET_TYPE_LAST_PARTIAL) then CPA_CY_SYM_PACKET_TYPE_FULL
  else partialState.

Definition ICP_QAT_FW_LA_PARTIAL_NONE : Z := 0.
Definition ICP_QAT_FW_LA_PARTIAL_START : Z := 1.
Definition ICP_QAT_FW_LA_PARTIAL_END : Z := 2.
Definition ICP_QAT_FW_LA_PARTIAL_MID : Z := 3.

Definition LacSymQat_packetTypeGet (packetType packetState : CpaCySymPacketType) : Z :=
  match packetType with
  | CPA_CY_SYM_PACKET_TYPE_PARTIAL =>
      if decide (packetState = CPA_CY_SYM_PACKET_TYPE_FULL) then ICP_QAT_FW_LA_PARTIAL_START
      else ICP_QAT_FW_LA_PARTIAL_MID
  | CPA_CY_SYM_PACKET_TYPE_LAST_PARTIAL => ICP_QAT_FW_LA_PARTIAL_END
  | CPA_CY_SYM_PACKET_TYPE_FULL => ICP_QAT_FW_LA_PARTIAL_NONE
  end.

(** * Initialisation vectors *)

Definition LAC_CIPHER_ARC4_STATE_LEN_BYTES : Z := 264.
Definition LAC_CIPHER_IS_ARC4 (algo : CpaCySymCipherAlgorithm) : bool := bool_decide (algo = CPA_CY_SYM_CIPHER_ARC4).
Definition LAC_CIPHER_IS_XTS_MODE (algo : CpaCySymCipherAlgorithm) : bool := bool_decide (algo = CPA_CY_SYM_CIPHER_AES_XTS).

Definition LacSymQat_CipherBlockSizeBytesGet (cipherAlgorithm : CpaCySymCipherAlgorithm) : Z :=
  match cipherAlgorithm with
  | CPA_CY_SYM_CIPHER_ARC4 => 8
  | CPA_CY_SYM_CIPHER_AES_ECB | CPA_CY_SYM_CIPHER_AES_CBC | CPA_CY_SYM_CIPHER_AES_CTR | CPA_CY_SYM_CIPHER_AES_CCM
  | CPA_CY_SYM_CIPHER_AES_GCM | CPA_CY_SYM_CIPHER_AES_XTS | CPA_CY_SYM_CIPHER_AES_F8 => 16
  | CPA_CY_SYM_CIPHER_DES_ECB | CPA_CY_SYM_CIPHER_DES_CBC => 8
  | CPA_CY_SYM_CIPHER_3DES_ECB | CPA_CY_SYM_CIPHER_3DES_CBC | CPA_CY_SYM_CIPHER_3DES_CTR => 8
  | CPA_CY_SYM_CIPHER_KASUMI_F8 | CPA_CY_SYM_CIPHER_SNOW3G_UEA2 | CPA_CY_SYM_CIPHER_ZUC_EEA3 => 8
  | CPA_CY_SYM_CIPHER_NULL => 8
  | CPA_CY_SYM_CIPHER_CHACHA => 64
  | CPA_CY_SYM_CIPHER_SM4_ECB | CPA_CY_SYM_CIPHER_SM4_CBC | CPA_CY_SYM_CIPHER_SM4_CTR => 16
  end.

Definition LacSymQat_CipherIvSizeBytesGet (cipherAlgorithm : CpaCySymCipherAlgorithm) : Z :=
  match cipherAlgorithm with
  | CPA_CY_SYM_CIPHER_ARC4 => LAC_CIPHER_ARC4_STATE_LEN_BYTES
  | CPA_CY_SYM_CIPHER_KASUMI_F8 => 8
  | CPA_CY_SYM_CIPHER_SNOW3G_UEA2 => 16
  | CPA_CY_SYM_CIPHER_ZUC_EEA3 => 16
  | CPA_CY_SYM_CIPHER_CHACHA => 12
  | CPA_CY_SYM_CIPHER_AES_ECB | CPA_CY_SYM_CIPHER_DES_ECB | CPA_CY_SYM_CIPHER_3DES_ECB | CPA_CY_SYM_CIPHER_SM4_ECB
  | CPA_CY_SYM_CIPHER_NULL => 0
  | _ => LacSymQat_CipherBlockSizeBytesGet cipherAlgorithm
  end.

(** The status, the cookie with its flags and the buffer *)
Definition LacCipher_PerformIvCheck (algorithm : CpaCySymCipherAlgorithm) (q : cookie) (qatPacketType : Z)
    : Z * cookie * iv_buffer :=
  let op := pOpData q in
  let bad := (CPA_STATUS_INVALID_PARAM, q, IvNone) in
  match algorithm with
  | CPA_CY_SYM_CIPHER_AES_CTR | CPA_CY_SYM_CIPHER_3DES_CTR | CPA_CY_SYM_CIPHER_AES_CCM | CPA_CY_SYM_CIPHER_AES_GCM
  | CPA_CY_SYM_CIPHER_CHACHA | CPA_CY_SYM_CIPHER_AES_CBC | CPA_CY_SYM_CIPHER_DES_CBC | CPA_CY_SYM_CIPHER_3DES_CBC
  | CPA_CY_SYM_CIPHER_AES_F8 | CPA_CY_SYM_CIPHER_AES_XTS | CPA_CY_SYM_CIPHER_SM4_CBC | CPA_CY_SYM_CIPHER_SM4_CTR =>
      if pIv op =? 0 then bad
      else if negb (ivLenInBytes op =? LacSymQat_CipherIvSizeBytesGet algorithm) &&
              negb ((bool_decide (algorithm = CPA_CY_SYM_CIPHER_AES_GCM) && (ivLenInBytes op =? 12)) ||
                    bool_decide (algorithm = CPA_CY_SYM_CIPHER_AES_CCM)) then bad
      else if qatPacketType =? ICP_QAT_FW_LA_PARTIAL_NONE then (CPA_STATUS_SUCCESS, q, IvUser)
      else
        let start := qatPacketType =? ICP_QAT_FW_LA_PARTIAL_START in
        let q := if start || (qatPacketType =? ICP_QAT_FW_LA_PARTIAL_MID) then
                   let q := q <| updateUserIvOnRecieve := true |> in
                   if start then q <| updateSessionIvOnSend := true |> else q
                 else q in
        (CPA_STATUS_SUCCESS, q, IvPartialOpState)
  | CPA_CY_SYM_CIPHER_KASUMI_F8 =>
      if (pIv op =? 0) || negb (ivLenInBytes op =? 8) then bad else (CPA_STATUS_SUCCESS, q, IvUser)
  | CPA_CY_SYM_CIPHER_SNOW3G_UEA2 =>
      if (pIv op =? 0) || negb (ivLenInBytes op =? 16) then bad else (CPA_STATUS_SUCCESS, q, IvUser)
  | CPA_CY_SYM_CIPHER_ARC4 =>
      if qatPacketType =? ICP_QAT_FW_LA_PARTIAL_NONE then (CPA_STATUS_SUCCESS, q, IvARC4InitialState)
      else
        let q := if qatPacketType =? ICP_QAT_FW_LA_PARTIAL_START then q <| updateSessionIvOnSend := true |> else q in
        (CPA_STATUS_SUCCESS, q, IvPartialOpState)
  | CPA_CY_SYM_CIPHER_ZUC_EEA3 =>
      if (pIv op =? 0) || (negb (ivLenInBytes op =? 16) && negb (ivLenInBytes op =? 24)) then bad
      else (CPA_STATUS_SUCCESS, q, IvUser)
  | _ => (CPA_STATUS_SUCCESS, q, IvNone)
  end.

Definition LAC_BYTES_TO_QUADWORDS (x : Z) : Z := Z.shiftr x 3 + (if x mod 8 =? 0 then 0 else 1).
Definition LacSymQat_CipherXTSModeUpdateKeyLen (d : session) (newKeySizeInBytes : Z) : session :=
  d <| cipher_key_sz := u8 (LAC_BYTES_TO_QUADWORDS newKeySizeInBytes) |>.

(** [memcpy] of [n] bytes between the session's buffers and the client's memory *)
Definition copy (dst src : list Z) (n : Z) : list Z := take (Z.to_nat n) src ++ drop (Z.to_nat n) dst.
Definition read (m : memory) (a n : Z) : list Z := map m (seqZ a n).
Definition store (m : memory) (a : Z) (l : list Z) : memory :=
  fun x => if (a <=? x) && (x <? a + len l) then l.[x - a] else m x.

(** The flags for partial packets of the message: its type and UPDATE_STATE, which the template
    has cleared *)
Definition LAC_CIPHER_IS_SM4 (algo : CpaCySymCipherAlgorithm) : bool :=
  bool_decide (algo = CPA_CY_SYM_CIPHER_SM4_ECB) || bool_decide (algo = CPA_CY_SYM_CIPHER_SM4_CBC) ||
  bool_decide (algo = CPA_CY_SYM_CIPHER_SM4_CTR).
Definition LAC_CIPHER_IS_CHACHA (algo : CpaCySymCipherAlgorithm) : bool := bool_decide (algo = CPA_CY_SYM_CIPHER_CHACHA).
Definition LAC_CIPHER_IS_ECB_MODE (algo : CpaCySymCipherAlgorithm) : bool :=
  bool_decide (algo = CPA_CY_SYM_CIPHER_AES_ECB) || bool_decide (algo = CPA_CY_SYM_CIPHER_DES_ECB) ||
  bool_decide (algo = CPA_CY_SYM_CIPHER_3DES_ECB) || bool_decide (algo = CPA_CY_SYM_CIPHER_NULL) ||
  bool_decide (algo = CPA_CY_SYM_CIPHER_SNOW3G_UEA2) || bool_decide (algo = CPA_CY_SYM_CIPHER_SM4_ECB).
Definition LacSymQat_LaPacketCommandFlagSet (qatPacketType : Z) (laCmdAuth : bool) (cipherAlgorithm : CpaCySymCipherAlgorithm)
    : Z * bool :=
  if LAC_CIPHER_IS_SM4 cipherAlgorithm || LAC_CIPHER_IS_CHACHA cipherAlgorithm then (ICP_QAT_FW_LA_PARTIAL_NONE, false)
  else (qatPacketType,
        negb ((qatPacketType =? ICP_QAT_FW_LA_PARTIAL_NONE) || (qatPacketType =? ICP_QAT_FW_LA_PARTIAL_END) ||
              (negb laCmdAuth && LAC_CIPHER_IS_ECB_MODE cipherAlgorithm))).

(** What a buffer holds, [n] bytes of it *)
Definition iv_bytes (b : iv_buffer) (n : Z) (op : CpaCySymOpData) (m : memory) (d : session) : list Z :=
  match b with
  | IvUser => read m (pIv op) n
  | IvPartialOpState => take (Z.to_nat n) (cipherPartialOpState d)
  | IvARC4InitialState => take (Z.to_nat n) (cipherARC4InitialState d)
  | IvNone => []
  end.

(** The vector of the message.  (For XTS on a UCS slice, the bytes are then encrypted.) *)
Definition LAC_SYM_QAT_HASH_IV_REQ_MAX_SIZE_QW : Z := 2.
Definition LacSymQat_CipherRequestParamsPopulate (cipher_state_sz partial : Z) (update : bool) (b : iv_buffer)
    (op : CpaCySymOpData) (m : memory) (d : session) : iv_field :=
  if (LAC_SYM_QAT_HASH_IV_REQ_MAX_SIZE_QW <? cipher_state_sz) || update ||
     match b with IvNone => true | _ => false end || (partial =? ICP_QAT_FW_LA_PARTIAL_END)
  then cipher_IV_ptr b
  else cipher_IV_array (iv_bytes b (8 * cipher_state_sz) op m d).

(** The copying of the vector when a request is sent *)
Definition update_session_iv (q : cookie) (m : memory) (d : session) : session :=
  if updateSessionIvOnSend q then
    if LAC_CIPHER_IS_ARC4 (cipherAlgorithm d) then
      d <| cipherPartialOpState := copy (cipherPartialOpState d) (cipherARC4InitialState d) LAC_CIPHER_ARC4_STATE_LEN_BYTES |>
    else
      d <| cipherPartialOpState :=
             copy (cipherPartialOpState d) (read m (pIv (pOpData q)) (ivLenInBytes (pOpData q))) (ivLenInBytes (pOpData q)) |>
  else d.

(** * Sending *)

(** [icp_adf_transPutMsg] with the message in the cookie [c] *)
Definition transPutMsg (c : Z) (s : cy) : Z * cy :=
  match puts s with
  | [] => (CPA_STATUS_SUCCESS, s <| ring := ring s ++ [c] |>)
  | status :: l =>
      (status, if status =? CPA_STATUS_SUCCESS then s <| puts := l |> <| ring := ring s ++ [c] |> else s <| puts := l |>)
  end.

Definition set_session (f : session -> session) (s : cy) : cy := s <| sess := f (sess s) |>.
Definition set_nonBlocking (b : bool) : session -> session := fun d => d <| nonBlockingOpsInProgress := b |>.

(** The test whether a request has to be queued *)
Definition must_queue (d : session) : bool :=
  negb (nonBlockingOpsInProgress d) || negb (pRequestQueueTail d =? 0).

(** The request is appended to the queue. *)
Definition enqueue (pRequest : Z) (s : cy) : option cy :=
  let tail := pRequestQueueTail (sess s) in
  s ← (if negb (tail =? 0) then
         q ← cookies s !! tail;
         Some (s <| cookies := <[tail := q <| pNext := pRequest |>]> (cookies s) |>)
       else Some (set_session (fun d => d <| pRequestQueueHead := pRequest |>) s));
  Some (set_session (fun d => d <| pRequestQueueTail := pRequest |>) s).

(** The request is sent at once. *)
Definition send (pRequest : Z) (s : cy) : option (Z * cy) :=
  q ← cookies s !! pRequest;
  let s := if is_full q then s else set_session (set_nonBlocking false) s in
  let s := set_session (update_session_iv q (umem s)) s in
  let '(status, s) := transPutMsg pRequest s in
  let s := if negb (status =? CPA_STATUS_SUCCESS) && negb (is_full q) then set_session (set_nonBlocking true) s else s in
  Some (status, s).

(** When no other thread comes in between, the second test under the lock has the result of
    the first. *)
Definition LacSymQueue_RequestSend (pRequest : Z) (s : cy) : option (Z * cy) :=
  if must_queue (sess s) then
    if must_queue (sess s) then s ← enqueue pRequest s; Some (CPA_STATUS_SUCCESS, s)
    else send pRequest s
  else send pRequest s.

Definition DEQUEUE_MSGPUT_MAX_RETRIES : Z := 10000.

(** The loop of attempts to put a message: the status and the number of attempts.  [n] bounds
    the attempts that are still to come. *)
Fixpoint put_retry (n : nat) (c : Z) (retries : Z) (s : cy) : Z * Z * cy :=
  let '(status, s) := transPutMsg c s in
  let retries := u32 (retries + 1) in
  match n with
  | O => (status, retries, s)
  | S n =>
      if negb (status =? CPA_STATUS_SUCCESS) && (retries <? DEQUEUE_MSGPUT_MAX_RETRIES) then put_retry n c retries s
      else (status, retries, s)
  end.

Fixpoint dequeue_loop (fuel : nat) (status : Z) (s : cy) : option (Z * cy) :=
  let head := pRequestQueueHead (sess s) in
  if negb (head =? 0) && nonBlockingOpsInProgress (sess s) then
    match fuel with
    | O => None
    | S fuel =>
        q ← cookies s !! head;
        let s := if is_full q then s else set_session (set_nonBlocking false) s in
        let s := set_session (update_session_iv q (umem s)) s in
        let '(status, retries, s) := put_retry (Z.to_nat DEQUEUE_MSGPUT_MAX_RETRIES) head 0 s in
        if negb (status =? CPA_STATUS_SUCCESS) || (DEQUEUE_MSGPUT_MAX_RETRIES <=? retries) then Some (status, s)
        else
          q ← cookies s !! head;
          dequeue_loop fuel status (set_session (fun d => d <| pRequestQueueHead := pNext q |>) s)
    end
  else Some (status, if head =? 0 then set_session (fun d => d <| pRequestQueueTail := 0 |>) s else s).

(** No request is in the queue twice, so the number of cookies bounds the loop. *)
Definition LacSymCb_PendingReqsDequeue (s : cy) : option (Z * cy) :=
  dequeue_loop (size (cookies s)) CPA_STATUS_SUCCESS (set_session (set_nonBlocking true) s).

(** * Responses *)

Definition LacSymCb_CleanUserData (d : session) (bl : CpaBufferList) (op : CpaCySymOpData) (isCCM : bool) (m : memory)
    : option memory :=
  let authTagLen := hashResultSize d in
  m ← LacBuffDesc_BufferListZeroFromOffset bl (cryptoStartSrcOffsetInBytes op)
        (if isCCM then u32 (messageLenToCipherInBytes op + authTagLen) else messageLenToCipherInBytes op) m;
  Some (if negb (digestIsAppended d) && negb (pDigestResult op =? 0) then osalMemSet m (pDigestResult op) authTagLen else m).

Definition is_cipher_op (d : session) : bool :=
  bool_decide (symOperation d = CPA_CY_SYM_OP_CIPHER) || bool_decide (symOperation d = CPA_CY_SYM_OP_ALGORITHM_CHAINING).

(** The digest is verified for full packets and for the last of a sequence. *)
Definition verifies (d : session) (op : CpaCySymOpData) : bool :=
  (bool_decide (singlePassState d = SPC_YES) || negb (bool_decide (symOperation d = CPA_CY_SYM_OP_CIPHER))) &&
  digestVerify d && negb (bool_decide (packetType op = CPA_CY_SYM_PACKET_TYPE_PARTIAL)).

(** What is done for the client's vector and for the key of XTS before requests are dequeued *)
Definition update_on_receive (q : cookie) (s : cy) : cy :=
  let op := pOpData q in
  let d := sess s in
  match packetType op with
  | CPA_CY_SYM_PACKET_TYPE_PARTIAL =>
      if is_cipher_op d then
        let s := if updateUserIvOnRecieve q
                 then s <| umem := store (umem s) (pIv op) (take (Z.to_nat (ivLenInBytes op)) (cipherPartialOpState d)) |> else s in
        if updateKeySizeOnRecieve q && LAC_CIPHER_IS_XTS_MODE (cipherAlgorithm d)
        then set_session (fun d => LacSymQat_CipherXTSModeUpdateKeyLen d (cipherKeyLenInBytes d / 2)) s else s
      else s
  | CPA_CY_SYM_PACKET_TYPE_LAST_PARTIAL =>
      if is_cipher_op d && LAC_CIPHER_IS_XTS_MODE (cipherAlgorithm d)
      then set_session (fun d => LacSymQat_CipherXTSModeUpdateKeyLen d (cipherKeyLenInBytes d)) s else s
  | CPA_CY_SYM_PACKET_TYPE_FULL => s
  end.

Definition inc (x : Z) : Z := u64 (x + 1).
Definition dec (x : Z) : Z := u64 (x - 1).
Definition stat_verify_failure (s : cy) : cy :=
  s <| stats := (stats s) <| numSymOpVerifyFailures := inc (numSymOpVerifyFailures (stats s)) |> |>.
Definition stat_completed (s : cy) : cy :=
  s <| stats := (stats s) <| numSymOpCompleted := inc (numSymOpCompleted (stats s)) |> |>.
Definition stat_completed_error (s : cy) : cy :=
  s <| stats := (stats s) <| numSymOpCompletedErrors := inc (numSymOpCompletedErrors (stats s)) |> |>.

(** The check of the response: the status and the state, with the client's data cleaned when
    the verification of an authenticated cipher has failed *)
Definition check_response (q : cookie) (ok : bool) (status : Z) (s : cy) : option (Z * cy) :=
  let op := pOpData q in
  if verifies (sess s) op then
    if negb ok then
      let s := stat_verify_failure s in
      let clean isCCM :=
        m ← LacSymCb_CleanUserData (sess s) (pDstBuffer q) op isCCM (umem s);
        Some (status, s <| umem := m |>) in
      match cipherAlgorithm (sess s) with
      | CPA_CY_SYM_CIPHER_AES_CCM => clean true
      | CPA_CY_SYM_CIPHER_AES_GCM => clean false
      | _ => Some (status, s)
      end
    else Some (status, s)
  else Some (if (status =? CPA_STATUS_SUCCESS) && negb ok then CPA_STATUS_FAIL else status, s).

(** Requests that waited are sent when the response of a partial is good. *)
Definition dequeue_on_response (q : cookie) (ok : bool) (status : Z) (s : cy) : option (Z * bool * cy) :=
  if negb (is_full q) && ok then
    '(dequeueStatus, s) ← LacSymCb_PendingReqsDequeue s;
    Some (if negb (dequeueStatus =? CPA_STATUS_SUCCESS) then
            (if status =? CPA_STATUS_SUCCESS then dequeueStatus else status, false, stat_completed_error s)
          else (status, ok, s))
  else Some (status, ok, s).

(** The cookie goes back to the pool and the client is called. *)
Definition complete_request (c : Z) (q : cookie) (status : Z) (ok : bool) (s : cy) : cy :=
  let s := if (status =? CPA_STATUS_SUCCESS) && negb (internalSession (sess s)) then stat_completed s else s in
  let s := s <| cookies := base.delete c (cookies s) |> in
  let s := s <| events := events s ++ [mk_event (pCallbackTag q) status (symOperation (sess s)) (pOpData q) (pDstBuffer q) ok] |> in
  set_session (fun d => d <| pendingCbCount := dec (pendingCbCount d) |>) s.

Definition LacSymCb_ProcessCallbackInternal (c : Z) (ok : bool) (status : Z) (s : cy) : option cy :=
  q ← cookies s !! c;
  '(status, s) ← check_response q ok status s;
  let s := update_on_receive q s in
  '(status, ok, s) ← dequeue_on_response q ok status s;
  Some (complete_request c q status ok s).

(** * Requests *)

(** The packet types that [LacSymPerform_BufferParamCheck] accepts; [supported] says whether
    the session's operation supports partial packets. *)
Definition packet_type_check (supported : bool) (op : CpaCySymOpData) (d : session) : Z :=
  if negb (bool_decide (packetType op = CPA_CY_SYM_PACKET_TYPE_FULL)) then
    if negb supported then CPA_STATUS_INVALID_PARAM
    else if negb (LacSym_PartialPacketStateCheck (packetType op) (partialState d) =? CPA_STATUS_SUCCESS)
    then CPA_STATUS_INVALID_PARAM
    else CPA_STATUS_SUCCESS
  else CPA_STATUS_SUCCESS.

(** A session with algorithms that the device can do in a single pass is changed to a cipher
    session when a request comes that allows it; [spc] says that its vector, the algorithms and
    the device do. *)
Definition to_single_pass (spc : bool) (d : session) : session :=
  if negb (bool_decide (singlePassState d = SPC_NO)) && spc
  then d <| laCmdAuth := false |> <| symOperation := CPA_CY_SYM_OP_CIPHER |> <| singlePassState := SPC_YES |>
  else d.

(** The cookie as [LacAlgChain_Perform] fills it in, up to the cipher parameters of its message *)
Definition LAC_SYM_QAT_CIPHER_SPC_STATE_SIZE : Z := 48.
Definition populate_cookie (d : session) (m : memory) (tag : Z) (op : CpaCySymOpData) (dst : CpaBufferList) : Z * cookie :=
  let qatPacketType := LacSymQat_packetTypeGet (packetType op) (partialState d) in
  let '(partial, update) := LacSymQat_LaPacketCommandFlagSet qatPacketType (laCmdAuth d) (cipherAlgorithm d) in
  let q := mk_cookie tag op false false
             (LAC_CIPHER_IS_XTS_MODE (cipherAlgorithm d) && negb (laCmdAuth d) &&
              bool_decide (packetType op = CPA_CY_SYM_PACKET_TYPE_PARTIAL) && (qatPacketType =? ICP_QAT_FW_LA_PARTIAL_START))
             (cipher_IV_ptr IvNone) update dst 0 in
  if laCmdAuth d then (CPA_STATUS_SUCCESS, q)
  else
    let '(status, q, b) := LacCipher_PerformIvCheck (cipherAlgorithm d) q qatPacketType in
    let state_sz :=
      if bool_decide (singlePassState d = SPC_YES) &&
         ((qatPacketType =? ICP_QAT_FW_LA_PARTIAL_MID) || (qatPacketType =? ICP_QAT_FW_LA_PARTIAL_END))
      then LAC_BYTES_TO_QUADWORDS LAC_SYM_QAT_CIPHER_SPC_STATE_SIZE else cipher_state_sz d in
    (status, if status =? CPA_STATUS_SUCCESS
             then q <| cipher_IV := LacSymQat_CipherRequestParamsPopulate state_sz partial update b op m d |> else q).

(** The end of [LacAlgChain_Perform]: [status] is that of the building of the request in the
    cookie [c]. *)
Definition alg_chain_send (c status : Z) (s : cy) : option (Z * cy) :=
  let s := if status =? CPA_STATUS_SUCCESS then set_session (fun d => d <| pendingCbCount := inc (pendingCbCount d) |>) s else s in
  '(status, s) ←
    (if status =? CPA_STATUS_SUCCESS then
       '(status, s) ← LacSymQueue_RequestSend c s;
       Some (status, if negb (status =? CPA_STATUS_SUCCESS)
                     then set_session (fun d => d <| pendingCbCount := dec (pendingCbCount d) |>) s else s)
     else Some (status, s));
  Some (status, if negb (status =? CPA_STATUS_SUCCESS) then s <| cookies := base.delete c (cookies s) |> else s).

(** [LacAlgChain_Perform] with the cookie [c] that the pool gives.  [build] is the status of the
    checks and the parts of the request that are not modelled; [noAad] says that the request
    needs additional data for authentication and has a NULL pointer for it.  In that case a
    single-pass session returns with the cookie still allocated (and the session's count of
    readers, which is not modelled, one too high). *)
Definition LacAlgChain_Perform (spc noAad : bool) (build c tag : Z) (op : CpaCySymOpData) (dst : CpaBufferList) (s : cy)
    : option (Z * cy) :=
  let s := set_session (to_single_pass spc) s in
  let '(status, q) := populate_cookie (sess s) (umem s) tag op dst in
  let s := s <| cookies := <[c := q]> (cookies s) |> in
  if negb (laCmdAuth (sess s)) && bool_decide (singlePassState (sess s) = SPC_YES) && (status =? CPA_STATUS_SUCCESS) && noAad
  then Some (CPA_STATUS_INVALID_PARAM, s)
  else alg_chain_send c (if status =? CPA_STATUS_SUCCESS then build else status) s.

(** The end of [LacSym_Perform] *)
Definition perform_op (supported spc noAad : bool) (build c tag : Z) (op : CpaCySymOpData) (dst : CpaBufferList) (s : cy)
    : option (Z * cy) :=
  let status := packet_type_check supported op (sess s) in
  if negb (status =? CPA_STATUS_SUCCESS) then Some (status, s)
  else
    '(status, s) ← LacAlgChain_Perform spc noAad build c tag op dst s;
    Some (status,
          if status =? CPA_STATUS_SUCCESS then
            let s := if bool_decide (packetType op = CPA_CY_SYM_PACKET_TYPE_FULL) then s
                     else set_session (fun d => d <| partialState := LacSym_PartialPacketStateUpdate (packetType op) (partialState d) |>) s in
            s <| stats := (stats s) <| numSymOpRequests := inc (numSymOpRequests (stats s)) |> |>
          else s <| stats := (stats s) <| numSymOpRequestErrors := inc (numSymOpRequestErrors (stats s)) |> |>).

(** The status of [cpaCySymRemoveSession] for a session of the traditional interface: the test of
    the pending requests *)
Definition remove_session_status (d : session) : Z :=
  if negb (pendingCbCount d =? 0) then CPA_STATUS_RETRY else CPA_STATUS_SUCCESS.

(** * The queue *)

(** [queued m h qs]: from [h], the [pNext] pointers spell [qs] *)
Fixpoint queued (m : gmap Z cookie) (h : Z) (qs : list Z) : Prop :=
  match qs with
  | [] => h = 0
  | c :: qs => h = c /\ c <> 0 /\ exists q, m !! c = Some q /\ queued m (pNext q) qs
  end.

Definition strip (q : cookie) : cookie := q <| pNext := 0 |>.

Lemma queued_insert m h qs c q : c ∉ qs -> queued m h qs -> queued (<[c := q]> m) h qs.
Proof.
  revert h. induction qs as [|d qs IH]; intros h Hc; [done|]. cbn. intros (-> & Hd & q' & Hq & H).
  rewrite not_elem_of_cons in Hc. split_and!; [done..|]. exists q'. rewrite lookup_insert_ne by naive_solver.
  split; [done|]. apply IH; naive_solver.
Qed.
Lemma queued_delete m h qs c : c ∉ qs -> queued m h qs -> queued (base.delete c m) h qs.
Proof.
  revert h. induction qs as [|d qs IH]; intros h Hc; [done|]. cbn. intros (-> & Hd & q' & Hq & H).
  rewrite not_elem_of_cons in Hc. split_and!; [done..|]. exists q'. rewrite lookup_delete_ne by naive_solver.
  split; [done|]. apply IH; naive_solver.
Qed.
Lemma queued_elem m h qs c : queued m h qs -> c ∈ qs -> c <> 0 /\ is_Some (m !! c).
Proof.
  revert h. induction qs as [|d qs IH]; intros h; [set_solver|]. cbn. intros (-> & Hd & q' & Hq & H) [->|Hc]%elem_of_cons.
  - eauto.
  - by apply (IH _ H).
Qed.

(** Linking a new request behind the last one *)
Lemma queued_snoc m h qs t q c qc : queued m h (qs ++ [t]) -> NoDup (qs ++ [t]) -> m !! t = Some q ->
  m !! c = Some qc -> pNext qc = 0 -> c <> 0 -> c ∉ qs ++ [t] -> queued (<[t := q <| pNext := c |>]> m) h (qs ++ [t; c]).
Proof.
  intros HQ HN Ht Hc Hn H0 Hni. revert h HQ HN Hni. induction qs as [|d qs IH]; intros h; cbn.
  - intros (-> & Ht0 & q' & Hq & _) _ Hni. split_and!; [done..|].
    exists (q <| pNext := c |>). rewrite lookup_insert_eq. split_and!; [done|done|done|].
    exists qc. rewrite lookup_insert_ne by set_solver. done.
  - intros (-> & Hd & q' & Hq & H) [Hdn HN]%NoDup_cons Hni. split_and!; [done..|]. exists q'.
    rewrite lookup_insert_ne by set_solver. split; [done|]. apply IH; set_solver.
Qed.

(** The ring takes a message before the attempts run out: fewer than 9999 puts fail in a row. *)
Definition patient (l : list Z) : Prop :=
  forall l1 l2 l3, l = l1 ++ l2 ++ l3 -> Forall (fun status => status <> CPA_STATUS_SUCCESS) l2 ->
    len l2 < DEQUEUE_MSGPUT_MAX_RETRIES - 1.

Lemma patient_nil : patient [].
Proof. intros l1 l2 l3 E HF. by destruct l1, l2, l3. Qed.
Lemma patient_suffix l1 l2 : patient (l1 ++ l2) -> patient l2.
Proof. intros HP a b c -> HF. apply (HP (l1 ++ a) b c); [by rewrite <- app_assoc|done]. Qed.

Lemma put_retry_spec n c : forall r s,
  Z.of_nat n = DEQUEUE_MSGPUT_MAX_RETRIES - r -> 0 <= r ->
  (forall l2 l3, puts s = l2 ++ l3 -> Forall (fun status => status <> CPA_STATUS_SUCCESS) l2 ->
     r + len l2 < DEQUEUE_MSGPUT_MAX_RETRIES - 1) ->
  exists r' l1 l2, puts s = l1 ++ l2 /\ r' < DEQUEUE_MSGPUT_MAX_RETRIES /\
    put_retry n c r s = (CPA_STATUS_SUCCESS, r', s <| puts := l2 |> <| ring := ring s ++ [c] |>).
Proof.
  unfold DEQUEUE_MSGPUT_MAX_RETRIES. induction n as [|n IH]; intros r s Hn Hr HP.
  { specialize (HP [] (puts s) eq_refl (List.Forall_nil _)). cbn in HP. lia. }
  cbn [put_retry]. unfold transPutMsg. destruct (puts s) as [|st l] eqn:E.
  - cbn. exists (u32 (r + 1)), [], []. split_and!; [done| |by destruct s; cbn in *; subst].
    specialize (HP [] [] eq_refl (List.Forall_nil _)). cbn in HP. rewrite u32_small; lia.
  - destruct (Z.eqb_spec st CPA_STATUS_SUCCESS) as [->|Hst].
    + cbn. exists (u32 (r + 1)), [CPA_STATUS_SUCCESS], l. split_and!; [done| |done].
      specialize (HP [] _ eq_refl (List.Forall_nil _)). cbn in HP. rewrite u32_small; lia.
    + specialize (HP [st] l eq_refl ltac:(by repeat constructor)) as Hr1. cbn in Hr1.
      rewrite u32_small by lia. unfold DEQUEUE_MSGPUT_MAX_RETRIES. rewrite (proj2 (Z.ltb_lt (r + 1) 10000)) by lia. cbn [negb andb].
      destruct (IH (r + 1) (s <| puts := l |>)) as (r' & l1 & l2 & E1 & Hr' & E2); [lia..| |].
      { cbn. intros l2 l3 -> HF. specialize (HP (st :: l2) l3 eq_refl ltac:(by constructor)). cbn in HP. lia. }
      cbn in E1. subst l. exists r', (st :: l1), l2. split_and!; [done|done|]. rewrite E2. done.
Qed.

(** The requests that go out together: up to the first partial *)
Fixpoint upto_partial (full : Z -> bool) (qs : list Z) : list Z * list Z :=
  match qs with
  | [] => ([], [])
  | c :: qs => if full c then let '(out, rest) := upto_partial full qs in (c :: out, rest) else ([c], qs)
  end.
Lemma upto_partial_app full qs : let '(out, rest) := upto_partial full qs in qs = out ++ rest.
Proof. induction qs as [|c qs IH]; cbn; [done|]. destruct (full c); [|done]. destruct (upto_partial full qs). by subst. Qed.

(** A list of requests with a partial at its end at most *)
Lemma upto_partial_shape full qs : let '(out, rest) := upto_partial full qs in
  (forallb full out = true /\ rest = []) \/ (exists fulls p, out = fulls ++ [p] /\ forallb full fulls = true /\ full p = false).
Proof.
  induction qs as [|c qs IH]; cbn; [by left|]. destruct (full c) eqn:E.
  - destruct (upto_partial full qs) as [out rest]. destruct IH as [[H ->]|(f & p & -> & H & Hp)].
    + left. cbn. by rewrite E, H.
    + right. exists (c :: f), p. cbn. by rewrite E, H.
  - right. exists [], c. done.
Qed.

Definition full_at (m : gmap Z cookie) (c : Z) : bool := match m !! c with Some q => is_full q | None => true end.
Definition iv_at (m : gmap Z cookie) (mem : memory) (d : session) (c : Z) : session :=
  match m !! c with Some q => update_session_iv q mem d | None => d end.

Definition queue_state (d : session) (h t : Z) (b : bool) : session :=
  d <| pRequestQueueHead := h |> <| pRequestQueueTail := t |> <| nonBlockingOpsInProgress := b |>.
Lemma queue_state_eta d : queue_state d (pRequestQueueHead d) (pRequestQueueTail d) (nonBlockingOpsInProgress d) = d.
Proof. by destruct d. Qed.
Lemma iv_at_queue m mem d h t b c : iv_at m mem (queue_state d h t b) c = queue_state (iv_at m mem d c) h t b.
Proof. unfold iv_at, update_session_iv. cbn. by repeat case_match. Qed.
Lemma iv_fold_queue m mem out : forall d h t b,
  fold_left (iv_at m mem) out (queue_state d h t b) = queue_state (fold_left (iv_at m mem) out d) h t b.
Proof. induction out as [|c out IH]; intros d h t b; [done|]. cbn [fold_left]. by rewrite iv_at_queue, IH. Qed.

Definition first_of (qs : list Z) : Z := match qs with [] => 0 | c :: _ => c end.
Lemma queued_first m h qs : queued m h qs -> h = first_of qs.
Proof. destruct qs; cbn; tauto. Qed.

(** One round of the loop *)
Lemma dequeue_round fuel status s c q :
  pRequestQueueHead (sess s) = c -> c <> 0 -> nonBlockingOpsInProgress (sess s) = true -> cookies s !! c = Some q ->
  patient (puts s) ->
  exists l1 l2, puts s = l1 ++ l2 /\
    dequeue_loop (S fuel) status s =
    dequeue_loop fuel CPA_STATUS_SUCCESS
      (mk_cy (queue_state (update_session_iv q (umem s) (sess s)) (pNext q) (pRequestQueueTail (sess s)) (is_full q))
         (cookies s) (umem s) l2 (ring s ++ [c]) (stats s) (events s)).
Proof.
  intros Hh Hc Hb Hq HP. cbn [dequeue_loop]. rewrite Hh, Hb, (proj2 (Z.eqb_neq c 0)), Hq by done. cbn [negb andb mbind option_bind].
  set (s1 := set_session _ (if is_full q then s else _)).
  assert (s1 = mk_cy (queue_state (update_session_iv q (umem s) (sess s)) c (pRequestQueueTail (sess s)) (is_full q))
                 (cookies s) (umem s) (puts s) (ring s) (stats s) (events s)) as ->.
  { subst s1 c. destruct s as [d ck um ps rg st ev]. destruct d. cbn in Hb. subst. unfold set_session, update_session_iv, queue_state.
    cbn. by destruct (is_full q); cbn; repeat case_match. }
  set (d1 := update_session_iv q (umem s) (sess s)).
  destruct (put_retry_spec (Z.to_nat DEQUEUE_MSGPUT_MAX_RETRIES) c 0
              (mk_cy (queue_state d1 c (pRequestQueueTail (sess s)) (is_full q)) (cookies s) (umem s) (puts s) (ring s)
                 (stats s) (events s))) as (r' & l1 & l2 & E & Hr & ->).
  { unfold DEQUEUE_MSGPUT_MAX_RETRIES. lia. }
  { lia. }
  { cbn [puts]. intros l2 l3 E HF. rewrite Z.add_0_l. exact (HP [] l2 l3 E HF). }
  exists l1, l2. split; [done|]. rewrite (proj2 (Z.leb_gt _ r')) by done. cbn. rewrite Hq. done.
Qed.

(** What the loop over the queue sends and leaves *)
Lemma dequeue_spec m mem t st ev : forall qs fuel d l r,
  queued m (first_of qs) qs -> (length qs <= fuel)%nat -> patient l ->
  let '(out, rest) := upto_partial (full_at m) qs in
  exists l1 l2, l = l1 ++ l2 /\
    dequeue_loop fuel CPA_STATUS_SUCCESS (mk_cy (queue_state d (first_of qs) t true) m mem l r st ev) =
    Some (CPA_STATUS_SUCCESS,
          mk_cy (queue_state (fold_left (iv_at m mem) out d) (first_of rest) (if decide (rest = []) then 0 else t)
                   (forallb (full_at m) out)) m mem l2 (r ++ out) st ev).
Proof.
  induction qs as [|c qs IH]; intros fuel d l r HQ Hf HP.
  { cbn. exists [], l. split; [done|]. rewrite app_nil_r. by destruct fuel. }
  destruct fuel as [|fuel]; [cbn in Hf; lia|]. destruct HQ as (_ & Hc0 & q & Hq & HQ).
  pose proof (queued_first _ _ _ HQ) as En. rewrite En in HQ.
  destruct (dequeue_round fuel CPA_STATUS_SUCCESS (mk_cy (queue_state d c t true) m mem l r st ev) c q) as (l1 & l2 & E & ER); try done.
  cbn [sess cookies umem ring stats events puts] in E, ER. cbn [upto_partial first_of]. unfold full_at at 1. rewrite Hq, ER, En.
  assert (update_session_iv q mem (queue_state d c t true) = queue_state (iv_at m mem d c) c t true) as ->.
  { rewrite <- iv_at_queue. unfold iv_at. by rewrite Hq. }
  change (pRequestQueueTail (queue_state d c t true)) with t.
  change (queue_state (queue_state (iv_at m mem d c) c t true) (first_of qs) t (is_full q))
    with (queue_state (iv_at m mem d c) (first_of qs) t (is_full q)).
  subst l. destruct (is_full q) eqn:EF.
  - specialize (IH fuel (iv_at m mem d c) l2 (r ++ [c]) HQ ltac:(cbn in Hf; lia) (patient_suffix _ _ HP)).
    destruct (upto_partial (full_at m) qs) as [out rest]. destruct IH as (l3 & l4 & -> & ->).
    exists (l1 ++ l3), l4. split; [by rewrite app_assoc|]. cbn [forallb fold_left]. unfold full_at at 2. rewrite Hq, EF, <- app_assoc. done.
  - exists l1, l2. split; [done|]. cbn [forallb fold_left]. unfold full_at. rewrite Hq, EF.
    assert ((first_of qs =? 0) = bool_decide (qs = [])) as E0.
    { destruct qs as [|x qs]; [done|]. cbn. destruct HQ as (_ & Hx & _). by rewrite (proj2 (Z.eqb_neq x 0)). }
    destruct fuel; cbn [dequeue_loop sess queue_state upd pRequestQueueHead nonBlockingOpsInProgress]; cbn; rewrite E0, andb_false_r;
      destruct qs; done.
Qed.

(** The last request of a queue, NULL if it is empty *)
Definition last_of (qs : list Z) : Z := default 0 (last qs).

(** A queue in memory *)
Definition queue_ok (s : cy) (qs : list Z) : Prop :=
  queued (cookies s) (first_of qs) qs /\ NoDup qs /\
  pRequestQueueHead (sess s) = first_of qs /\ pRequestQueueTail (sess s) = last_of qs.

Lemma last_of_zero m qs : queued m (first_of qs) qs -> (last_of qs =? 0) = bool_decide (qs = []).
Proof.
  intros HQ. unfold last_of. destruct qs as [|c qs _] using rev_ind; [done|]. rewrite last_snoc. cbn.
  rewrite (bool_decide_eq_false_2 (qs ++ [c] = [])) by (by destruct qs).
  apply Z.eqb_neq, (queued_elem _ _ _ c HQ). set_solver.
Qed.

Lemma enqueue_spec s qs c q : queue_ok s qs -> cookies s !! c = Some q -> pNext q = 0 -> c <> 0 -> c ∉ qs ->
  exists m', enqueue c s = Some (s <| sess := queue_state (sess s) (first_of (qs ++ [c])) c (nonBlockingOpsInProgress (sess s)) |>
                                  <| cookies := m' |>) /\
    queued m' (first_of (qs ++ [c])) (qs ++ [c]) /\ strip <$> m' = strip <$> cookies s.
Proof.
  intros (HQ & HN & Hh & Ht) Hc Hq H0 Hni. unfold enqueue. rewrite Ht, (last_of_zero _ _ HQ).
  destruct qs as [|t qs _] using rev_ind.
  - exists (cookies s). cbn. split_and!; [|done|done|by exists q|done].
    destruct s as [d ? ? ? ? ? ?]. destruct d. done.
  - rewrite (bool_decide_eq_false_2 (qs ++ [t] = [])) by (by destruct qs). cbn [negb]. unfold last_of. rewrite last_snoc. cbn [default from_option id].
    destruct (queued_elem _ _ _ t HQ) as [_ [qt Hqt]]; [set_solver|]. rewrite Hqt. cbn [mbind option_bind].
    exists (<[t := qt <| pNext := c |>]> (cookies s)). rewrite <- app_assoc. cbn [app].
    assert (first_of (qs ++ [t; c]) = first_of (qs ++ [t])) as E by (by destruct qs). rewrite E.
    split_and!.
    + unfold set_session. destruct s as [d ? ? ? ? ? ?]. destruct d. cbn in *. by subst.
    + by apply (queued_snoc _ _ _ _ qt c q).
    + rewrite fmap_insert. apply insert_id. rewrite lookup_fmap, Hqt. done.
Qed.

Lemma request_queued s qs c q : queue_ok s qs -> cookies s !! c = Some q -> pNext q = 0 -> c <> 0 -> c ∉ qs ->
  nonBlockingOpsInProgress (sess s) = false \/ qs <> [] ->
  exists m', LacSymQueue_RequestSend c s =
      Some (CPA_STATUS_SUCCESS,
            s <| sess := queue_state (sess s) (first_of (qs ++ [c])) c (nonBlockingOpsInProgress (sess s)) |> <| cookies := m' |>) /\
    queued m' (first_of (qs ++ [c])) (qs ++ [c]) /\ strip <$> m' = strip <$> cookies s.
Proof.
  intros HK Hc Hq H0 Hni Hb. destruct (enqueue_spec s qs c q) as (m' & E & H); try done.
  exists m'. split; [|done]. unfold LacSymQueue_RequestSend. destruct HK as (HQ & _ & _ & Ht).
  unfold must_queue. rewrite Ht, (last_of_zero _ _ HQ), E. cbn [mbind option_bind].
  destruct Hb as [->|Hb]; [done|]. rewrite (bool_decide_eq_false_2 _ Hb). by rewrite orb_true_r.
Qed.

Lemma request_direct s c q : queue_ok s [] -> nonBlockingOpsInProgress (sess s) = true -> cookies s !! c = Some q ->
  exists status l, LacSymQueue_RequestSend c s =
    Some (status,
      mk_cy (queue_state (update_session_iv q (umem s) (sess s)) 0 0
               (if status =? CPA_STATUS_SUCCESS then is_full q else true))
        (cookies s) (umem s) l (ring s ++ (if status =? CPA_STATUS_SUCCESS then [c] else [])) (stats s) (events s)).
Proof.
  intros (_ & _ & Hh & Ht) Hb Hc. unfold LacSymQueue_RequestSend, must_queue. rewrite Hb, Ht. cbn [negb orb last_of last default from_option Z.eqb].
  unfold send. rewrite Hc. cbn [mbind option_bind]. cbn in Hh, Ht.
  destruct s as [d ck um ps rg st ev]. unfold set_session, transPutMsg, queue_state. cbn [sess puts umem] in *.
  destruct d. cbn in Hb, Hh, Ht. subst. destruct ps as [|status l].
  - exists CPA_STATUS_SUCCESS, []. unfold update_session_iv. cbn. destruct (is_full q); cbn; by repeat case_match.
  - exists status, l. unfold update_session_iv.
    destruct (is_full q); cbn -[Z.eqb]; destruct (status =? CPA_STATUS_SUCCESS); cbn; rewrite ?app_nil_r; by repeat case_match.
Qed.

Lemma queued_length m h qs : queued m h qs -> NoDup qs -> (length qs <= size m)%nat.
Proof.
  intros HQ HN. rewrite <- (size_list_to_set (C := gset Z) qs HN), <- size_dom. apply subseteq_size.
  intros c Hc%elem_of_list_to_set. apply elem_of_dom, (queued_elem _ _ _ _ HQ Hc).
Qed.

Lemma pending_dequeue s qs : queue_ok s qs -> patient (puts s) ->
  let '(out, rest) := upto_partial (full_at (cookies s)) qs in
  exists l, LacSymCb_PendingReqsDequeue s =
    Some (CPA_STATUS_SUCCESS,
          mk_cy (queue_state (fold_left (iv_at (cookies s) (umem s)) out (sess s)) (first_of rest) (last_of rest)
                   (forallb (full_at (cookies s)) out))
            (cookies s) (umem s) l (ring s ++ out) (stats s) (events s)).
Proof.
  intros (HQ & HN & Hh & Ht) HP. unfold LacSymCb_PendingReqsDequeue.
  pose proof (queued_length _ _ _ HQ HN) as HL.
  assert (set_session (set_nonBlocking true) s =
          mk_cy (queue_state (sess s) (first_of qs) (last_of qs) true) (cookies s) (umem s) (puts s) (ring s) (stats s) (events s)) as ->.
  { destruct s as [d ck um ps rg st ev]. destruct d. cbn in Hh, Ht |- *. by subst. }
  pose proof (dequeue_spec (cookies s) (umem s) (last_of qs) (stats s) (events s) qs _ (sess s) (puts s) (ring s) HQ HL HP) as HD.
  pose proof (upto_partial_app (full_at (cookies s)) qs) as EA.
  destruct (upto_partial _ qs) as [out rest]. destruct HD as (l1 & l2 & _ & ->). exists l2. do 3 f_equal.
  destruct rest as [|x rest]; [done|]. rewrite decide_False by done. subst qs. unfold last_of. by rewrite last_app_cons.
Qed.

(** * Processing of a response *)

(** What stays as it is in a session; the change to a single pass leaves it too, if the session is
    one of algorithm chaining. *)
Definition config (d : session) :=
  (is_cipher_op d, laCmdAuth d, cipherAlgorithm d, hashResultSize d, bool_decide (singlePassState d = SPC_NO), cipherARC4InitialState d).
Definition single_pass_ok (d : session) : Prop := singlePassState d <> SPC_NO -> is_cipher_op d = true /\ laCmdAuth d = false.

(** The data to be cleaned after a failed verification lies in the client's buffers. *)
Definition cleanable (d : session) (q : cookie) : Prop :=
  let off := cryptoStartSrcOffsetInBytes (pOpData q) in
  let n := messageLenToCipherInBytes (pOpData q) in
  Forall buf_ok (pBuffers (pDstBuffer q)) /\ 0 <= off /\ 0 <= n /\ 0 <= hashResultSize d /\
  off + n + hashResultSize d < 2 ^ 32 /\
  off + n + (if decide (cipherAlgorithm d = CPA_CY_SYM_CIPHER_AES_CCM) then hashResultSize d else 0)
    <= total_len (pBuffers (pDstBuffer q)).

Lemma clean_total d q m isCCM : cleanable d q -> (isCCM = true -> cipherAlgorithm d = CPA_CY_SYM_CIPHER_AES_CCM) ->
  is_Some (LacSymCb_CleanUserData d (pDstBuffer q) (pOpData q) isCCM m).
Proof.
  intros (Hok & Ho & Hn & Hh & Hlt & Hle) Hc. unfold LacSymCb_CleanUserData, LacBuffDesc_BufferListZeroFromOffset.
  edestruct (zero_loop_spec (pBuffers (pDstBuffer q)) (cryptoStartSrcOffsetInBytes (pOpData q))
    (if isCCM then u32 (messageLenToCipherInBytes (pOpData q) + hashResultSize d) else messageLenToCipherInBytes (pOpData q)) m)
    as (m' & -> & _); [done|lia| | | |by eexists].
  all: destruct isCCM; [rewrite u32_small by lia|]; try lia; try (rewrite decide_True in Hle by auto; lia).
  case_decide; lia.
Qed.

Lemma check_response_spec q ok s : cleanable (sess s) q ->
  exists status m t, check_response q ok CPA_STATUS_SUCCESS s = Some (status, s <| umem := m |> <| stats := t |>) /\
    (ok = true -> status = CPA_STATUS_SUCCESS /\ m = umem s).
Proof.
  intros HC. unfold check_response. destruct (verifies (sess s) (pOpData q)); destruct ok; cbn [negb andb].
  - exists CPA_STATUS_SUCCESS, (umem s), (stats s). split; [by destruct s|done].
  - assert (forall isCCM, (isCCM = true -> cipherAlgorithm (sess s) = CPA_CY_SYM_CIPHER_AES_CCM) ->
      exists m, (m ← LacSymCb_CleanUserData (sess s) (pDstBuffer q) (pOpData q) isCCM (umem (stat_verify_failure s));
                 Some (CPA_STATUS_SUCCESS, (stat_verify_failure s) <| umem := m |>)) =
                Some (CPA_STATUS_SUCCESS, s <| umem := m |> <| stats := stats (stat_verify_failure s) |>)) as HCl.
    { intros b Hb. destruct (clean_total (sess s) q (umem s) b HC Hb) as [m Hm]. exists m.
      change (umem (stat_verify_failure s)) with (umem s). by rewrite Hm. }
    change (sess (stat_verify_failure s)) with (sess s).
    destruct (cipherAlgorithm (sess s)) eqn:EC;
      try (exists CPA_STATUS_SUCCESS, (umem s), (stats (stat_verify_failure s)); split; [by destruct s|done]).
    + destruct (HCl true (fun _ => eq_refl)) as [m ->]. by do 3 eexists.
    + destruct (HCl false ltac:(done)) as [m ->]. by do 3 eexists.
  - exists CPA_STATUS_SUCCESS, (umem s), (stats s). split; [by destruct s|done].
  - exists CPA_STATUS_FAIL, (umem s), (stats s). split; [by destruct s|done].
Qed.

Lemma store_read m a l : read (store m a l) a (len l) = l.
Proof.
  unfold read, store. apply list_eq. intros i. rewrite list_lookup_fmap. destruct (decide (i < length l)%nat) as [Hi|Hi].
  - rewrite lookup_seqZ_lt by lia. cbn. replace (a + Z.of_nat i - a) with (Z.of_nat i) by lia. zcases; try lia.
    unfold arr_get. rewrite Nat2Z.id. destruct (lookup_lt_is_Some_2 l i Hi) as [x Hx]. by rewrite Hx, (nth_lookup_Some _ _ _ _ Hx).
  - rewrite lookup_seqZ_ge by lia. symmetry. apply lookup_ge_None. lia.
Qed.

(** The client's vector after the response of a partial *)
Definition iv_returned (q : cookie) (d : session) (m : memory) : Prop :=
  packetType (pOpData q) = CPA_CY_SYM_PACKET_TYPE_PARTIAL -> is_cipher_op d = true -> updateUserIvOnRecieve q = true ->
  0 <= ivLenInBytes (pOpData q) <= len (cipherPartialOpState d) ->
  read m (pIv (pOpData q)) (ivLenInBytes (pOpData q)) = take (Z.to_nat (ivLenInBytes (pOpData q))) (cipherPartialOpState d).

Lemma update_on_receive_spec q s : exists m k,
  update_on_receive q s = s <| umem := m |> <| sess := (sess s) <| cipher_key_sz := k |> |> /\ iv_returned q (sess s) m.
Proof.
  destruct s as [d ck um ps rg st ev]. unfold update_on_receive, iv_returned. cbn [sess umem].
  destruct (packetType (pOpData q)) eqn:ET.
  - exists um, (cipher_key_sz d). split; [by destruct d|done].
  - destruct (is_cipher_op d) eqn:EO; [|exists um, (cipher_key_sz d); split; [by destruct d|done]].
    set (m := if updateUserIvOnRecieve q then _ else _).
    assert (exists m', m = mk_cy d ck m' ps rg st ev /\ (updateUserIvOnRecieve q = true ->
      m' = store um (pIv (pOpData q)) (take (Z.to_nat (ivLenInBytes (pOpData q))) (cipherPartialOpState d)))) as (m' & -> & Hm).
    { subst m. destruct (updateUserIvOnRecieve q); by eexists. }
    set (k := if updateKeySizeOnRecieve q && LAC_CIPHER_IS_XTS_MODE (cipherAlgorithm d)
              then u8 (LAC_BYTES_TO_QUADWORDS (cipherKeyLenInBytes d / 2)) else cipher_key_sz d).
    exists m', k. split.
    + subst k. cbn. destruct (_ && _); by destruct d.
    + intros _ _ HU Hl. rewrite (Hm HU). set (l := take _ _). replace (ivLenInBytes (pOpData q)) with (len l); [apply store_read|].
      subst l. rewrite length_take. lia.
  - exists um, (if is_cipher_op d && LAC_CIPHER_IS_XTS_MODE (cipherAlgorithm d)
                then u8 (LAC_BYTES_TO_QUADWORDS (cipherKeyLenInBytes d)) else cipher_key_sz d).
    split; [|done]. destruct (_ && _); by destruct d.
Qed.

Definition iv_view (d : session) := (cipherAlgorithm d, cipherARC4InitialState d, cipherPartialOpState d).
Lemma iv_fold_view m mem out : forall d d', iv_view d = iv_view d' ->
  iv_view (fold_left (iv_at m mem) out d) = iv_view (fold_left (iv_at m mem) out d').
Proof.
  induction out as [|c out IH]; intros d d' E; [done|]. apply IH. destruct d, d'. unfold iv_view, iv_at, update_session_iv in *. cbn in *.
  injection E as -> -> ->. by repeat case_match.
Qed.
Lemma iv_fold_config m mem out : forall d,
  let d' := fold_left (iv_at m mem) out d in
  config d' = config d /\ partialState d' = partialState d /\ pendingCbCount d' = pendingCbCount d.
Proof.
  induction out as [|c out IH]; intros d; [done|]. cbn. specialize (IH (iv_at m mem d c)). cbn in IH.
  destruct IH as (-> & -> & ->). unfold iv_at, update_session_iv. by repeat case_match.
Qed.

Lemma queued_app m a b : forall h, queued m h (a ++ b) -> queued m (first_of b) b.
Proof.
  induction a as [|c a IH]; intros h; cbn [app].
  - intros H. by rewrite <- (queued_first _ _ _ H).
  - intros (_ & _ & q & _ & H). by eapply IH.
Qed.

Lemma complete_request_fields c q status ok s :
  let s' := complete_request c q status ok s in
  cookies s' = base.delete c (cookies s) /\ ring s' = ring s /\ umem s' = umem s /\
  sess s' = (sess s) <| pendingCbCount := dec (pendingCbCount (sess s)) |> /\
  events s' = events s ++ [mk_event (pCallbackTag q) status (symOperation (sess s)) (pOpData q) (pDstBuffer q) ok].
Proof. unfold complete_request. by destruct (_ && _). Qed.

Lemma process_spec s c q ok qs :
  queue_ok s qs -> cookies s !! c = Some q -> c ∉ qs -> cleanable (sess s) q -> (negb (is_full q) && ok = true -> patient (puts s)) ->
  exists s' status okf, LacSymCb_ProcessCallbackInternal c ok CPA_STATUS_SUCCESS s = Some s' /\
    let wakes := negb (is_full q) && ok in
    let '(out, rest) := if wakes then upto_partial (full_at (cookies s)) qs else ([], qs) in
    cookies s' = base.delete c (cookies s) /\ ring s' = ring s ++ out /\ queue_ok s' rest /\
    nonBlockingOpsInProgress (sess s') = (if wakes then forallb (full_at (cookies s)) out else nonBlockingOpsInProgress (sess s)) /\
    cipherPartialOpState (sess s') = cipherPartialOpState (fold_left (iv_at (cookies s) (umem s')) out (sess s)) /\
    config (sess s') = config (sess s) /\ partialState (sess s') = partialState (sess s) /\
    pendingCbCount (sess s') = dec (pendingCbCount (sess s)) /\
    (exists op, events s' = events s ++ [mk_event (pCallbackTag q) status op (pOpData q) (pDstBuffer q) okf]) /\
    okf = ok /\ (ok = true -> status = CPA_STATUS_SUCCESS) /\ iv_returned q (sess s) (umem s').
Proof.
  intros HK Hq Hni HC HP. unfold LacSymCb_ProcessCallbackInternal. rewrite Hq. cbn [mbind option_bind].
  destruct (check_response_spec q ok s HC) as (st & m1 & t1 & -> & Hst). cbn [mbind option_bind].
  destruct (update_on_receive_spec q (s <| umem := m1 |> <| stats := t1 |>)) as (m2 & k & -> & HI).
  set (s2 := (s <| umem := m1 |> <| stats := t1 |>) <| umem := m2 |> <| sess := _ |>).
  assert (queue_ok s2 qs) as HK2 by exact HK.
  pose proof (upto_partial_app (full_at (cookies s)) qs) as EA.
  unfold dequeue_on_response. destruct (negb (is_full q) && ok) eqn:EW.
  - pose proof (pending_dequeue s2 qs HK2 (HP eq_refl)) as HD. change (cookies s2) with (cookies s) in HD.
    destruct (upto_partial (full_at (cookies s)) qs) as [out rest]. destruct HD as (l & ->). cbn [mbind option_bind].
    apply andb_true_iff in EW as [_ ->]. destruct (Hst eq_refl) as [-> ->].
    pose proof (iv_fold_config (cookies s) m2 out (sess s2)) as (EC & EP & EN).
    pose proof (iv_fold_view (cookies s) m2 out (sess s2) (sess s) eq_refl) as EV.
    eexists _, CPA_STATUS_SUCCESS, true. split; [reflexivity|].
    match goal with |- context [complete_request c q ?x true ?y] =>
      destruct (complete_request_fields c q x true y) as (E1 & -> & -> & E4 & ->) end.
    set (s' := complete_request _ _ _ _ _) in *. unfold queue_ok. rewrite E1, E4. subst qs.
    destruct HK as (HQ & HN & _). apply NoDup_app in HN as (_ & _ & HN).
    split_and!; try done.
    + apply queued_delete; [set_solver|]. by eapply queued_app.
    + by injection EV.
    + exact (f_equal dec EN).
    + by eexists.
  - cbn [mbind option_bind]. eexists _, st, ok. split; [reflexivity|].
    match goal with |- context [complete_request c q ?x ok ?y] =>
      destruct (complete_request_fields c q x ok y) as (E1 & -> & -> & E4 & ->) end.
    set (s' := complete_request _ _ _ _ _) in *. unfold queue_ok. rewrite E1, E4.
    destruct HK as (HQ & HN & Hh & Ht). split_and!; try done.
    + by rewrite app_nil_r.
    + by apply queued_delete.
    + by eexists.
    + intros ->. by apply Hst.
Qed.

(** * Submission of a request *)

(** The ciphers whose partial requests work on the state in the session.  (The requests
    of SM4 and CHACHA get the type of full packets, so that the device keeps no state of them.) *)
Definition chained (algorithm : CpaCySymCipherAlgorithm) : bool :=
  match algorithm with
  | CPA_CY_SYM_CIPHER_ARC4 | CPA_CY_SYM_CIPHER_AES_CBC | CPA_CY_SYM_CIPHER_AES_CTR | CPA_CY_SYM_CIPHER_AES_CCM
  | CPA_CY_SYM_CIPHER_AES_GCM | CPA_CY_SYM_CIPHER_DES_CBC | CPA_CY_SYM_CIPHER_3DES_CBC | CPA_CY_SYM_CIPHER_3DES_CTR
  | CPA_CY_SYM_CIPHER_AES_F8 | CPA_CY_SYM_CIPHER_AES_XTS => true
  | _ => false
  end.
Definition chains_state (d : session) : bool := is_cipher_op d && negb (laCmdAuth d) && chained (cipherAlgorithm d).
Definition is_start (op : CpaCySymOpData) (d : session) : bool :=
  bool_decide (packetType op = CPA_CY_SYM_PACKET_TYPE_PARTIAL) && bool_decide (partialState d = CPA_CY_SYM_PACKET_TYPE_FULL).
Definition is_partial (op : CpaCySymOpData) : bool := bool_decide (packetType op = CPA_CY_SYM_PACKET_TYPE_PARTIAL).

(** What the check makes of the flags of a cookie that has none set, and the buffer it chooses *)
Lemma iv_check_spec algorithm tag op k f u dst ty :
  let '(status, q, b) := LacCipher_PerformIvCheck algorithm (mk_cookie tag op false false k f u dst 0) ty in
  exists b1 b2, q = mk_cookie tag op b2 b1 k f u dst 0 /\ (b2 = true -> ty = ICP_QAT_FW_LA_PARTIAL_START) /\
    (b = IvARC4InitialState -> ty = ICP_QAT_FW_LA_PARTIAL_NONE) /\
    (status = CPA_STATUS_SUCCESS -> chained algorithm = true -> ty <> ICP_QAT_FW_LA_PARTIAL_NONE ->
       b = IvPartialOpState /\ b2 = (ty =? ICP_QAT_FW_LA_PARTIAL_START) /\
       b1 = negb (LAC_CIPHER_IS_ARC4 algorithm) && ((ty =? ICP_QAT_FW_LA_PARTIAL_START) || (ty =? ICP_QAT_FW_LA_PARTIAL_MID))).
Proof.
  unfold LacCipher_PerformIvCheck. cbn [pOpData].
  destruct algorithm; cbn [chained];
    repeat match goal with |- context [if ?b then (CPA_STATUS_INVALID_PARAM, _, _) else _] => destruct b end;
    try (exists false, false; split_and!; by intros).
  all: destruct (Z.eqb_spec ty ICP_QAT_FW_LA_PARTIAL_NONE) as [->|Hn]; [exists false, false; split_and!; by intros|].
  all: destruct (Z.eqb_spec ty ICP_QAT_FW_LA_PARTIAL_START) as [->|Hs]; [eexists _, true; split_and!; by intros|].
  all: try (exists false, false; split_and!; by intros).
  all: destruct (Z.eqb_spec ty ICP_QAT_FW_LA_PARTIAL_MID) as [->|Hm]; eexists _, false; split_and!; by intros.
Qed.

(** What a partial request of a session that chains states tells the device and the callback: the
    session's buffer, and whether the state there and the client's vector are updated *)
Definition named (d : session) (q : cookie) : Prop :=
  is_full q = false -> cipher_IV q = cipher_IV_ptr IvPartialOpState /\ la_update_state q = is_partial (pOpData q) /\
    updateUserIvOnRecieve q = is_partial (pOpData q) && negb (LAC_CIPHER_IS_ARC4 (cipherAlgorithm d)).

Lemma packet_types op d : let ty := LacSymQat_packetTypeGet (packetType op) (partialState d) in
  (ty =? ICP_QAT_FW_LA_PARTIAL_START) = is_start op d /\ (ty =? ICP_QAT_FW_LA_PARTIAL_NONE) = bool_decide (packetType op = CPA_CY_SYM_PACKET_TYPE_FULL) /\
  (ty =? ICP_QAT_FW_LA_PARTIAL_END) = bool_decide (packetType op = CPA_CY_SYM_PACKET_TYPE_LAST_PARTIAL) /\
  (ty =? ICP_QAT_FW_LA_PARTIAL_START) || (ty =? ICP_QAT_FW_LA_PARTIAL_MID) = is_partial op.
Proof. unfold LacSymQat_packetTypeGet, is_start, is_partial. destruct (packetType op), (partialState d); done. Qed.

Lemma populate_cookie_spec d m tag op dst :
  let '(status, q) := populate_cookie d m tag op dst in
  pCallbackTag q = tag /\ pOpData q = op /\ pDstBuffer q = dst /\ pNext q = 0 /\
  (updateSessionIvOnSend q = true -> is_start op d = true) /\ (la_update_state q = true -> is_partial op = true) /\
  (la_update_state q = true -> cipher_IV q <> cipher_IV_ptr IvARC4InitialState) /\
  (status = CPA_STATUS_SUCCESS -> chains_state d = true ->
     named d q /\ (is_full q = false -> updateSessionIvOnSend q = is_start op d)).
Proof.
  unfold populate_cookie, chains_state. destruct (packet_types op d) as (ES & EN & EE & EP). cbn zeta in ES, EN, EE, EP.
  set (ty := LacSymQat_packetTypeGet _ _) in *. set (k := LAC_CIPHER_IS_XTS_MODE _ && _ && _ && _).
  destruct (LacSymQat_LaPacketCommandFlagSet ty (laCmdAuth d) (cipherAlgorithm d)) as [part u] eqn:EF.
  assert (u = true -> is_partial op = true) as Hu.
  { unfold LacSymQat_LaPacketCommandFlagSet in EF.
    destruct (LAC_CIPHER_IS_SM4 _ || LAC_CIPHER_IS_CHACHA _); injection EF as _ <-; [done|]. rewrite EN, EE. unfold is_partial.
    by destruct (packetType op). }
  destruct (laCmdAuth d); [cbn; rewrite andb_false_r; by split_and!|]. rewrite andb_true_r.
  pose proof (iv_check_spec (cipherAlgorithm d) tag op k (cipher_IV_ptr IvNone) u dst ty) as H.
  destruct (LacCipher_PerformIvCheck _ _ ty) as [[status q] b]. destruct H as (b1 & b2 & -> & H1 & H2 & H3).
  set (sz := if _ && _ then _ else _). set (f := LacSymQat_CipherRequestParamsPopulate _ _ _ _ _ _ _).
  assert (b2 = true -> is_start op d = true) as Hb2 by (intros Hb; rewrite <- ES; by apply Z.eqb_eq, H1).
  destruct (Z.eqb_spec status CPA_STATUS_SUCCESS) as [->|Hst]; [|by split_and!]. split_and!; try done; cbn.
  - intros Hu1. specialize (Hu Hu1). subst f u. unfold LacSymQat_CipherRequestParamsPopulate. rewrite orb_true_r. cbn. intros [= Eb].
    apply H2, Z.eqb_eq in Eb. rewrite EN in Eb. unfold is_partial in Hu. by destruct (packetType op).
  - intros _ [_ Hc]%andb_true_iff. unfold named, is_full. cbn.
    assert (bool_decide (packetType op = CPA_CY_SYM_PACKET_TYPE_FULL) = false -> b = IvPartialOpState /\ b2 = is_start op d /\
      b1 = negb (LAC_CIPHER_IS_ARC4 (cipherAlgorithm d)) && is_partial op) as H4.
    { intros Hf. rewrite <- EP, <- ES. apply H3; [done..|]. rewrite <- EN in Hf. by apply Z.eqb_neq. }
    assert (part = ty /\ u = negb (bool_decide (packetType op = CPA_CY_SYM_PACKET_TYPE_FULL) || bool_decide (packetType op = CPA_CY_SYM_PACKET_TYPE_LAST_PARTIAL))) as [-> ->].
    { unfold LacSymQat_LaPacketCommandFlagSet in EF. rewrite EN, EE in EF. revert Hc EF.
      destruct (cipherAlgorithm d); try done; cbn; intros _ [= <- <-]; by rewrite orb_false_r. }
    split; intros Hf; destruct (H4 Hf) as (-> & -> & ->); [|done]. split_and!; [| |apply andb_comm].
    + subst f. unfold LacSymQat_CipherRequestParamsPopulate. rewrite EE, Hf. unfold is_partial.
      destruct (bool_decide (packetType op = CPA_CY_SYM_PACKET_TYPE_LAST_PARTIAL)); cbn; by rewrite !orb_true_r.
    + rewrite Hf. unfold is_partial. by destruct (packetType op).
Qed.

Lemma dec_inc x : dec (inc (u64 x)) = u64 x.
Proof.
  unfold dec, inc, u64. rewrite <- Zminus_mod_idemp_l, Zmod_mod, Zminus_mod_idemp_l.
  replace (x mod 2 ^ 64 + 1 - 1) with (x mod 2 ^ 64) by lia. by rewrite Zmod_mod.
Qed.
Lemma inc_u64 x : inc (u64 x) = u64 (x + 1).
Proof. unfold inc, u64. by rewrite Zplus_mod_idemp_l. Qed.
Lemma dec_u64 x : dec (u64 x) = u64 (x - 1).
Proof. unfold dec, u64. by rewrite Zminus_mod_idemp_l. Qed.

(** What is the same before and after a submission *)
Definition same_world (s s' : cy) : Prop :=
  umem s' = umem s /\ events s' = events s /\ config (sess s') = config (sess s).

(** A request is refused, with the session as it was but for the vector of a first partial
    that could not be put on the ring; [m] are the cookies that are then in use. *)
Definition refused (s s' : cy) (m : gmap Z cookie) (q : cookie) (qs : list Z) (n : Z) : Prop :=
  same_world s s' /\ cookies s' = m /\ ring s' = ring s /\ queue_ok s' qs /\
  nonBlockingOpsInProgress (sess s') = nonBlockingOpsInProgress (sess s) /\ partialState (sess s') = partialState (sess s) /\
  pendingCbCount (sess s') = u64 n /\
  (nonBlockingOpsInProgress (sess s) = false \/ partialState (sess s) <> CPA_CY_SYM_PACKET_TYPE_FULL ->
     cipherPartialOpState (sess s') = cipherPartialOpState (sess s)) /\
  (cipherPartialOpState (sess s') = cipherPartialOpState (sess s) \/
   cipherPartialOpState (sess s') = cipherPartialOpState (update_session_iv q (umem s) (sess s))).

Definition next_partial_state (op : CpaCySymOpData) (d : session) : CpaCySymPacketType :=
  if decide (packetType op = CPA_CY_SYM_PACKET_TYPE_FULL) then partialState d
  else LacSym_PartialPacketStateUpdate (packetType op) (partialState d).

(** A request is accepted: sent at once when nothing blocks, queued otherwise. *)
Definition accepted (s s' : cy) (c : Z) (q : cookie) (qs : list Z) (n : Z) : Prop :=
  same_world s s' /\ partialState (sess s') = next_partial_state (pOpData q) (sess s) /\
  pendingCbCount (sess s') = u64 (n + 1) /\
  if nonBlockingOpsInProgress (sess s) then
    cookies s' = <[c := q]> (cookies s) /\ ring s' = ring s ++ [c] /\ queue_ok s' [] /\
    nonBlockingOpsInProgress (sess s') = is_full q /\
    cipherPartialOpState (sess s') = cipherPartialOpState (update_session_iv q (umem s) (sess s))
  else
    strip <$> cookies s' = strip <$> <[c := q]> (cookies s) /\ ring s' = ring s /\ queue_ok s' (qs ++ [c]) /\
    nonBlockingOpsInProgress (sess s') = false /\ cipherPartialOpState (sess s') = cipherPartialOpState (sess s).

Lemma update_iv_fields q m d : let d' := update_session_iv q m d in
  config d' = config d /\ partialState d' = partialState d /\ pendingCbCount d' = pendingCbCount d /\
  (updateSessionIvOnSend q = false -> d' = d).
Proof. unfold update_session_iv. by repeat case_match. Qed.
Lemma update_iv_view q m d d' : iv_view d = iv_view d' -> iv_view (update_session_iv q m d) = iv_view (update_session_iv q m d').
Proof.
  destruct d, d'. unfold iv_view, update_session_iv. cbn. intros [= -> -> ->]. by repeat case_match.
Qed.

(** The end of [LacAlgChain_Perform] with a cookie [q] that has been filled in *)
Lemma alg_chain_send_spec s qs n c q status0 :
  queue_ok s qs -> cookies s !! c = None -> c <> 0 -> (nonBlockingOpsInProgress (sess s) = true -> qs = []) ->
  pendingCbCount (sess s) = u64 n -> pNext q = 0 -> (updateSessionIvOnSend q = true -> is_start (pOpData q) (sess s) = true) ->
  exists status s', alg_chain_send c status0 (s <| cookies := <[c := q]> (cookies s) |>) = Some (status, s') /\
    if decide (status = CPA_STATUS_SUCCESS)
    then status0 = CPA_STATUS_SUCCESS /\
         accepted s (s' <| sess := (sess s') <| partialState := next_partial_state (pOpData q) (sess s) |> |>) c q qs n /\
         partialState (sess s') = partialState (sess s)
    else refused s s' (cookies s) q qs n.
Proof.
  intros HK Hc H0 Hb Hn Hq Hiv. pose proof HK as (HQ & HN & Hh & Ht).
  assert (c ∉ qs) as Hni. { intros Hin. destruct (queued_elem _ _ _ _ HQ Hin) as [_ [? ?]]. congruence. }
  set (s1 := s <| cookies := <[c := q]> (cookies s) |>). unfold alg_chain_send.
  destruct (Z.eqb_spec status0 CPA_STATUS_SUCCESS) as [->|Hs]; cbn [mbind option_bind].
  2:{ exists status0, (s1 <| cookies := base.delete c (cookies s1) |>). rewrite (proj2 (Z.eqb_neq _ _) Hs). split; [done|].
      rewrite decide_False by done. unfold refused, queue_ok. cbn. rewrite delete_insert_id by done. split_and!; first [done|by left]. }
  set (s2 := set_session _ s1).
  assert (queue_ok s2 qs) as HK2 by (split_and!; [by apply queued_insert|done..]).
  assert (cookies s2 !! c = Some q) as Hc2 by apply lookup_insert_eq.
  destruct (nonBlockingOpsInProgress (sess s)) eqn:EB.
  - specialize (Hb eq_refl) as ->. destruct (request_direct s2 c q HK2 EB Hc2) as (status & l & ->). cbn [mbind option_bind].
    destruct (update_iv_fields q (umem s2) (sess s2)) as (EC & EP & EN & ES).
    pose proof (update_iv_view q (umem s2) (sess s2) (sess s) eq_refl) as EV.
    destruct (Z.eqb_spec status CPA_STATUS_SUCCESS) as [->|Hst]; cbn [negb]; eexists _, _; (split; [reflexivity|]).
    + rewrite decide_True by done. split; [done|]. unfold accepted. rewrite EB. split_and!; try done.
      * exact (eq_trans EN (eq_trans (f_equal inc Hn) (inc_u64 n))).
      * by injection EV.
    + rewrite decide_False by done. unfold refused. rewrite EB. split_and!; try done.
      * cbn. by rewrite delete_insert_id.
      * cbn. by rewrite app_nil_r.
      * refine (eq_trans (f_equal dec EN) _). change (dec (inc (pendingCbCount (sess s))) = u64 n). by rewrite Hn, dec_inc.
      * intros [?|Hp]; [done|]. refine (f_equal cipherPartialOpState (ES _)). destruct (updateSessionIvOnSend q) eqn:EU; [|done].
        specialize (Hiv eq_refl). unfold is_start in Hiv. destruct (bool_decide_reflect (partialState (sess s) = CPA_CY_SYM_PACKET_TYPE_FULL)); [done|].
        by rewrite andb_false_r in Hiv.
      * right. by injection EV.
  - destruct (request_queued s2 qs c q HK2 Hc2 Hq H0 Hni (or_introl EB)) as (m' & -> & HQ' & Hs'). cbn [mbind option_bind].
    eexists _, _; split; [reflexivity|]. rewrite decide_True by done. split; [done|]. unfold accepted. rewrite EB. split_and!; try done.
    + exact (eq_trans (f_equal inc Hn) (inc_u64 n)).
    + split_and!; [exact HQ'|apply NoDup_app; split_and!; [done|set_solver|apply NoDup_singleton]|done|].
      unfold last_of. by rewrite last_snoc.
Qed.

(** What the change to a single pass leaves *)
Definition queue_view (d : session) :=
  (partialState d, pendingCbCount d, pRequestQueueHead d, pRequestQueueTail d, nonBlockingOpsInProgress d).
Lemma single_pass_same spc d : single_pass_ok d ->
  config (to_single_pass spc d) = config d /\ iv_view (to_single_pass spc d) = iv_view d /\ queue_view (to_single_pass spc d) = queue_view d.
Proof.
  intros HS. unfold to_single_pass. destruct (bool_decide_reflect (singlePassState d = SPC_NO)) as [E|E]; [done|].
  destruct spc; [|done]. destruct (HS E) as [H1 H2]. split_and!; try done. unfold config. cbn. rewrite H1, H2. by destruct (singlePassState d).
Qed.

Lemma accepted_single_pass s d s' c q qs n :
  config d = config (sess s) -> iv_view d = iv_view (sess s) -> queue_view d = queue_view (sess s) ->
  accepted (s <| sess := d |>) s' c q qs n -> accepted s s' c q qs n.
Proof.
  intros EC EV EQ. unfold accepted, same_world, next_partial_state. cbn [sess umem events cookies ring upd].
  pose proof (update_iv_view q (umem s) _ _ EV) as EU. injection EU as _ _ ->. injection EV as _ _ ->. injection EQ as -> _ _ _ ->.
  by rewrite EC.
Qed.
Lemma refused_single_pass s d s' m q qs n :
  config d = config (sess s) -> iv_view d = iv_view (sess s) -> queue_view d = queue_view (sess s) ->
  refused (s <| sess := d |>) s' m q qs n -> refused s s' m q qs n.
Proof.
  intros EC EV EQ. unfold refused, same_world. cbn [sess umem events cookies ring upd].
  pose proof (update_iv_view q (umem s) _ _ EV) as EU. injection EU as _ _ ->. injection EV as _ _ ->. injection EQ as -> _ _ _ ->.
  by rewrite EC.
Qed.

(** A request that leaves its cookie behind *)
Lemma refused_leak s c q qs n : queue_ok s qs -> cookies s !! c = None -> pendingCbCount (sess s) = u64 n ->
  refused s (s <| cookies := <[c := q]> (cookies s) |>) (<[c := q]> (cookies s)) q qs n.
Proof.
  intros (HQ & HN & Hh & Ht) Hc Hn. unfold refused. split_and!; try done; [|by left]. split_and!; try done. cbn. apply queued_insert; [|done].
  intros Hin. destruct (queued_elem _ _ _ _ HQ Hin) as [_ [? ?]]. congruence.
Qed.

Lemma alg_chain_perform_spec s qs n spc noAad build c tag op dst :
  queue_ok s qs -> cookies s !! c = None -> c <> 0 -> (nonBlockingOpsInProgress (sess s) = true -> qs = []) ->
  pendingCbCount (sess s) = u64 n -> single_pass_ok (sess s) ->
  let '(st, q) := populate_cookie (to_single_pass spc (sess s)) (umem s) tag op dst in
  exists status s', LacAlgChain_Perform spc noAad build c tag op dst s = Some (status, s') /\
    if decide (status = CPA_STATUS_SUCCESS)
    then st = CPA_STATUS_SUCCESS /\
         accepted s (s' <| sess := (sess s') <| partialState := next_partial_state op (sess s) |> |>) c q qs n /\
         partialState (sess s') = partialState (sess s)
    else exists m, refused s s' m q qs n /\ (m = cookies s \/ m = <[c := q]> (cookies s) /\ st = CPA_STATUS_SUCCESS /\ singlePassState (sess s) <> SPC_NO).
Proof.
  intros HK Hc H0 Hb Hn HS. destruct (single_pass_same spc (sess s) HS) as (EC & EV & EQ).
  unfold LacAlgChain_Perform, set_session. cbn [sess umem cookies upd]. set (d := to_single_pass spc (sess s)) in *.
  pose proof (populate_cookie_spec d (umem s) tag op dst) as HP. destruct (populate_cookie d (umem s) tag op dst) as [st q].
  destruct HP as (_ & Eop & _ & Enx & Hup & _). set (s1 := s <| sess := d |>).
  pose proof EQ as [= EQ1 EQ2 EQ3 EQ4 EQ5].
  assert (queue_ok s1 qs) as HK1 by (destruct HK as (? & ? & Hh & Ht); split_and!; cbn; congruence).
  assert (pendingCbCount (sess s1) = u64 n) as Hn1 by (cbn; congruence).
  destruct (_ && _ && _ && noAad) eqn:EL.
  - eexists _, _. split; [reflexivity|]. rewrite decide_False by done. eexists. split.
    + apply (refused_single_pass s d); [done..|]. by apply (refused_leak s1 c q qs n).
    + right. apply andb_true_iff in EL as [[[_ EY]%andb_true_iff EL]%andb_true_iff _]. split_and!; [done|by apply Z.eqb_eq|].
      apply bool_decide_eq_true in EY. cbn in EY. subst d. unfold to_single_pass in EY. intros E.
      rewrite (bool_decide_eq_true_2 _ E) in EY. cbn in EY. congruence.
  - destruct (alg_chain_send_spec s1 qs n c q (if st =? CPA_STATUS_SUCCESS then build else st) HK1 Hc H0) as (status & s' & E & HR).
    { cbn. rewrite EQ5. exact Hb. }
    { done. }
    { done. }
    { rewrite Eop. exact Hup. }
    exists status, s'. split; [exact E|]. destruct (decide (status = CPA_STATUS_SUCCESS)).
    + destruct HR as (Est & HA & HPS). split_and!.
      * destruct (Z.eqb_spec st CPA_STATUS_SUCCESS); congruence.
      * apply (accepted_single_pass s d); [done..|]. rewrite Eop in HA. unfold next_partial_state in HA. cbn [sess upd s1] in HA.
        rewrite EQ1 in HA. exact HA.
      * by rewrite HPS.
    + exists (cookies s). split; [|by left]. by apply (refused_single_pass s d).
Qed.

Lemma perform_spec s qs n supported spc noAad build c tag op dst :
  queue_ok s qs -> cookies s !! c = None -> c <> 0 -> (nonBlockingOpsInProgress (sess s) = true -> qs = []) ->
  pendingCbCount (sess s) = u64 n -> single_pass_ok (sess s) ->
  let '(st, q) := populate_cookie (to_single_pass spc (sess s)) (umem s) tag op dst in
  exists status s', perform_op supported spc noAad build c tag op dst s = Some (status, s') /\
    if decide (status = CPA_STATUS_SUCCESS)
    then packet_type_check supported op (sess s) = CPA_STATUS_SUCCESS /\ st = CPA_STATUS_SUCCESS /\ accepted s s' c q qs n
    else exists m, refused s s' m q qs n /\ (m = cookies s \/ m = <[c := q]> (cookies s) /\ st = CPA_STATUS_SUCCESS /\ singlePassState (sess s) <> SPC_NO).
Proof.
  intros HK Hc H0 Hb Hn HS. unfold perform_op.
  pose proof (alg_chain_perform_spec s qs n spc noAad build c tag op dst HK Hc H0 Hb Hn HS) as HA.
  pose proof (populate_cookie_spec (to_single_pass spc (sess s)) (umem s) tag op dst) as HP.
  destruct (populate_cookie (to_single_pass spc (sess s)) (umem s) tag op dst) as [st q]. destruct HP as (_ & Eop & _).
  destruct (Z.eqb_spec (packet_type_check supported op (sess s)) CPA_STATUS_SUCCESS) as [ET|ET]; cbn [negb].
  2:{ exists (packet_type_check supported op (sess s)), s. rewrite decide_False by done. split; [done|]. exists (cookies s).
      split; [|by left]. unfold refused. split_and!; first [done|by left]. }
  destruct HA as (status & s' & -> & HR). cbn [mbind option_bind].
  destruct (decide (status = CPA_STATUS_SUCCESS)) as [->|Hs]; eexists _, _; (split; [reflexivity|]).
  - destruct HR as (Est & HA & EPS). rewrite decide_True by done. split_and!; [done..|].
    unfold accepted in HA |- *. rewrite Eop in HA |- *. cbn [Z.eqb CPA_STATUS_SUCCESS].
    unfold next_partial_state, set_session in *.
    destruct (decide (packetType op = CPA_CY_SYM_PACKET_TYPE_FULL)) as [EF|EF].
    + rewrite (bool_decide_eq_true_2 _ EF).
      assert (s' <| sess := (sess s') <| partialState := partialState (sess s) |> |> = s') as E
        by (rewrite <- EPS; by destruct s' as [[] ? ? ? ? ? ?]).
      rewrite E in HA. exact HA.
    + rewrite (bool_decide_eq_false_2 _ EF). cbn beta. rewrite EPS. exact HA.
  - rewrite decide_False by done. rewrite (proj2 (Z.eqb_neq _ _) Hs). exact HR.
Qed.
