(* ===== verification/SymSys.v ===== *)
(** * A symmetric session in use

    A client that submits requests to a session ([SymQueue]), the device that works on them in
    any order and with any results, and the library that processes the responses, as a step
    relation.  The steps are whole calls: one thread at a time is in the calls of the session.
    What the puts of a call on the ring return is part of the step; [patient_act] singles out the
    steps in which the ring takes a message before the attempts to put it run out.

    The device takes the vector of a request from where the message has it or points to, and
    leaves the new state there when the message tells it to.

    A state has, besides the session, the requests at the device, the responses that wait to be
    polled, and what has happened so far: the requests that were accepted and sent, the client's
    memory and the cipher state at the sending of each partial request, and the cipher states
    before and after the device's work on it. *)

From S2P Require Import Prelude Buffers SymQueue.

(** * The system *)

Record sys := mk_sys {
  s_cy : cy;
  s_dev : list Z;                       (** requests at the device *)
  s_resp : list (Z * bool);             (** responses, the oldest first, with their status *)
  s_pre : bool;                         (** a hash precomputation of the session is under way *)
  h_accepted : list cookie; h_sent : list cookie;
  h_sends : list (memory * list Z); h_runs : list (list Z * list Z);
  h_failed : bool;                      (** the response of a partial was bad *)
  h_leaked : list Z                     (** cookies of refused requests that were not freed *)
}.

#[global] Instance eta_sys : Eta sys := fun r =>
  mk_sys (s_cy r) (s_dev r) (s_resp r) (s_pre r) (h_accepted r) (h_sent r) (h_sends r) (h_runs r) (h_failed r) (h_leaked r).

(** The cookies at some addresses, without their links *)
Definition cookies_at (m : gmap Z cookie) (l : list Z) : list cookie := omap (fun c => (strip <$> m) !! c) l.
Definition partials (l : list cookie) : list cookie := base.filter (fun q => is_full q = false) l.
Arguments cookies_at : simpl never.
Arguments partials : simpl never.

(** A call that ends in [w'] has put the messages at the end of the ring's history. *)
Definition absorb (w' : cy) (acc : list cookie) (s : sys) : sys :=
  let out := drop (length (ring (s_cy s))) (ring w') in
  let qs := cookies_at (cookies w') out in
  s <| s_cy := w' |> <| s_dev := s_dev s ++ out |> <| h_accepted := h_accepted s ++ acc |> <| h_sent := h_sent s ++ qs |>
    <| h_sends := h_sends s ++ map (fun _ => (umem w', cipherPartialOpState (sess w'))) (partials qs) |>.

(** The client's data is as the interface asks for. *)
Definition valid_op (d : session) (op : CpaCySymOpData) (dst : CpaBufferList) : Prop :=
  (forall q, pOpData q = op -> pDstBuffer q = dst -> cleanable d q) /\
  0 <= ivLenInBytes op <= LAC_CIPHER_ARC4_STATE_LEN_BYTES.

(** The call for the request [c] ends in [w']. *)
Definition submitted (c status : Z) (w' : cy) (s : sys) : sys :=
  if decide (status = CPA_STATUS_SUCCESS) then absorb w' (cookies_at (cookies w') [c]) s
  else (absorb w' [] s) <| h_leaked := h_leaked s ++ (if decide (is_Some (cookies w' !! c)) then [c] else []) |>.

(** What the device finds as the vector of a request, and where it leaves the state *)
Definition device_input (q : cookie) (w : cy) : list Z :=
  match cipher_IV q with
  | cipher_IV_array l => l
  | cipher_IV_ptr IvUser => read (umem w) (pIv (pOpData q)) (ivLenInBytes (pOpData q))
  | cipher_IV_ptr IvPartialOpState => cipherPartialOpState (sess w)
  | cipher_IV_ptr IvARC4InitialState => cipherARC4InitialState (sess w)
  | cipher_IV_ptr IvNone => []
  end.
Definition device_output (q : cookie) (out : list Z) (w : cy) : cy :=
  if la_update_state q then
    match cipher_IV q with
    | cipher_IV_ptr IvUser => w <| umem := store (umem w) (pIv (pOpData q)) out |>
    | cipher_IV_ptr IvPartialOpState => set_session (fun d => d <| cipherPartialOpState := out |>) w
    | cipher_IV_ptr IvARC4InitialState => set_session (fun d => d <| cipherARC4InitialState := out |>) w
    | cipher_IV_ptr IvNone | cipher_IV_array _ => w
    end
  else w.
Definition worked (c : Z) (ok : bool) (q : cookie) (out : list Z) (dev : list Z) (s : sys) : sys :=
  s <| s_cy := device_output q out (s_cy s) |> <| s_dev := dev |> <| s_resp := s_resp s ++ [(c, ok)] |>
    <| h_runs := h_runs s ++ (if is_full q then [] else [(device_input q (s_cy s), device_input q (device_output q out (s_cy s)))]) |>.

(** Who acts: the client, the device, the thread that polls; [l] are the results of the puts *)
Inductive act := Submit | Work (ok : bool) | Respond (l : list Z) | Precompute (l : list Z) | Scribble.

(** [step_client] is any change of the client's memory, by the client or by the results of the
    device. *)
Inductive step (s : sys) : act -> sys -> Prop :=
| step_perform supported spc noAad build c tag op dst l status w' :
    cookies (s_cy s) !! c = None -> c <> 0 -> valid_op (sess (s_cy s)) op dst ->
    perform_op supported spc noAad build c tag op dst (s_cy s) <| puts := l |> = Some (status, w') ->
    step s Submit (submitted c status w' s)
| step_device c ok l1 l2 q out :
    s_dev s = l1 ++ c :: l2 -> cookies (s_cy s) !! c = Some q -> length out = length (device_input q (s_cy s)) ->
    step s (Work ok) (worked c ok q out (l1 ++ l2) s)
| step_response c ok rest l q w' :
    s_resp s = (c, ok) :: rest -> cookies (s_cy s) !! c = Some q ->
    LacSymCb_ProcessCallbackInternal c ok CPA_STATUS_SUCCESS (s_cy s) <| puts := l |> = Some w' ->
    step s (Respond l) ((absorb w' [] s) <| s_resp := rest |> <| h_failed := h_failed s || (negb (is_full q) && negb ok) |>)
| step_precompute l status w' :
    s_pre s = true -> LacSymCb_PendingReqsDequeue (s_cy s) <| puts := l |> = Some (status, w') ->
    step s (Precompute l) ((absorb w' [] s) <| s_pre := false |>)
| step_client m :
    step s Scribble (s <| s_cy := (s_cy s) <| umem := m |> |>).

(** The ring takes every message from the queue before the attempts run out. *)
Definition patient_act (a : act) : Prop := match a with Respond l | Precompute l => patient l | _ => True end.

(** A session after its initialisation; requests wait until a precomputation is done. *)
Record initial (s : sys) : Prop := {
  init_queue : pRequestQueueHead (sess (s_cy s)) = 0 /\ pRequestQueueTail (sess (s_cy s)) = 0;
  init_state : partialState (sess (s_cy s)) = CPA_CY_SYM_PACKET_TYPE_FULL /\ pendingCbCount (sess (s_cy s)) = 0 /\
               nonBlockingOpsInProgress (sess (s_cy s)) = negb (s_pre s);
  init_bufs : length (cipherPartialOpState (sess (s_cy s))) = Z.to_nat LAC_CIPHER_ARC4_STATE_LEN_BYTES /\
              length (cipherARC4InitialState (sess (s_cy s))) = Z.to_nat LAC_CIPHER_ARC4_STATE_LEN_BYTES;
  init_spc : single_pass_ok (sess (s_cy s));
  init_cy : cookies (s_cy s) = ∅ /\ events (s_cy s) = [];
  init_sys : s_dev s = [] /\ s_resp s = [] /\ h_accepted s = [] /\ h_sent s = [] /\ h_sends s = [] /\ h_runs s = [] /\ h_failed s = false /\
             h_leaked s = []
}.

(** The states that steps with [P] lead to *)
Inductive reachable (P : act -> Prop) : sys -> Prop :=
| reach_init s : initial s -> reachable P s
| reach_step s a s' : reachable P s -> P a -> step s a s' -> reachable P s'.

(** * Lemmas on cookies *)

Lemma is_full_strip q : is_full (strip q) = is_full q.
Proof. done. Qed.
Lemma full_at_strip m c : full_at m c = match (strip <$> m) !! c with Some q => is_full q | None => true end.
Proof. unfold full_at. rewrite lookup_fmap. by destruct (m !! c). Qed.

Lemma cookies_at_app m l1 l2 : cookies_at m (l1 ++ l2) = cookies_at m l1 ++ cookies_at m l2.
Proof. apply omap_app. Qed.
Lemma cookies_at_ext m m' l : (forall c, c ∈ l -> (strip <$> m) !! c = (strip <$> m') !! c) -> cookies_at m l = cookies_at m' l.
Proof.
  induction l as [|c l IH]; intros H; [done|]. unfold cookies_at in *. cbn. rewrite H by set_solver.
  rewrite IH; [done|]. intros. apply H. set_solver.
Qed.
Lemma cookies_at_single m c q : m !! c = Some q -> cookies_at m [c] = [strip q].
Proof. intros H. unfold cookies_at. cbn. by rewrite lookup_fmap, H. Qed.
Lemma partials_app l1 l2 : partials (l1 ++ l2) = partials l1 ++ partials l2.
Proof. apply filter_app. Qed.

(** The number of partial requests among some *)
Definition nparts (m : gmap Z cookie) (l : list Z) : nat := length (partials (cookies_at m l)).
Arguments nparts : simpl never.

Lemma nparts_app m l1 l2 : nparts m (l1 ++ l2) = (nparts m l1 + nparts m l2)%nat.
Proof. unfold nparts. by rewrite cookies_at_app, partials_app, length_app. Qed.
Lemma nparts_cons m c q l : m !! c = Some q -> nparts m (c :: l) = (Nat.b2n (negb (is_full q)) + nparts m l)%nat.
Proof.
  intros H. change (c :: l) with ([c] ++ l). rewrite nparts_app. f_equal. unfold nparts. rewrite (cookies_at_single _ _ _ H).
  unfold partials. rewrite filter_cons, filter_nil. rewrite is_full_strip. by destruct (is_full q).
Qed.
Lemma nparts_perm m l1 l2 : l1 ≡ₚ l2 -> nparts m l1 = nparts m l2.
Proof. intros H. unfold nparts, cookies_at, partials. by rewrite H. Qed.
Lemma nparts_ext m m' l : (forall c, c ∈ l -> (strip <$> m) !! c = (strip <$> m') !! c) -> nparts m l = nparts m' l.
Proof. intros H. unfold nparts. by rewrite (cookies_at_ext _ _ _ H). Qed.

Lemma nparts_fulls m l : forallb (full_at m) l = true -> nparts m l = 0%nat.
Proof.
  induction l as [|c l IH]; [done|]. cbn [forallb]. intros [Hc Hl]%andb_true_iff. change (c :: l) with ([c] ++ l).
  rewrite nparts_app, (IH Hl). unfold nparts, cookies_at, partials. cbn. rewrite full_at_strip in Hc.
  destruct ((strip <$> m) !! c); [|done]. rewrite filter_cons, filter_nil. by rewrite Hc.
Qed.
Lemma nparts_upto m qs : let '(out, _) := upto_partial (full_at m) qs in
  nparts m out = Nat.b2n (negb (forallb (full_at m) out)).
Proof.
  pose proof (upto_partial_shape (full_at m) qs) as H. destruct (upto_partial _ qs) as [out rest].
  destruct H as [[H _]|(fulls & p & -> & Hf & Hp)].
  - rewrite H. by apply nparts_fulls.
  - rewrite nparts_app, (nparts_fulls _ _ Hf), forallb_app, Hf. cbn [andb forallb]. rewrite Hp. cbn [andb negb Nat.b2n plus].
    unfold full_at in Hp. destruct (m !! p) as [q|] eqn:E; [|done]. rewrite (nparts_cons _ _ q []) by done. by rewrite Hp.
Qed.

(** * Invariant *)

(** Only single-pass sessions leave cookies behind. *)
Definition spc_inv (s : sys) : Prop :=
  single_pass_ok (sess (s_cy s)) /\ (singlePassState (sess (s_cy s)) = SPC_NO -> h_leaked s = []).

(** All requests that are not completed *)
Definition pend (s : sys) (qs : list Z) : list Z := qs ++ s_dev s ++ (s_resp s).*1.
Definition view (w : cy) : gmap Z cookie := strip <$> cookies w.

(** Those and the cookies that were not freed *)
Definition held (s : sys) (qs : list Z) : list Z := pend s qs ++ h_leaked s.

Definition cookie_ok (d : session) (q : cookie) : Prop :=
  cleanable d q /\ 0 <= ivLenInBytes (pOpData q) <= LAC_CIPHER_ARC4_STATE_LEN_BYTES /\
  (updateSessionIvOnSend q = true -> is_full q = false) /\
  (la_update_state q = true -> is_full q = false /\ cipher_IV q <> cipher_IV_ptr IvARC4InitialState) /\
  (chains_state d = true -> named d q).
Lemma named_config d d' q : config d = config d' -> named d q -> named d' q.
Proof. intros [= _ _ Ea _ _ _]. unfold named. by rewrite Ea. Qed.
Lemma chains_config d d' : config d = config d' -> chains_state d = chains_state d'.
Proof. intros [= E1 E2 E3 _ _ _]. unfold chains_state. by rewrite E1, E2, E3. Qed.
Lemma cookie_ok_config d d' q : config d = config d' -> cookie_ok d q -> cookie_ok d' q.
Proof.
  intros E (H1 & H2 & H3 & H4 & H5). pose proof E as [= _ _ Ea Eh _ _]. split_and!; [|by apply H2..|exact H3|exact H4|].
  - unfold cleanable in *. by rewrite <- Ea, <- Eh.
  - intros Hc. apply (named_config d); [done|]. apply H5. by rewrite (chains_config _ _ E).
Qed.
Lemma single_pass_config d d' : config d = config d' -> single_pass_ok d -> single_pass_ok d' /\ (singlePassState d' = SPC_NO -> singlePassState d = SPC_NO).
Proof.
  intros [= E1 E2 _ _ E3 _] H. assert (singlePassState d = SPC_NO <-> singlePassState d' = SPC_NO) as E.
  { rewrite <- (bool_decide_eq_true (singlePassState d = SPC_NO)), E3. apply bool_decide_eq_true. }
  split; [|tauto]. intros Hn. rewrite <- E1, <- E2. apply H. tauto.
Qed.
Lemma spc_inv_config s s' : config (sess (s_cy s')) = config (sess (s_cy s)) -> h_leaked s' = h_leaked s -> spc_inv s -> spc_inv s'.
Proof. intros E El [H1 H2]. destruct (single_pass_config _ _ (eq_sym E) H1) as [H3 H4]. split; [done|]. rewrite El. auto. Qed.

Record inv (s : sys) (qs : list Z) : Prop := {
  inv_queue : queue_ok (s_cy s) qs;
  inv_nodup : NoDup (held s qs);
  inv_dom : forall c, is_Some (view (s_cy s) !! c) <-> c ∈ held s qs;
  inv_pending : pendingCbCount (sess (s_cy s)) = u64 (len (pend s qs));
  inv_free : nonBlockingOpsInProgress (sess (s_cy s)) = true -> qs = [];
  inv_cookie : forall c q, view (s_cy s) !! c = Some q -> cookie_ok (sess (s_cy s)) q;
  inv_block : Nat.b2n (negb (nonBlockingOpsInProgress (sess (s_cy s)))) =
    (Nat.b2n (s_pre s) + Nat.b2n (h_failed s) + nparts (cookies (s_cy s)) (s_dev s ++ (s_resp s).*1))%nat;
  inv_fifo : h_accepted s = h_sent s ++ cookies_at (cookies (s_cy s)) qs;
  inv_done : map pCallbackTag (h_sent s) ≡ₚ
    map ev_tag (events (s_cy s)) ++ map pCallbackTag (cookies_at (cookies (s_cy s)) (s_dev s ++ (s_resp s).*1));
  inv_spc : spc_inv s
}.

Lemma inv_initial s : initial s -> inv s [].
Proof.
  intros [[Hh Ht] (HP & Hn & Hb) _ Hsp [Hc He] (Hd & Hr & Ha & Hs & _ & _ & Hf & Hl)].
  split; unfold held, pend, view; rewrite ?Hd, ?Hr, ?Hc, ?Hb, ?Ha, ?Hs, ?He, ?Hf, ?Hl, ?fmap_empty; try done.
  - split_and!; cbn; [done|constructor|by rewrite Hh|by rewrite Ht].
  - constructor.
  - intros c. rewrite lookup_empty. split; [by intros [? ?]|set_solver].
  - by destruct (s_pre s).
Qed.

Lemma drop_ring (w w' : cy) out : ring w' = ring w ++ out -> drop (length (ring w)) (ring w') = out.
Proof. intros ->. apply drop_app_length. Qed.

(** A new cookie changes nothing at other addresses. *)
Lemma cookies_at_fresh m c q l : c ∉ l -> cookies_at (<[c := q]> m) l = cookies_at m l.
Proof. intros Hc. apply cookies_at_ext. intros x Hx. rewrite !lookup_fmap, lookup_insert_ne; [done|set_solver]. Qed.
Lemma nparts_fresh m c q l : c ∉ l -> nparts (<[c := q]> m) l = nparts m l.
Proof. intros Hc. unfold nparts. by rewrite cookies_at_fresh. Qed.
Lemma cookies_at_gone m c l : c ∉ l -> cookies_at (base.delete c m) l = cookies_at m l.
Proof. intros Hc. apply cookies_at_ext. intros x Hx. rewrite !lookup_fmap, lookup_delete_ne; [done|set_solver]. Qed.
Lemma nparts_gone m c l : c ∉ l -> nparts (base.delete c m) l = nparts m l.
Proof. intros Hc. unfold nparts. by rewrite cookies_at_gone. Qed.
Lemma cookies_at_view m m' l : strip <$> m = strip <$> m' -> cookies_at m l = cookies_at m' l.
Proof. intros H. unfold cookies_at. by rewrite H. Qed.

(** The cookie of a request, if its vector is accepted *)
Lemma populated_ok spc d m tag op dst : single_pass_ok d -> valid_op d op dst ->
  let '(st, q) := populate_cookie (to_single_pass spc d) m tag op dst in
  strip q = q /\ pOpData q = op /\
  (st = CPA_STATUS_SUCCESS -> cookie_ok d q /\
     (chains_state d = true -> is_full q = false -> updateSessionIvOnSend q = is_start op d)).
Proof.
  intros HS [HC HL]. destruct (single_pass_same spc d HS) as (EC & _ & EQ). injection EQ as EP _ _ _ _.
  pose proof (populate_cookie_spec (to_single_pass spc d) m tag op dst) as H.
  destruct (populate_cookie (to_single_pass spc d) m tag op dst) as [st q].
  destruct H as (_ & Eo & Ed & En & H1 & H2 & H3 & H4). unfold is_start in H1, H4. rewrite EP, (chains_config _ _ EC) in *.
  assert (forall b, bool_decide (packetType op = CPA_CY_SYM_PACKET_TYPE_PARTIAL) && b = true -> is_full q = false) as Hf.
  { intros b [Hp%bool_decide_eq_true _]%andb_true_iff. unfold is_full. by rewrite Eo, Hp. }
  split; [destruct q; cbn in En |- *; by subst|]. split; [done|]. intros Hst. split; [|by apply H4].
  split_and!; [by apply HC|rewrite Eo; apply HL..|by intros ?%H1%Hf| |].
  - intros Hu. split; [|by apply H3]. specialize (H2 Hu). apply (Hf true). by rewrite andb_true_r.
  - intros Hc. apply (named_config _ _ _ EC). by apply H4.
Qed.

(** The parts of the invariant that say which cookies there are *)
Definition cookies_inv (s : sys) (qs : list Z) : Prop :=
  NoDup (held s qs) /\ (forall c, is_Some (view (s_cy s) !! c) <-> c ∈ held s qs) /\
  pendingCbCount (sess (s_cy s)) = u64 (len (pend s qs)) /\
  (forall c q, view (s_cy s) !! c = Some q -> cookie_ok (sess (s_cy s)) q) /\ spc_inv s.

(** A new cookie [c] anywhere among those in use *)
Lemma cookies_inv_new s s' qs qs' c q : cookies_inv s qs -> c ∉ held s qs ->
  held s' qs' ≡ₚ c :: held s qs -> view (s_cy s') = <[c := q]> (view (s_cy s)) ->
  pendingCbCount (sess (s_cy s')) = u64 (len (pend s' qs')) -> config (sess (s_cy s')) = config (sess (s_cy s)) ->
  cookie_ok (sess (s_cy s)) q -> spc_inv s' -> cookies_inv s' qs'.
Proof.
  intros (HN & HD & HP & HC & HS) Hc EP EV Hn Hcf Hok HS'. unfold cookies_inv. rewrite EV. split_and!; [..|done].
  - rewrite EP. by apply NoDup_cons.
  - intros x. rewrite EP, lookup_insert_is_Some, HD, elem_of_cons. destruct (decide (c = x)); naive_solver.
  - done.
  - intros x qx. rewrite lookup_insert_Some. intros [[-> <-]|[_ Hx]]; apply (cookie_ok_config (sess (s_cy s))); eauto.
Qed.

(** A refused submission, which may leave its cookie behind *)
Lemma inv_refused s qs w' m c q status : inv s qs -> c ∉ held s qs -> strip q = q -> status <> CPA_STATUS_SUCCESS ->
  refused (s_cy s) w' m q qs (len (pend s qs)) ->
  m = cookies (s_cy s) \/ m = <[c := q]> (cookies (s_cy s)) /\ cookie_ok (sess (s_cy s)) q /\ singlePassState (sess (s_cy s)) <> SPC_NO ->
  inv (submitted c status w' s) qs.
Proof.
  intros HI Hni Hst Hne ((Hm & He & Hc) & Hk & Hr & Hq & Hb & Hp & Hn & _) HM. unfold submitted. rewrite decide_False by done.
  assert (drop (length (ring (s_cy s))) (ring w') = []) as Eo by (apply drop_ring; by rewrite Hr, app_nil_r).
  assert (cookies_inv s qs) as HCI by (by destruct HI). pose proof HCI as (CN & CD & CP & CC & CS).
  assert (cookies (s_cy s) !! c = None) as Hno.
  { destruct (cookies (s_cy s) !! c) as [x|] eqn:E; [|done]. exfalso. apply Hni, CD. unfold view. rewrite lookup_fmap, E. by eexists. }
  assert ((c ∉ qs) /\ (c ∉ s_dev s ++ (s_resp s).*1)) as [Hc1 Hc2] by (unfold held, pend in Hni; set_solver).
  destruct HI as [IQ IN ID IP IF IC IB IFI IDO IS]. unfold absorb. rewrite Eo. set (s' := _ <| h_leaked := _ |>).
  assert (cookies_inv s' qs) as (C1 & C2 & C3 & C4 & C5).
  { destruct HM as [->|(-> & Hok & HY)].
    - assert (h_leaked s' = h_leaked s) as El by (cbn; rewrite Hk, Hno, decide_False by (by intros [? ?]); apply app_nil_r).
      unfold cookies_inv, held, pend, view in *. rewrite El. cbn. rewrite app_nil_r, Hk. split_and!; try done.
      + intros x qx Hx. apply (cookie_ok_config (sess (s_cy s))); [done|]. by apply (CC x).
      + by apply (spc_inv_config s).
    - apply (cookies_inv_new s s' qs qs c q); try done.
      + unfold held, pend. cbn. rewrite Hk, lookup_insert_eq, decide_True, app_nil_r by eauto. solve_Permutation.
      + unfold view. cbn. by rewrite Hk, fmap_insert, Hst.
      + unfold pend. cbn. by rewrite app_nil_r.
      + destruct (single_pass_config _ _ (eq_sym Hc) (proj1 CS)) as [H1 H2]. split; [done|]. intros E. destruct (HY (H2 E)). }
  assert (forall l, c ∉ l -> cookies_at m l = cookies_at (cookies (s_cy s)) l) as Hat.
  { intros l Hl. destruct HM as [->|[-> _]]; [done|]. by apply cookies_at_fresh. }
  split; try done; cbn; rewrite ?app_nil_r, ?Hb, ?He, ?Hk; try done.
  - unfold nparts. rewrite Hat by done. exact IB.
  - by rewrite Hat.
  - by rewrite Hat.
Qed.

Lemma inv_direct s qs w' c q : inv s qs -> c ∉ held s qs -> c <> 0 -> strip q = q -> cookie_ok (sess (s_cy s)) q ->
  nonBlockingOpsInProgress (sess (s_cy s)) = true -> accepted (s_cy s) w' c q qs (len (pend s qs)) ->
  inv (absorb w' (cookies_at (cookies w') [c]) s) [].
Proof.
  intros HI Hc H0 Hst Hok Hb HA. destruct HI as [IQ IN ID IP IF IC IB IFI IDO IS]. specialize (IF Hb) as ->.
  assert ((c ∉ s_dev s) /\ (c ∉ (s_resp s).*1)) as [Hc1 Hc2] by (unfold held, pend in Hc; set_solver).
  unfold accepted in HA. rewrite Hb in HA. destruct HA as ((Hm & He & Hcf) & Hp & Hn & Hk & Hr & Hq & Hb' & _).
  pose proof (drop_ring _ _ _ Hr) as Eo. unfold absorb. rewrite Eo.
  assert (cookies_at (cookies w') [c] = [q]) as E1 by (rewrite (cookies_at_single _ _ q), Hst; [done|by rewrite Hk, lookup_insert_eq]).
  rewrite E1. set (s' := _ <| h_sends := _ |>).
  destruct (cookies_inv_new s s' [] [] c q) as (C1 & C2 & C3 & C4 & C5); try done; [..|by apply (spc_inv_config s)|].
  { unfold held, pend. cbn. solve_Permutation. }
  { unfold view. cbn. by rewrite Hk, fmap_insert, Hst. }
  { cbn. rewrite Hn. unfold pend. cbn. f_equal. rewrite !length_app. cbn. lia. }
  split; try done.
  - cbn. rewrite Hb', <- app_assoc, nparts_app, nparts_app, Hk.
    rewrite (nparts_fresh _ _ _ (s_dev s)), (nparts_fresh _ _ _ ((s_resp s).*1)), (nparts_cons _ c q) by done || apply lookup_insert_eq.
    rewrite nparts_app, Hb in IB. change (nparts (<[c := q]> (cookies (s_cy s))) []) with 0%nat. cbn in IB |- *. lia.
  - cbn. rewrite !app_nil_r in *. by rewrite IFI.
  - cbn. rewrite map_app, IDO, <- app_assoc. cbn [app]. rewrite Hk, He. change (c :: (s_resp s).*1) with ([c] ++ (s_resp s).*1).
    rewrite !cookies_at_app, (cookies_at_fresh _ _ _ (s_dev s)), (cookies_at_fresh _ _ _ ((s_resp s).*1)) by done.
    rewrite (cookies_at_single _ c q), Hst by apply lookup_insert_eq.
    rewrite !map_app. solve_Permutation.
Qed.

Lemma inv_enqueued s qs w' c q : inv s qs -> c ∉ held s qs -> c <> 0 -> strip q = q -> cookie_ok (sess (s_cy s)) q ->
  nonBlockingOpsInProgress (sess (s_cy s)) = false -> accepted (s_cy s) w' c q qs (len (pend s qs)) ->
  inv (absorb w' (cookies_at (cookies w') [c]) s) (qs ++ [c]).
Proof.
  intros HI Hc H0 Hst Hok Hb HA. destruct HI as [IQ IN ID IP IF IC IB IFI IDO IS].
  unfold accepted in HA. rewrite Hb in HA. destruct HA as ((Hm & He & Hcf) & Hp & Hn & Hk & Hr & Hq & Hb' & _).
  assert ((c ∉ qs) /\ (c ∉ s_dev s ++ (s_resp s).*1)) as [Hc1 Hc2] by (unfold held, pend in Hc; set_solver).
  assert (drop (length (ring (s_cy s))) (ring w') = []) as Eo by (apply drop_ring; by rewrite Hr, app_nil_r).
  unfold absorb. rewrite Eo, app_nil_r. rewrite !(cookies_at_view _ _ _ Hk).
  assert (cookies_at (<[c := q]> (cookies (s_cy s))) [c] = [q]) as E1 by (rewrite (cookies_at_single _ _ q), Hst; [done|apply lookup_insert_eq]).
  rewrite E1. change (cookies_at (<[c := q]> (cookies (s_cy s))) []) with (@nil cookie). rewrite app_nil_r.
  set (s' := _ <| h_sends := _ |>). destruct (cookies_inv_new s s' qs (qs ++ [c]) c q) as (C1 & C2 & C3 & C4 & C5); try done; [..|by apply (spc_inv_config s)|].
  { unfold held, pend. cbn. solve_Permutation. }
  { unfold view. cbn. by rewrite Hk, fmap_insert, Hst. }
  { cbn. rewrite Hn. unfold pend. cbn. f_equal. rewrite !length_app. cbn. lia. }
  split; try done; cbn; rewrite ?app_nil_r, ?Hb', ?He.
  - done.
  - rewrite Hb in IB. rewrite (nparts_ext (cookies w') (cookies (s_cy s))); [exact IB|].
    intros x Hx. rewrite Hk, fmap_insert, lookup_insert_ne; [done|]. intros ->. done.
  - rewrite (cookies_at_view _ _ _ Hk), cookies_at_app, cookies_at_fresh, E1, IFI, app_assoc by done. done.
  - rewrite (cookies_at_view _ _ _ Hk), cookies_at_fresh by done. by rewrite IDO.
Qed.

(** The device changes the session's cipher state or the client's memory only. *)
Lemma device_output_same d q out w : cookie_ok d q ->
  let w' := device_output q out w in
  exists m st, w' = w <| umem := m |> <| sess := (sess w) <| cipherPartialOpState := st |> |> /\
    (is_full q = true -> st = cipherPartialOpState (sess w)) /\
    (is_full q = false -> cipher_IV q = cipher_IV_ptr IvPartialOpState -> st = if la_update_state q then out else cipherPartialOpState (sess w)).
Proof.
  intros (_ & _ & _ & Hu & _) w'. exists (umem w'), (cipherPartialOpState (sess w')). subst w'.
  unfold device_output, set_session. destruct w as [d0 ck um ps rg ss ev]. destruct d0.
  destruct (la_update_state q); [destruct (Hu eq_refl) as [Hf Ha]; destruct (cipher_IV q) as [[]|l]|]; cbn; try done.
  all: split; [done|]; split; intros; congruence || done.
Qed.

Lemma inv_device s qs c ok l1 l2 q out : inv s qs -> s_dev s = l1 ++ c :: l2 -> cookies (s_cy s) !! c = Some q ->
  inv (worked c ok q out (l1 ++ l2) s) qs.
Proof.
  intros HI Hd Hq.
  assert (cookie_ok (sess (s_cy s)) q) as Hok by (apply (inv_cookie _ _ HI c (strip q)); unfold view; by rewrite lookup_fmap, Hq).
  destruct HI as [IQ IN ID IP IF IC IB IFI IDO IS].
  assert ((l1 ++ l2) ++ (s_resp s ++ [(c, ok)]).*1 ≡ₚ s_dev s ++ (s_resp s).*1) as EP.
  { rewrite Hd, fmap_app. cbn. solve_Permutation. }
  unfold worked. destruct (device_output_same _ q out (s_cy s) Hok) as (m & st & E & _). cbn zeta in E. rewrite E.
  split; unfold held, pend, view in *; cbn; try done; rewrite ?(nparts_perm _ _ _ EP), ?EP; try done.
  - intros x. rewrite EP. apply ID.
  - rewrite IDO. unfold cookies_at. by rewrite EP.
Qed.

Lemma inv_client s qs m : inv s qs -> inv (s <| s_cy := (s_cy s) <| umem := m |> |>) qs.
Proof. by intros []. Qed.

(** A request [c] leaves, others may go from the queue to the device. *)
Lemma cookies_inv_gone s s' qs qs' c : cookies_inv s qs -> pend s qs ≡ₚ c :: pend s' qs' -> h_leaked s' = h_leaked s ->
  view (s_cy s') = base.delete c (view (s_cy s)) ->
  pendingCbCount (sess (s_cy s')) = dec (pendingCbCount (sess (s_cy s))) ->
  config (sess (s_cy s')) = config (sess (s_cy s)) -> cookies_inv s' qs'.
Proof.
  intros (HN & HD & HP & HC & HS) EP El EV Hn Hcf. assert (held s qs ≡ₚ c :: held s' qs') as EH by (unfold held; by rewrite EP, El).
  rewrite EH in HN. apply NoDup_cons in HN as [Hc HN]. unfold cookies_inv. split_and!.
  - done.
  - intros x. rewrite EV, lookup_delete_is_Some, HD, EH, elem_of_cons. split; [naive_solver|]. intros Hx. split; [by intros ->|by right].
  - rewrite Hn, HP, dec_u64, EP. cbn. f_equal. lia.
  - intros x qx. rewrite EV, lookup_delete_Some. intros [_ Hx]. apply (cookie_ok_config (sess (s_cy s))); eauto.
  - by apply (spc_inv_config s).
Qed.

Lemma inv_cookies s qs : inv s qs -> cookies_inv s qs.
Proof. by intros []. Qed.

(** Where the first of the pending responses stands *)
Lemma inv_first_response s qs c ok rr q : inv s qs -> s_resp s = (c, ok) :: rr -> cookies (s_cy s) !! c = Some q ->
  (c ∉ qs) /\ (c ∉ s_dev s) /\ (c ∉ rr.*1) /\ cleanable (sess (s_cy s)) q.
Proof.
  intros [_ IN _ _ _ IC _ _ _ _] Hr Hq. unfold held, pend in IN. rewrite Hr in IN. cbn in IN.
  assert (NoDup (c :: (qs ++ s_dev s ++ rr.*1) ++ h_leaked s)) as HN by (eapply NoDup_Permutation_proper; [|exact IN]; solve_Permutation).
  apply NoDup_cons in HN as [Hc _]. rewrite !not_elem_of_app in Hc. destruct Hc as ((? & ? & ?) & _). split_and!; try done.
  apply (IC c (strip q)). unfold view. by rewrite lookup_fmap, Hq.
Qed.

(** What a response sends and leaves in the queue *)
Definition woken (s : sys) (qs : list Z) (q : cookie) (ok : bool) : list Z * list Z :=
  if negb (is_full q) && ok then upto_partial (full_at (cookies (s_cy s))) qs else ([], qs).

(** What the processing of the first response does *)
Lemma response_cases s qs c ok rr l q w' : inv s qs -> s_resp s = (c, ok) :: rr -> (negb (is_full q) && ok = true -> patient l) ->
  cookies (s_cy s) !! c = Some q ->
  LacSymCb_ProcessCallbackInternal c ok CPA_STATUS_SUCCESS (s_cy s) <| puts := l |> = Some w' ->
  let '(out, rest) := woken s qs q ok in
  cookies w' = base.delete c (cookies (s_cy s)) /\ ring w' = ring (s_cy s) ++ out /\ queue_ok w' rest /\
  nonBlockingOpsInProgress (sess w') =
    (if negb (is_full q) && ok then forallb (full_at (cookies (s_cy s))) out else nonBlockingOpsInProgress (sess (s_cy s))) /\
  cipherPartialOpState (sess w') = cipherPartialOpState (fold_left (iv_at (cookies (s_cy s)) (umem w')) out (sess (s_cy s))) /\
  config (sess w') = config (sess (s_cy s)) /\ partialState (sess w') = partialState (sess (s_cy s)) /\
  pendingCbCount (sess w') = dec (pendingCbCount (sess (s_cy s))) /\
  map ev_tag (events w') = map ev_tag (events (s_cy s)) ++ [pCallbackTag q] /\ iv_returned q (sess (s_cy s)) (umem w').
Proof.
  intros HI Hr HP Hq Hcall. destruct (inv_first_response _ _ _ _ _ _ HI Hr Hq) as (Hc1 & _ & _ & HC).
  destruct (process_spec (s_cy s) <| puts := l |> c q ok qs) as (w2 & status & okf & E & HS); try done; [by apply HI|].
  rewrite Hcall in E. injection E as <-. change (cookies (s_cy s) <| puts := l |>) with (cookies (s_cy s)) in HS.
  cbn zeta in HS. unfold woken. destruct (if negb (is_full q) && ok then _ else _) as [out rest].
  destruct HS as (? & ? & ? & ? & ? & ? & ? & ? & (op & Hev) & _ & _ & ?). split_and!; try done. by rewrite Hev, map_app.
Qed.

Lemma woken_spec s qs c ok rr q flag' : inv s qs -> s_resp s = (c, ok) :: rr -> cookies (s_cy s) !! c = Some q ->
  let '(out, rest) := woken s qs q ok in
  flag' = (if negb (is_full q) && ok then forallb (full_at (cookies (s_cy s))) out
           else nonBlockingOpsInProgress (sess (s_cy s))) ->
  qs = out ++ rest /\ (flag' = true -> rest = []) /\
  Nat.b2n (negb flag') = (Nat.b2n (s_pre s) + Nat.b2n (h_failed s || (negb (is_full q) && negb ok)) +
    (nparts (cookies (s_cy s)) (s_dev s ++ rr.*1) + nparts (cookies (s_cy s)) out))%nat.
Proof.
  intros [_ _ _ _ IF _ IB _ _ _] Hr Hq. rewrite Hr in IB. cbn in IB. rewrite nparts_app, (nparts_cons _ _ _ _ Hq) in IB.
  rewrite nparts_app. unfold woken.
  pose proof (upto_partial_app (full_at (cookies (s_cy s))) qs) as EA.
  pose proof (upto_partial_shape (full_at (cookies (s_cy s))) qs) as EB.
  pose proof (nparts_upto (cookies (s_cy s)) qs) as EN.
  destruct (is_full q); cbn in IB |- *; [|destruct ok; cbn].
  - intros ->. split_and!; [done|done|]. change (nparts _ []) with 0%nat. rewrite orb_false_r. lia.
  - destruct (upto_partial (full_at (cookies (s_cy s))) qs) as [out rest]. intros ->. split_and!; [done| |].
    + intros Hf. destruct EB as [[_ ?]|(f & p & -> & _ & Hp)]; [done|]. rewrite forallb_app in Hf. cbn in Hf. rewrite Hp in Hf.
      by rewrite andb_false_r in Hf.
    + rewrite EN, orb_false_r. destruct (nonBlockingOpsInProgress _), (s_pre s), (h_failed s); cbn in IB |- *; lia.
  - intros ->. split_and!; [done|done|]. change (nparts _ []) with 0%nat. rewrite orb_true_r.
    destruct (nonBlockingOpsInProgress _), (s_pre s), (h_failed s); cbn in IB |- *; lia.
Qed.

Lemma inv_response s qs c ok rr l q w' : inv s qs -> s_resp s = (c, ok) :: rr -> (negb (is_full q) && ok = true -> patient l) ->
  cookies (s_cy s) !! c = Some q ->
  LacSymCb_ProcessCallbackInternal c ok CPA_STATUS_SUCCESS (s_cy s) <| puts := l |> = Some w' ->
  inv ((absorb w' [] s) <| s_resp := rr |> <| h_failed := h_failed s || (negb (is_full q) && negb ok) |>) (woken s qs q ok).2.
Proof.
  intros HI Hr HP Hq Hcall. destruct (inv_first_response _ _ _ _ _ _ HI Hr Hq) as (Hc1 & Hc2 & Hc3 & HC).
  pose proof (inv_cookies _ _ HI) as HK. pose proof (woken_spec s qs c ok rr q) as HW.
  pose proof (response_cases _ _ _ _ _ _ _ _ HI Hr HP Hq Hcall) as HS. destruct (woken s qs q ok) as [out rest].
  destruct HS as (Hk & Hring & Hqo & Hfl & _ & Hcf & _ & Hpn & Hev & _).
  destruct (HW _ HI Hr Hq Hfl) as (-> & Hfree & Hblock). clear HW. cbn [snd]. destruct HI as [IQ IN ID IP IF IC IB IFI IDO IS].
  pose proof (drop_ring (s_cy s) w' out Hring) as Eo. apply not_elem_of_app in Hc1 as [Hco Hcr].
  unfold absorb. rewrite Eo. set (s' := _ <| h_failed := _ |>).
  destruct (cookies_inv_gone s s' (out ++ rest) rest c) as (C1 & C2 & C3 & C4 & C5); try done.
  { unfold pend. cbn. rewrite Hr. cbn. solve_Permutation. }
  { unfold view. cbn. by rewrite Hk, fmap_delete. }
  split; try done; cbn; rewrite ?Hk.
  - rewrite Hblock. rewrite nparts_gone by set_solver. rewrite <- !app_assoc, !nparts_app. lia.
  - rewrite app_nil_r, !cookies_at_gone by done. by rewrite IFI, cookies_at_app, app_assoc.
  - rewrite Hev, map_app, IDO, Hr. cbn. rewrite <- app_assoc.
    rewrite !cookies_at_gone by set_solver. rewrite !cookies_at_app. change (c :: rr.*1) with ([c] ++ rr.*1).
    rewrite cookies_at_app, (cookies_at_single _ _ _ Hq), !map_app. cbn. solve_Permutation.
Qed.

Lemma inv_precompute s qs l status w' : inv s qs -> s_pre s = true -> patient l ->
  LacSymCb_PendingReqsDequeue (s_cy s) <| puts := l |> = Some (status, w') ->
  inv ((absorb w' [] s) <| s_pre := false |>) (upto_partial (full_at (cookies (s_cy s))) qs).2.
Proof.
  intros HI Hp HP Hcall. pose proof (inv_queue _ _ HI) as HQ.
  assert (queue_ok (s_cy s) <| puts := l |> qs) as HQ' by exact HQ.
  pose proof (pending_dequeue (s_cy s) <| puts := l |> qs HQ' HP) as HD. clear HQ'.
  change (cookies (s_cy s) <| puts := l |>) with (cookies (s_cy s)) in HD.
  pose proof (upto_partial_app (full_at (cookies (s_cy s))) qs) as EA.
  pose proof (upto_partial_shape (full_at (cookies (s_cy s))) qs) as EB.
  pose proof (nparts_upto (cookies (s_cy s)) qs) as EN.
  destruct (upto_partial (full_at (cookies (s_cy s))) qs) as [out rest]. destruct HD as (l' & E).
  rewrite Hcall in E. injection E as -> ->. subst qs. cbn [snd].
  pose proof (iv_fold_config (cookies (s_cy s)) (umem (s_cy s)) out (sess (s_cy s))) as (EC & _ & ENn).
  destruct HI as [_ IN ID IP IF IC IB IFI IDO IS]. destruct HQ as (HQ & HN & _ & _).
  unfold absorb. cbn [ring]. rewrite drop_app_length. set (d := fold_left _ _ _) in *.
  assert (pend s (out ++ rest) ≡ₚ rest ++ (s_dev s ++ out) ++ (s_resp s).*1) as EP by (unfold pend; solve_Permutation).
  apply NoDup_app in HN as (_ & _ & HN). rewrite Hp in IB.
  split; unfold held, pend, view in *; cbn; rewrite <- ?EP; try done.
  - split_and!; [by eapply queued_app|done..].
  - intros c. rewrite <- EP. apply ID.
  - exact (eq_trans ENn IP).
  - intros Hf. destruct EB as [[_ ?]|(f & p & -> & _ & Hp')]; [done|]. rewrite forallb_app in Hf. cbn in Hf. rewrite Hp' in Hf.
    by rewrite andb_false_r in Hf.
  - intros c q Hc. apply (cookie_ok_config (sess (s_cy s))); [done|]. by apply (IC c).
  - rewrite <- app_assoc, !nparts_app, EN. rewrite nparts_app in IB.
    destruct (nonBlockingOpsInProgress (sess (s_cy s))); cbn in IB; [lia|]. destruct (h_failed s); cbn in IB |- *; lia.
  - by rewrite app_nil_r, IFI, cookies_at_app, app_assoc.
  - rewrite map_app, IDO, !cookies_at_app, !map_app. solve_Permutation.
  - by apply (spc_inv_config s).
Qed.

(** What a submission does to the session *)
Lemma perform_cases s qs supported spc noAad build c tag op dst l status w' : inv s qs -> cookies (s_cy s) !! c = None -> c <> 0 ->
  valid_op (sess (s_cy s)) op dst -> perform_op supported spc noAad build c tag op dst (s_cy s) <| puts := l |> = Some (status, w') ->
  exists q, (c ∉ held s qs) /\ strip q = q /\ pOpData q = op /\
  if decide (status = CPA_STATUS_SUCCESS)
  then packet_type_check supported op (sess (s_cy s)) = CPA_STATUS_SUCCESS /\ cookie_ok (sess (s_cy s)) q /\
       (chains_state (sess (s_cy s)) = true -> is_full q = false -> updateSessionIvOnSend q = is_start op (sess (s_cy s))) /\
       accepted (s_cy s) w' c q qs (len (pend s qs))
  else exists m, refused (s_cy s) w' m q qs (len (pend s qs)) /\
       (m = cookies (s_cy s) \/ m = <[c := q]> (cookies (s_cy s)) /\ cookie_ok (sess (s_cy s)) q /\ singlePassState (sess (s_cy s)) <> SPC_NO).
Proof.
  intros HI Hc H0 Hv Hcall.
  pose proof (inv_queue _ _ HI) as HQ. assert (queue_ok (s_cy s) <| puts := l |> qs) as HQ' by exact HQ.
  pose proof (perform_spec (s_cy s) <| puts := l |> qs (len (pend s qs)) supported spc noAad build c tag op dst HQ' Hc H0
    (inv_free _ _ HI) (inv_pending _ _ HI) (proj1 (inv_spc _ _ HI))) as HS.
  change (sess (s_cy s) <| puts := l |>) with (sess (s_cy s)) in HS. change (umem (s_cy s) <| puts := l |>) with (umem (s_cy s)) in HS.
  pose proof (populated_ok spc (sess (s_cy s)) (umem (s_cy s)) tag op dst (proj1 (inv_spc _ _ HI)) Hv) as HP.
  destruct (populate_cookie (to_single_pass spc (sess (s_cy s))) (umem (s_cy s)) tag op dst) as [st q].
  destruct HP as (Hst & Eop & HP). destruct HS as (status' & w2 & E & HS). rewrite Hcall in E. injection E as <- <-.
  exists q. split_and!; [|done..|].
  - intros Hin. apply (inv_dom _ _ HI) in Hin as [x Hx]. unfold view in Hx. by rewrite lookup_fmap, Hc in Hx.
  - destruct (decide (status = CPA_STATUS_SUCCESS)).
    + destruct HS as (H1 & H2 & H3). destruct (HP H2) as [H4 H5]. by split_and!.
    + destruct HS as (m & HR & HM). exists m. split; [done|]. destruct HM as [|(? & ? & ?)]; [by left|right].
      split_and!; [done|by apply HP|done].
Qed.

(** A response or a precomputation that sends requests needs a patient ring. *)
Definition waking (s : sys) (a : act) : Prop :=
  match a with
  | Respond l => (exists c q rr, s_resp s = (c, true) :: rr /\ cookies (s_cy s) !! c = Some q /\ is_full q = false) -> patient l
  | Precompute l => s_pre s = true -> patient l
  | _ => True
  end.
Lemma patient_waking s a : patient_act a -> waking s a.
Proof. destruct a; cbn; auto. Qed.
Lemma waking_response s c ok rr l q : waking s (Respond l) -> s_resp s = (c, ok) :: rr -> cookies (s_cy s) !! c = Some q ->
  negb (is_full q) && ok = true -> patient l.
Proof. intros HW Hr Hq [Hf%negb_true_iff ->]%andb_true_iff. apply HW. by exists c, q, rr. Qed.

(** Every step keeps the invariant. *)
Lemma sym_step_inv s a s' qs : inv s qs -> waking s a -> step s a s' -> exists qs', inv s' qs'.
Proof.
  intros HI HW Hs. destruct Hs as [supported spc noAad build c tag op dst l status w' Hc H0 Hv Hcall| c ok l1 l2 q out Hd Hq _
    | c ok rr l q w' Hr Hq Hcall | l status w' Hp Hcall| m].
  - destruct (perform_cases _ _ _ _ _ _ _ _ _ _ _ _ _ HI Hc H0 Hv Hcall) as (q & Hni & Hst & _ & HS).
    unfold submitted. destruct (decide (status = CPA_STATUS_SUCCESS)) as [->|Hne].
    + destruct HS as (_ & Hok & _ & HA). destruct (nonBlockingOpsInProgress (sess (s_cy s))) eqn:Hb.
      * exists []. by apply (inv_direct s qs w' c q).
      * exists (qs ++ [c]). by apply (inv_enqueued s qs w' c q).
    + destruct HS as (m & HR & HM). exists qs. pose proof (inv_refused s qs w' m c q status HI Hni Hst Hne HR HM) as HI'.
      unfold submitted in HI'. by rewrite decide_False in HI'.
  - eexists. by eapply inv_device.
  - eexists. eapply inv_response; try done. by eapply waking_response.
  - eexists. eapply inv_precompute; try done. by apply HW.
  - exists qs. by apply inv_client.
Qed.

Lemma sym_reachable_inv s : reachable patient_act s -> exists qs, inv s qs.
Proof.
  induction 1 as [s H|s a s' _ [qs IH] HP Hs]; [exists []; by apply inv_initial|].
  eapply sym_step_inv; [done|by apply patient_waking|done].
Qed.

(** * Cipher states

    [chain d st live nd ps sends runs]: the partial requests [ps] were sent in this order, with
    the client's memory and the cipher state as in [sends], and the device has worked on them
    as in [runs]; [nd] of them are still at the device, [st] is the state in the session, and
    it is the one that the device left if [live]. *)
Definition loaded (d : session) (q : cookie) (m : memory) (st : list Z) : Prop :=
  if LAC_CIPHER_IS_ARC4 (cipherAlgorithm d) then st = cipherARC4InitialState d
  else take (Z.to_nat (ivLenInBytes (pOpData q))) st = read m (pIv (pOpData q)) (ivLenInBytes (pOpData q)).

Definition state_len : nat := Z.to_nat LAC_CIPHER_ARC4_STATE_LEN_BYTES.

Record chain (d : session) (st : list Z) (live : Prop) (nd : nat) (ps : list cookie)
    (sends : list (memory * list Z)) (runs : list (list Z * list Z)) : Prop := {
  ch_len : length st = state_len;
  ch_sends : length sends = length ps;
  ch_runs : (length runs + nd)%nat = length sends;
  ch_in : forall i inn out, runs !! i = Some (inn, out) -> exists m, sends !! i = Some (m, inn);
  ch_dev : nd <> 0%nat -> exists m, last sends = Some (m, st);
  ch_start : forall i q m s, ps !! i = Some q -> sends !! i = Some (m, s) -> updateSessionIvOnSend q = true -> loaded d q m s;
  ch_next : forall i q m s, ps !! S i = Some q -> sends !! S i = Some (m, s) -> updateSessionIvOnSend q = false ->
    exists inn, runs !! i = Some (inn, s);
  ch_last : nd = 0%nat -> live -> runs <> [] -> exists inn, last runs = Some (inn, st)
}.

Lemma chain_rest d st st' (live live' : Prop) ps sends runs : chain d st live 0 ps sends runs -> length st' = state_len ->
  (live' -> live /\ st' = st) -> chain d st' live' 0 ps sends runs.
Proof. intros [] Hl H. split; try done. intros _ HL HR. destruct (H HL) as [? ->]. by apply ch_last0. Qed.

Lemma chain_run d st live live' ps sends runs out : chain d st live 1 ps sends runs -> length out = length st ->
  chain d out live' 0 ps sends (runs ++ [(st, out)]).
Proof.
  intros [CL CS CR CI CD CT CN CA] Hl. destruct (CD ltac:(done)) as [m Hm].
  assert (length runs < length sends)%nat as Hlt by lia.
  split; try done.
  - by rewrite Hl.
  - rewrite length_app. cbn. lia.
  - intros i inn o. rewrite lookup_app_Some. intros [Hi|[Hi Ho]]; [by apply (CI i inn o)|].
    apply list_lookup_singleton_Some in Ho as [Hi0 [= <- <-]]. exists m. rewrite last_lookup in Hm. by replace i with (pred (length sends)) by lia.
  - intros i q mm s Hq Hs Hu. destruct (CN i q mm s Hq Hs Hu) as [inn Hi]. exists inn. by apply lookup_app_l_Some.
  - intros _ _ _. exists st. by rewrite last_snoc.
Qed.

Lemma copy_length dst src n : 0 <= n <= len dst -> n <= len src -> length (copy dst src n) = length dst.
Proof. intros H1 H2. unfold copy. rewrite length_app, length_take, length_drop. lia. Qed.
Lemma copy_take dst src n : len src = n -> take (Z.to_nat n) (copy dst src n) = src.
Proof. intros <-. unfold copy. rewrite Nat2Z.id, (take_ge src) by lia. by rewrite take_app_length. Qed.
Lemma read_length m a n : 0 <= n -> len (read m a n) = n.
Proof. intros H. unfold read. rewrite length_map, length_seqZ. lia. Qed.

(** The state with which a partial is sent *)
Lemma update_iv_state q m d : length (cipherPartialOpState d) = state_len -> length (cipherARC4InitialState d) = state_len ->
  0 <= ivLenInBytes (pOpData q) <= LAC_CIPHER_ARC4_STATE_LEN_BYTES ->
  length (cipherPartialOpState (update_session_iv q m d)) = state_len /\
  (updateSessionIvOnSend q = true -> loaded d q m (cipherPartialOpState (update_session_iv q m d))) /\
  (updateSessionIvOnSend q = false -> cipherPartialOpState (update_session_iv q m d) = cipherPartialOpState d).
Proof.
  unfold update_session_iv, loaded, state_len, LAC_CIPHER_ARC4_STATE_LEN_BYTES. intros H1 H2 H3.
  destruct (updateSessionIvOnSend q); [|done]. destruct (LAC_CIPHER_IS_ARC4 (cipherAlgorithm d)); cbn [cipherPartialOpState upd].
  - split_and!; [rewrite copy_length; lia| |done]. intros _. unfold copy. rewrite take_ge, drop_ge by lia. apply app_nil_r.
  - pose proof (read_length m (pIv (pOpData q)) (ivLenInBytes (pOpData q)) ltac:(lia)) as HR.
    split_and!; [rewrite copy_length; lia| |done]. intros _. by apply copy_take.
Qed.

Lemma chain_send d st live ps sends runs q m st' : chain d st live 0 ps sends runs ->
  length st' = state_len -> (updateSessionIvOnSend q = true -> loaded d q m st') ->
  (updateSessionIvOnSend q = false -> live /\ st' = st) ->
  forall live', chain d st' live' 1 (ps ++ [q]) (sends ++ [(m, st')]) runs.
Proof.
  intros [CL CS CR CI CD CT CN CA] Hl Hload Hlive live'. split; try done.
  - rewrite !length_app. cbn. lia.
  - rewrite length_app. cbn. lia.
  - intros i inn o Hi. destruct (CI i inn o Hi) as [mm Hm]. exists mm. by apply lookup_app_l_Some.
  - intros _. exists m. by rewrite last_snoc.
  - intros i q' m' s'. rewrite !lookup_app_Some, CS.
    intros [Hq|[Hq Hq1]] [Hs|[Hs Hs1]] Hu; try (apply lookup_lt_Some in Hs || apply lookup_lt_Some in Hq; lia); [by apply (CT i)|].
    apply list_lookup_singleton_Some in Hq1 as [_ <-]. apply list_lookup_singleton_Some in Hs1 as [_ [= <- <-]]. auto.
  - intros i q' m' s'. rewrite !lookup_app_Some, CS.
    intros [Hq|[Hq Hq1]] [Hs|[Hs Hs1]] Hu; try (apply lookup_lt_Some in Hs || apply lookup_lt_Some in Hq; lia); [by apply (CN i q' m')|].
    apply list_lookup_singleton_Some in Hq1 as [Hi <-]. apply list_lookup_singleton_Some in Hs1 as [_ [= <- <-]].
    destruct (Hlive Hu) as [HL ->]. destruct CA as [inn Hr]; [done|done|intros ->; cbn in *; lia|]. exists inn.
    rewrite last_lookup in Hr. by replace i with (pred (length runs)) by lia.
Qed.

(** Sequences of partial requests: the first one loads the client's vector, the others go on
    with the state of the one before. *)
Inductive stream : list cookie -> CpaCySymPacketType -> Prop :=
| stream_nil : stream [] CPA_CY_SYM_PACKET_TYPE_FULL
| stream_snoc l ps q : stream l ps -> LacSym_PartialPacketStateCheck (packetType (pOpData q)) ps = CPA_STATUS_SUCCESS ->
    updateSessionIvOnSend q = bool_decide (ps = CPA_CY_SYM_PACKET_TYPE_FULL) ->
    stream (l ++ [q]) (LacSym_PartialPacketStateUpdate (packetType (pOpData q)) ps).

Definition live (s : sys) : Prop :=
  nonBlockingOpsInProgress (sess (s_cy s)) = false \/ partialState (sess (s_cy s)) <> CPA_CY_SYM_PACKET_TYPE_FULL.

Record hist (s : sys) : Prop := {
  hi_arc4 : length (cipherARC4InitialState (sess (s_cy s))) = state_len;
  hi_chain : chain (sess (s_cy s)) (cipherPartialOpState (sess (s_cy s))) (live s)
    (nparts (cookies (s_cy s)) (s_dev s)) (partials (h_sent s)) (h_sends s) (h_runs s);
  hi_pre : s_pre s = true -> h_sent s = [];
  hi_stream : stream (partials (h_accepted s)) (partialState (sess (s_cy s)));
  hi_named : Forall (named (sess (s_cy s))) (partials (h_accepted s))
}.

Lemma chain_config d d' st live nd ps sends runs : config d = config d' ->
  chain d st live nd ps sends runs -> chain d' st live nd ps sends runs.
Proof.
  intros [= _ _ Ea _ _ Er] []. split; try done. intros i q m s Hq Hs Hu. specialize (ch_start0 i q m s Hq Hs Hu).
  unfold loaded in *. by rewrite <- Ea, <- Er.
Qed.
Lemma chain_live d st (live live' : Prop) nd ps sends runs : (live' -> live) ->
  chain d st live nd ps sends runs -> chain d st live' nd ps sends runs.
Proof. intros H []. split; try done. auto. Qed.

Lemma hist_initial s : initial s -> hist s.
Proof.
  intros [_ (HP & _ & _) [Hb1 Hb2] _ [Hc _] (Hd & _ & Ha & Hs & Hse & Hru & _)].
  split; rewrite ?Ha, ?Hs, ?Hse, ?Hru, ?Hd, ?HP; try done; constructor.
Qed.

(** Requests without a partial do not touch the cipher state. *)
Lemma iv_fold_fulls m mem out : (forall c q, m !! c = Some q -> updateSessionIvOnSend q = true -> is_full q = false) ->
  forallb (full_at m) out = true -> forall d, fold_left (iv_at m mem) out d = d.
Proof.
  intros HC. induction out as [|c out IH]; intros Hf d; [done|]. cbn in Hf |- *. apply andb_true_iff in Hf as [Hc Hf].
  rewrite (IH Hf). unfold full_at in Hc. unfold iv_at. destruct (m !! c) as [q|] eqn:E; [|done].
  apply update_iv_fields. destruct (updateSessionIvOnSend q) eqn:EU; [|done]. specialize (HC c q E EU). congruence.
Qed.

(** Sending from the queue *)
Lemma chain_wake d st (live : Prop) ps sends runs m mem qs out rest live' :
  chain d st live 0 ps sends runs -> live -> st = cipherPartialOpState d -> length (cipherARC4InitialState d) = state_len ->
  (forall c q, m !! c = Some q -> cookie_ok d q) -> (forall c, c ∈ qs -> is_Some (m !! c)) ->
  upto_partial (full_at m) qs = (out, rest) ->
  let st' := cipherPartialOpState (fold_left (iv_at m mem) out d) in
  let sent := partials (cookies_at m out) in
  chain d st' live' (nparts m out) (ps ++ sent) (sends ++ map (fun _ => (mem, st')) sent) runs.
Proof.
  intros HC HL -> HA Hok Hin EU. cbn zeta. pose proof (upto_partial_shape (full_at m) qs) as HS.
  pose proof (upto_partial_app (full_at m) qs) as HQ. rewrite EU in HS, HQ. unfold nparts.
  assert (forall c q, m !! c = Some q -> updateSessionIvOnSend q = true -> is_full q = false) as Hfl by (intros c q Hc; apply (Hok c q Hc)).
  assert (forall l, forallb (full_at m) l = true -> partials (cookies_at m l) = []) as HF.
  { intros l Hl. apply nil_length_inv. by apply nparts_fulls. }
  destruct HS as [[Hf _]|(fulls & p & -> & Hf & Hp)].
  - rewrite (HF _ Hf), !app_nil_r, (iv_fold_fulls _ _ _ Hfl Hf). eapply chain_rest; [done|by apply HC|done].
  - destruct (Hin p) as [q Hq]; [subst; set_solver|]. unfold full_at in Hp. rewrite Hq in Hp.
    assert (partials (cookies_at m (fulls ++ [p])) = [strip q]) as ->.
    { rewrite cookies_at_app, partials_app, (HF _ Hf), (cookies_at_single _ _ _ Hq). unfold partials.
      rewrite filter_cons, filter_nil, decide_True by (by rewrite is_full_strip). done. }
    rewrite fold_left_app, (iv_fold_fulls _ _ _ Hfl Hf). cbn. unfold iv_at. rewrite Hq.
    destruct (Hok p q Hq) as (_ & Hlen & _).
    destruct (update_iv_state q mem d) as (E1 & E2 & E3); [by apply HC|done|done|].
    apply (chain_send d (cipherPartialOpState d) live); try done. intros Hu. by rewrite E3.
Qed.

Lemma partials_single q : partials [q] = if is_full q then [] else [q].
Proof. unfold partials. rewrite filter_cons, filter_nil. by destruct (is_full q). Qed.

Lemma named_all_config d d' l : config d = config d' -> Forall (named d) l -> Forall (named d') l.
Proof. intros E H. apply (Forall_impl _ _ _ H). intros q. by apply named_config. Qed.

Lemma hist_refused s qs w' m c q status : inv s qs -> hist s -> c ∉ held s qs -> status <> CPA_STATUS_SUCCESS ->
  0 <= ivLenInBytes (pOpData q) <= LAC_CIPHER_ARC4_STATE_LEN_BYTES ->
  refused (s_cy s) w' m q qs (len (pend s qs)) -> m = cookies (s_cy s) \/ m = <[c := q]> (cookies (s_cy s)) ->
  hist (submitted c status w' s).
Proof.
  intros HI [HA HC HP HS HN] Hni Hne Hlen ((Hm & He & Hc) & Hk & Hr & _ & Hb & Hp & _ & Hsame & Hst) HM.
  unfold submitted. rewrite decide_False by done.
  assert (drop (length (ring (s_cy s))) (ring w') = []) as Eo by (apply drop_ring; by rewrite Hr, app_nil_r).
  assert (nparts m (s_dev s) = nparts (cookies (s_cy s)) (s_dev s)) as EN.
  { destruct HM as [->| ->]; [done|]. apply nparts_fresh. unfold held, pend in Hni. set_solver. }
  unfold absorb. rewrite Eo. change (partials (cookies_at (cookies w') [])) with (@nil cookie).
  change (cookies_at (cookies w') []) with (@nil cookie).
  split; cbn; rewrite ?app_nil_r, ?Hk, ?Hp; try done; [by injection Hc as _ _ _ _ _ ->| |by apply (named_all_config (sess (s_cy s)))].
  rewrite EN. apply (chain_config (sess (s_cy s))); [done|].
  unfold live in *. cbn in *. rewrite Hb, Hp in *. pose proof (inv_block _ _ HI) as IB. rewrite nparts_app in IB.
  destruct (nonBlockingOpsInProgress (sess (s_cy s))) eqn:EB.
  - assert (nparts (cookies (s_cy s)) (s_dev s) = 0%nat) as E0 by (cbn in IB; lia). rewrite E0 in *.
    eapply chain_rest; [exact HC| |intros HL; split; [exact HL|by apply Hsame]].
    destruct Hst as [->| ->]; [by apply HC|]. apply update_iv_state; [by apply HC|done|done].
  - rewrite (Hsame (or_introl eq_refl)). done.
Qed.

(** The next state of the sequence, for an accepted request *)
Lemma stream_accepted supported op d q l : stream l (partialState d) -> packet_type_check supported op d = CPA_STATUS_SUCCESS ->
  pOpData q = op -> (is_full q = false -> updateSessionIvOnSend q = is_start op d) ->
  stream (l ++ partials [q]) (next_partial_state op d) /\
  (is_full q = false -> updateSessionIvOnSend q = bool_decide (partialState d = CPA_CY_SYM_PACKET_TYPE_FULL)).
Proof.
  intros HS Hty Eop Hu. rewrite partials_single. unfold is_full, next_partial_state, packet_type_check in *. rewrite Eop in *.
  destruct (decide (packetType op = CPA_CY_SYM_PACKET_TYPE_FULL)) as [EF|EF].
  - rewrite (bool_decide_eq_true_2 _ EF), app_nil_r. done.
  - rewrite (bool_decide_eq_false_2 _ EF) in *. cbn in Hty. destruct supported; [|done]. cbn in Hty.
    destruct (Z.eqb_spec (LacSym_PartialPacketStateCheck (packetType op) (partialState d)) CPA_STATUS_SUCCESS) as [EC|]; [|done].
    assert (updateSessionIvOnSend q = bool_decide (partialState d = CPA_CY_SYM_PACKET_TYPE_FULL)) as EU.
    { rewrite (Hu eq_refl). unfold is_start. destruct (packetType op), (partialState d); done. }
    split; [|done]. rewrite <- Eop. apply stream_snoc; [done|by rewrite Eop|done].
Qed.

Lemma hist_accepted s qs w' c q : inv s qs -> hist s -> c ∉ held s qs -> strip q = q -> cookie_ok (sess (s_cy s)) q ->
  chains_state (sess (s_cy s)) = true -> accepted (s_cy s) w' c q qs (len (pend s qs)) ->
  stream (partials (h_accepted s) ++ partials [q]) (next_partial_state (pOpData q) (sess (s_cy s))) ->
  (is_full q = false -> updateSessionIvOnSend q = bool_decide (partialState (sess (s_cy s)) = CPA_CY_SYM_PACKET_TYPE_FULL)) ->
  hist (absorb w' (cookies_at (cookies w') [c]) s).
Proof.
  intros HI [HA HC HP HS HN] Hni Hst (_ & Hlen & Hfl & _ & Hnm) Hch HAc HSt HU.
  unfold accepted in HAc. destruct HAc as ((Hm & He & Hcf) & Hps & _ & HAc).
  pose proof (inv_block _ _ HI) as IB. rewrite nparts_app in IB.
  assert (c ∉ s_dev s) as Hnd by (unfold held, pend in Hni; set_solver).
  assert (length (cipherARC4InitialState (sess w')) = state_len) as HA' by (by injection Hcf as _ _ _ _ _ ->).
  assert (Forall (named (sess w')) (partials (h_accepted s) ++ partials [q])) as HN'.
  { apply (named_all_config (sess (s_cy s))); [done|]. apply Forall_app. split; [done|]. rewrite partials_single.
    destruct (is_full q); [constructor|]. apply Forall_singleton. by apply Hnm. }
  destruct (nonBlockingOpsInProgress (sess (s_cy s))) eqn:EB.
  - destruct HAc as (Hk & Hr & _ & Hb & Hci). pose proof (drop_ring _ _ _ Hr) as Eo. unfold absorb. rewrite Eo.
    assert (cookies_at (cookies w') [c] = [q]) as -> by (rewrite (cookies_at_single _ _ q), Hst; [done|by rewrite Hk, lookup_insert_eq]).
    split; cbn; rewrite ?partials_app, ?Hps; try done.
    + apply (chain_config (sess (s_cy s))); [done|]. rewrite Hk, nparts_app, nparts_fresh by done.
      rewrite (nparts_cons _ c q) by apply lookup_insert_eq. change (nparts _ []) with 0%nat.
      assert (nparts (cookies (s_cy s)) (s_dev s) = 0%nat) as E0 by (cbn in IB; lia). rewrite E0 in *. rewrite partials_single, Hci.
      destruct (update_iv_state q (umem (s_cy s)) (sess (s_cy s))) as (E1 & E2 & E3); [by apply HC|done|done|].
      destruct (is_full q) eqn:EF; cbn.
      * rewrite !app_nil_r. eapply chain_rest; [exact HC|done|]. intros HL. split.
        -- unfold live in *. cbn in HL. rewrite Hb, Hps in HL. destruct HL as [?|HL]; [done|]. right.
           unfold next_partial_state, is_full in *. apply bool_decide_eq_true in EF. by rewrite decide_True in HL.
        -- apply E3. destruct (updateSessionIvOnSend q); [|done]. specialize (Hfl eq_refl). congruence.
      * rewrite Hm. apply (chain_send _ (cipherPartialOpState (sess (s_cy s))) (live s)); try done. intros Hu. split; [|by apply E3].
        right. rewrite (HU eq_refl) in Hu. by apply bool_decide_eq_false in Hu.
    + intros Hpre. rewrite Hpre in IB. cbn in IB. lia.
  - destruct HAc as (Hk & Hr & _ & Hb & Hci).
    assert (drop (length (ring (s_cy s))) (ring w') = []) as Eo by (apply drop_ring; by rewrite Hr, app_nil_r).
    unfold absorb. rewrite Eo. change (cookies_at (cookies w') []) with (@nil cookie).
    assert (cookies_at (cookies w') [c] = [q]) as E1.
    { rewrite (cookies_at_view _ _ _ Hk), (cookies_at_single _ _ q), Hst; [done|apply lookup_insert_eq]. }
    split; cbn; rewrite ?app_nil_r, ?E1, ?partials_app, ?Hps, ?Hci; try done.
    apply (chain_config (sess (s_cy s))); [done|]. rewrite (nparts_ext (cookies w') (cookies (s_cy s))).
    + eapply chain_live; [|exact HC]. intros _. by left.
    + intros x Hx. rewrite Hk, fmap_insert, lookup_insert_ne; [done|]. by intros ->.
Qed.

Lemma hist_device s qs c ok l1 l2 q out : inv s qs -> hist s -> chains_state (sess (s_cy s)) = true ->
  s_dev s = l1 ++ c :: l2 -> cookies (s_cy s) !! c = Some q -> length out = length (device_input q (s_cy s)) ->
  hist (worked c ok q out (l1 ++ l2) s).
Proof.
  intros HI [HA HC HP HS HN] Hch Hd Hq Hlen.
  assert (cookie_ok (sess (s_cy s)) q) as Hok by (apply (inv_cookie _ _ HI c (strip q)); unfold view; by rewrite lookup_fmap, Hq).
  pose proof (inv_block _ _ HI) as IB. rewrite nparts_app in IB.
  assert (nparts (cookies (s_cy s)) (s_dev s) = (Nat.b2n (negb (is_full q)) + nparts (cookies (s_cy s)) (l1 ++ l2))%nat) as EN.
  { rewrite Hd, !nparts_app, (nparts_cons _ _ _ _ Hq). lia. }
  rewrite EN in *. unfold worked. destruct (device_output_same _ q out (s_cy s) Hok) as (m & st & E & E1 & E2). cbn zeta in E. rewrite E.
  destruct Hok as (_ & _ & _ & _ & Hnm). specialize (Hnm Hch). unfold named in Hnm.
  split; try done. cbn. apply (chain_config (sess (s_cy s))); [done|]. destruct (is_full q); cbn in *.
  - rewrite app_nil_r, (E1 eq_refl). done.
  - destruct (Hnm eq_refl) as (Ep & _ & _). specialize (E2 eq_refl Ep).
    assert (nparts (cookies (s_cy s)) (l1 ++ l2) = 0%nat) as E0 by (destruct (nonBlockingOpsInProgress _); cbn in IB; lia).
    rewrite E0 in *. unfold device_input in *. rewrite Ep in *. cbn. eapply chain_run; [exact HC|].
    subst st. destruct (la_update_state q); [exact Hlen|done].
Qed.

(** In a state where the response of a partial is to be processed, no partial is at the device,
    and the cipher state is the one that the device has left. *)
Lemma partial_answered s qs c ok rr q : inv s qs -> s_resp s = (c, ok) :: rr -> cookies (s_cy s) !! c = Some q ->
  is_full q = false -> nparts (cookies (s_cy s)) (s_dev s) = 0%nat /\ nonBlockingOpsInProgress (sess (s_cy s)) = false /\ s_pre s = false.
Proof.
  intros [_ _ _ _ _ _ IB _ _ _] Hr Hq Hf. rewrite Hr, nparts_app in IB. cbn [fmap list_fmap fst] in IB.
  rewrite (nparts_cons _ _ _ _ Hq), Hf in IB. destruct (nonBlockingOpsInProgress _), (s_pre s); cbn in IB; split_and!; lia || done.
Qed.

Lemma cookies_ok s qs : inv s qs -> forall c q, cookies (s_cy s) !! c = Some q -> cookie_ok (sess (s_cy s)) q.
Proof. intros HI c q Hq. apply (inv_cookie _ _ HI c (strip q)). unfold view. by rewrite lookup_fmap, Hq. Qed.
Lemma queue_in_use s qs : inv s qs -> forall c, c ∈ qs -> is_Some (cookies (s_cy s) !! c).
Proof. intros HI c Hc. destruct (inv_queue _ _ HI) as (HQ & _). by apply (queued_elem _ _ _ _ HQ Hc). Qed.

Lemma hist_response s qs c ok rr l q w' : inv s qs -> hist s -> s_resp s = (c, ok) :: rr -> (negb (is_full q) && ok = true -> patient l) ->
  cookies (s_cy s) !! c = Some q ->
  LacSymCb_ProcessCallbackInternal c ok CPA_STATUS_SUCCESS (s_cy s) <| puts := l |> = Some w' ->
  hist ((absorb w' [] s) <| s_resp := rr |> <| h_failed := h_failed s || (negb (is_full q) && negb ok) |>).
Proof.
  intros HI [HA HC HP HS HN] Hr HPa Hq Hcall. destruct (inv_first_response _ _ _ _ _ _ HI Hr Hq) as (Hc1 & Hc2 & Hc3 & Hcl).
  pose proof (response_cases _ _ _ _ _ _ _ _ HI Hr HPa Hq Hcall) as HSp. pose proof (partial_answered _ _ _ _ _ _ HI Hr Hq) as HPA.
  pose proof (upto_partial_app (full_at (cookies (s_cy s))) qs) as EA. unfold woken in HSp.
  destruct (if negb (is_full q) && ok then upto_partial (full_at (cookies (s_cy s))) qs else ([], qs)) as [out rest] eqn:EO.
  destruct HSp as (Hk & Hring & _ & Hfl & Hci & Hcf & Hps & _).
  pose proof (drop_ring (s_cy s) w' out Hring) as Eo.
  assert (length (cipherARC4InitialState (sess w')) = state_len) as HA' by (by injection Hcf as _ _ _ _ _ ->).
  assert (c ∉ out) as Hco.
  { destruct (negb (is_full q) && ok); [|injection EO as <- _; set_solver]. rewrite EO in EA. subst qs. set_solver. }
  unfold absorb. rewrite Eo, Hk, (cookies_at_gone _ _ _ Hco). split; cbn; rewrite ?app_nil_r, ?partials_app, ?Hps; try done;
    [| |by apply (named_all_config (sess (s_cy s)))].
  - apply (chain_config (sess (s_cy s))); [done|]. rewrite Hk, nparts_gone by set_solver. rewrite nparts_app.
    destruct (is_full q) eqn:EF; [|destruct ok]; cbn in EO, Hfl.
    + injection EO as <- <-. change (nparts _ []) with 0%nat. change (partials (cookies_at _ [])) with (@nil cookie).
      cbn in Hci |- *. rewrite !app_nil_r, Nat.add_0_r, Hci. eapply chain_live; [|exact HC]. unfold live. cbn. by rewrite Hfl, Hps.
    + destruct (HPA eq_refl) as (E0 & EB & _). rewrite E0 in *. rewrite Hci. cbn [plus].
      eapply (chain_wake _ _ (live s)); try done; [by left|by apply (cookies_ok s qs)|by apply (queue_in_use s qs)].
    + injection EO as <- <-. change (nparts _ []) with 0%nat. change (partials (cookies_at _ [])) with (@nil cookie).
      cbn in Hci |- *. rewrite !app_nil_r, Nat.add_0_r, Hci. eapply chain_live; [|exact HC]. unfold live. cbn. by rewrite Hfl, Hps.
  - intros Hpre. rewrite (HP Hpre). destruct (is_full q) eqn:EF; [|destruct (HPA eq_refl) as (_ & _ & ?); congruence].
    by injection EO as <- _.
Qed.

Lemma hist_precompute s qs l status w' : inv s qs -> hist s -> s_pre s = true -> patient l ->
  LacSymCb_PendingReqsDequeue (s_cy s) <| puts := l |> = Some (status, w') ->
  hist ((absorb w' [] s) <| s_pre := false |>).
Proof.
  intros HI [HA HC HP HS HN] Hp HPa Hcall. pose proof (inv_queue _ _ HI) as HQ.
  assert (queue_ok (s_cy s) <| puts := l |> qs) as HQ' by exact HQ.
  pose proof (pending_dequeue (s_cy s) <| puts := l |> qs HQ' HPa) as HD. clear HQ'.
  change (cookies (s_cy s) <| puts := l |>) with (cookies (s_cy s)) in HD.
  destruct (upto_partial (full_at (cookies (s_cy s))) qs) as [out rest] eqn:EU. destruct HD as (l' & E).
  rewrite Hcall in E. injection E as -> ->.
  pose proof (iv_fold_config (cookies (s_cy s)) (umem (s_cy s)) out (sess (s_cy s))) as (EC & EPS & _).
  pose proof (inv_block _ _ HI) as IB. rewrite Hp, nparts_app in IB.
  assert (nparts (cookies (s_cy s)) (s_dev s) = 0%nat /\ nonBlockingOpsInProgress (sess (s_cy s)) = false) as [E0 EB].
  { destruct (nonBlockingOpsInProgress _); cbn in IB; split; lia || done. }
  unfold absorb. cbn [ring]. rewrite drop_app_length. split; cbn; rewrite ?app_nil_r, ?partials_app.
  - by injection EC as _ _ _ _ _ ->.
  - apply (chain_config (sess (s_cy s))); [done|]. rewrite nparts_app, E0 in *. cbn [plus].
    eapply (chain_wake _ _ (live s)); try done; [by left|by apply (cookies_ok s qs)|by apply (queue_in_use s qs)].
  - done.
  - by rewrite EPS.
  - by apply (named_all_config (sess (s_cy s))).
Qed.

Lemma step_config s a s' qs : inv s qs -> waking s a -> step s a s' -> config (sess (s_cy s')) = config (sess (s_cy s)).
Proof.
  intros HI HW Hs. destruct Hs as [supported spc noAad build c tag op dst l status w' Hc H0 Hv Hcall| c ok l1 l2 q out Hd Hq _
    | c ok rr l q w' Hr Hq Hcall | l status w' Hp Hcall| m]; try done.
  - destruct (perform_cases _ _ _ _ _ _ _ _ _ _ _ _ _ HI Hc H0 Hv Hcall) as (q & _ & _ & _ & HS). unfold submitted.
    destruct (decide (status = CPA_STATUS_SUCCESS)); [destruct HS as (_ & _ & _ & HS)|destruct HS as (m & HS & _)]; by destruct HS as ((_ & _ & ?) & _).
  - destruct (device_output_same (sess (s_cy s)) q out (s_cy s)) as (m & st & E & _); [|unfold worked; cbn in E |- *; by rewrite E].
    apply (inv_cookie _ _ HI c (strip q)). unfold view. by rewrite lookup_fmap, Hq.
  - pose proof (response_cases _ _ _ _ _ _ _ _ HI Hr (waking_response _ _ _ _ _ _ HW Hr Hq) Hq Hcall) as HS.
    destruct (woken s qs q ok) as [out rest]. by destruct HS as (_ & _ & _ & _ & _ & ? & _).
  - pose proof (inv_queue _ _ HI) as HQ. assert (queue_ok (s_cy s) <| puts := l |> qs) as HQ' by exact HQ.
    pose proof (pending_dequeue (s_cy s) <| puts := l |> qs HQ' (HW Hp)) as HD.
    destruct (upto_partial _ qs) as [out rest]. destruct HD as (l' & E). rewrite Hcall in E. injection E as -> ->.
    apply iv_fold_config.
Qed.

Lemma step_hist s a s' qs : inv s qs -> hist s -> chains_state (sess (s_cy s)) = true -> waking s a -> step s a s' -> hist s'.
Proof.
  intros HI HH Hch HW Hs. destruct Hs as [supported spc noAad build c tag op dst l status w' Hc H0 Hv Hcall| c ok l1 l2 q out Hd Hq Hl
    | c ok rr l q w' Hr Hq Hcall | l status w' Hp Hcall| m].
  - destruct (perform_cases _ _ _ _ _ _ _ _ _ _ _ _ _ HI Hc H0 Hv Hcall) as (q & Hni & Hst & Eop & HS).
    destruct (decide (status = CPA_STATUS_SUCCESS)) as [->|Hne].
    + destruct HS as (Hty & Hok & Hu & HA). unfold submitted. rewrite decide_True by done.
      destruct (stream_accepted supported op (sess (s_cy s)) q _ (hi_stream _ HH) Hty Eop (Hu Hch)) as [H1 H2].
      rewrite <- Eop in H1. by eapply hist_accepted.
    + destruct HS as (m & HR & HM). apply (hist_refused s qs w' m c q status); try done; [rewrite Eop; apply Hv|].
      destruct HM as [|[? _]]; [by left|by right].
  - by eapply hist_device.
  - eapply hist_response; try done. by eapply waking_response.
  - eapply hist_precompute; try done. by apply HW.
  - by destruct HH.
Qed.

Lemma reachable_hist s : reachable patient_act s -> chains_state (sess (s_cy s)) = true -> exists qs, inv s qs /\ hist s.
Proof.
  induction 1 as [s H|s a s' HR IH HP Hs]; intros Hch.
  - exists []. split; [by apply inv_initial|by apply hist_initial].
  - destruct (sym_reachable_inv _ HR) as [qs HI]. pose proof (patient_waking s a HP) as HW. pose proof (step_config _ _ _ _ HI HW Hs) as HC.
    rewrite (chains_config _ _ HC) in Hch.
    destruct (IH Hch) as (qs0 & HI0 & HH). destruct (sym_step_inv _ _ _ _ HI HW Hs) as [qs' HI']. exists qs'.
    split; [done|]. by apply (step_hist s a s' qs).
Qed.

(** The device has worked on the partial requests that are answered. *)
Definition answered (s : sys) : Prop :=
  forall c ok q, (c, ok) ∈ s_resp s -> view (s_cy s) !! c = Some q -> is_full q = false -> h_runs s <> [].

Lemma answered_keep s s' : answered s -> h_runs s' = h_runs s ->
  (forall c ok, (c, ok) ∈ s_resp s' -> (c, ok) ∈ s_resp s /\ view (s_cy s') !! c = view (s_cy s) !! c) -> answered s'.
Proof. intros HA Hr H c ok q Hin Hq. rewrite Hr. destruct (H c ok Hin) as [H1 H2]. apply (HA c ok q H1). by rewrite <- H2. Qed.

Lemma in_responses s qs c ok : (c, ok) ∈ s_resp s -> c ∈ held s qs.
Proof. intros H. unfold held, pend. rewrite !elem_of_app. left. right. right. by apply (list_elem_of_fmap_2 fst _ (c, ok)). Qed.

Lemma step_answered s a s' qs : inv s qs -> waking s a -> step s a s' -> answered s -> answered s'.
Proof.
  intros HI HW Hs HA. destruct Hs as [supported spc noAad build c tag op dst l status w' Hc H0 Hv Hcall| c ok l1 l2 q out Hd Hq _
    | c ok rr l q w' Hr Hq Hcall | l status w' Hp Hcall| m].
  - destruct (perform_cases _ _ _ _ _ _ _ _ _ _ _ _ _ HI Hc H0 Hv Hcall) as (q & Hni & Hst & _ & HS).
    assert (s_resp (submitted c status w' s) = s_resp s /\ s_cy (submitted c status w' s) = w' /\ h_runs (submitted c status w' s) = h_runs s)
      as (E1 & E2 & E3) by (unfold submitted; by case_decide).
    apply (answered_keep s); [done|done|]. intros x ok. rewrite E1, E2. intros Hx. split; [done|].
    assert (c <> x) as Hcx by (intros ->; by apply Hni, (in_responses s qs x ok)). unfold view.
    destruct (decide (status = CPA_STATUS_SUCCESS)).
    + destruct HS as (_ & _ & _ & _ & _ & _ & HS).
      destruct (nonBlockingOpsInProgress (sess (s_cy s))); destruct HS as (Hk & _); rewrite Hk, fmap_insert, lookup_insert_ne; done.
    + destruct HS as (m & (_ & -> & _) & [->|[-> _]]); [done|]. by rewrite fmap_insert, lookup_insert_ne.
  - assert (cookies (device_output q out (s_cy s)) = cookies (s_cy s)) as Ek by (unfold device_output; by repeat case_match).
    intros x ok' q' Hin Hq' Hf. unfold worked, view in *. cbn in Hin, Hq' |- *. rewrite Ek in Hq'. apply elem_of_app in Hin as [Hin|Hin].
    + specialize (HA x ok' q' Hin Hq' Hf). by destruct (h_runs s).
    + apply list_elem_of_singleton in Hin as [= -> ->]. rewrite lookup_fmap, Hq in Hq'.
      injection Hq' as <-. rewrite is_full_strip in Hf. rewrite Hf. by destruct (h_runs s).
  - destruct (inv_first_response _ _ _ _ _ _ HI Hr Hq) as (_ & _ & Hc3 & _).
    pose proof (response_cases _ _ _ _ _ _ _ _ HI Hr (waking_response _ _ _ _ _ _ HW Hr Hq) Hq Hcall) as HS.
    destruct (woken s qs q ok) as [out rest]. destruct HS as (Hk & _).
    apply (answered_keep s); [done|done|]. intros x ok' Hx. change (s_resp _) with rr in Hx. split; [rewrite Hr; by right|].
    unfold view. change (s_cy _) with w' at 1. rewrite Hk, fmap_delete, lookup_delete_ne; [done|]. intros ->. apply Hc3.
    by apply (list_elem_of_fmap_2 fst _ (x, ok')).
  - pose proof (inv_queue _ _ HI) as HQ. assert (queue_ok (s_cy s) <| puts := l |> qs) as HQ' by exact HQ.
    pose proof (pending_dequeue (s_cy s) <| puts := l |> qs HQ' (HW Hp)) as HD.
    destruct (upto_partial _ qs) as [out rest]. destruct HD as (l' & E). rewrite Hcall in E. injection E as -> ->.
    by apply (answered_keep s).
  - by apply (answered_keep s).
Qed.

Lemma reachable_answered s : reachable patient_act s -> answered s.
Proof.
  induction 1 as [s H|s a s' HR IH HP Hs].
  - intros c ok q Hin. destruct (init_sys _ H) as (_ & Hr & _). rewrite Hr in Hin. by apply elem_of_nil in Hin.
  - destruct (sym_reachable_inv _ HR) as [qs HI]. eapply step_answered; try done. by apply patient_waking.
Qed.

(** * Runs *)

Inductive steps : sys -> list act -> sys -> Prop :=
| steps_nil s : steps s [] s
| steps_cons s a s' l s'' : step s a s' -> steps s' l s'' -> steps s (a :: l) s''.

Lemma steps_reachable P s l s' : steps s l s' -> Forall P l -> reachable P s -> reachable P s'.
Proof.
  induction 1 as [|s a s' l s'' H _ IH]; [done|]. intros [Ha Hl]%Forall_cons HR. apply IH; [done|]. by eapply reach_step.
Qed.

(** The device works without errors and responses are polled, and the ring takes the messages
    that these send; nothing new is submitted. *)
Definition drains (a : act) : Prop := match a with Work true => True | Respond l => patient l | _ => False end.

(** No precomputation is under way and no response of a partial is bad. *)
Definition healthy (s : sys) : Prop :=
  s_pre s = false /\ h_failed s = false /\ forall c ok, (c, ok) ∈ s_resp s -> ok = true \/ full_at (cookies (s_cy s)) c = true.

(** How many steps are still needed *)
Definition work (s : sys) : nat :=
  3 * (length (h_accepted s) - length (h_sent s)) + 2 * length (s_dev s) + length (s_resp s).

Lemma cookies_at_length m l : (forall c, c ∈ l -> is_Some (m !! c)) -> length (cookies_at m l) = length l.
Proof.
  induction l as [|c l IH]; intros H; [done|]. destruct (H c ltac:(left)) as [q Hq].
  change (c :: l) with ([c] ++ l). rewrite cookies_at_app, (cookies_at_single _ _ _ Hq). cbn. rewrite IH; [done|]. intros x Hx. apply H. by right.
Qed.
Lemma inv_waiting s qs : inv s qs -> (length (h_accepted s) - length (h_sent s) = length qs)%nat.
Proof. intros HI. rewrite (inv_fifo _ _ HI), length_app, cookies_at_length; [lia|]. by apply (queue_in_use s qs). Qed.

Lemma healthy_work s c l1 l2 q out : healthy s -> s_dev s = l1 ++ c :: l2 -> cookies (s_cy s) !! c = Some q ->
  let s' := worked c true q out (l1 ++ l2) s in
  healthy s' /\ (work s' < work s)%nat.
Proof.
  intros (H1 & H2 & H3) Hd Hq. split.
  - assert (cookies (device_output q out (s_cy s)) = cookies (s_cy s)) as Ek by (unfold device_output; by repeat case_match).
    split_and!; [done..|]. cbn. rewrite Ek. intros x ok [Hx|Hx]%elem_of_app; [by apply H3|]. apply list_elem_of_singleton in Hx as [= -> ->]. by left.
  - unfold work. cbn. rewrite Hd, !length_app. cbn. lia.
Qed.

Lemma healthy_respond s qs c ok rr l q w' : inv s qs -> healthy s -> s_resp s = (c, ok) :: rr -> (negb (is_full q) && ok = true -> patient l) ->
  cookies (s_cy s) !! c = Some q ->
  LacSymCb_ProcessCallbackInternal c ok CPA_STATUS_SUCCESS (s_cy s) <| puts := l |> = Some w' ->
  let s' := (absorb w' [] s) <| s_resp := rr |> <| h_failed := h_failed s || (negb (is_full q) && negb ok) |> in
  healthy s' /\ (work s' < work s)%nat.
Proof.
  intros HI (H1 & H2 & H3) Hr HP Hq Hcall. cbn zeta.
  pose proof (inv_waiting _ _ HI) as HW. pose proof (inv_waiting _ _ (inv_response _ _ _ _ _ _ _ _ HI Hr HP Hq Hcall)) as HW'.
  destruct (inv_first_response _ _ _ _ _ _ HI Hr Hq) as (_ & _ & Hc3 & _).
  pose proof (response_cases _ _ _ _ _ _ _ _ HI Hr HP Hq Hcall) as HS. pose proof (woken_spec s qs c ok rr q) as HWs.
  destruct (woken s qs q ok) as [out rest]. destruct HS as (Hk & Hring & _ & Hfl & _). destruct (HWs _ HI Hr Hq Hfl) as (-> & _).
  pose proof (drop_ring (s_cy s) w' out Hring) as Eo. split.
  - split_and!; cbn; [done| |].
    + rewrite H2. destruct (H3 c ok) as [->|Hf]; [rewrite Hr; left|by rewrite andb_false_r|].
      unfold full_at in Hf. rewrite Hq in Hf. by rewrite Hf.
    + intros x ok' Hx. destruct (H3 x ok') as [?|Hx']; [rewrite Hr; by right|by left|]. right. unfold full_at in *. rewrite Hk.
      destruct (decide (c = x)) as [->|]; [by rewrite lookup_delete_eq|by rewrite lookup_delete_ne].
  - unfold work. rewrite HW, HW', Hr. unfold absorb. rewrite Eo. cbn [s_dev s_resp upd snd]. cbn. rewrite !length_app. lia.
Qed.

Lemma drain_step s a s' qs : inv s qs -> healthy s -> step s a s' -> drains a -> healthy s' /\ (work s' < work s)%nat.
Proof.
  intros HI HH Hs Ha. destruct Hs as [| c ok l1 l2 q out Hd Hq _| c ok rr l q w' Hr Hq Hcall | |]; try done.
  - destruct ok; [|done]. by eapply healthy_work.
  - by eapply healthy_respond.
Qed.

(** Something can be done as long as a request is at the device or answered. *)
Lemma drain_progress s qs : inv s qs -> s_dev s <> [] \/ s_resp s <> [] -> exists a s', drains a /\ step s a s'.
Proof.
  intros HI HN.
  assert (forall c, c ∈ s_dev s ++ (s_resp s).*1 -> exists q, cookies (s_cy s) !! c = Some q) as HQ.
  { intros c Hc. destruct (proj2 (inv_dom _ _ HI c)) as [x Hx]; [unfold held, pend; set_solver|].
    unfold view in Hx. rewrite lookup_fmap in Hx. destruct (cookies (s_cy s) !! c); [eauto|done]. }
  destruct (s_dev s) as [|c l2] eqn:Hd.
  - destruct HN as [|HN]; [done|]. destruct (s_resp s) as [|[c ok] rr] eqn:Hr; [done|]. destruct (HQ c) as [q Hq]; [left|].
    destruct (inv_first_response _ _ _ _ _ _ HI Hr Hq) as (Hc1 & _ & _ & HC).
    pose proof patient_nil as HP.
    destruct (process_spec (s_cy s) <| puts := [] |> c q ok qs) as (w' & st & okf & E & _); try done; [by apply HI|].
    exists (Respond []). eexists. split; [exact HP|]. by eapply step_response.
  - destruct (HQ c) as [q Hq]; [left|]. exists (Work true). eexists. split; [done|].
    by apply (step_device s c true [] l2 q (device_input q (s_cy s))).
Qed.

(** With nothing at the device, everything is complete. *)
Lemma drained s qs : inv s qs -> healthy s -> s_dev s = [] -> s_resp s = [] ->
  h_sent s = h_accepted s /\ map pCallbackTag (h_accepted s) ≡ₚ map ev_tag (events (s_cy s)) /\
  nonBlockingOpsInProgress (sess (s_cy s)) = true /\ (forall c, is_Some (cookies (s_cy s) !! c) <-> c ∈ h_leaked s) /\
  remove_session_status (sess (s_cy s)) = CPA_STATUS_SUCCESS.
Proof.
  intros [_ _ ID IP IF _ IB IFI IDO _] (H1 & H2 & _) Hd Hr. rewrite H1, H2, Hd, Hr in IB.
  destruct (nonBlockingOpsInProgress (sess (s_cy s))); [|done]. specialize (IF eq_refl) as ->. rewrite Hd, Hr in IDO.
  rewrite app_nil_r in IFI, IDO. unfold held, pend in ID, IP. rewrite Hd, Hr in ID, IP. split_and!; try done.
  - by rewrite IFI.
  - intros c. rewrite <- ID. unfold view. rewrite lookup_fmap. by rewrite fmap_is_Some.
  - unfold remove_session_status. by rewrite IP.
Qed.

(** A bad response of a partial blocks the session: no later step sends anything. *)
Lemma blocked s qs : inv s qs -> h_failed s = true ->
  nonBlockingOpsInProgress (sess (s_cy s)) = false /\ s_pre s = false /\ nparts (cookies (s_cy s)) (s_dev s ++ (s_resp s).*1) = 0%nat.
Proof.
  intros HI HF. pose proof (inv_block _ _ HI) as IB. rewrite HF in IB.
  destruct (nonBlockingOpsInProgress _), (s_pre s); cbn in IB; split_and!; lia || done.
Qed.
Lemma blocked_full s qs c ok rr q : inv s qs -> h_failed s = true -> s_resp s = (c, ok) :: rr -> cookies (s_cy s) !! c = Some q -> is_full q = true.
Proof.
  intros HI HF Hr Hq. destruct (blocked s qs HI HF) as (_ & _ & EN). rewrite Hr, nparts_app in EN. cbn in EN.
  rewrite (nparts_cons _ _ _ _ Hq) in EN. destruct (is_full q); [done|cbn in EN; lia].
Qed.
Lemma blocked_waking s qs a : inv s qs -> h_failed s = true -> waking s a.
Proof.
  intros HI HF. destruct a as [| |l|l|]; cbn; try done.
  - intros (c & q & rr & Hr & Hq & Hf). rewrite (blocked_full _ _ _ _ _ _ HI HF Hr Hq) in Hf. done.
  - destruct (blocked s qs HI HF) as (_ & -> & _). done.
Qed.

Lemma blocked_step s a s' qs : inv s qs -> h_failed s = true -> step s a s' -> h_failed s' = true /\ h_sent s' = h_sent s.
Proof.
  intros HI HF Hs. destruct (blocked s qs HI HF) as (EB & EP & EN). pose proof (blocked_waking s qs a HI HF) as HW.
  assert (forall w' acc, ring w' = ring (s_cy s) -> h_sent (absorb w' acc s) = h_sent s) as HA.
  { intros w' acc Hr. unfold absorb. rewrite Hr, drop_all. cbn. by rewrite app_nil_r. }
  destruct Hs as [supported spc noAad build c tag op dst l status w' Hc H0 Hv Hcall| c ok l1 l2 q out Hd Hq _
    | c ok rr l q w' Hr Hq Hcall | l status w' Hp Hcall| m]; try done; [| |congruence].
  - destruct (perform_cases _ _ _ _ _ _ _ _ _ _ _ _ _ HI Hc H0 Hv Hcall) as (q & _ & _ & _ & HS). unfold submitted.
    destruct (decide (status = CPA_STATUS_SUCCESS)); (split; [done|]).
    + apply HA. destruct HS as (_ & _ & _ & _ & _ & _ & HS). rewrite EB in HS. by destruct HS as (_ & ? & _).
    + change (h_sent (absorb w' [] s) = h_sent s). apply HA. by destruct HS as (m & (_ & _ & ? & _) & _).
  - split; [cbn; by rewrite HF|]. cbn [h_sent upd]. rewrite <- (HA w' []); [done|].
    pose proof (response_cases _ _ _ _ _ _ _ _ HI Hr (waking_response _ _ _ _ _ _ HW Hr Hq) Hq Hcall) as HS. unfold woken in HS.
    rewrite (blocked_full _ _ _ _ _ _ HI HF Hr Hq) in HS. cbn in HS. destruct HS as (_ & -> & _). apply app_nil_r.
Qed.

(** * Concrete runs *)

Definition demo_op (ty : CpaCySymPacketType) : CpaCySymOpData := mk_op ty 4096 16 0 0 0.
Definition demo_dst : CpaBufferList := mk_list 0 [] 0.

Lemma demo_valid d ty : hashResultSize d = 0 -> valid_op d (demo_op ty) demo_dst.
Proof.
  intros Hd. split; [|unfold LAC_CIPHER_ARC4_STATE_LEN_BYTES; cbn; lia]. intros q Ho Hb. unfold cleanable. rewrite Ho, Hb, Hd.
  cbn. split_and!; try lia; [constructor|]. case_decide; lia.
Qed.

(** Commands that are steps of the system: the submission of a request at [c], the device's
    work on its first request, which adds one to every byte of the cipher state, and the
    processing of a response with a ring that is not full *)
Inductive cmd := CPerform (spc noAad : bool) (c : Z) (ty : CpaCySymPacketType) | CWork (ok : bool) | CRespond.
Abbreviation CSubmit := (CPerform false false).

Definition exec (k : cmd) (s : sys) : option sys :=
  match k with
  | CPerform spc noAad c ty =>
      if decide (cookies (s_cy s) !! c = None /\ c <> 0 /\ hashResultSize (sess (s_cy s)) = 0) then
        '(status, w') ← perform_op true spc noAad CPA_STATUS_SUCCESS c (c + 1000) (demo_op ty) demo_dst (s_cy s) <| puts := [] |>;
        Some (submitted c status w' s)
      else None
  | CWork ok =>
      match s_dev s with
      | [] => None
      | c :: l =>
          q ← cookies (s_cy s) !! c;
          Some (worked c ok q (map (Z.add 1) (device_input q (s_cy s))) l s)
      end
  | CRespond =>
      match s_resp s with
      | [] => None
      | (c, ok) :: rest =>
          q ← cookies (s_cy s) !! c;
          w' ← LacSymCb_ProcessCallbackInternal c ok CPA_STATUS_SUCCESS (s_cy s) <| puts := [] |>;
          Some ((absorb w' [] s) <| s_resp := rest |> <| h_failed := h_failed s || (negb (is_full q) && negb ok) |>)
      end
  end.

Definition act_of (k : cmd) : act := match k with CPerform _ _ _ _ => Submit | CWork ok => Work ok | CRespond => Respond [] end.
Fixpoint execs (l : list cmd) (s : sys) : option sys :=
  match l with [] => Some s | k :: l => s ← exec k s; execs l s end.

Lemma exec_step k s s' : exec k s = Some s' -> step s (act_of k) s'.
Proof.
  destruct k as [spc noAad c ty|ok|]; cbn [exec act_of].
  - case_decide as HD; [|done]. destruct HD as (Hc & H0 & Hd). destruct (perform_op _ _ _ _ _ _ _) as [[status w']|] eqn:E; [|done].
    cbn. intros [= <-]. eapply step_perform; try done. by apply demo_valid.
  - destruct (s_dev s) as [|c l] eqn:Hd; [done|]. destruct (cookies (s_cy s) !! c) as [q|] eqn:Hq; [|done]. cbn. intros [= <-].
    apply (step_device s c ok [] l q); try done. by rewrite length_map.
  - destruct (s_resp s) as [|[c ok] rr] eqn:Hr; [done|]. destruct (cookies (s_cy s) !! c) as [q|] eqn:Hq; [|done]. cbn.
    destruct (LacSymCb_ProcessCallbackInternal _ _ _ _) as [w'|] eqn:E; [|done]. cbn. intros [= <-].
    by apply (step_response s c ok rr []).
Qed.

Lemma execs_steps l : forall s s', execs l s = Some s' -> steps s (map act_of l) s'.
Proof.
  induction l as [|k l IH]; cbn; intros s s' H; [injection H as ->; constructor|].
  destruct (exec k s) as [s1|] eqn:E; [|done]. eapply steps_cons; [by apply exec_step|by apply IH].
Qed.

(** A session of AES-CBC that verifies no digest *)
Definition demo : sys :=
  let zeros := replicate (Z.to_nat LAC_CIPHER_ARC4_STATE_LEN_BYTES) 0 in
  mk_sys (mk_cy (mk_session CPA_CY_SYM_OP_CIPHER false CPA_CY_SYM_CIPHER_AES_CBC SPC_NO 0 16 2 2 false false false
                   CPA_CY_SYM_PACKET_TYPE_FULL 0 0 0 true zeros zeros) ∅ (fun a => a) [] [] (mk_stats 0 0 0 0 0) [])
    [] [] false [] [] [] [] false [].

Lemma acts_patient l : Forall patient_act (map act_of l).
Proof. apply Forall_map, Forall_true. intros []; cbn; done || apply patient_nil. Qed.
Lemma demo_reachable l s : execs l demo = Some s -> reachable patient_act s.
Proof. intros H%execs_steps. eapply steps_reachable; [done|apply acts_patient|]. apply reach_init. by split. Qed.

(** Three requests; the second and third one wait for the first. *)
Definition demo_submits : list cmd :=
  [CSubmit 8 CPA_CY_SYM_PACKET_TYPE_PARTIAL; CSubmit 16 CPA_CY_SYM_PACKET_TYPE_LAST_PARTIAL; CSubmit 24 CPA_CY_SYM_PACKET_TYPE_FULL].
Definition after (l : list cmd) : sys := default demo (execs l demo).
Lemma after_reachable l : is_Some (execs l demo) -> reachable patient_act (after l).
Proof. intros [s Hs]. unfold after. rewrite Hs. by eapply demo_reachable. Qed.

(** The first two requests are partials of one sequence, answered and processed. *)
Definition demo_answered : list cmd := demo_submits ++ [CWork true].
Definition demo_failed : list cmd := demo_submits ++ [CWork false; CRespond].
Definition demo_rest : list cmd := [CWork true; CRespond; CWork true; CRespond; CWork true; CRespond].
Lemma rest_drains : Forall drains (map act_of demo_rest).
Proof. cbn [demo_rest map act_of]. repeat (apply List.Forall_cons; [exact I || exact patient_nil|]). apply List.Forall_nil. Qed.

(** * Where the properties end

    The theorems below ask that a ring takes a message before the attempts of
    [LacSymCb_PendingReqsDequeue] run out ([patient_act]).  When it does not, the message that is
    taken by the last attempt stays at the head of the queue and is sent again, and a session
    whose partial could not be put stays blocked with nothing at the device.  Partial requests of
    SM4 are accepted too, but the first one gets what the session's buffer held before the
    client's vector is copied to it. *)

Definition demo_waiting : cy := (s_cy (after demo_submits)) <| ring := [] |>.

Lemma last_attempt_sends_twice :
  (let tired := replicate (Z.to_nat 9999) CPA_STATUS_FAIL ++ [CPA_STATUS_SUCCESS] in
   '(st, w) ← LacSymCb_PendingReqsDequeue demo_waiting <| puts := tired |>;
   '(st', w') ← LacSymCb_PendingReqsDequeue w;
   Some (st, pRequestQueueHead (sess w), ring w, st', ring w')) =
  Some (CPA_STATUS_SUCCESS, 16, [16], CPA_STATUS_SUCCESS, [16; 16]).
Proof. by vm_compute. Qed.

Lemma full_ring_blocks :
  ('(st, w) ← LacSymCb_PendingReqsDequeue demo_waiting <| puts := replicate (Z.to_nat 10000) CPA_STATUS_FAIL |>;
   Some (st, ring w, pRequestQueueHead (sess w), nonBlockingOpsInProgress (sess w))) =
  Some (CPA_STATUS_FAIL, [], 16, false).
Proof. by vm_compute. Qed.

Lemma sm4_partial_vector :
  let d := (sess (s_cy demo)) <| cipherAlgorithm := CPA_CY_SYM_CIPHER_SM4_CBC |> in
  let q := (populate_cookie d (fun a => a) 7 (demo_op CPA_CY_SYM_PACKET_TYPE_PARTIAL) demo_dst).2 in
  packet_type_check true (demo_op CPA_CY_SYM_PACKET_TYPE_PARTIAL) d = CPA_STATUS_SUCCESS /\
  cipher_IV q = cipher_IV_array (replicate 16 0) /\ read (fun a => a) (pIv (pOpData q)) 16 = seqZ 4096 16.
Proof. by vm_compute. Qed.

(** A session that can do GCM in a single pass; a request without its additional data leaves its
    cookie behind. *)
Definition demo_gcm : sys :=
  demo <| s_cy := set_session (fun d => d <| symOperation := CPA_CY_SYM_OP_ALGORITHM_CHAINING |>
                                         <| cipherAlgorithm := CPA_CY_SYM_CIPHER_AES_GCM |> <| singlePassState := SPC_PROBABLE |>) (s_cy demo) |>.
Definition after_leak : sys :=
  default demo_gcm (execs [CPerform true true 8 CPA_CY_SYM_PACKET_TYPE_FULL; CSubmit 16 CPA_CY_SYM_PACKET_TYPE_FULL] demo_gcm).
Lemma after_leak_reachable : reachable patient_act after_leak.
Proof.
  apply (steps_reachable _ demo_gcm (map act_of [CPerform true true 8 CPA_CY_SYM_PACKET_TYPE_FULL; CSubmit 16 CPA_CY_SYM_PACKET_TYPE_FULL]));
    [apply execs_steps; by vm_compute|apply acts_patient|apply reach_init; by split].
Qed.

(** * Properties *)

(** C7. One thread at a time is in the calls of a session, the client's requests describe buffers
    that hold the data and vectors of at most 264 bytes ([valid_op]), and the ring takes every
    message from the queue before the 10000 attempts to put it run out ([patient_act]; a message
    taken by the last attempt would stay at the head of the queue).  Then, in every state that
    clients, the device and polling reach, in any order and with any results: the queue's pointers
    spell a list without repetition; the cookies in use are exactly those of the requests that are
    queued, at the device or answered, each in one place, and those left behind by refused requests
    of single-pass sessions whose additional data was NULL (none in other sessions); the session's
    counter is the number of the former; and every call that can be made next is free of accesses
    to cookies that are not in use. *)
Theorem session_wellformed (s : sys) (HR : reachable patient_act s) :
  exists qs, queue_ok (s_cy s) qs /\ NoDup (pend s qs ++ h_leaked s) /\
    (forall c, is_Some (cookies (s_cy s) !! c) <-> c ∈ pend s qs \/ c ∈ h_leaked s) /\
    (singlePassState (sess (s_cy s)) = SPC_NO -> h_leaked s = []) /\
    pendingCbCount (sess (s_cy s)) = u64 (len (pend s qs)) /\
    (forall supported spc noAad build c tag op dst l, cookies (s_cy s) !! c = None -> c <> 0 -> valid_op (sess (s_cy s)) op dst ->
       is_Some (perform_op supported spc noAad build c tag op dst (s_cy s) <| puts := l |>)) /\
    (forall c ok rr l, s_resp s = (c, ok) :: rr -> patient l ->
       is_Some (LacSymCb_ProcessCallbackInternal c ok CPA_STATUS_SUCCESS (s_cy s) <| puts := l |>)) /\
    (forall l, patient l -> is_Some (LacSymCb_PendingReqsDequeue (s_cy s) <| puts := l |>)).
Proof.
  destruct (sym_reachable_inv s HR) as [qs HI]. exists qs. pose proof (inv_queue _ _ HI) as HQ.
  assert (forall l, queue_ok (s_cy s) <| puts := l |> qs) as HQ' by (intros l; exact HQ). split_and!; try apply HI.
  - intros c. rewrite <- elem_of_app, <- (inv_dom _ _ HI). unfold view. rewrite lookup_fmap. by rewrite fmap_is_Some.
  - intros supported spc noAad build c tag op dst l Hc H0 _.
    pose proof (perform_spec (s_cy s) <| puts := l |> qs (len (pend s qs)) supported spc noAad build c tag op dst (HQ' l) Hc H0
      (inv_free _ _ HI) (inv_pending _ _ HI) (proj1 (inv_spc _ _ HI))) as HS.
    destruct (populate_cookie _ _ tag op dst) as [st q]. destruct HS as (status & w' & E & _). by eexists.
  - intros c ok rr l Hr HP. destruct (proj2 (inv_dom _ _ HI c)) as [x Hx]; [unfold held, pend; rewrite Hr; set_solver|].
    unfold view in Hx. rewrite lookup_fmap in Hx. destruct (cookies (s_cy s) !! c) as [q|] eqn:Hq; [|done].
    destruct (inv_first_response _ _ _ _ _ _ HI Hr Hq) as (Hc1 & _ & _ & HC).
    destruct (process_spec (s_cy s) <| puts := l |> c q ok qs) as (w2 & status & okf & E & _); done || by eexists.
  - intros l HP. pose proof (pending_dequeue (s_cy s) <| puts := l |> qs (HQ' l) HP) as HD.
    destruct (upto_partial _ qs) as [out rest]. destruct HD as (l' & E). by eexists.
Qed.

Lemma session_wellformed_witness : h_leaked after_leak = [8] /\ s_dev after_leak = [16] /\ is_Some (cookies (s_cy after_leak) !! 8) /\
  exists qs, pendingCbCount (sess (s_cy after_leak)) = u64 (len (pend after_leak qs)) /\ 8 ∉ pend after_leak qs.
Proof.
  split; [by vm_compute|]. split; [by vm_compute|].
  destruct (session_wellformed after_leak after_leak_reachable) as (qs & _ & HN & HD & _ & HP & _).
  assert (8 ∈ h_leaked after_leak) as H8 by (vm_compute; left). split; [apply HD; by right|]. exists qs. split; [exact HP|].
  intros Hin. apply NoDup_app in HN as (_ & HN & _). exact (HN 8 Hin H8).
Defined.

(** C4. One thread at a time is in the calls of a session, the client's requests describe buffers
    that hold the data ([valid_op]), and the ring takes every message from the queue before the
    10000 attempts to put it run out ([patient_act]; otherwise a message can be sent twice).  Then
    the requests of a session are sent in the order in which they were accepted, each once: what
    has been accepted is what has been sent followed by what is in the queue, and what has been
    sent is what the client has been called back for and what is at the device or answered.  At
    most one partial request is with the device at a time, and while nothing blocks the session,
    nothing is queued. *)
Theorem requests_in_order (s : sys) (HR : reachable patient_act s) :
  exists qs, queue_ok (s_cy s) qs /\ h_accepted s = h_sent s ++ cookies_at (cookies (s_cy s)) qs /\
    map pCallbackTag (h_sent s) ≡ₚ
      map ev_tag (events (s_cy s)) ++ map pCallbackTag (cookies_at (cookies (s_cy s)) (s_dev s ++ (s_resp s).*1)) /\
    (nparts (cookies (s_cy s)) (s_dev s ++ (s_resp s).*1) <= 1)%nat /\
    (nonBlockingOpsInProgress (sess (s_cy s)) = true -> qs = [] /\ nparts (cookies (s_cy s)) (s_dev s ++ (s_resp s).*1) = 0%nat).
Proof.
  destruct (sym_reachable_inv s HR) as [qs HI]. exists qs. pose proof (inv_block _ _ HI) as IB. split_and!; try apply HI.
  - destruct (nonBlockingOpsInProgress _); cbn in IB; lia.
  - intros Hb. split; [by apply HI|]. rewrite Hb in IB. cbn in IB. lia.
Qed.

Lemma requests_in_order_witness : map pCallbackTag (h_accepted (after demo_submits)) = [1008; 1016; 1024] /\
  map pCallbackTag (h_sent (after demo_submits)) = [1008] /\
  exists qs, h_accepted (after demo_submits) = h_sent (after demo_submits) ++ cookies_at (cookies (s_cy (after demo_submits))) qs.
Proof.
  split; [by vm_compute|]. split; [by vm_compute|].
  destruct (requests_in_order (after demo_submits) (after_reachable demo_submits ltac:(vm_compute; eauto))) as (qs & _ & H & _).
  exists qs. exact H.
Defined.

Lemma stream_first l ps q : stream l ps -> l !! 0%nat = Some q -> updateSessionIvOnSend q = true.
Proof.
  induction 1 as [|l ps x HS IH Hc Hu]; [done|]. destruct l as [|y l].
  - cbn. intros [= ->]. rewrite Hu. inversion HS as [E|? ? ? ? ? ? E]; [done|]. by destruct l.
  - cbn in IH |- *. auto.
Qed.


(** The device has worked on both partials of a sequence. *)
Definition demo_chained : list cmd := demo_answered ++ [CRespond; CWork true].

(** C6. A session drains when one thread at a time is in its calls, the client's requests describe
    buffers that hold the data ([valid_op]), no precomputation of a hash is under way, no partial
    has had a bad response, the device makes no errors from here on and, here and before, the ring
    takes every message from the queue before the 10000 attempts to put it run out (otherwise the
    session can stay blocked with nothing at the device, see [full_ring_blocks]).  Every run in
    which the device works and responses are polled is then bounded by the work at hand and can go
    on until nothing is left; every accepted request has then been sent and the client called back
    for it, the session takes new requests, no cookie is in use but those left behind by refused
    requests, and the session can be removed. *)
Theorem session_drains (s : sys) (HR : reachable patient_act s) (HH : healthy s) l s' (HS : steps s l s') (HL : Forall drains l) :
  (length l <= work s)%nat /\
  ((exists a s'', drains a /\ step s' a s'') \/
   (h_sent s' = h_accepted s' /\ map pCallbackTag (h_accepted s') ≡ₚ map ev_tag (events (s_cy s')) /\
    nonBlockingOpsInProgress (sess (s_cy s')) = true /\ (forall c, is_Some (cookies (s_cy s') !! c) <-> c ∈ h_leaked s') /\
    remove_session_status (sess (s_cy s')) = CPA_STATUS_SUCCESS)).
Proof.
  induction HS as [s|s a s' l s'' Hs _ IH]; destruct (sym_reachable_inv _ HR) as [qs HI].
  - split; [cbn; lia|]. destruct (decide (s_dev s = [])); [destruct (decide (s_resp s = []))|].
    + right. by eapply drained.
    + left. eapply drain_progress; eauto.
    + left. eapply drain_progress; eauto.
  - inversion HL as [|? ? Ha HL' E]. subst. destruct (drain_step _ _ _ _ HI HH Hs Ha) as [HH' HW].
    destruct IH as [IH1 IH2]; [eapply reach_step; [done| |done]; by destruct a|done|done|]. split; [rewrite length_cons; lia|done].
Qed.

Lemma session_drains_witness : work (after demo_submits) = 8%nat /\
  map ev_tag (events (s_cy (default demo (execs demo_rest (after demo_submits))))) = [1008; 1016; 1024] /\
  (length (map act_of demo_rest) <= work (after demo_submits))%nat.
Proof.
  split; [by vm_compute|]. split; [by vm_compute|].
  destruct (execs demo_rest (after demo_submits)) as [s'|] eqn:E; [|vm_compute in E; discriminate].
  refine (proj1 (session_drains (after demo_submits) (after_reachable demo_submits ltac:(vm_compute; eauto)) _
    (map act_of demo_rest) s' (execs_steps demo_rest _ _ E) _)).
  - split; [by vm_compute|]. split; [by vm_compute|]. intros c ok Hin. exfalso. revert Hin. vm_compute. apply not_elem_of_nil.
  - exact rest_drains.
Defined.

(** C40. After a bad response of a partial request (a failed verification of the digest of the
    last one of a sequence is one), no request that waits in the queue and none that is
    accepted later is ever sent, whatever the client, the device and the ring do.  (As before:
    one thread at a time is in the calls, requests are as [valid_op] says, and up to that
    response the ring took messages before the attempts to put them ran out.) *)
Theorem failed_partial_blocks (s : sys) (HR : reachable patient_act s) (HF : h_failed s = true) l s' (HS : steps s l s') :
  h_sent s' = h_sent s.
Proof.
  destruct (sym_reachable_inv _ HR) as [qs HI]. clear HR. revert qs HI.
  induction HS as [s|s a s' l s'' Hs _ IH]; intros qs HI; [done|].
  destruct (blocked_step _ _ _ _ HI HF Hs) as [HF' HE]. rewrite <- HE.
  destruct (sym_step_inv _ _ _ _ HI (blocked_waking _ _ _ HI HF) Hs) as [qs' HI']. by apply (IH HF' qs').
Qed.

Lemma failed_partial_blocks_witness : map pCallbackTag (h_sent (after demo_failed)) = [1008] /\
  exists s', execs [CSubmit 32 CPA_CY_SYM_PACKET_TYPE_FULL] (after demo_failed) = Some s' /\ h_sent s' = h_sent (after demo_failed).
Proof.
  split; [by vm_compute|]. destruct (execs [CSubmit 32 CPA_CY_SYM_PACKET_TYPE_FULL] (after demo_failed)) as [s'|] eqn:E;
    [|vm_compute in E; discriminate]. exists s'. split; [reflexivity|].
  exact (failed_partial_blocks (after demo_failed) (after_reachable demo_failed ltac:(vm_compute; eauto)) ltac:(by vm_compute)
    _ s' (execs_steps _ _ _ E)).
Defined.
